(** * SimpleFS: a shallow embedding of [disk.c] and [fs.c]

    The disk emulator and the file-system engine are translated function by
    function.  C integers are [Z] with their wrap-around written out, a block
    is its 4096 bytes, and the members of the [Block] union ([super],
    [inodes], [pointers], [data]) are decoders and encoders over those bytes.
    Undefined behaviour (an access outside an array, a null pointer) and a
    failed [assert] end a run with a [Fault]. *)

From Stdlib Require Import ZArith Lia Bool String Ascii.
From Stdlib Require Import Strings.Byte.
From Stdlib Require Import DecimalString.
From stdpp Require Import base tactics option list.

Local Open Scope Z_scope.

(** ** Constants *)

(** Modelled from the spec: the header [sfs/disk.h] is not part of the
    sources at hand; section 3 of the specification fixes the block size. *)
Definition BLOCK_SIZE : Z := 4096.

(** Modelled from the spec: [sfs/disk.h] is missing; [disk_read] and
    [disk_write] return this sentinel on failure. *)
Definition DISK_FAILURE : Z := -1.

(** Modelled from the spec: the header [sfs/fs.h] is not part of the sources
    at hand; section 3 of the specification gives these four constants. *)
Definition MAGIC_NUMBER : Z := 0xf0f03410.
Definition INODES_PER_BLOCK : Z := 128.
Definition POINTERS_PER_INODE : Z := 5.
Definition POINTERS_PER_BLOCK : Z := 1024.

(** ** Machine integers *)

Definition wrap32 (z : Z) : Z := z mod 2 ^ 32.
Definition wrap64 (z : Z) : Z := z mod 2 ^ 64.

(** [int] is 32 bits wide; incrementing past [INT_MAX] is undefined. *)
Definition INT_MAX : Z := 2 ^ 31 - 1.

(** ** Faults and the result monad *)

Inductive fault : Type :=
| AssertionFailed   (* an [assert] did not hold: the process aborts *)
| OutOfBounds       (* an array is accessed outside its extent *)
| NullPointer       (* a null pointer is dereferenced *)
| SignedOverflow.   (* a signed counter is incremented past its maximum *)

Inductive result (A : Type) : Type :=
| Ok (a : A)
| Fault (f : fault).
Arguments Ok {A} a.
Arguments Fault {A} f.

Definition bind {A B : Type} (r : result A) (k : A -> result B) : result B :=
  match r with
  | Ok a => k a
  | Fault f => Fault f
  end.

Notation "'let*' p := r 'in' k" := (bind r (fun p => k))
  (at level 10, p pattern, r at level 100, k at level 200).

(** ** Bytes and little-endian 32-bit words *)

Definition byte_to_Z (b : byte) : Z := Z.of_N (Byte.to_N b).

Definition Z_to_byte (z : Z) : byte :=
  match Byte.of_N (Z.to_N (z mod 256)) with
  | Some b => b
  | None => x00
  end.

Definition le32 (b0 b1 b2 b3 : byte) : Z :=
  byte_to_Z b0 + 256 * (byte_to_Z b1 + 256 * (byte_to_Z b2 + 256 * byte_to_Z b3)).

Definition bytes32 (v : Z) : list byte :=
  [Z_to_byte v; Z_to_byte (v / 256); Z_to_byte (v / 65536); Z_to_byte (v / 16777216)].

Fixpoint words (bs : list byte) : list Z :=
  match bs with
  | b0 :: b1 :: b2 :: b3 :: rest => le32 b0 b1 b2 b3 :: words rest
  | _ => []
  end.

Fixpoint unwords (ws : list Z) : list byte :=
  match ws with
  | [] => []
  | w :: rest => bytes32 w ++ unwords rest
  end.

(** ** The [Block] union

    [union Block { SuperBlock super; Inode inodes[INODES_PER_BLOCK];
    uint32_t pointers[POINTERS_PER_BLOCK]; char data[BLOCK_SIZE]; }].
    The bytes are the [data] member; the other members are views of them. *)

Definition Block : Type := list byte.

Definition zero_block : Block := replicate (Z.to_nat BLOCK_SIZE) x00.

Record SuperBlock : Type := {
  magic_number : Z;
  blocks : Z;
  inode_blocks : Z;
  inodes : Z
}.

Record Inode : Type := {
  valid : Z;
  size : Z;
  direct : list Z;
  indirect : Z
}.

Definition zero_inode : Inode :=
  {| valid := 0; size := 0; direct := [0; 0; 0; 0; 0]; indirect := 0 |}.

(** [block.super] *)
Definition super_of (b : Block) : SuperBlock :=
  match words b with
  | m :: n :: ib :: i :: _ =>
      {| magic_number := m; blocks := n; inode_blocks := ib; inodes := i |}
  | _ => {| magic_number := 0; blocks := 0; inode_blocks := 0; inodes := 0 |}
  end.

(** [block.super = sb], the other bytes of the block kept *)
Definition with_super (b : Block) (sb : SuperBlock) : Block :=
  unwords [magic_number sb; blocks sb; inode_blocks sb; inodes sb] ++ drop 16 b.

(** [block.pointers] *)
Definition pointers_of (b : Block) : list Z := words b.

(** the block whose [pointers] member is [ps] *)
Definition of_pointers (ps : list Z) : Block := unwords ps.

Fixpoint inodes_of_words (ws : list Z) : list Inode :=
  match ws with
  | v :: s :: d0 :: d1 :: d2 :: d3 :: d4 :: i :: rest =>
      {| valid := v; size := s; direct := [d0; d1; d2; d3; d4]; indirect := i |}
        :: inodes_of_words rest
  | _ => []
  end.

Definition words_of_inode (n : Inode) : list Z :=
  valid n :: size n :: direct n ++ [indirect n].

(** [block.inodes] *)
Definition inodes_of (b : Block) : list Inode := inodes_of_words (words b).

(** the block whose [inodes] member is [ns] *)
Definition of_inodes (ns : list Inode) : Block :=
  unwords (concat (map words_of_inode ns)).

(** ** disk.c *)

(** The host file behind [fd] is [disk_image]: [disk_open] truncates it to
    [blocks * BLOCK_SIZE] bytes, that is [disk_blocks] whole blocks. *)
Record Disk : Type := {
  disk_blocks : Z;
  disk_image : list Block;
  disk_reads : Z;
  disk_writes : Z
}.

(** [disk->reads++] *)
Definition count_read (d : Disk) : Disk :=
  {| disk_blocks := disk_blocks d; disk_image := disk_image d;
     disk_reads := wrap64 (disk_reads d + 1); disk_writes := disk_writes d |}.

(** [disk->writes++] *)
Definition count_write (d : Disk) : Disk :=
  {| disk_blocks := disk_blocks d; disk_image := disk_image d;
     disk_reads := disk_reads d; disk_writes := wrap64 (disk_writes d + 1) |}.

(** The host file after [BLOCK_SIZE] bytes are written at block [block]. *)
Definition store (d : Disk) (block : Z) (data : Block) : Disk :=
  {| disk_blocks := disk_blocks d;
     disk_image := <[Z.to_nat block := data]> (disk_image d);
     disk_reads := disk_reads d; disk_writes := disk_writes d |}.

(** [disk_sanity_check]; a [Disk *] is [None] when it is [NULL], and the data
    buffers of this program are arrays, never [NULL]. *)
Definition disk_sanity_check (disk : option Disk) (block : Z) : bool :=
  match disk with
  | Some d => block <? disk_blocks d
  | None => false
  end.

(** [disk_read]: the return value, the buffer and the disk after the call. *)
Definition disk_read (disk : option Disk) (block : Z) (data : Block)
  : Z * Block * option Disk :=
  if negb (disk_sanity_check disk block) then (DISK_FAILURE, data, disk)
  else
    match disk with
    | Some d =>
        match disk_image d !! Z.to_nat block with
        | Some b => (BLOCK_SIZE, b, Some (count_read d))
        | None => (DISK_FAILURE, data, disk)   (* lseek or read failed *)
        end
    | None => (DISK_FAILURE, data, disk)
    end.

(** [disk_write]: the return value and the disk after the call. *)
Definition disk_write (disk : option Disk) (block : Z) (data : Block)
  : Z * option Disk :=
  if negb (disk_sanity_check disk block) then (DISK_FAILURE, disk)
  else
    match disk with
    | Some d =>
        if Z.to_nat block <? length (disk_image d) then
          (BLOCK_SIZE, Some (count_write (store d block data)))
        else (DISK_FAILURE, disk)              (* lseek or write failed *)
    | None => (DISK_FAILURE, disk)
    end%nat.

(** [assert(disk_read(disk, block, data) != DISK_FAILURE)] *)
Definition assert_disk_read (disk : option Disk) (block : Z) (data : Block)
  : result (Block * option Disk) :=
  let '(r, data', disk') := disk_read disk block data in
  if r =? DISK_FAILURE then Fault AssertionFailed else Ok (data', disk').

(** [assert(disk_write(disk, block, data) != DISK_FAILURE)] *)
Definition assert_disk_write (disk : option Disk) (block : Z) (data : Block)
  : result (option Disk) :=
  let '(r, disk') := disk_write disk block data in
  if r =? DISK_FAILURE then Fault AssertionFailed else Ok disk'.

(** ** fs.c: the FileSystem structure *)

(** [disk] is the [Disk] the handle is bound to ([None] for [NULL]);
    [free_blocks] is the heap array of [meta_data.blocks] booleans
    ([None] for [NULL]). *)
Record FileSystem : Type := {
  disk : option Disk;
  meta_data : SuperBlock;
  free_blocks : option (list bool)
}.

Definition set_disk (fs : FileSystem) (d : option Disk) : FileSystem :=
  {| disk := d; meta_data := meta_data fs; free_blocks := free_blocks fs |}.

Definition set_free_blocks (fs : FileSystem) (fb : option (list bool)) : FileSystem :=
  {| disk := disk fs; meta_data := meta_data fs; free_blocks := fb |}.

(** [fs->free_blocks[i]] *)
Definition bitmap_get (fs : FileSystem) (i : Z) : result bool :=
  match free_blocks fs with
  | None => Fault NullPointer
  | Some fb =>
      if i <? 0 then Fault OutOfBounds
      else match fb !! Z.to_nat i with
           | Some v => Ok v
           | None => Fault OutOfBounds
           end
  end.

(** [fs->free_blocks[i] = v] *)
Definition bitmap_set (fs : FileSystem) (i : Z) (v : bool) : result FileSystem :=
  match free_blocks fs with
  | None => Fault NullPointer
  | Some fb =>
      if (i <? 0) || (Z.of_nat (length fb) <=? i) then Fault OutOfBounds
      else Ok (set_free_blocks fs (Some (<[Z.to_nat i := v]> fb)))
  end.

(** ** fs.c: inode table access *)

(** [fs_load_inode]: [None] stands for [false]; on [true] the inode copied
    to [*node] is returned. *)
Definition fs_load_inode (fs : FileSystem) (inode_number : Z)
  : result (option Inode * FileSystem) :=
  let block := zero_block in
  if inode_number >=? inodes (meta_data fs) then Ok (None, fs)
  else
    let* (block, disk') := assert_disk_read (disk fs) (inode_number / INODES_PER_BLOCK + 1) block in
    let fs := set_disk fs disk' in
    match inodes_of block !! Z.to_nat inode_number with
    | None => Fault OutOfBounds           (* block.inodes[inode_number] *)
    | Some slot =>
        if valid slot =? 0 then Ok (None, fs)
        else
          match inodes_of block !! Z.to_nat (inode_number mod INODES_PER_BLOCK) with
          | None => Fault OutOfBounds
          | Some node => Ok (Some node, fs)
          end
    end.

(** [fs_save_inode] *)
Definition fs_save_inode (fs : FileSystem) (inode_number : Z) (node : Inode)
  : result (bool * FileSystem) :=
  let block := zero_block in
  if inode_number >=? inodes (meta_data fs) then Ok (false, fs)
  else
    let* (block, disk') := assert_disk_read (disk fs) (inode_number / INODES_PER_BLOCK + 1) block in
    let block :=
      of_inodes (<[Z.to_nat (inode_number mod INODES_PER_BLOCK) := node]> (inodes_of block)) in
    let* disk'' := assert_disk_write disk' (inode_number / INODES_PER_BLOCK + 1) block in
    Ok (true, set_disk fs disk'').

(** [assert(fs_save_inode(fs, inode_number, &node))] *)
Definition assert_fs_save_inode (fs : FileSystem) (inode_number : Z) (node : Inode)
  : result FileSystem :=
  let* (ok, fs') := fs_save_inode fs inode_number node in
  if ok : bool then Ok fs' else Fault AssertionFailed.

(** ** fs.c: the allocator *)

(** The loop of [fs_allocate_free_block]: [n] iterations are left and [i] is
    the index of the next one. *)
Fixpoint allocate_loop (n : nat) (i : Z) (fs : FileSystem) : result (Z * FileSystem) :=
  match n with
  | O => Ok (0, fs)                       (* No free block available *)
  | S n' =>
      let* used := bitmap_get fs i in
      if negb used then
        let* fs' := bitmap_set fs i true in
        Ok (i, fs')
      else allocate_loop n' (i + 1) fs
  end.

(** [fs_allocate_free_block]: [for (i = 1; i < fs->meta_data.blocks; i++)] *)
Definition fs_allocate_free_block (fs : FileSystem) : result (Z * FileSystem) :=
  allocate_loop (Z.to_nat (blocks (meta_data fs) - 1)) 1 fs.

(** ** fs.c: walking a pointer array

    [for (i = 0; i < N; ++i) { if (a[i] == 0) break; fs->free_blocks[a[i]] = v; }]
    over the array [ptrs], started at index [i]; the index reached is
    returned.  [fs_remove] runs it with [v = false], the bitmap initialisation
    with [v = true], once over [inode.direct] and once over the [pointers] of
    the indirect block. *)
Fixpoint mark_pointers (v : bool) (ptrs : list Z) (i : Z) (fs : FileSystem)
  : result (Z * FileSystem) :=
  match ptrs with
  | [] => Ok (i, fs)
  | p :: rest =>
      if p =? 0 then Ok (i, fs)
      else
        let* fs' := bitmap_set fs p v in
        mark_pointers v rest (i + 1) fs'
  end.

(** ** fs.c: the free-block bitmap *)

(** Body of the loop over the inodes of one inode block. *)
Definition bitmap_inode (fs : FileSystem) (inode : Inode) : result FileSystem :=
  if valid inode =? 0 then Ok fs
  else
    let* (_, fs) := mark_pointers true (direct inode) 0 fs in
    if indirect inode =? 0 then Ok fs
    else
      let* fs := bitmap_set fs (indirect inode) true in
      let* (indirect_point, disk') := assert_disk_read (disk fs) (indirect inode) zero_block in
      let fs := set_disk fs disk' in
      let* (_, fs) := mark_pointers true (pointers_of indirect_point) 0 fs in
      Ok fs.

(** [for (int p = 0; p < INODES_PER_BLOCK; ++p)] over [b.inodes] *)
Fixpoint bitmap_inodes (table : list Inode) (fs : FileSystem) : result FileSystem :=
  match table with
  | [] => Ok fs
  | inode :: rest =>
      let* fs := bitmap_inode fs inode in
      bitmap_inodes rest fs
  end.

(** [for (uint32_t i = 1; i <= inode_blocks; ++i)]: [n] iterations are left *)
Fixpoint bitmap_blocks (n : nat) (i : Z) (fs : FileSystem) : result FileSystem :=
  match n with
  | O => Ok fs
  | S n' =>
      let* fs := bitmap_set fs i true in
      let* (b, disk') := assert_disk_read (disk fs) i zero_block in
      let fs := set_disk fs disk' in
      let* fs := bitmap_inodes (inodes_of b) fs in
      bitmap_blocks n' (i + 1) fs
  end.

(** [fs_initialize_free_block_bitmap]; [malloc] is taken to succeed. *)
Definition fs_initialize_free_block_bitmap (fs : FileSystem) : result (bool * FileSystem) :=
  let inode_blocks := inode_blocks (meta_data fs) in
  let fs := set_free_blocks fs (Some (replicate (Z.to_nat (blocks (meta_data fs))) false)) in
  let* fs := bitmap_set fs 0 true in
  let* fs := bitmap_blocks (Z.to_nat inode_blocks) 1 fs in
  Ok (true, fs).

(** ** fs.c: format, mount, unmount *)

(** [for (int i = 1; i < blocks; ++i) assert(disk_write(disk, i, block.data))] *)
Fixpoint format_loop (n : nat) (i : Z) (disk : option Disk) (block : Block)
  : result (option Disk) :=
  match n with
  | O => Ok disk
  | S n' =>
      let* disk := assert_disk_write disk i block in
      if i =? INT_MAX then Fault SignedOverflow
      else format_loop n' (i + 1) disk block
  end.

(** [fs_format]; the handle [fs] is not [NULL].  The result carries the disk
    after the call. *)
Definition fs_format (fs : FileSystem) (disk0 : option Disk) : result (bool * option Disk) :=
  match disk0 with
  | None => Fault NullPointer               (* disk->blocks *)
  | Some d =>
      let blocks := disk_blocks d in
      if blocks <? 2 then Ok (false, disk0)
      else if bool_decide (disk fs <> None) then Ok (false, disk0)
      else
        let inode_blocks := if blocks / 10 =? 0 then 1 else blocks / 10 in
        let inodes := wrap64 (inode_blocks * INODES_PER_BLOCK) in
        let block :=
          with_super zero_block
            {| magic_number := MAGIC_NUMBER; blocks := wrap32 blocks;
               inode_blocks := wrap32 inode_blocks; inodes := wrap32 inodes |} in
        let '(r, disk1) := disk_write disk0 0 block in
        if r =? DISK_FAILURE then Ok (false, disk1)
        else
          let block := zero_block in
          let* disk2 := format_loop (Z.to_nat (blocks - 1)) 1 disk1 block in
          Ok (true, disk2)
  end.

(** [fs_mount]; the handle [fs] is not [NULL].  The result carries the disk
    after the call; when the mount goes through, the handle holds it.
    The spec gives [INODES_PER_BLOCK] as [BLOCK_SIZE / sizeof(Inode)], a
    [size_t], so the product of the check is not truncated to 32 bits. *)
Definition fs_mount (fs : FileSystem) (disk0 : option Disk)
  : result (bool * FileSystem * option Disk) :=
  if bool_decide (disk fs <> None) then Ok (false, fs, disk0)
  else
    let* (block, disk1) := assert_disk_read disk0 0 zero_block in
    match disk1 with
    | None => Fault NullPointer
    | Some d =>
        if negb (magic_number (super_of block) =? MAGIC_NUMBER)
           || negb (blocks (super_of block) =? disk_blocks d)
        then Ok (false, fs, disk1)
        else if negb (inodes (super_of block)
                      =? inode_blocks (super_of block) * INODES_PER_BLOCK)
        then Ok (false, fs, disk1)
        else
          let fs := {| disk := disk1; meta_data := super_of block;
                       free_blocks := free_blocks fs |} in
          let* (ok, fs) := fs_initialize_free_block_bitmap fs in
          Ok (ok, fs, disk fs)
    end.

(** [fs_unmount] *)
Definition fs_unmount (fs : FileSystem) : FileSystem :=
  {| disk := None; meta_data := meta_data fs; free_blocks := None |}.

(** ** fs.c: create, remove, stat *)

(** [for (uint32_t j = 0; j < INODES_PER_BLOCK; ++j)] of [fs_create]: the
    first slot of the table that is not valid. *)
Fixpoint free_slot (table : list Inode) (j : Z) : option Z :=
  match table with
  | [] => None
  | inode :: rest => if valid inode =? 0 then Some j else free_slot rest (j + 1)
  end.

(** [for (uint32_t i = 1; i <= inode_blocks; ++i)] of [fs_create] *)
Fixpoint create_loop (n : nat) (i : Z) (fs : FileSystem) : result (Z * FileSystem) :=
  match n with
  | O => Ok (-1, fs)
  | S n' =>
      let* (inode_table, disk') := assert_disk_read (disk fs) i zero_block in
      let fs := set_disk fs disk' in
      match free_slot (inodes_of inode_table) 0 with
      | Some j =>
          let index := (i - 1) * INODES_PER_BLOCK + j in
          let node := {| valid := 1; size := 0; direct := [0; 0; 0; 0; 0]; indirect := 0 |} in
          let* fs := assert_fs_save_inode fs index node in
          Ok (index, fs)
      | None => create_loop n' (i + 1) fs
      end
  end.

(** [fs_create] *)
Definition fs_create (fs : FileSystem) : result (Z * FileSystem) :=
  create_loop (Z.to_nat (inode_blocks (meta_data fs))) 1 fs.

(** [fs_remove] *)
Definition fs_remove (fs : FileSystem) (inode_number : Z) : result (bool * FileSystem) :=
  let* (loaded, fs) := fs_load_inode fs inode_number in
  match loaded with
  | None => Ok (false, fs)
  | Some inode =>
      let* (_, fs) := mark_pointers false (direct inode) 0 fs in
      let* fs :=
        if negb (indirect inode =? 0) then
          let* (block, disk') := assert_disk_read (disk fs) (indirect inode) zero_block in
          let fs := set_disk fs disk' in
          let* (i, fs) := mark_pointers false (pointers_of block) 0 fs in
          if negb (i =? 0) then bitmap_set fs (indirect inode) false
          else Ok fs
        else Ok fs in
      let* fs := assert_fs_save_inode fs inode_number zero_inode in
      Ok (true, fs)
  end.

(** [fs_stat] *)
Definition fs_stat (fs : FileSystem) (inode_number : Z) : result (Z * FileSystem) :=
  let* (loaded, fs) := fs_load_inode fs inode_number in
  match loaded with
  | None => Ok (-1, fs)
  | Some inode => Ok (size inode, fs)
  end.

(** ** memcpy *)

(** [memcpy(dst + doff, src + soff, n)]: reading or writing outside either
    array is undefined. *)
Definition memcpy (dst : list byte) (doff : Z) (src : list byte) (soff : Z) (n : Z)
  : result (list byte) :=
  if (n <? 0) || (doff <? 0) || (soff <? 0)
     || (Z.of_nat (length src) <? soff + n)
     || (Z.of_nat (length dst) <? doff + n)
  then Fault OutOfBounds
  else Ok (take (Z.to_nat doff) dst
             ++ take (Z.to_nat n) (drop (Z.to_nat soff) src)
             ++ drop (Z.to_nat (doff + n)) dst).

(** ** fs.c: read *)

Record read_state : Type := {
  rs_fs : FileSystem;
  rs_data : list byte;      (* the caller's buffer *)
  rs_i : Z;
  rs_sum : Z;
  rs_offset : Z
}.

(** [for (; i < N && sum < length; ++i)] over the pointer array [ptrs] of [N]
    entries; [n] is [N - i] on entry.  [fs_read] has this loop twice, over
    [node.direct] and over the [pointers] of the indirect block. *)
Fixpoint read_loop (n : nat) (ptrs : list Z) (length : Z) (st : read_state)
  : result read_state :=
  match n with
  | O => Ok st
  | S n' =>
      if negb (rs_sum st <? length) then Ok st
      else
        match ptrs !! Z.to_nat (rs_i st) with
        | None => Fault OutOfBounds
        | Some p =>
            if p =? 0 then Ok st
            else
              let* (block_data, disk') := assert_disk_read (disk (rs_fs st)) p zero_block in
              let read_size :=
                if length - rs_sum st <? BLOCK_SIZE then length - rs_sum st else BLOCK_SIZE in
              let* data :=
                memcpy (rs_data st) (rs_sum st)
                       block_data (rs_offset st mod BLOCK_SIZE) read_size in
              read_loop n' ptrs length
                {| rs_fs := set_disk (rs_fs st) disk'; rs_data := data;
                   rs_i := rs_i st + 1;
                   rs_sum := rs_sum st + read_size;
                   rs_offset := rs_offset st + read_size |}
        end
  end.

(** [fs_read]: the return value, the caller's buffer and the handle after the
    call.  The indirect [Block block] is not initialised before it is read
    into; the read overwrites all of it. *)
Definition fs_read (fs : FileSystem) (inode_number : Z) (data : list byte)
    (length offset : Z) : result (Z * list byte * FileSystem) :=
  let* (loaded, fs) := fs_load_inode fs inode_number in
  match loaded with
  | None => Ok (-1, data, fs)
  | Some node =>
      if offset >=? size node then Ok (0, data, fs)
      else if length =? 0 then Ok (0, data, fs)
      else
        let length :=
          if wrap64 (offset + length) >=? size node then size node - offset else length in
        let i := wrap32 (offset / BLOCK_SIZE) in
        let* st :=
          read_loop (Z.to_nat (POINTERS_PER_INODE - i)) (direct node) length
            {| rs_fs := fs; rs_data := data; rs_i := i; rs_sum := 0; rs_offset := offset |} in
        let* st :=
          if negb (indirect node =? 0) && (rs_sum st <? length) then
            let i := wrap32 (rs_i st - POINTERS_PER_INODE) in
            let* (block, disk') :=
              assert_disk_read (disk (rs_fs st)) (indirect node) zero_block in
            read_loop (Z.to_nat (POINTERS_PER_BLOCK - i)) (pointers_of block) length
              {| rs_fs := set_disk (rs_fs st) disk'; rs_data := rs_data st; rs_i := i;
                 rs_sum := rs_sum st; rs_offset := rs_offset st |}
          else Ok st in
        Ok (rs_sum st, rs_data st, rs_fs st)
  end.

(** ** fs.c: write *)

Record write_state : Type := {
  ws_fs : FileSystem;
  ws_node : Inode;
  ws_point : Z;
  ws_length : Z;
  ws_offset : Z;
  ws_written : Z
}.

Definition set_direct (node : Inode) (point : Z) (b : Z) : Inode :=
  {| valid := valid node; size := size node;
     direct := <[Z.to_nat point := b]> (direct node); indirect := indirect node |}.

Definition set_indirect (node : Inode) (b : Z) : Inode :=
  {| valid := valid node; size := size node; direct := direct node; indirect := b |}.

Definition set_size (node : Inode) (s : Z) : Inode :=
  {| valid := valid node; size := s; direct := direct node; indirect := indirect node |}.

(** The copy of one slice into [block] and its write to disk block [target],
    with the advance of the counters: the tail shared by the bodies of the two
    loops of [fs_write]. *)
Definition write_slice (data : list byte) (block : Block) (target : Z)
    (fs : FileSystem) (node : Inode) (st : write_state) : result write_state :=
  let remaining := BLOCK_SIZE - ws_offset st mod BLOCK_SIZE in
  let copy_size := if remaining <? ws_length st then remaining else ws_length st in
  let* block := memcpy block (ws_offset st mod BLOCK_SIZE) data (ws_written st) copy_size in
  let* disk' := assert_disk_write (disk fs) target block in
  Ok {| ws_fs := set_disk fs disk'; ws_node := node;
        ws_point := ws_point st + 1;
        ws_length := ws_length st - copy_size;
        ws_offset := ws_offset st + copy_size;
        ws_written := ws_written st + copy_size |}.

(** [for (; point < POINTERS_PER_INODE && length > 0; point++)]; [n] is
    [POINTERS_PER_INODE - point] on entry.  The boolean of the result is
    [true] when the loop is left through [goto last]. *)
Fixpoint write_direct_loop (n : nat) (data : list byte) (st : write_state)
  : result (bool * write_state) :=
  match n with
  | O => Ok (false, st)
  | S n' =>
      if negb (0 <? ws_length st) then Ok (false, st)
      else
        match direct (ws_node st) !! Z.to_nat (ws_point st) with
        | None => Fault OutOfBounds
        | Some p =>
            if p =? 0 then
              let* (b, fs) := fs_allocate_free_block (ws_fs st) in
              let node := set_direct (ws_node st) (ws_point st) b in
              if b =? 0 then
                Ok (true, {| ws_fs := fs; ws_node := node; ws_point := ws_point st;
                             ws_length := ws_length st; ws_offset := ws_offset st;
                             ws_written := ws_written st |})
              else
                let* st' := write_slice data zero_block b fs node st in
                write_direct_loop n' data st'
            else
              let* (block, disk') := assert_disk_read (disk (ws_fs st)) p zero_block in
              let* st' := write_slice data block p (set_disk (ws_fs st) disk') (ws_node st) st in
              write_direct_loop n' data st'
        end
  end.

(** [while (length > 0)] over the [pointers] of the indirect block [block];
    [n] is [POINTERS_PER_BLOCK - point] on entry, so that with [n = 0] the
    body would access [block.pointers[POINTERS_PER_BLOCK]]. *)
Fixpoint write_indirect_loop (n : nat) (data : list byte) (block : Block) (st : write_state)
  : result (Block * write_state) :=
  if negb (0 <? ws_length st) then Ok (block, st)
  else
    match n with
    | O => Fault OutOfBounds
    | S n' =>
        match pointers_of block !! Z.to_nat (ws_point st) with
        | None => Fault OutOfBounds
        | Some p =>
            if p =? 0 then
              let* (b, fs) := fs_allocate_free_block (ws_fs st) in
              let block := of_pointers (<[Z.to_nat (ws_point st) := b]> (pointers_of block)) in
              if b =? 0 then
                Ok (block, {| ws_fs := fs; ws_node := ws_node st; ws_point := ws_point st;
                              ws_length := ws_length st; ws_offset := ws_offset st;
                              ws_written := ws_written st |})
              else
                let* st' := write_slice data zero_block b fs (ws_node st) st in
                write_indirect_loop n' data block st'
            else
              let* (data_block, disk') := assert_disk_read (disk (ws_fs st)) p zero_block in
              let* st' :=
                write_slice data data_block p (set_disk (ws_fs st) disk') (ws_node st) st in
              write_indirect_loop n' data block st'
        end
    end.

(** The [if (length > 0)] part of [fs_write] that goes through the indirect
    block. *)
Definition write_indirect (data : list byte) (st : write_state) : result write_state :=
  let point := ws_point st - POINTERS_PER_INODE in
  if point <? 0 then Fault AssertionFailed
  else
    let enter (fs : FileSystem) (node : Inode) (block : Block) : result write_state :=
      let* (block, st') :=
        write_indirect_loop (Z.to_nat (POINTERS_PER_BLOCK - point)) data block
          {| ws_fs := fs; ws_node := node; ws_point := point;
             ws_length := ws_length st; ws_offset := ws_offset st;
             ws_written := ws_written st |} in
      let* disk' := assert_disk_write (disk (ws_fs st')) (indirect node) block in
      Ok {| ws_fs := set_disk (ws_fs st') disk'; ws_node := ws_node st';
            ws_point := ws_point st'; ws_length := ws_length st';
            ws_offset := ws_offset st'; ws_written := ws_written st' |} in
    if indirect (ws_node st) =? 0 then
      if negb (ws_offset st mod BLOCK_SIZE =? 0) then Fault AssertionFailed
      else
        let* (b, fs) := fs_allocate_free_block (ws_fs st) in
        let node := set_indirect (ws_node st) b in
        if b =? 0 then
          Ok {| ws_fs := fs; ws_node := node; ws_point := point;
                ws_length := ws_length st; ws_offset := ws_offset st;
                ws_written := ws_written st |}
        else enter fs node zero_block
    else
      let* (block, disk') :=
        assert_disk_read (disk (ws_fs st)) (indirect (ws_node st)) zero_block in
      enter (set_disk (ws_fs st) disk') (ws_node st) block.

(** [fs_write]: the return value and the handle after the call. *)
Definition fs_write (fs : FileSystem) (inode_number : Z) (data : list byte)
    (length offset : Z) : result (Z * FileSystem) :=
  let* (loaded, fs) := fs_load_inode fs inode_number in
  match loaded with
  | None => Ok (-1, fs)
  | Some node =>
      if offset >? size node then Ok (0, fs)
      else
        let point := offset / BLOCK_SIZE in
        let* (last, st) :=
          write_direct_loop (Z.to_nat (POINTERS_PER_INODE - point)) data
            {| ws_fs := fs; ws_node := node; ws_point := point; ws_length := length;
               ws_offset := offset; ws_written := 0 |} in
        let* st :=
          if negb last && (0 <? ws_length st) then write_indirect data st else Ok st in
        let node := ws_node st in
        let node :=
          set_size node
            (wrap32 (if ws_offset st >? size node then ws_offset st else size node)) in
        let* fs := assert_fs_save_inode (ws_fs st) inode_number node in
        Ok (ws_written st, fs)
  end.

(** ** fs.c: debug

    What [fs_debug] prints is returned as a string, together with the way the
    run ends: output printed before a failed [assert] stays printed. *)

Definition nl : string := String (ascii_of_nat 10) EmptyString.

(** [%u] and, for the small non-negative loop index, [%d] *)
Definition show_u32 (z : Z) : string := NilZero.string_of_uint (N.to_uint (Z.to_N z)).

(** [for (j = 0; j < POINTERS_PER_INODE; ++j) if (node.direct[j]) printf(" %u", ...)] *)
Fixpoint debug_direct (ds : list Z) : string :=
  match ds with
  | [] => ""%string
  | d :: rest =>
      let shown := if d =? 0 then ""%string else (" " ++ show_u32 d)%string in
      (shown ++ debug_direct rest)%string
  end.

(** [for (z = 0; z < POINTERS_PER_BLOCK; ++z) { if (!point.pointers[z]) break; printf(" %u", ...); }] *)
Fixpoint debug_pointers (ps : list Z) : string :=
  match ps with
  | [] => ""%string
  | p :: rest =>
      if p =? 0 then ""%string else (" " ++ show_u32 p ++ debug_pointers rest)%string
  end.

(** Body of the loop over the inodes of one block. *)
Definition debug_inode (disk : option Disk) (i : Z) (node : Inode)
  : string * result (option Disk) :=
  if valid node =? 0 then (""%string, Ok disk)
  else
    let s :=
      ("Inode " ++ show_u32 i ++ ":" ++ nl
        ++ "    size: " ++ show_u32 (size node) ++ " bytes" ++ nl
        ++ "    direct blocks:" ++ debug_direct (direct node) ++ nl)%string in
    if negb (indirect node =? 0) then
      let s := (s ++ "    indirect block: " ++ show_u32 (indirect node) ++ nl)%string in
      match assert_disk_read disk (indirect node) zero_block with
      | Fault f => (s, Fault f)
      | Ok (point, disk') =>
          ((s ++ "    indirect data blocks:" ++ debug_pointers (pointers_of point) ++ nl)%string,
           Ok disk')
      end
    else (s, Ok disk).

(** [for (int i = 0; i < INODES_PER_BLOCK; ++i)] over [block.inodes] *)
Fixpoint debug_inodes (disk : option Disk) (i : Z) (table : list Inode)
  : string * result (option Disk) :=
  match table with
  | [] => (""%string, Ok disk)
  | node :: rest =>
      match debug_inode disk i node with
      | (s, Fault f) => (s, Fault f)
      | (s, Ok disk') =>
          let '(s', r) := debug_inodes disk' (i + 1) rest in
          ((s ++ s')%string, r)
      end
  end.

(** [for (uint32_t index = 1; index <= inode_blocks; ++index)] *)
Fixpoint debug_blocks (n : nat) (index : Z) (disk : option Disk)
  : string * result (option Disk) :=
  match n with
  | O => (""%string, Ok disk)
  | S n' =>
      match assert_disk_read disk index zero_block with
      | Fault f => (""%string, Fault f)
      | Ok (block, disk') =>
          match debug_inodes disk' 0 (inodes_of block) with
          | (s, Fault f) => (s, Fault f)
          | (s, Ok disk'') =>
              let '(s', r) := debug_blocks n' (index + 1) disk'' in
              ((s ++ s')%string, r)
          end
      end
  end.

(** [fs_debug] *)
Definition fs_debug (disk : option Disk) : string * result (option Disk) :=
  match assert_disk_read disk 0 zero_block with
  | Fault f => (""%string, Fault f)
  | Ok (block, disk') =>
      let s :=
        ("SuperBlock:" ++ nl
          ++ "    magic number is valid" ++ nl
          ++ "    " ++ show_u32 (blocks (super_of block)) ++ " blocks" ++ nl)%string in
      if inodes (super_of block) =? 0 then (s, Ok disk')
      else
        let s :=
          (s ++ "    " ++ show_u32 (inode_blocks (super_of block)) ++ " inode blocks" ++ nl
             ++ "    " ++ show_u32 (inodes (super_of block)) ++ " inodes" ++ nl)%string in
        let '(s', r) := debug_blocks (Z.to_nat (inode_blocks (super_of block))) 1 disk' in
        ((s ++ s')%string, r)
  end.

(** * Vocabulary of the properties *)

(** An unsigned 32-bit value. *)
Definition u32 (z : Z) : Prop := 0 <= z < 2 ^ 32.

(** An [Inode] as the C structure holds it: 32-bit fields, five direct
    pointers. *)
Definition wf_inode (n : Inode) : Prop :=
  u32 (valid n) /\ u32 (size n) /\ length (direct n) = 5%nat
  /\ Forall u32 (direct n) /\ u32 (indirect n).

(** A block of [BLOCK_SIZE] bytes. *)
Definition wf_block (b : Block) : Prop := length b = 4096%nat.

(** The entries of a pointer array up to its first zero: the pointers in
    use (section 3 of the specification: a zero entry ends them). *)
Fixpoint used (ptrs : list Z) : list Z :=
  match ptrs with
  | [] => []
  | p :: rest => if p =? 0 then [] else p :: used rest
  end.

(** [free_blocks[b] = v] for each [b] of [bs], in order. *)
Definition set_all (v : bool) (bs : list Z) (fb : list bool) : list bool :=
  foldl (fun fb b => <[Z.to_nat b := v]> fb) fb bs.

(** Block [k] of an image (the empty block when the image is shorter). *)
Definition blk (img : list Block) (k : Z) : Block :=
  match img !! Z.to_nat k with
  | Some b => b
  | None => []
  end.

(** The bitmap entries that the initialisation of the bitmap sets for one
    inode, in the order in which it sets them. *)
Definition node_marks (img : list Block) (node : Inode) : list Z :=
  if valid node =? 0 then []
  else used (direct node)
       ++ (if indirect node =? 0 then []
           else indirect node :: used (pointers_of (blk img (indirect node)))).

(** ... for the inodes of one inode block *)
Definition table_marks (img : list Block) (table : list Inode) : list Z :=
  concat (map (node_marks img) table).

(** ... for [n] inode blocks from block [i] on *)
Fixpoint blocks_marks (img : list Block) (n : nat) (i : Z) : list Z :=
  match n with
  | O => []
  | S n' => i :: table_marks img (inodes_of (blk img i)) ++ blocks_marks img n' (i + 1)
  end.

(** ... for the whole image: the superblock, then the inode blocks *)
Definition image_marks (img : list Block) (sb : SuperBlock) : list Z :=
  0 :: blocks_marks img (Z.to_nat (inode_blocks sb)) 1.

(** A disk that [fs_mount] accepts: its file has [disk_blocks] blocks, its
    superblock passes the three checks, and every block number that the inode
    table refers to lies on the disk. *)
Definition mountable (d : Disk) : Prop :=
  0 < disk_blocks d
  /\ length (disk_image d) = Z.to_nat (disk_blocks d)
  /\ magic_number (super_of (blk (disk_image d) 0)) = MAGIC_NUMBER
  /\ blocks (super_of (blk (disk_image d) 0)) = disk_blocks d
  /\ inodes (super_of (blk (disk_image d) 0))
     = inode_blocks (super_of (blk (disk_image d) 0)) * INODES_PER_BLOCK
  /\ Forall (fun p => 0 <= p < disk_blocks d)
       (image_marks (disk_image d) (super_of (blk (disk_image d) 0))).

(** The bitmap that [fs_mount] builds from an image. *)
Definition bitmap_of (d : Disk) : list bool :=
  set_all true (image_marks (disk_image d) (super_of (blk (disk_image d) 0)))
    (replicate (Z.to_nat (disk_blocks d)) false).

(** The handles bound to a disk of [nblocks] blocks that holds the image
    [img], with the bitmap [fb]. *)
Definition holds (img : list Block) (nblocks : Z) (fs : FileSystem) (fb : list bool) : Prop :=
  (exists d, disk fs = Some d /\ disk_image d = img /\ disk_blocks d = nblocks)
  /\ free_blocks fs = Some fb /\ length fb = Z.to_nat nblocks.

(** The image on the disk a handle is bound to. *)
Definition image_of (fs : FileSystem) : list Block :=
  match disk fs with
  | Some d => disk_image d
  | None => []
  end.

(** Inode [n] of an image: slot [n % INODES_PER_BLOCK] of inode block
    [n / INODES_PER_BLOCK + 1]. *)
Definition inode_at (img : list Block) (n : Z) : option Inode :=
  inodes_of (blk img (n / INODES_PER_BLOCK + 1)) !! Z.to_nat (n mod INODES_PER_BLOCK).

(** The image after [node] is stored as inode [n]. *)
Definition put_inode (img : list Block) (n : Z) (node : Inode) : list Block :=
  <[Z.to_nat (n / INODES_PER_BLOCK + 1) :=
      of_inodes (<[Z.to_nat (n mod INODES_PER_BLOCK) := node]>
                   (inodes_of (blk img (n / INODES_PER_BLOCK + 1))))]> img.

(** The blocks inode [n] of an image refers to (none when the inode is not
    valid): its direct pointers in use, its indirect block and the pointers in
    use of that block. *)
Definition refs (img : list Block) (n : Z) : list Z :=
  match inode_at img n with
  | Some node => node_marks img node
  | None => []
  end.

(** A pointer array in which nothing but zeros follows the first zero. *)
Definition zero_ended (l : list Z) : Prop :=
  Forall (fun x => x = 0) (drop (length (used l)) l).

(** The pointers of [node] cover its size: every block the size reaches has a
    pointer, and the pointer arrays are zero ended. *)
Definition shaped (img : list Block) (node : Inode) : Prop :=
  zero_ended (direct node)
  /\ (indirect node <> 0 -> zero_ended (pointers_of (blk img (indirect node))))
  /\ (size node <= Z.of_nat (length (used (direct node))) * BLOCK_SIZE
      \/ (length (used (direct node)) = 5%nat /\ indirect node <> 0
          /\ size node
             <= (5 + Z.of_nat (length (used (pointers_of (blk img (indirect node))))))
                * BLOCK_SIZE)).

(** The superblock [sb], the bitmap [fb] and the image [img] fit together:
    the image is that of a formatted disk of [blocks sb] blocks, a block is
    marked in use exactly when it is the superblock, an inode block or a
    block some valid inode refers to, and no block is referred to twice. *)
Record consistent (sb : SuperBlock) (fb : list bool) (img : list Block) : Prop := {
  c_wf : Forall wf_block img;
  c_img : length img = Z.to_nat (blocks sb);
  c_fb : length fb = Z.to_nat (blocks sb);
  c_super : super_of (blk img 0) = sb;
  c_magic : magic_number sb = MAGIC_NUMBER;
  c_inodes : inodes sb = inode_blocks sb * INODES_PER_BLOCK;
  c_ib : 1 <= inode_blocks sb < blocks sb;
  c_bitmap : forall b, 0 <= b < blocks sb ->
    (fb !! Z.to_nat b = Some true
     <-> b <= inode_blocks sb \/ exists n, 0 <= n < inodes sb /\ b ∈ refs img n);
  c_range : forall n b, 0 <= n < inodes sb -> b ∈ refs img n ->
    inode_blocks sb < b < blocks sb;
  c_share : forall n m b, 0 <= n < inodes sb -> 0 <= m < inodes sb ->
    b ∈ refs img n -> b ∈ refs img m -> n = m;
  c_nodup : forall n, 0 <= n < inodes sb -> NoDup (refs img n);
  c_shape : forall n node, 0 <= n < inodes sb ->
    inode_at img n = Some node -> valid node <> 0 -> shaped img node
}.

(** A mounted handle whose cached superblock, bitmap and disk fit together. *)
Definition sound (fs : FileSystem) : Prop :=
  exists d fb,
    disk fs = Some d /\ free_blocks fs = Some fb
    /\ disk_blocks d = blocks (meta_data fs)
    /\ consistent (meta_data fs) fb (disk_image d).

(** The superblock that [fs_format] writes on a disk of [n] blocks. *)
Definition fresh_super (n : Z) : SuperBlock :=
  {| magic_number := MAGIC_NUMBER;
     blocks := n;
     inode_blocks := if n / 10 =? 0 then 1 else n / 10;
     inodes := (if n / 10 =? 0 then 1 else n / 10) * INODES_PER_BLOCK |}.

(** A handle as [fs_format] and [fs_mount] of a disk of 2 to 335544319
    blocks leave it (with more blocks the inode count does not fit the 32-bit
    field of the superblock). *)
Definition fresh (fs0 : FileSystem) : Prop :=
  exists h d d1 d2,
    disk h = None
    /\ 2 <= disk_blocks d < 335544320
    /\ length (disk_image d) = Z.to_nat (disk_blocks d)
    /\ fs_format h (Some d) = Ok (true, Some d1)
    /\ fs_mount h (Some d1) = Ok (true, fs0, d2).

(** Two handles with the same bitmap and cached superblock, bound to disks
    of the same extent that hold the same image (the counters of the disks may
    differ). *)
Definition same_store (fs fs' : FileSystem) : Prop :=
  free_blocks fs' = free_blocks fs
  /\ meta_data fs' = meta_data fs
  /\ option_map disk_image (disk fs') = option_map disk_image (disk fs)
  /\ option_map disk_blocks (disk fs') = option_map disk_blocks (disk fs).

(** The inode that [fs_create] stores. *)
Definition new_inode : Inode :=
  {| valid := 1; size := 0; direct := [0; 0; 0; 0; 0]; indirect := 0 |}.

(** Inode [n] of an image is in use. *)
Definition in_use (img : list Block) (n : Z) : Prop :=
  exists node, inode_at img n = Some node /\ valid node <> 0.

(** The bitmap entries that [fs_remove] clears for [node], in the order in
    which it clears them: the direct pointers in use, the pointers in use of
    the indirect block, and the indirect block itself when it holds a pointer. *)
Definition released (img : list Block) (node : Inode) : list Z :=
  used (direct node)
  ++ (if indirect node =? 0 then []
      else used (pointers_of (blk img (indirect node)))
           ++ match used (pointers_of (blk img (indirect node))) with
              | [] => []
              | _ :: _ => [indirect node]
              end).

(** An inode with an indirect block that holds no pointer. *)
Definition empty_indirect (img : list Block) (node : Inode) : Prop :=
  indirect node <> 0 /\ used (pointers_of (blk img (indirect node))) = [].

(** The bitmap entries of an inode with the direct pointers [D], the
    indirect pointer [I] and the pointers [P] of its indirect block. *)
Definition marks (D : list Z) (I : Z) (P : list Z) : list Z :=
  used D ++ (if I =? 0 then [] else I :: used P).

(** The number of bytes that the blocks of such an inode hold. *)
Definition capacity (D : list Z) (I : Z) (P : list Z) : Z :=
  if (length (used D) =? 5)%nat && negb (I =? 0)
  then (5 + Z.of_nat (length (used P))) * BLOCK_SIZE
  else Z.of_nat (length (used D)) * BLOCK_SIZE.

(** A handle in the middle of a [fs_write] to an inode that referred to the
    blocks [refs0] when the call started with the bitmap [fb0] and the image
    [img0]: the blocks [new] have been allocated since, and nothing but the
    blocks of the inode and the new ones has been written. *)
Definition store_inv (sb : SuperBlock) (fb0 : list bool) (img0 : list Block)
    (refs0 : list Z) (fs : FileSystem) (new : list Z) : Prop :=
  exists d,
    disk fs = Some d /\ disk_blocks d = blocks sb /\ meta_data fs = sb
    /\ free_blocks fs = Some (set_all true new fb0)
    /\ NoDup new
    /\ (forall b, b ∈ new ->
          inode_blocks sb < b < blocks sb /\ fb0 !! Z.to_nat b = Some false)
    /\ length (disk_image d) = length img0
    /\ Forall wf_block (disk_image d)
    /\ (forall k, 0 <= k -> k ∉ refs0 -> k ∉ new -> blk (disk_image d) k = blk img0 k).

(** The data blocks of a file, in file order: the direct pointers in use
    and, when all five are in use and there is an indirect block, the
    pointers in use of that block. *)
Definition data_blocks (D : list Z) (I : Z) (P : list Z) : list Z :=
  used D ++ (if (length (used D) =? 5)%nat && negb (I =? 0) then used P else []).

(** Byte [pos] of the file whose data blocks are [L]. *)
Definition byte_at (img : list Block) (L : list Z) (pos : Z) : option byte :=
  match L !! Z.to_nat (pos / BLOCK_SIZE) with
  | Some p => blk img p !! Z.to_nat (pos mod BLOCK_SIZE)
  | None => None
  end.

(** Byte [pos] of the file of the inode [node]. *)
Definition inode_byte (img : list Block) (node : Inode) (pos : Z) : option byte :=
  byte_at img
    (data_blocks (direct node) (indirect node) (pointers_of (blk img (indirect node))))
    pos.

(** The contents of a file in the middle of a [fs_write] of [data] at [off0]
    that has written [written] bytes so far: these bytes are in the file, and
    the other bytes the file had are as they were. *)
Definition content_inv (img0 : list Block) (node0 : Inode) (off0 : Z) (data : list byte)
    (img : list Block) (L : list Z) (written : Z) : Prop :=
  forall pos, 0 <= pos ->
    (off0 <= pos < off0 + written -> byte_at img L pos = data !! Z.to_nat (pos - off0))
    /\ (pos < size node0 -> pos < off0 \/ off0 + written <= pos ->
        byte_at img L pos = inode_byte img0 node0 pos).

(** What the loops of a [fs_read] of [len'] bytes at [off] have done so far,
    on the image [img] of a disk of [nblocks] blocks and a file with the data
    blocks [L]; [buf] is the caller's buffer at the call and [base] the file
    block that index 0 of the pointer array stands for.  The disk still holds
    the image, the position is [off + rs_sum], and the buffer holds the bytes
    of the file up to there and its own bytes after. *)
Definition reading (img : list Block) (L : list Z) (nblocks off len' : Z) (buf : list byte)
    (base : Z) (st : read_state) : Prop :=
  (exists d, disk (rs_fs st) = Some d /\ disk_image d = img /\ disk_blocks d = nblocks)
  /\ 0 <= rs_i st
  /\ 0 <= rs_sum st <= len'
  /\ rs_offset st = off + rs_sum st
  /\ (rs_sum st < len' ->
      (rs_i st + base) * BLOCK_SIZE <= rs_offset st < (rs_i st + base + 1) * BLOCK_SIZE
      /\ (0 < rs_sum st -> rs_offset st = (rs_i st + base) * BLOCK_SIZE))
  /\ length (rs_data st) = length buf
  /\ (forall j : nat, (j < Z.to_nat (rs_sum st))%nat ->
        rs_data st !! j = byte_at img L (off + Z.of_nat j))
  /\ (forall j : nat, (Z.to_nat (rs_sum st) <= j)%nat -> rs_data st !! j = buf !! j).

(** The first loop of [fs_write] on an inode that was [node0] when the call
    started at [off0] with [len0] bytes to write; [P0] are the pointers of
    its indirect block on disk.  The pointers in use are the ones of [node0]
    and the blocks allocated since, the indirect block is untouched, and the
    position stays inside the block that the index [ws_point] stands for. *)
Record direct_inv (sb : SuperBlock) (fb0 : list bool) (img0 : list Block)
    (refs0 : list Z) (node0 : Inode) (P0 : list Z) (off0 len0 : Z) (data : list byte)
    (st : write_state) (new : list Z) : Prop := {
  di_store : store_inv sb fb0 img0 refs0 (ws_fs st) new;
  di_valid : valid (ws_node st) = valid node0;
  di_size : size (ws_node st) = size node0;
  di_indirect : indirect (ws_node st) = indirect node0;
  di_length : length (direct (ws_node st)) = 5%nat;
  di_u32 : Forall u32 (direct (ws_node st));
  di_zero : zero_ended (direct (ws_node st));
  di_marks : Permutation (marks (direct (ws_node st)) (indirect node0) P0) (refs0 ++ new);
  di_block : indirect node0 <> 0 ->
             blk (image_of (ws_fs st)) (indirect node0) = blk img0 (indirect node0);
  di_point : 0 <= ws_point st;
  di_len : 0 <= ws_length st;
  di_written : 0 <= ws_written st;
  di_sum : ws_written st + ws_length st = len0;
  di_offset : ws_offset st = off0 + ws_written st;
  di_pos : 0 < ws_length st ->
           ws_point st * BLOCK_SIZE <= ws_offset st < (ws_point st + 1) * BLOCK_SIZE;
  di_cap : ws_offset st <= capacity (direct (ws_node st)) (indirect node0) P0
           /\ size node0 <= capacity (direct (ws_node st)) (indirect node0) P0;
  di_content : content_inv img0 node0 off0 data (image_of (ws_fs st))
                 (data_blocks (direct (ws_node st)) (indirect node0) P0) (ws_written st);
  di_need : new = [] \/ size node0 < off0 + len0
}.

(** The second loop of [fs_write], over the pointers of the indirect block
    [block] held in memory; [node] is the inode, whose direct pointers are all
    in use. *)
Record indirect_inv (sb : SuperBlock) (fb0 : list bool) (img0 : list Block)
    (refs0 : list Z) (node0 : Inode) (data : list byte) (node : Inode) (off0 len0 : Z)
    (block : Block) (st : write_state) (new : list Z) : Prop := {
  ii_store : store_inv sb fb0 img0 refs0 (ws_fs st) new;
  ii_node : ws_node st = node;
  ii_wf : wf_block block;
  ii_zero : zero_ended (pointers_of block);
  ii_marks : Permutation (marks (direct node) (indirect node) (pointers_of block))
               (refs0 ++ new);
  ii_point : 0 <= ws_point st;
  ii_len : 0 <= ws_length st;
  ii_written : 0 <= ws_written st;
  ii_sum : ws_written st + ws_length st = len0;
  ii_offset : ws_offset st = off0 + ws_written st;
  ii_pos : 0 < ws_length st ->
           (ws_point st + 5) * BLOCK_SIZE <= ws_offset st
           < (ws_point st + 5 + 1) * BLOCK_SIZE;
  ii_cap : ws_offset st <= capacity (direct node) (indirect node) (pointers_of block)
           /\ size node <= capacity (direct node) (indirect node) (pointers_of block);
  ii_content : content_inv img0 node0 off0 data (image_of (ws_fs st))
                 (data_blocks (direct node) (indirect node) (pointers_of block))
                 (ws_written st);
  ii_need : new = [] \/ size node0 < off0 + len0
}.

(** The state of a [fs_write] when it reaches the label [last]: the inode in
    memory refers to the blocks it had and to the new ones, its pointer arrays
    are zero ended and hold the position reached, and either everything has
    been written or the position is at or past the old end of the file and
    no block is free any more. *)
Record write_done (sb : SuperBlock) (fb0 : list bool) (img0 : list Block)
    (refs0 : list Z) (node0 : Inode) (off0 len0 : Z) (data : list byte)
    (st : write_state) (new : list Z) : Prop := {
  wd_store : store_inv sb fb0 img0 refs0 (ws_fs st) new;
  wd_valid : valid (ws_node st) = valid node0;
  wd_size : size (ws_node st) = size node0;
  wd_length : length (direct (ws_node st)) = 5%nat;
  wd_u32 : Forall u32 (direct (ws_node st));
  wd_ind : u32 (indirect (ws_node st));
  wd_zero : zero_ended (direct (ws_node st));
  wd_pzero : indirect (ws_node st) <> 0 ->
             zero_ended (pointers_of (blk (image_of (ws_fs st)) (indirect (ws_node st))));
  wd_marks : Permutation
               (marks (direct (ws_node st)) (indirect (ws_node st))
                  (pointers_of (blk (image_of (ws_fs st)) (indirect (ws_node st)))))
               (refs0 ++ new);
  wd_len : 0 <= ws_length st;
  wd_written : 0 <= ws_written st;
  wd_sum : ws_written st + ws_length st = len0;
  wd_offset : ws_offset st = off0 + ws_written st;
  wd_cap : ws_offset st
           <= capacity (direct (ws_node st)) (indirect (ws_node st))
                (pointers_of (blk (image_of (ws_fs st)) (indirect (ws_node st))))
           /\ size node0
              <= capacity (direct (ws_node st)) (indirect (ws_node st))
                   (pointers_of (blk (image_of (ws_fs st)) (indirect (ws_node st))));
  wd_complete : ws_length st = 0
                \/ ((forall j, 1 <= j < blocks sb ->
                       set_all true new fb0 !! Z.to_nat j = Some true)
                    /\ size node0 <= ws_offset st);
  wd_content : content_inv img0 node0 off0 data (image_of (ws_fs st))
                 (data_blocks (direct (ws_node st)) (indirect (ws_node st))
                    (pointers_of (blk (image_of (ws_fs st)) (indirect (ws_node st)))))
                 (ws_written st);
  wd_need : new = [] \/ size node0 < off0 + len0
}.

(** What a [fs_write] of [len0] bytes at [off0] to inode [n] leaves when it
    returns [r] with the handle [fs']; the call started with the superblock
    [sb], the bitmap [fb0] and the image [img0], in which the inode was
    [node0] and referred to the blocks [refs0].  The blocks [new] were free
    and are now marked and referred to by the inode; the inode has grown to
    the end of the written range; everything was written unless the write
    had reached the old end of the file and no block is free any more; the
    other inodes and the blocks of the other files are untouched; the file
    holds the bytes written, and outside them the bytes it had; and blocks
    are allocated only by a write that ends past the old size. *)
Definition write_post (sb : SuperBlock) (fb0 : list bool) (img0 : list Block)
    (refs0 : list Z) (node0 : Inode) (n off0 len0 : Z) (data : list byte)
    (r : Z) (fs' : FileSystem) : Prop :=
  exists new node d',
    disk fs' = Some d' /\ disk_blocks d' = blocks sb /\ meta_data fs' = sb
    /\ free_blocks fs' = Some (set_all true new fb0)
    /\ consistent sb (set_all true new fb0) (disk_image d')
    /\ inode_at (disk_image d') n = Some node
    /\ valid node = valid node0
    /\ size node = Z.max (size node0) (off0 + r)
    /\ 0 <= r <= len0
    /\ (r = len0
        \/ ((forall j, 1 <= j < blocks sb ->
               set_all true new fb0 !! Z.to_nat j = Some true)
            /\ size node0 <= off0 + r))
    /\ (forall m, 0 <= m < inodes sb -> m <> n ->
          inode_at (disk_image d') m = inode_at img0 m)
    /\ Permutation (refs (disk_image d') n) (refs0 ++ new)
    /\ NoDup new
    /\ (forall b, b ∈ new -> fb0 !! Z.to_nat b = Some false)
    /\ (forall k, 0 <= k -> k ∉ refs0 -> k ∉ new ->
          Z.to_nat k <> Z.to_nat (n / INODES_PER_BLOCK + 1) ->
          blk (disk_image d') k = blk img0 k)
    /\ content_inv img0 node0 off0 data (disk_image d')
         (data_blocks (direct node) (indirect node)
            (pointers_of (blk (disk_image d') (indirect node)))) r
    /\ (new = [] \/ size node0 < off0 + len0).

(** The block [b] with [magic] stored in the [magic_number] field of its
    superblock and every other field as it is. *)
Definition with_magic (b : Block) (magic : Z) : Block :=
  with_super b
    {| magic_number := magic; blocks := blocks (super_of b);
       inode_blocks := inode_blocks (super_of b); inodes := inodes (super_of b) |}.

(** Two disks of the same extent that hold the same blocks from block 1 on. *)
Definition same_past_super (d1 d2 : Disk) : Prop :=
  disk_blocks d1 = disk_blocks d2
  /\ forall k : nat, (0 < k)%nat -> disk_image d1 !! k = disk_image d2 !! k.

Definition same_disks (o1 o2 : option Disk) : Prop :=
  exists d1 d2, o1 = Some d1 /\ o2 = Some d2 /\ same_past_super d1 d2.

(** Two runs of a part of [fs_debug] that print the same text and end the
    same way. *)
Definition same_run (x1 x2 : string * result (option Disk)) : Prop :=
  fst x1 = fst x2
  /\ match snd x1, snd x2 with
     | Ok o1, Ok o2 => same_disks o1 o2
     | Fault f1, Fault f2 => f1 = f2
     | _, _ => False
     end.

(** ** Concrete disks and handles used to exercise the statements *)

(** A disk of [n] zeroed blocks, as [disk_open] leaves a new image. *)
Definition fresh_disk (n : Z) : Disk :=
  {| disk_blocks := n; disk_image := replicate (Z.to_nat n) zero_block;
     disk_reads := 0; disk_writes := 0 |}.

(** A zero-initialised handle. *)
Definition fresh_fs : FileSystem :=
  {| disk := None;
     meta_data := {| magic_number := 0; blocks := 0; inode_blocks := 0; inodes := 0 |};
     free_blocks := None |}.

(** [fs_format] and [fs_mount] of a new image of [n] blocks. *)
Definition mounted (n : Z) : result FileSystem :=
  let* (_, d) := fs_format fresh_fs (Some (fresh_disk n)) in
  let* (_, fs, _) := fs_mount fresh_fs d in
  Ok fs.

Definition handle_of (r : result FileSystem) : FileSystem :=
  match r with
  | Ok fs => fs
  | Fault _ => fresh_fs
  end.

(** [k] calls of [fs_create] in a row. *)
Fixpoint create_many (k : nat) (fs : FileSystem) : result FileSystem :=
  match k with
  | O => Ok fs
  | S k' => let* (_, fs) := fs_create fs in create_many k' fs
  end.

(** A 10-block image, mounted, with inode 0 created and empty. *)
Definition fs10 : FileSystem :=
  handle_of (let* fs := mounted 10 in create_many 1 fs).

(** A 20-block image (two inode blocks, 256 inodes), mounted, with inodes
    0..128 created. *)
Definition fs20 : FileSystem :=
  handle_of (let* fs := mounted 20 in create_many 129 fs).

(** [k] appends of one block of ["a"] bytes to inode [n], the first at
    offset [offset]. *)
Fixpoint append_blocks (k : nat) (n : Z) (offset : Z) (fs : FileSystem) : result FileSystem :=
  match k with
  | O => Ok fs
  | S k' =>
      let* (_, fs) := fs_write fs n (replicate 4096 "a"%byte) BLOCK_SIZE offset in
      append_blocks k' n (offset + BLOCK_SIZE) fs
  end.

Definition loaded (fs : FileSystem) (n : Z) : Inode :=
  match fs_load_inode fs n with
  | Ok (Some node, _) => node
  | _ => zero_inode
  end.

Definition after_load (fs : FileSystem) : FileSystem :=
  set_disk fs (option_map count_read (disk fs)).

Definition disk_of (fs : FileSystem) : Disk := default (fresh_disk 0) (disk fs).

Definition block_at (fs : FileSystem) (k : Z) : Block :=
  default [] (disk_image (disk_of fs) !! Z.to_nat k).

(** Inode 0 of a 10-block image after 4000 bytes are written at offset 0. *)
Definition fs_4000 : FileSystem :=
  handle_of (let* (_, fs) := fs_write fs10 0 (replicate 4000 "a"%byte) 4000 0 in Ok fs).

(** Inode 0 of a 10-block image after two blocks are written at offset 0. *)
Definition fs_two_blocks : FileSystem :=
  handle_of (append_blocks 2 0 0 fs10).

(** Inode 0 of a 10-block image after seven blocks are written: five direct
    blocks, an indirect block and two blocks behind it. *)
Definition fs_seven_blocks : FileSystem :=
  handle_of (append_blocks 7 0 0 fs10).

(** ** Handles that see the same file system *)

(** Two handles with the same cached superblock, bound to disks of the same
    size that hold the same image; the bitmaps and the counters of the disks
    may differ. *)
Definition same_view (fs1 fs2 : FileSystem) : Prop :=
  meta_data fs1 = meta_data fs2
  /\ option_map disk_image (disk fs1) = option_map disk_image (disk fs2)
  /\ option_map disk_blocks (disk fs1) = option_map disk_blocks (disk fs2).

(** Two calls agree where they are defined: if one returns, the other
    returns the same value and they leave handles that see the same file
    system.  A run that fails an [assert] or has undefined behaviour on one
    side has one on the other side too; nothing is said about what such a
    run does. *)
Definition same_answer {A : Type} (r1 r2 : result (A * FileSystem)) : Prop :=
  match r1, r2 with
  | Ok (a1, fs1), Ok (a2, fs2) => a1 = a2 /\ same_view fs1 fs2
  | Fault _, Fault _ => True
  | _, _ => False
  end.

(** Two states of a loop of [fs_read] that differ at most in the bitmap and
    the counters of the disk. *)
Definition same_read (st1 st2 : read_state) : Prop :=
  same_view (rs_fs st1) (rs_fs st2)
  /\ rs_data st1 = rs_data st2 /\ rs_i st1 = rs_i st2
  /\ rs_sum st1 = rs_sum st2 /\ rs_offset st1 = rs_offset st2.

(** A disk after block reads only: the image, the size and the write counter
    are those of [d]. *)
Definition only_read (d d' : Disk) : Prop :=
  disk_image d' = disk_image d /\ disk_blocks d' = disk_blocks d
  /\ disk_writes d' = disk_writes d.

(** The indirect block of a valid inode, if it has one, is a block of the
    disk [d]. *)
Definition indirect_on_disk (d : Disk) (node : Inode) : Prop :=
  valid node <> 0 -> indirect node <> 0 ->
  indirect node < disk_blocks d /\ (Z.to_nat (indirect node) < length (disk_image d))%nat.

(** ** Sequences of operations *)

Inductive op : Type :=
| Create
| Remove (inode_number : Z)
| Stat (inode_number : Z)
| Read (inode_number : Z) (data : list byte) (length offset : Z)
| Write (inode_number : Z) (data : list byte) (length offset : Z).

(** One operation on a mounted handle; the value it returns is dropped. *)
Definition exec (o : op) (fs : FileSystem) : result FileSystem :=
  match o with
  | Create => let* (_, fs') := fs_create fs in Ok fs'
  | Remove n => let* (_, fs') := fs_remove fs n in Ok fs'
  | Stat n => let* (_, fs') := fs_stat fs n in Ok fs'
  | Read n data length offset => let* (_, _, fs') := fs_read fs n data length offset in Ok fs'
  | Write n data length offset => let* (_, fs') := fs_write fs n data length offset in Ok fs'
  end.

Fixpoint run (ops : list op) (fs : FileSystem) : result FileSystem :=
  match ops with
  | [] => Ok fs
  | o :: rest => let* fs' := exec o fs in run rest fs'
  end.

(** [fs_unmount] followed by [fs_mount] of the disk the handle was bound to:
    whether the mount succeeds, and the bitmap it builds. *)
Definition remount (fs : FileSystem) : result (bool * option (list bool)) :=
  let* (ok, fs', _) := fs_mount (fs_unmount fs) (disk fs) in
  Ok (ok, free_blocks fs').

(** Two files on a 10-block image: inode 0 holds two blocks; the write of
    six blocks to inode 1 takes the five direct blocks and the indirect
    block, and then the disk is full. *)
Definition two_files : list op :=
  [ Create; Create;
    Write 0 (replicate (Z.to_nat 8192) "a"%byte) 8192 0;
    Write 1 (replicate (Z.to_nat 24576) "b"%byte) 24576 0 ].

(** The handle [fs_seven_blocks] on an image in which the size field of
    inode 0 holds [(POINTERS_PER_INODE + POINTERS_PER_BLOCK) * BLOCK_SIZE],
    the size of a file that uses every pointer of its inode. *)
Definition fs_grown : FileSystem :=
  set_disk fs_seven_blocks
    (Some (store (disk_of fs_seven_blocks) 1
             (of_inodes
                (<[0%nat := set_size (loaded fs_seven_blocks 0)
                              ((POINTERS_PER_INODE + POINTERS_PER_BLOCK) * BLOCK_SIZE)]>
                   (inodes_of (block_at fs_seven_blocks 1)))))).

(** The arguments of an operation are [size_t] values. *)
Definition nonneg_op (o : op) : bool :=
  match o with
  | Create => true
  | Remove n | Stat n => 0 <=? n
  | Read n _ length offset | Write n _ length offset =>
      (0 <=? n) && (0 <=? length) && (0 <=? offset)
  end.

(** The operation is a [fs_remove] whose [fs_load_inode] loads an inode, and
    the indirect block of that inode holds no pointer.  A [fs_remove] that
    [fs_load_inode] turns down (a number that is not below
    [meta_data.inodes], an inode that is not valid) is not leaky. *)
Definition leaky (fs : FileSystem) (o : op) : bool :=
  match o with
  | Remove n =>
      match fs_load_inode fs n with
      | Ok (Some node, _) =>
          negb (indirect node =? 0)
          && match used (pointers_of (blk (image_of fs) (indirect node))) with
             | [] => true
             | _ :: _ => false
             end
      | _ => false
      end
  | _ => false
  end.

(** A sequence of operations with [size_t] arguments in which no operation
    is leaky in the state it is run in. *)
Fixpoint admissible (ops : list op) (fs : FileSystem) : bool :=
  match ops with
  | [] => true
  | o :: rest =>
      nonneg_op o && negb (leaky fs o)
      && match exec o fs with
         | Ok fs' => admissible rest fs'
         | Fault _ => true
         end
  end.

(** A 10-block image with two files: inode 0 holds two blocks, inode 1
    none. *)
Definition fs_two_inodes : FileSystem :=
  handle_of (run [Create; Create; Write 0 (replicate (Z.to_nat 8192) "a"%byte) 8192 0]
               (handle_of (mounted 10))).

(** The handle after [two_files] on a new 10-block image: inode 1 has its
    five direct blocks and an indirect block without pointers. *)
Definition fs_two_files : FileSystem :=
  handle_of (run two_files (handle_of (mounted 10))).

(** The operations that lead to [fs10], [fs_4000] and [fs_seven_blocks]. *)
Definition seven_appends : list op :=
  Create
  :: map (fun k => Write 0 (replicate 4096 "a"%byte) BLOCK_SIZE (Z.of_nat k * BLOCK_SIZE))
       (seq 0 7).

(** An inode with the five direct blocks 2 to 6, the indirect block 7 and
    two blocks behind it, as [fs_seven_blocks] holds it. *)
Definition seven_inode : Inode :=
  {| valid := 1; size := 28672; direct := [2; 3; 4; 5; 6]; indirect := 7 |}.

(** Inode 1 of [fs_two_files]. *)
Definition stuck_inode : Inode :=
  {| valid := 1; size := 20480; direct := [4; 5; 6; 7; 8]; indirect := 9 |}.

(** [fs_two_inodes] after two blocks are written to inode 1. *)
Definition fs_two_written : FileSystem :=
  handle_of
    (run [Write 1 (replicate 4096 "b"%byte ++ replicate 4096 "c"%byte) 8192 0]
       fs_two_inodes).

(** The disk of [fs10] with inode 0 replaced by a valid inode whose first
    direct pointer is block 99, which the 10-block disk does not have. *)
Definition corrupt_disk : Disk :=
  store (disk_of fs10) 1
    (of_inodes
       (<[0%nat := {| valid := 1; size := 0; direct := [99; 0; 0; 0; 0]; indirect := 0 |}]>
          (inodes_of zero_block))).
(** * Properties *)

(** ** Bytes and words *)

Lemma byte_to_Z_range (b : byte) : 0 <= byte_to_Z b < 256.
Proof.
  unfold byte_to_Z. pose proof (Byte.to_N_bounded b). lia.
Qed.

Lemma byte_to_Z_to_byte (z : Z) : byte_to_Z (Z_to_byte z) = z mod 256.
Proof.
  unfold byte_to_Z, Z_to_byte.
  pose proof (Z.mod_pos_bound z 256 ltac:(lia)) as Hm.
  destruct (Byte.of_N (Z.to_N (z mod 256))) as [b|] eqn:E.
  - apply Byte.to_of_N in E. rewrite E. lia.
  - apply Byte.of_N_None_iff in E. lia.
Qed.

Lemma Z_to_byte_to_Z (b : byte) : Z_to_byte (byte_to_Z b) = b.
Proof.
  unfold byte_to_Z, Z_to_byte.
  pose proof (Byte.to_N_bounded b).
  rewrite Z.mod_small by lia.
  rewrite N2Z.id, Byte.of_to_N. reflexivity.
Qed.

Lemma le32_range (b0 b1 b2 b3 : byte) : 0 <= le32 b0 b1 b2 b3 < 2 ^ 32.
Proof.
  unfold le32.
  pose proof (byte_to_Z_range b0). pose proof (byte_to_Z_range b1).
  pose proof (byte_to_Z_range b2). pose proof (byte_to_Z_range b3).
  change (2 ^ 32) with 4294967296. lia.
Qed.

Lemma words_bytes32 (v : Z) (rest : list byte) :
  words (bytes32 v ++ rest) = wrap32 v :: words rest.
Proof.
  unfold bytes32. cbn [app words]. f_equal.
  unfold le32, wrap32. rewrite !byte_to_Z_to_byte.
  change (2 ^ 32) with 4294967296.
  pose proof (Z.div_mod v 256 ltac:(lia)).
  pose proof (Z.mod_pos_bound v 256 ltac:(lia)).
  pose proof (Z.div_mod (v / 256) 256 ltac:(lia)).
  pose proof (Z.mod_pos_bound (v / 256) 256 ltac:(lia)).
  pose proof (Z.div_mod (v / 256 / 256) 256 ltac:(lia)).
  pose proof (Z.mod_pos_bound (v / 256 / 256) 256 ltac:(lia)).
  pose proof (Z.div_mod (v / 256 / 256 / 256) 256 ltac:(lia)).
  pose proof (Z.mod_pos_bound (v / 256 / 256 / 256) 256 ltac:(lia)).
  replace (v / 65536) with (v / 256 / 256) by (rewrite Z.div_div by lia; reflexivity).
  replace (v / 16777216) with (v / 256 / 256 / 256)
    by (rewrite !Z.div_div by lia; reflexivity).
  apply Z.mod_unique_pos with (q := v / 256 / 256 / 256 / 256); lia.
Qed.

Lemma words_unwords (ws : list Z) :
  Forall (fun w => 0 <= w < 2 ^ 32) ws -> words (unwords ws) = ws.
Proof.
  induction 1 as [|w ws Hw _ IH]; [reflexivity|].
  cbn [unwords]. rewrite words_bytes32, IH. f_equal.
  unfold wrap32. apply Z.mod_small. exact Hw.
Qed.

Lemma words_range (bs : list byte) : Forall (fun w => 0 <= w < 2 ^ 32) (words bs).
Proof.
  induction bs as [bs IH] using (well_founded_induction (Wf_nat.well_founded_ltof _ length)).
  destruct bs as [|b0 [|b1 [|b2 [|b3 rest]]]]; cbn [words]; try constructor.
  - apply le32_range.
  - apply IH. unfold Wf_nat.ltof. cbn. lia.
Qed.

Lemma length_unwords (ws : list Z) : length (unwords ws) = (4 * length ws)%nat.
Proof.
  induction ws as [|w ws IH]; [reflexivity|].
  cbn [unwords]. rewrite length_app, IH. cbn. lia.
Qed.

Lemma bytes32_le32 (b0 b1 b2 b3 : byte) : bytes32 (le32 b0 b1 b2 b3) = [b0; b1; b2; b3].
Proof.
  unfold bytes32, le32.
  pose proof (byte_to_Z_range b0). pose proof (byte_to_Z_range b1).
  pose proof (byte_to_Z_range b2). pose proof (byte_to_Z_range b3).
  assert (Hb : forall x y, 0 <= x < 256 -> Z_to_byte (x + 256 * y) = Z_to_byte x).
  { intros x y Hx. unfold Z_to_byte.
    replace ((x + 256 * y) mod 256) with (x mod 256); [reflexivity|].
    replace (x + 256 * y) with (x + y * 256) by lia.
    rewrite Z.mod_add by lia. reflexivity. }
  assert (Hd : forall x y, 0 <= x < 256 -> (x + 256 * y) / 256 = y).
  { intros x y Hx. replace (x + 256 * y) with (x + y * 256) by lia.
    rewrite Z.div_add by lia. rewrite Z.div_small by lia. lia. }
  replace (65536) with (256 * 256) by reflexivity.
  replace (16777216) with (256 * 256 * 256) by reflexivity.
  rewrite <- !Z.div_div by lia.
  rewrite !Hd by assumption.
  rewrite !Hb by assumption.
  rewrite !Z_to_byte_to_Z. reflexivity.
Qed.

(** The bytes of a block whose length is a multiple of four are the
    encoding of its words. *)
Lemma unwords_words (bs : list byte) (k : nat) :
  length bs = (4 * k)%nat -> unwords (words bs) = bs.
Proof.
  revert bs. induction k as [|k IH]; intros bs Hlen.
  - destruct bs; [reflexivity|discriminate].
  - destruct bs as [|b0 [|b1 [|b2 [|b3 rest]]]]; cbn in Hlen; try lia.
    cbn [words unwords]. rewrite bytes32_le32. cbn [app]. do 4 f_equal.
    apply IH. lia.
Qed.

Lemma length_words (bs : list byte) (k : nat) :
  length bs = (4 * k)%nat -> length (words bs) = k.
Proof.
  revert bs. induction k as [|k IH]; intros bs Hlen.
  - destruct bs; [reflexivity|discriminate].
  - destruct bs as [|b0 [|b1 [|b2 [|b3 rest]]]]; cbn in Hlen; try lia.
    cbn [words length]. f_equal. apply IH. lia.
Qed.

(** ** Inodes in a block *)

Lemma inodes_of_words_wf (ws : list Z) :
  Forall u32 ws -> Forall wf_inode (inodes_of_words ws).
Proof.
  induction ws as [ws IH] using (well_founded_induction (Wf_nat.well_founded_ltof _ length)).
  intros Hws.
  destruct ws as [|v [|s [|d0 [|d1 [|d2 [|d3 [|d4 [|i rest]]]]]]]];
    cbn [inodes_of_words]; try constructor.
  - repeat match goal with H : Forall _ (_ :: _) |- _ => apply Forall_cons in H as [? H] end.
    unfold wf_inode; cbn [valid size direct indirect].
    split; [assumption|]. split; [assumption|]. split; [reflexivity|].
    split; [|assumption]. repeat (constructor; [assumption|]). constructor.
  - apply IH.
    + unfold Wf_nat.ltof. cbn. lia.
    + repeat match goal with H : Forall _ (_ :: _) |- _ => apply Forall_cons in H as [? H] end.
      assumption.
Qed.

Lemma inodes_of_wf (b : Block) : Forall wf_inode (inodes_of b).
Proof. apply inodes_of_words_wf, words_range. Qed.

Lemma words_of_inode_u32 (ns : list Inode) :
  Forall wf_inode ns -> Forall u32 (concat (map words_of_inode ns)).
Proof.
  induction 1 as [|n ns (Hv & Hs & _ & Hd & Hi) _ IH]; [constructor|].
  cbn [map concat]. apply Forall_app. split; [|exact IH].
  unfold words_of_inode. repeat (constructor; [assumption|]).
  apply Forall_app. split; [assumption|]. constructor; [assumption|constructor].
Qed.

Lemma inodes_of_words_encode (ns : list Inode) :
  Forall wf_inode ns -> inodes_of_words (concat (map words_of_inode ns)) = ns.
Proof.
  induction 1 as [|n ns (_ & _ & Hl & _ & _) _ IH]; [reflexivity|].
  destruct n as [v s d i]. cbn in Hl.
  destruct d as [|d0 [|d1 [|d2 [|d3 [|d4 [|]]]]]]; try discriminate.
  cbn. cbn in IH. rewrite IH. reflexivity.
Qed.

Lemma inodes_of_of_inodes (ns : list Inode) :
  Forall wf_inode ns -> inodes_of (of_inodes ns) = ns.
Proof.
  intros H. unfold inodes_of, of_inodes.
  rewrite words_unwords by (apply words_of_inode_u32; exact H).
  apply inodes_of_words_encode. exact H.
Qed.

Lemma encode_inodes_of_words (ws : list Z) (k : nat) :
  length ws = (8 * k)%nat -> concat (map words_of_inode (inodes_of_words ws)) = ws.
Proof.
  revert ws. induction k as [|k IH]; intros ws Hlen.
  - destruct ws; [reflexivity|discriminate].
  - destruct ws as [|v [|s [|d0 [|d1 [|d2 [|d3 [|d4 [|i rest]]]]]]]]; cbn in Hlen; try lia.
    cbn. do 8 f_equal. apply IH. lia.
Qed.

Lemma length_inodes_of_words (ws : list Z) (k : nat) :
  length ws = (8 * k)%nat -> length (inodes_of_words ws) = k.
Proof.
  revert ws. induction k as [|k IH]; intros ws Hlen.
  - destruct ws; [reflexivity|discriminate].
  - destruct ws as [|v [|s [|d0 [|d1 [|d2 [|d3 [|d4 [|i rest]]]]]]]]; cbn in Hlen; try lia.
    cbn [inodes_of_words length]. f_equal. apply IH. lia.
Qed.

(** ** Well-formed blocks *)

Lemma of_inodes_inodes_of (b : Block) : wf_block b -> of_inodes (inodes_of b) = b.
Proof.
  intros Hb. unfold of_inodes, inodes_of.
  rewrite (encode_inodes_of_words _ 128).
  - apply (unwords_words _ 1024). exact Hb.
  - apply length_words. exact Hb.
Qed.

Lemma length_inodes_of (b : Block) : wf_block b -> length (inodes_of b) = 128%nat.
Proof.
  intros Hb. unfold inodes_of. apply length_inodes_of_words.
  apply length_words. exact Hb.
Qed.

Lemma length_pointers_of (b : Block) : wf_block b -> length (pointers_of b) = 1024%nat.
Proof. intros Hb. apply length_words. exact Hb. Qed.

Lemma of_pointers_pointers_of (b : Block) : wf_block b -> of_pointers (pointers_of b) = b.
Proof. intros Hb. apply (unwords_words _ 1024). exact Hb. Qed.

Lemma pointers_of_of_pointers (ps : list Z) :
  Forall u32 ps -> pointers_of (of_pointers ps) = ps.
Proof. apply words_unwords. Qed.

Lemma wf_of_pointers (ps : list Z) : length ps = 1024%nat -> wf_block (of_pointers ps).
Proof. intros H. unfold wf_block, of_pointers. rewrite length_unwords, H. reflexivity. Qed.

Lemma wf_of_inodes (ns : list Inode) :
  Forall wf_inode ns -> length ns = 128%nat -> wf_block (of_inodes ns).
Proof.
  intros Hwf Hlen. unfold wf_block, of_inodes. rewrite length_unwords.
  assert (Hc : forall l : list Inode, Forall wf_inode l ->
               length (concat (map words_of_inode l)) = (8 * length l)%nat).
  { induction 1 as [|n l (_ & _ & Hl & _ & _) _ IH]; [reflexivity|].
    cbn [map concat]. rewrite length_app, IH. unfold words_of_inode.
    cbn [length]. rewrite length_app, Hl. cbn. lia. }
  rewrite Hc by exact Hwf. rewrite Hlen. reflexivity.
Qed.

Lemma wf_zero_block : wf_block zero_block.
Proof. reflexivity. Qed.

Lemma pointers_of_zero_block : pointers_of zero_block = replicate 1024 0.
Proof. vm_compute. reflexivity. Qed.

Lemma inodes_of_zero_block : inodes_of zero_block = replicate 128 zero_inode.
Proof. vm_compute. reflexivity. Qed.

(** ** Disk and inode-table access *)

Lemma assert_disk_read_inv disk k buf b disk' :
  assert_disk_read disk k buf = Ok (b, disk') ->
  exists d, disk = Some d /\ k < disk_blocks d
            /\ disk_image d !! Z.to_nat k = Some b /\ disk' = Some (count_read d).
Proof.
  unfold assert_disk_read, disk_read, disk_sanity_check.
  destruct disk as [d|]; cbn [negb]; [|discriminate].
  destruct (k <? disk_blocks d) eqn:Hk; cbn [negb]; [|discriminate].
  destruct (disk_image d !! Z.to_nat k) as [blk|] eqn:Hb; [|discriminate].
  cbn. intros [= <- <-]. exists d. apply Z.ltb_lt in Hk. auto.
Qed.

Lemma assert_disk_read_ok d k buf b :
  k < disk_blocks d -> disk_image d !! Z.to_nat k = Some b ->
  assert_disk_read (Some d) k buf = Ok (b, Some (count_read d)).
Proof.
  intros Hk Hb. unfold assert_disk_read, disk_read, disk_sanity_check.
  apply Z.ltb_lt in Hk. rewrite Hk. cbn [negb]. rewrite Hb. reflexivity.
Qed.

Lemma assert_disk_write_inv disk k b disk' :
  assert_disk_write disk k b = Ok disk' ->
  exists d, disk = Some d /\ k < disk_blocks d
            /\ (Z.to_nat k < length (disk_image d))%nat
            /\ disk' = Some (count_write (store d k b)).
Proof.
  unfold assert_disk_write, disk_write, disk_sanity_check.
  destruct disk as [d|]; cbn [negb]; [|discriminate].
  destruct (k <? disk_blocks d) eqn:Hk; cbn [negb]; [|discriminate].
  destruct (Z.to_nat k <? length (disk_image d))%nat eqn:Hb; [|discriminate].
  cbn. intros [= <-]. exists d. apply Nat.ltb_lt in Hb. apply Z.ltb_lt in Hk. auto.
Qed.

Lemma assert_disk_write_ok d k b :
  k < disk_blocks d -> (Z.to_nat k < length (disk_image d))%nat ->
  assert_disk_write (Some d) k b = Ok (Some (count_write (store d k b))).
Proof.
  intros Hk Hb. unfold assert_disk_write, disk_write, disk_sanity_check.
  apply Z.ltb_lt in Hk. rewrite Hk. cbn [negb].
  apply Nat.ltb_lt in Hb. rewrite Hb. reflexivity.
Qed.

(** What [fs_load_inode] does when it returns [true]. *)
Lemma fs_load_inode_some fs n node fs' :
  fs_load_inode fs n = Ok (Some node, fs') ->
  exists d b slot,
    disk fs = Some d /\ n < inodes (meta_data fs)
    /\ n / INODES_PER_BLOCK + 1 < disk_blocks d
    /\ disk_image d !! Z.to_nat (n / INODES_PER_BLOCK + 1) = Some b
    /\ inodes_of b !! Z.to_nat n = Some slot /\ valid slot <> 0
    /\ inodes_of b !! Z.to_nat (n mod INODES_PER_BLOCK) = Some node
    /\ fs' = set_disk fs (Some (count_read d)).
Proof.
  unfold fs_load_inode.
  destruct (n >=? inodes (meta_data fs)) eqn:Hn; [discriminate|].
  destruct (assert_disk_read _ _ _) as [[b disk']|] eqn:Hr; [|discriminate].
  apply assert_disk_read_inv in Hr as (d & Hd & Hk & Hb & ->).
  cbn [bind].
  destruct (inodes_of b !! Z.to_nat n) as [slot|] eqn:Hslot; [|discriminate].
  destruct (valid slot =? 0) eqn:Hv; [discriminate|].
  destruct (inodes_of b !! Z.to_nat (n mod INODES_PER_BLOCK)) as [nd|] eqn:Hnode;
    [|discriminate].
  intros [= <- <-]. exists d, b, slot.
  apply Z.eqb_neq in Hv. assert (n < inodes (meta_data fs)) by lia. auto 10.
Qed.

(** ** Writes that stop before any block is touched *)

Lemma wf_inode_loaded fs n node fs' :
  fs_load_inode fs n = Ok (Some node, fs') -> wf_inode node.
Proof.
  intros H. apply fs_load_inode_some in H as (d & b & slot & _ & _ & _ & _ & _ & _ & Hn & _).
  pose proof (inodes_of_wf b) as Hwf.
  rewrite Forall_lookup in Hwf. exact (Hwf _ _ Hn).
Qed.

(** The image and the extent of the disk a handle is bound to. *)
Lemma fs_load_inode_frame fs n r fs' :
  fs_load_inode fs n = Ok (r, fs') ->
  free_blocks fs' = free_blocks fs /\ meta_data fs' = meta_data fs
  /\ option_map disk_image (disk fs') = option_map disk_image (disk fs)
  /\ option_map disk_blocks (disk fs') = option_map disk_blocks (disk fs).
Proof.
  unfold fs_load_inode.
  destruct (n >=? inodes (meta_data fs)); [intros [= <- <-]; auto|].
  destruct (assert_disk_read _ _ _) as [[b disk']|] eqn:Hr; [|discriminate].
  apply assert_disk_read_inv in Hr as (d & Hd & _ & _ & ->).
  cbn [bind].
  assert (Hframe : free_blocks (set_disk fs (Some (count_read d))) = free_blocks fs
          /\ meta_data (set_disk fs (Some (count_read d))) = meta_data fs
          /\ option_map disk_image (disk (set_disk fs (Some (count_read d))))
             = option_map disk_image (disk fs)
          /\ option_map disk_blocks (disk (set_disk fs (Some (count_read d))))
             = option_map disk_blocks (disk fs)).
  { rewrite Hd. cbn. auto. }
  destruct (inodes_of b !! Z.to_nat n) as [slot|]; [|discriminate].
  destruct (valid slot =? 0); [intros [= <- <-]; exact Hframe|].
  destruct (inodes_of b !! Z.to_nat (n mod INODES_PER_BLOCK)); [|discriminate].
  intros [= <- <-]. exact Hframe.
Qed.

(** [fs_load_inode] looks at the image, the extent of the disk and the
    inode count only. *)
Lemma fs_load_inode_same_image fs1 fs2 n :
  meta_data fs1 = meta_data fs2 ->
  option_map disk_image (disk fs1) = option_map disk_image (disk fs2) ->
  option_map disk_blocks (disk fs1) = option_map disk_blocks (disk fs2) ->
  forall node fs1',
    fs_load_inode fs1 n = Ok (Some node, fs1') ->
    exists fs2', fs_load_inode fs2 n = Ok (Some node, fs2').
Proof.
  intros Hm Hi Hb node fs1' H.
  apply fs_load_inode_some in H as (d & b & slot & Hd & Hn & Hk & Hblk & Hs & Hv & Hnode & _).
  rewrite Hd in Hi, Hb. destruct (disk fs2) as [d2|] eqn:Hd2; [|discriminate].
  cbn in Hi, Hb. injection Hi as Hi. injection Hb as Hb.
  unfold fs_load_inode. rewrite <- Hm.
  assert ((n >=? inodes (meta_data fs1)) = false) as -> by lia.
  rewrite Hd2.
  rewrite (assert_disk_read_ok d2 _ _ b) by (rewrite <- ?Hi, <- ?Hb; assumption).
  cbn [bind]. rewrite Hs.
  assert ((valid slot =? 0) = false) as -> by lia.
  rewrite Hnode. eauto.
Qed.

Lemma write_direct_loop_nothing n data st :
  ws_length st = 0 -> write_direct_loop n data st = Ok (false, st).
Proof. intros H. destruct n; cbn [write_direct_loop]; [reflexivity|]. rewrite H. reflexivity. Qed.

(** For an inode that [fs_load_inode] loads and an offset beyond its size,
    [fs_write] returns 0; the bitmap, the image on disk and the inode record
    are the same after the call as before it. *)
Theorem fs_write_past_size_rejected fs n data length offset node fs1 :
  fs_load_inode fs n = Ok (Some node, fs1) ->
  offset > size node ->
  exists fs',
    fs_write fs n data length offset = Ok (0, fs')
    /\ free_blocks fs' = free_blocks fs
    /\ meta_data fs' = meta_data fs
    /\ option_map disk_image (disk fs') = option_map disk_image (disk fs)
    /\ (exists fs'', fs_load_inode fs' n = Ok (Some node, fs'')).
Proof.
  intros Hload Hoff. exists fs1.
  destruct (fs_load_inode_frame _ _ _ _ Hload) as (Hfb & Hm & Hi & Hb).
  split.
  - unfold fs_write. rewrite Hload. cbn [bind].
    assert ((offset >? size node) = true) as -> by lia. reflexivity.
  - repeat (split; [assumption|]).
    apply (fs_load_inode_same_image fs fs1 n (eq_sym Hm) (eq_sym Hi) (eq_sym Hb) node fs1 Hload).
Qed.

Lemma fs_write_past_size_rejected_witness :
  exists fs',
    fs_write fs10 0 [] 3 5 = Ok (0, fs')
    /\ free_blocks fs' = free_blocks fs10
    /\ meta_data fs' = meta_data fs10
    /\ option_map disk_image (disk fs') = option_map disk_image (disk fs10)
    /\ (exists fs'', fs_load_inode fs' 0
                     = Ok (Some {| valid := 1; size := 0; direct := [0; 0; 0; 0; 0];
                                   indirect := 0 |}, fs'')).
Proof.
  apply (fs_write_past_size_rejected fs10 0 [] 3 5
           {| valid := 1; size := 0; direct := [0; 0; 0; 0; 0]; indirect := 0 |}
           (set_disk fs10 (option_map count_read (disk fs10)))).
  - vm_compute. reflexivity.
  - vm_compute. reflexivity.
Defined.

Lemma wrap32_u32 (z : Z) : u32 z -> wrap32 z = z.
Proof. intros H. unfold wrap32. apply Z.mod_small. exact H. Qed.

Lemma set_size_same (node : Inode) : set_size node (size node) = node.
Proof. destruct node. reflexivity. Qed.

(** [fs_save_inode] on a slot of a readable inode block. *)
Lemma assert_fs_save_inode_ok fs d n node b :
  disk fs = Some d -> n < inodes (meta_data fs) ->
  n / INODES_PER_BLOCK + 1 < disk_blocks d ->
  disk_image d !! Z.to_nat (n / INODES_PER_BLOCK + 1) = Some b ->
  assert_fs_save_inode fs n node
  = Ok (set_disk fs
          (Some (count_write
                   (store (count_read d) (n / INODES_PER_BLOCK + 1)
                      (of_inodes (<[Z.to_nat (n mod INODES_PER_BLOCK) := node]>
                                    (inodes_of b))))))).
Proof.
  intros Hd Hn Hk Hb. unfold assert_fs_save_inode, fs_save_inode.
  assert ((n >=? inodes (meta_data fs)) = false) as -> by lia.
  rewrite Hd, (assert_disk_read_ok d _ _ b) by assumption.
  cbn [bind].
  rewrite assert_disk_write_ok; [reflexivity|exact Hk|].
  cbn [count_read disk_image]. apply lookup_lt_Some in Hb. exact Hb.
Qed.

(** For an inode that [fs_load_inode] loads and an offset within its size, a
    write of length 0 returns 0, leaves the bitmap as it is, and the inode
    record read back afterwards (size, direct pointers, indirect pointer) is
    the record read before. *)
Theorem fs_write_nothing fs n data offset node fs1 :
  fs_load_inode fs n = Ok (Some node, fs1) ->
  offset <= size node ->
  exists fs',
    fs_write fs n data 0 offset = Ok (0, fs')
    /\ free_blocks fs' = free_blocks fs
    /\ (exists fs'', fs_load_inode fs' n = Ok (Some node, fs'')).
Proof.
  intros Hload Hoff.
  pose proof (wf_inode_loaded _ _ _ _ Hload) as (_ & Hsz & _).
  destruct (fs_load_inode_frame _ _ _ _ Hload) as (Hfb & Hm & _ & _).
  pose proof Hload as Hinv.
  apply fs_load_inode_some in Hinv as (d & b & slot & Hd & Hn & Hk & Hb & Hs & Hv & Hnode & ->).
  unfold fs_write. rewrite Hload. cbn [bind].
  assert ((offset >? size node) = false) as -> by lia.
  rewrite write_direct_loop_nothing by reflexivity.
  cbn [bind negb andb ws_length ws_node ws_offset ws_fs ws_written].
  change (0 <? 0) with false.
  cbn [bind ws_length ws_node ws_offset ws_fs ws_written].
  assert ((offset >? size node) = false) as -> by lia.
  rewrite wrap32_u32 by exact Hsz. rewrite set_size_same.
  rewrite (assert_fs_save_inode_ok _ (count_read d) n node b);
    [|reflexivity|exact Hn|exact Hk|exact Hb].
  cbn [bind]. eexists. split; [reflexivity|]. split; [reflexivity|].
  rewrite list_insert_id by exact Hnode.
  unfold fs_load_inode. cbn [set_disk meta_data disk].
  assert ((n >=? inodes (meta_data fs)) = false) as -> by lia.
  assert (Hlt : (Z.to_nat (n / INODES_PER_BLOCK + 1) < length (disk_image d))%nat)
    by (apply lookup_lt_Some in Hb; exact Hb).
  rewrite (assert_disk_read_ok _ _ _ (of_inodes (inodes_of b)));
    [|exact Hk|cbn; apply list_lookup_insert_eq; exact Hlt].
  cbn [bind].
  rewrite inodes_of_of_inodes by apply inodes_of_wf.
  rewrite Hs. assert ((valid slot =? 0) = false) as -> by lia.
  rewrite Hnode. eauto.
Qed.

Lemma fs_write_nothing_witness :
  exists fs',
    fs_write fs10 0 [] 0 0 = Ok (0, fs')
    /\ free_blocks fs' = free_blocks fs10
    /\ (exists fs'', fs_load_inode fs' 0
                     = Ok (Some {| valid := 1; size := 0; direct := [0; 0; 0; 0; 0];
                                   indirect := 0 |}, fs'')).
Proof.
  apply (fs_write_nothing fs10 0 [] 0
           {| valid := 1; size := 0; direct := [0; 0; 0; 0; 0]; indirect := 0 |}
           (set_disk fs10 (option_map count_read (disk fs10)))).
  - vm_compute. reflexivity.
  - vm_compute. discriminate.
Defined.

(** ** The validity test of [fs_load_inode] *)

(** C4, where the code departs from it: [fs_load_inode] tests
    [block.inodes[inode_number].valid] with the inode number itself, not with
    [inode_number % INODES_PER_BLOCK].  For every inode number from
    [INODES_PER_BLOCK] on, whatever the slot [n % INODES_PER_BLOCK] of inode
    block [n / INODES_PER_BLOCK + 1] holds, the test reads past the 128
    inodes of the block. *)
Theorem fs_load_inode_second_block fs d n b :
  disk fs = Some d ->
  INODES_PER_BLOCK <= n < inodes (meta_data fs) ->
  n / INODES_PER_BLOCK + 1 < disk_blocks d ->
  disk_image d !! Z.to_nat (n / INODES_PER_BLOCK + 1) = Some b ->
  wf_block b ->
  fs_load_inode fs n = Fault OutOfBounds.
Proof.
  intros Hd Hn Hk Hb Hwf. unfold fs_load_inode.
  assert ((n >=? inodes (meta_data fs)) = false) as -> by lia.
  rewrite Hd, (assert_disk_read_ok d _ _ b) by assumption.
  cbn [bind].
  rewrite (lookup_ge_None_2 (inodes_of b) (Z.to_nat n)); [reflexivity|].
  rewrite length_inodes_of by exact Hwf. unfold INODES_PER_BLOCK in Hn. lia.
Qed.

(** On a 20-block image with inodes 0..128 created, slot [128 % 128] of inode
    block [128 / 128 + 1] is valid, and [fs_load_inode(128)] faults. *)
Lemma fs_load_inode_second_block_witness :
  (valid <$> inodes_of (block_at fs20 (128 / INODES_PER_BLOCK + 1))
               !! Z.to_nat (128 mod INODES_PER_BLOCK)) = Some 1
  /\ fs_load_inode fs20 128 = Fault OutOfBounds.
Proof.
  split.
  - vm_compute. reflexivity.
  - apply (fs_load_inode_second_block fs20 (disk_of fs20) 128 (block_at fs20 2)).
    + vm_compute. reflexivity.
    + vm_compute. split; [discriminate|reflexivity].
    + vm_compute. reflexivity.
    + vm_compute. reflexivity.
    + vm_compute. reflexivity.
Defined.

(** ** Inodes past the first inode block *)

(** The index of the validity test, on a handle whose inode block can be
    read: for an inode number from [INODES_PER_BLOCK] on, the test is past
    the end of [block.inodes]. *)
Lemma fs_load_inode_raw_index fs d n b :
  disk fs = Some d ->
  INODES_PER_BLOCK <= n < inodes (meta_data fs) ->
  n / INODES_PER_BLOCK + 1 < disk_blocks d ->
  disk_image d !! Z.to_nat (n / INODES_PER_BLOCK + 1) = Some b ->
  wf_block b ->
  fs_load_inode fs n = Fault OutOfBounds.
Proof.
  intros Hd Hn Hk Hb Hwf. unfold fs_load_inode.
  assert ((n >=? inodes (meta_data fs)) = false) as -> by lia.
  rewrite Hd, (assert_disk_read_ok d _ _ b) by assumption.
  cbn [bind].
  rewrite (lookup_ge_None_2 (inodes_of b) (Z.to_nat n)); [reflexivity|].
  rewrite length_inodes_of by exact Hwf. unfold INODES_PER_BLOCK in Hn. lia.
Qed.

(** C6, where the code departs from it: [fs_remove] begins with
    [fs_load_inode], whose validity test indexes the inode block with the
    inode number itself.  For an inode number from [INODES_PER_BLOCK] on,
    whether slot [n % INODES_PER_BLOCK] of its inode block is valid or not,
    [fs_remove] reads [block.inodes[n]] past the end of the block instead of
    releasing the blocks of a valid inode or returning [false] for one that
    is not valid.  The same defect as C4. *)
Theorem fs_remove_second_block fs d n b node :
  disk fs = Some d ->
  INODES_PER_BLOCK <= n < inodes (meta_data fs) ->
  n / INODES_PER_BLOCK + 1 < disk_blocks d ->
  disk_image d !! Z.to_nat (n / INODES_PER_BLOCK + 1) = Some b ->
  wf_block b ->
  inodes_of b !! Z.to_nat (n mod INODES_PER_BLOCK) = Some node ->
  fs_remove fs n = Fault OutOfBounds.
Proof.
  intros Hd Hn Hk Hb Hwf _. unfold fs_remove.
  rewrite (fs_load_inode_raw_index fs d n b) by assumption. reflexivity.
Qed.

(** On the 20-block image with inodes 0..128 created: inode 200 is not valid
    and inode 128 is, and [fs_remove] of either reads past the inode block. *)
Lemma fs_remove_second_block_witness :
  (valid zero_inode = 0 /\ fs_remove fs20 200 = Fault OutOfBounds)
  /\ (valid new_inode <> 0 /\ fs_remove fs20 128 = Fault OutOfBounds).
Proof.
  split; (split; [vm_compute; congruence|]).
  - apply (fs_remove_second_block fs20 (disk_of fs20) 200 (block_at fs20 2) zero_inode).
    + vm_compute. reflexivity.
    + vm_compute. split; [discriminate|reflexivity].
    + vm_compute. reflexivity.
    + vm_compute. reflexivity.
    + vm_compute. reflexivity.
    + vm_compute. reflexivity.
  - apply (fs_remove_second_block fs20 (disk_of fs20) 128 (block_at fs20 2) new_inode).
    + vm_compute. reflexivity.
    + vm_compute. split; [discriminate|reflexivity].
    + vm_compute. reflexivity.
    + vm_compute. reflexivity.
    + vm_compute. reflexivity.
    + vm_compute. reflexivity.
Defined.

(** C7, where the code departs from it: for a valid inode whose number is
    [INODES_PER_BLOCK] or more, [fs_write] at an offset beyond the size of
    the inode does not return 0: its [fs_load_inode] reads
    [block.inodes[n]] past the end of the inode block before the offset is
    looked at.  The same defect as C4. *)
Theorem fs_write_past_size_second_block fs d n b node data length offset :
  disk fs = Some d ->
  INODES_PER_BLOCK <= n < inodes (meta_data fs) ->
  n / INODES_PER_BLOCK + 1 < disk_blocks d ->
  disk_image d !! Z.to_nat (n / INODES_PER_BLOCK + 1) = Some b ->
  wf_block b ->
  inodes_of b !! Z.to_nat (n mod INODES_PER_BLOCK) = Some node ->
  valid node <> 0 -> offset > size node ->
  fs_write fs n data length offset = Fault OutOfBounds.
Proof.
  intros Hd Hn Hk Hb Hwf _ _ _. unfold fs_write.
  rewrite (fs_load_inode_raw_index fs d n b) by assumption. reflexivity.
Qed.

(** On the 20-block image with inodes 0..128 created, a write of 3 bytes at
    offset 5 to the empty inode 128. *)
Lemma fs_write_past_size_second_block_witness :
  fs_write fs20 128 (replicate 3 "a"%byte) 3 5 = Fault OutOfBounds.
Proof.
  apply (fs_write_past_size_second_block fs20 (disk_of fs20) 128 (block_at fs20 2) new_inode).
  - vm_compute. reflexivity.
  - vm_compute. split; [discriminate|reflexivity].
  - vm_compute. reflexivity.
  - vm_compute. reflexivity.
  - vm_compute. reflexivity.
  - vm_compute. reflexivity.
  - vm_compute. discriminate.
  - vm_compute. reflexivity.
Defined.

(** C9, where the code departs from it: for a valid inode whose number is
    [INODES_PER_BLOCK] or more, a write of length 0 at an offset within the
    size does not return 0 either: [fs_load_inode] reads [block.inodes[n]]
    past the end of the inode block.  The same defect as C4. *)
Theorem fs_write_nothing_second_block fs d n b node data offset :
  disk fs = Some d ->
  INODES_PER_BLOCK <= n < inodes (meta_data fs) ->
  n / INODES_PER_BLOCK + 1 < disk_blocks d ->
  disk_image d !! Z.to_nat (n / INODES_PER_BLOCK + 1) = Some b ->
  wf_block b ->
  inodes_of b !! Z.to_nat (n mod INODES_PER_BLOCK) = Some node ->
  valid node <> 0 -> 0 <= offset <= size node ->
  fs_write fs n data 0 offset = Fault OutOfBounds.
Proof.
  intros Hd Hn Hk Hb Hwf _ _ _. unfold fs_write.
  rewrite (fs_load_inode_raw_index fs d n b) by assumption. reflexivity.
Qed.

(** On the 20-block image with inodes 0..128 created, a write of no byte at
    offset 0 to the empty inode 128. *)
Lemma fs_write_nothing_second_block_witness :
  fs_write fs20 128 [] 0 0 = Fault OutOfBounds.
Proof.
  apply (fs_write_nothing_second_block fs20 (disk_of fs20) 128 (block_at fs20 2) new_inode).
  - vm_compute. reflexivity.
  - vm_compute. split; [discriminate|reflexivity].
  - vm_compute. reflexivity.
  - vm_compute. reflexivity.
  - vm_compute. reflexivity.
  - vm_compute. reflexivity.
  - vm_compute. discriminate.
  - vm_compute. split; discriminate.
Defined.

(** ** The indirect loop of [fs_write] *)

(** C3, where the code departs from it: the loop of [fs_write] over the
    indirect block is [while (length > 0)], with no test of the pointer index
    against [POINTERS_PER_BLOCK].  A write of at least one byte at an offset
    in or past block [POINTERS_PER_INODE + POINTERS_PER_BLOCK] of a file that
    has an indirect block accesses [block.pointers[p]] with [p >= 1024]. *)
Theorem fs_write_past_last_pointer fs n data length offset node fs1 d blk :
  fs_load_inode fs n = Ok (Some node, fs1) ->
  offset <= size node ->
  (POINTERS_PER_INODE + POINTERS_PER_BLOCK) * BLOCK_SIZE <= offset ->
  0 < length ->
  indirect node <> 0 ->
  disk fs = Some d ->
  indirect node < disk_blocks d ->
  disk_image d !! Z.to_nat (indirect node) = Some blk ->
  fs_write fs n data length offset = Fault OutOfBounds.
Proof.
  intros Hload Hoff Hcap Hlen Hind Hd Hk Hblk.
  pose proof Hload as Hinv.
  apply fs_load_inode_some in Hinv as (d' & _ & _ & Hd' & _ & _ & _ & _ & _ & _ & ->).
  rewrite Hd in Hd'. injection Hd' as <-.
  unfold fs_write. rewrite Hload. cbn [bind].
  assert ((offset >? size node) = false) as -> by lia.
  assert (Hpoint : 1029 <= offset / BLOCK_SIZE).
  { apply Z.div_le_lower_bound; unfold POINTERS_PER_INODE, POINTERS_PER_BLOCK, BLOCK_SIZE in *; lia. }
  replace (Z.to_nat (POINTERS_PER_INODE - offset / BLOCK_SIZE)) with O
    by (unfold POINTERS_PER_INODE; lia).
  cbn [write_direct_loop bind negb andb ws_length].
  assert ((0 <? length) = true) as -> by lia.
  unfold write_indirect. cbn [ws_point ws_node ws_fs ws_length ws_offset ws_written].
  assert ((offset / BLOCK_SIZE - POINTERS_PER_INODE <? 0) = false) as ->
    by (unfold POINTERS_PER_INODE; lia).
  assert ((indirect node =? 0) = false) as -> by lia.
  cbn [set_disk disk].
  rewrite (assert_disk_read_ok _ _ _ blk) by assumption.
  cbn [bind].
  replace (Z.to_nat (POINTERS_PER_BLOCK - (offset / BLOCK_SIZE - POINTERS_PER_INODE))) with O
    by (unfold POINTERS_PER_INODE, POINTERS_PER_BLOCK; lia).
  cbn [write_indirect_loop ws_length].
  assert ((0 <? length) = true) as -> by lia.
  reflexivity.
Qed.

(** ** Reads that start inside a block *)

(** C1, where the code departs from it: [fs_write] cuts the first slice at
    the end of the block ([remaining = BLOCK_SIZE - offset % BLOCK_SIZE]),
    [fs_read] does not ([read_size] is [min(length - sum, BLOCK_SIZE)] whatever
    the offset in the block).  On a file of 4000 bytes, [fs_write] of 200
    bytes at offset 4000 returns 200; the [fs_read] of those 200 bytes at
    offset 4000 copies [block_data[4000..4200)] out of an array of 4096
    bytes. *)
Theorem fs_read_after_unaligned_write :
  match fs_write fs_4000 0 (replicate 200 "b"%byte) 200 4000 with
  | Ok (w, fs') =>
      w = 200 /\ fs_read fs' 0 (replicate 200 x00) w 4000 = Fault OutOfBounds
  | Fault _ => False
  end.
Proof. vm_compute. split; reflexivity. Qed.

(** C5, where the code departs from it: an iteration of the loops of
    [fs_read] that starts inside a block and has more bytes left than the
    block holds from there copies past the end of [block_data]; the offset is
    advanced by [read_size], not to the block boundary. *)
Theorem read_loop_unaligned_start n ptrs length st p d blk :
  rs_sum st < length ->
  ptrs !! Z.to_nat (rs_i st) = Some p -> p <> 0 ->
  disk (rs_fs st) = Some d -> p < disk_blocks d ->
  disk_image d !! Z.to_nat p = Some blk -> wf_block blk ->
  BLOCK_SIZE - rs_offset st mod BLOCK_SIZE < length - rs_sum st ->
  rs_offset st mod BLOCK_SIZE <> 0 ->
  read_loop (S n) ptrs length st = Fault OutOfBounds.
Proof.
  intros Hsum Hp Hp0 Hd Hk Hblk Hwf Hspan Hun.
  cbn [read_loop].
  assert ((rs_sum st <? length) = true) as -> by lia. cbn [negb].
  rewrite Hp. assert ((p =? 0) = false) as -> by lia.
  rewrite Hd, (assert_disk_read_ok d _ _ blk) by assumption.
  cbn [bind]. unfold memcpy. rewrite Hwf. change (Z.of_nat 4096) with 4096.
  pose proof (Z.mod_pos_bound (rs_offset st) BLOCK_SIZE ltac:(reflexivity)) as Hm.
  destruct (length - rs_sum st <? BLOCK_SIZE) eqn:Hrs.
  - assert ((4096 <? rs_offset st mod BLOCK_SIZE + (length - rs_sum st)) = true) as ->
      by (unfold BLOCK_SIZE in *; lia).
    rewrite !orb_true_r. reflexivity.
  - assert ((4096 <? rs_offset st mod BLOCK_SIZE + BLOCK_SIZE) = true) as ->
      by (unfold BLOCK_SIZE in *; lia).
    rewrite !orb_true_r. reflexivity.
Qed.

(** On a file of two blocks, the read of 5000 bytes at offset 100. *)
Lemma read_loop_unaligned_start_witness :
  read_loop 5 (direct (loaded fs_two_blocks 0)) 5000
    {| rs_fs := after_load fs_two_blocks; rs_data := replicate 5000 x00;
       rs_i := 0; rs_sum := 0; rs_offset := 100 |} = Fault OutOfBounds
  /\ fs_read fs_two_blocks 0 (replicate 5000 x00) 5000 100 = Fault OutOfBounds.
Proof.
  split.
  - apply (read_loop_unaligned_start 4 (direct (loaded fs_two_blocks 0)) 5000
             {| rs_fs := after_load fs_two_blocks; rs_data := replicate 5000 x00;
                rs_i := 0; rs_sum := 0; rs_offset := 100 |}
             2 (count_read (disk_of fs_two_blocks)) (block_at fs_two_blocks 2)).
    + reflexivity.
    + vm_compute. reflexivity.
    + discriminate.
    + vm_compute. reflexivity.
    + vm_compute. reflexivity.
    + vm_compute. reflexivity.
    + vm_compute. reflexivity.
    + vm_compute. reflexivity.
    + vm_compute. discriminate.
  - vm_compute. reflexivity.
Defined.

(** ** Releasing pointers *)

Lemma bitmap_set_ok fs fb i v :
  free_blocks fs = Some fb -> 0 <= i < Z.of_nat (length fb) ->
  bitmap_set fs i v = Ok (set_free_blocks fs (Some (<[Z.to_nat i := v]> fb))).
Proof.
  intros Hfb Hi. unfold bitmap_set. rewrite Hfb.
  assert ((i <? 0) = false) as -> by lia.
  assert ((Z.of_nat (length fb) <=? i) = false) as -> by lia.
  reflexivity.
Qed.

Lemma bitmap_set_inv fs i v fs' :
  bitmap_set fs i v = Ok fs' ->
  exists fb, free_blocks fs = Some fb /\ 0 <= i < Z.of_nat (length fb)
             /\ fs' = set_free_blocks fs (Some (<[Z.to_nat i := v]> fb)).
Proof.
  unfold bitmap_set. destruct (free_blocks fs) as [fb|]; [|discriminate].
  destruct (i <? 0) eqn:H0; [discriminate|].
  destruct (Z.of_nat (length fb) <=? i) eqn:H1; [discriminate|].
  cbn. intros [= <-]. exists fb. split; [reflexivity|]. split; [lia|reflexivity].
Qed.

Lemma length_set_all v bs fb : length (set_all v bs fb) = length fb.
Proof.
  unfold set_all. revert fb. induction bs as [|b bs IH]; intros fb; [reflexivity|].
  cbn [foldl]. rewrite IH. apply length_insert.
Qed.

Lemma set_all_app v bs1 bs2 fb : set_all v (bs1 ++ bs2) fb = set_all v bs2 (set_all v bs1 fb).
Proof. unfold set_all. apply foldl_app. Qed.

(** The walk over a pointer array assigns [v] at the pointers in use, in
    order, and stops at index [i + length (used ptrs)]. *)
Lemma mark_pointers_ok v ptrs i fs fb :
  free_blocks fs = Some fb ->
  Forall (fun p => 0 <= p < Z.of_nat (length fb)) (used ptrs) ->
  mark_pointers v ptrs i fs
  = Ok (i + Z.of_nat (length (used ptrs)),
        set_free_blocks fs (Some (set_all v (used ptrs) fb))).
Proof.
  revert i fs fb. induction ptrs as [|p ptrs IH]; intros i fs fb Hfb Hr.
  - cbn. rewrite Z.add_0_r. destruct fs; cbn in *; subst; reflexivity.
  - cbn [mark_pointers used] in *. destruct (p =? 0) eqn:Hp.
    + cbn. rewrite Z.add_0_r. destruct fs; cbn in *; subst; reflexivity.
    + apply Forall_cons in Hr as [Hp1 Hr].
      rewrite (bitmap_set_ok fs fb) by assumption. cbn [bind].
      rewrite (IH _ _ (<[Z.to_nat p := v]> fb)).
      * cbn [length set_free_blocks disk meta_data free_blocks]. f_equal. f_equal. lia.
      * reflexivity.
      * rewrite length_insert. exact Hr.
Qed.

Lemma fs_load_inode_none_or_some fs n fs' :
  fs_load_inode fs n = Ok (None, fs') -> fs_remove fs n = Ok (false, fs').
Proof. intros H. unfold fs_remove. rewrite H. reflexivity. Qed.

(** For an inode with an indirect block that [fs_load_inode] loads,
    [fs_remove] marks free the direct pointers in use, then the pointers of
    the indirect block up to the first zero entry, then the indirect block
    itself if and only if at least one pointer of it was in use; on an inode
    that [fs_load_inode] reports as not valid it returns [false].
    [released] is the list of the bitmap entries it sets to [false], in
    order. *)
Theorem fs_remove_releases_indirect :
  (forall fs n node fs1 d fb blk,
      fs_load_inode fs n = Ok (Some node, fs1) ->
      indirect node <> 0 ->
      disk fs = Some d -> free_blocks fs = Some fb ->
      indirect node < disk_blocks d ->
      disk_image d !! Z.to_nat (indirect node) = Some blk ->
      Forall (fun p => 0 <= p < Z.of_nat (length fb))
        (used (direct node) ++ used (pointers_of blk) ++ [indirect node]) ->
      exists fs' released,
        fs_remove fs n = Ok (true, fs')
        /\ free_blocks fs'
           = Some (set_all false
                     (used (direct node) ++ used (pointers_of blk) ++ released) fb)
        /\ (released = [indirect node] \/ released = [])
        /\ (released = [indirect node] <-> used (pointers_of blk) <> []))
  /\ (forall fs n fs1,
         fs_load_inode fs n = Ok (None, fs1) -> fs_remove fs n = Ok (false, fs1)).
Proof.
  split; [|exact fs_load_inode_none_or_some].
  intros fs n node fs1 d fb blk Hload Hind Hd Hfb Hk Hblk Hrange.
  apply Forall_app in Hrange as [Hr1 Hr2]. apply Forall_app in Hr2 as [Hr2 Hr3].
  apply Forall_cons in Hr3 as [Hr3 _].
  pose proof Hload as Hinv.
  apply fs_load_inode_some in Hinv
    as (d' & b & slot & Hd' & Hn & Hkb & Hb & Hs & Hv & Hnode & ->).
  rewrite Hd in Hd'. injection Hd' as <-.
  unfold fs_remove. rewrite Hload. cbn [bind].
  rewrite (mark_pointers_ok false (direct node) 0 _ fb) by assumption.
  cbn [bind]. assert ((indirect node =? 0) = false) as -> by lia. cbn [negb].
  cbn [set_free_blocks set_disk disk].
  rewrite (assert_disk_read_ok _ _ _ blk) by assumption.
  cbn [bind].
  rewrite (mark_pointers_ok false (pointers_of blk) 0 _ (set_all false (used (direct node)) fb));
    [|reflexivity|rewrite length_set_all; exact Hr2].
  cbn [bind].
  set (fs2 := set_free_blocks _ _).
  assert (Hsave : forall fs3 : FileSystem,
             disk fs3 = disk fs2 -> meta_data fs3 = meta_data fs ->
             exists fs', assert_fs_save_inode fs3 n zero_inode = Ok fs'
                         /\ free_blocks fs' = free_blocks fs3).
  { intros fs3 Hd3 Hm3.
    erewrite (assert_fs_save_inode_ok fs3 _ n zero_inode b).
    - eexists. split; reflexivity.
    - rewrite Hd3. reflexivity.
    - rewrite Hm3. exact Hn.
    - exact Hkb.
    - exact Hb. }
  destruct (decide (used (pointers_of blk) = [])) as [Hused|Hused].
  - rewrite Hused in *.
    change (0 + Z.of_nat (length (@nil Z)) =? 0) with true. cbn [negb bind].
    destruct (Hsave fs2) as (fs' & -> & Hfb'); [reflexivity|reflexivity|].
    exists fs', []. cbn [bind]. split; [reflexivity|].
    split.
    { rewrite Hfb'. subst fs2. cbn [set_free_blocks free_blocks].
      rewrite ?Hused, app_nil_r. reflexivity. }
    split; [right; reflexivity|]. split; [discriminate|congruence].
  - assert ((0 + Z.of_nat (length (used (pointers_of blk))) =? 0) = false) as ->.
    { apply Z.eqb_neq. destruct (used (pointers_of blk)); [congruence|cbn [length]; lia]. }
    cbn [negb].
    rewrite (bitmap_set_ok fs2
               (set_all false (used (pointers_of blk)) (set_all false (used (direct node)) fb)));
      [|reflexivity|rewrite !length_set_all; exact Hr3].
    cbn [bind].
    destruct (Hsave (set_free_blocks fs2
                (Some (<[Z.to_nat (indirect node) := false]>
                   (set_all false (used (pointers_of blk))
                      (set_all false (used (direct node)) fb))))))
      as (fs' & -> & Hfb'); [reflexivity|reflexivity|].
    exists fs', [indirect node]. cbn [bind]. split; [reflexivity|].
    split.
    { rewrite Hfb'. cbn [set_free_blocks free_blocks].
      rewrite !set_all_app. reflexivity. }
    split; [left; reflexivity|]. split; [intros _; exact Hused|reflexivity].
Qed.

(** Inode 0 of [fs_seven_blocks] has direct blocks 2..6, the indirect block 7
    and, behind it, blocks 8 and 9. *)
Lemma fs_remove_releases_indirect_witness :
  exists fs' released,
    fs_remove fs_seven_blocks 0 = Ok (true, fs')
    /\ free_blocks fs'
       = Some (set_all false ([2; 3; 4; 5; 6] ++ [8; 9] ++ released) (replicate 10 true))
    /\ (released = [7] \/ released = [])
    /\ (released = [7] <-> [8; 9] <> []).
Proof.
  apply (proj1 fs_remove_releases_indirect fs_seven_blocks 0
           {| valid := 1; size := 28672; direct := [2; 3; 4; 5; 6]; indirect := 7 |}
           (after_load fs_seven_blocks) (disk_of fs_seven_blocks)
           (replicate 10 true) (block_at fs_seven_blocks 7)).
  - vm_compute. reflexivity.
  - discriminate.
  - vm_compute. reflexivity.
  - vm_compute. reflexivity.
  - vm_compute. reflexivity.
  - vm_compute. reflexivity.
  - refine (bool_decide_unpack _ _). vm_compute. exact I.
Defined.

(** ** What [fs_debug] prints *)

Lemma string_app_assoc (a b c : string) : ((a ++ b) ++ c = a ++ (b ++ c))%string.
Proof. induction a as [|x a IH]; cbn; [reflexivity|]. rewrite IH. reflexivity. Qed.

Lemma same_past_super_count_read d1 d2 :
  same_past_super d1 d2 -> same_past_super (count_read d1) (count_read d2).
Proof. intros H. exact H. Qed.

Lemma assert_disk_read_same d1 d2 k buf :
  same_past_super d1 d2 -> 0 < k ->
  match assert_disk_read (Some d1) k buf, assert_disk_read (Some d2) k buf with
  | Ok (b1, o1), Ok (b2, o2) => b1 = b2 /\ same_disks o1 o2
  | Fault f1, Fault f2 => f1 = f2
  | _, _ => False
  end.
Proof.
  intros [Hblocks Himg] Hk.
  unfold assert_disk_read, disk_read, disk_sanity_check. rewrite <- Hblocks.
  destruct (k <? disk_blocks d1); cbn [negb]; [|reflexivity].
  rewrite <- (Himg (Z.to_nat k)) by lia.
  destruct (disk_image d1 !! Z.to_nat k) as [b|]; cbn; [|reflexivity].
  split; [reflexivity|]. exists (count_read d1), (count_read d2).
  split; [reflexivity|]. split; [reflexivity|]. split; assumption.
Qed.

Lemma debug_inode_same o1 o2 i node :
  same_disks o1 o2 -> 0 <= indirect node ->
  same_run (debug_inode o1 i node) (debug_inode o2 i node).
Proof.
  intros (d1 & d2 & -> & -> & Hsame) Hind. unfold debug_inode.
  assert (Hrefl : same_disks (Some d1) (Some d2)) by (exists d1, d2; auto).
  destruct (valid node =? 0); [split; [reflexivity|exact Hrefl]|].
  destruct (indirect node =? 0) eqn:Hz; cbn [negb]; [split; [reflexivity|exact Hrefl]|].
  pose proof (assert_disk_read_same d1 d2 (indirect node) zero_block Hsame ltac:(lia)) as H.
  destruct (assert_disk_read (Some d1) _ _) as [[b1 o1]|f1],
           (assert_disk_read (Some d2) _ _) as [[b2 o2]|f2]; try contradiction.
  - destruct H as [-> H]. split; [reflexivity|exact H].
  - split; [reflexivity|exact H].
Qed.

Lemma debug_inodes_same table : forall o1 o2 i,
  same_disks o1 o2 -> Forall wf_inode table ->
  same_run (debug_inodes o1 i table) (debug_inodes o2 i table).
Proof.
  induction table as [|node table IH]; intros o1 o2 i Hsame Hwf.
  - split; [reflexivity|exact Hsame].
  - apply Forall_cons in Hwf as [(_ & _ & _ & _ & Hind) Hwf].
    cbn [debug_inodes].
    destruct (debug_inode_same o1 o2 i node Hsame ltac:(apply Hind)) as [Hs Hr].
    destruct (debug_inode o1 i node) as [s1 [o1'|f1]],
             (debug_inode o2 i node) as [s2 [o2'|f2]]; cbn in Hs, Hr; try contradiction.
    + destruct (IH o1' o2' (i + 1) Hr Hwf) as [Hs' Hr'].
      destruct (debug_inodes o1' (i + 1) table) as [s1' r1],
               (debug_inodes o2' (i + 1) table) as [s2' r2].
      cbn in Hs', Hr'. subst. split; [reflexivity|exact Hr'].
    + subst. split; reflexivity.
Qed.

Lemma debug_blocks_same n : forall index o1 o2,
  same_disks o1 o2 -> 0 < index ->
  same_run (debug_blocks n index o1) (debug_blocks n index o2).
Proof.
  induction n as [|n IH]; intros index o1 o2 Hsame Hidx.
  - split; [reflexivity|exact Hsame].
  - cbn [debug_blocks].
    destruct Hsame as (d1 & d2 & -> & -> & Hsame).
    pose proof (assert_disk_read_same d1 d2 index zero_block Hsame Hidx) as H.
    destruct (assert_disk_read (Some d1) _ _) as [[b1 o1]|f1],
             (assert_disk_read (Some d2) _ _) as [[b2 o2]|f2]; try contradiction.
    + destruct H as [-> H].
      destruct (debug_inodes_same (inodes_of b2) o1 o2 0 H (inodes_of_wf b2)) as [Hs Hr].
      destruct (debug_inodes o1 0 (inodes_of b2)) as [s1 [o1'|f1]],
               (debug_inodes o2 0 (inodes_of b2)) as [s2 [o2'|f2]];
        cbn in Hs, Hr; try contradiction.
      * destruct (IH (index + 1) o1' o2' Hr ltac:(lia)) as [Hs' Hr'].
        destruct (debug_blocks n (index + 1) o1') as [s1' r1],
                 (debug_blocks n (index + 1) o2') as [s2' r2].
        cbn in Hs', Hr'. subst. split; [reflexivity|exact Hr'].
      * subst. split; reflexivity.
    + subst. split; reflexivity.
Qed.

Lemma words_with_super b sb :
  (16 <= length b)%nat ->
  words (with_super b sb)
  = wrap32 (magic_number sb) :: wrap32 (blocks sb) :: wrap32 (inode_blocks sb)
      :: wrap32 (inodes sb) :: words (drop 16 b).
Proof.
  intros _. unfold with_super. cbn [unwords].
  rewrite <- !app_assoc, !words_bytes32. reflexivity.
Qed.

Lemma words_drop_16 (b : Block) :
  (16 <= length b)%nat ->
  exists w0 w1 w2 w3, words b = w0 :: w1 :: w2 :: w3 :: words (drop 16 b).
Proof.
  intros H.
  do 16 (destruct b as [|? b]; [cbn in H; lia|]).
  cbn [words drop]. eauto.
Qed.

(** Storing a magic number leaves the other three fields of the superblock
    as they are. *)
Lemma super_of_with_magic b m :
  (16 <= length b)%nat ->
  blocks (super_of (with_magic b m)) = blocks (super_of b)
  /\ inode_blocks (super_of (with_magic b m)) = inode_blocks (super_of b)
  /\ inodes (super_of (with_magic b m)) = inodes (super_of b)
  /\ magic_number (super_of (with_magic b m)) = wrap32 m.
Proof.
  intros H.
  destruct (words_drop_16 b H) as (w0 & w1 & w2 & w3 & Hw).
  pose proof (words_range b) as Hr. rewrite Hw in Hr.
  apply Forall_cons in Hr as [_ Hr]. apply Forall_cons in Hr as [H1 Hr].
  apply Forall_cons in Hr as [H2 Hr]. apply Forall_cons in Hr as [H3 Hr].
  assert (Hb : super_of b
               = {| magic_number := w0; blocks := w1; inode_blocks := w2; inodes := w3 |})
    by (unfold super_of; rewrite Hw; reflexivity).
  assert (Hm : super_of (with_magic b m)
               = {| magic_number := wrap32 m; blocks := w1; inode_blocks := w2;
                    inodes := w3 |}).
  { unfold with_magic. rewrite Hb. cbn [magic_number blocks inode_blocks inodes].
    unfold super_of. rewrite words_with_super by exact H.
    cbn [magic_number blocks inode_blocks inodes].
    rewrite !(wrap32_u32 w1), !(wrap32_u32 w2), !(wrap32_u32 w3) by assumption.
    reflexivity. }
  rewrite Hb, Hm. repeat split; reflexivity.
Qed.

(** C10: on every disk whose block 0 can be read, [fs_debug] prints the line
    ["    magic number is valid"] right after ["SuperBlock:"], and what it
    prints is the same whatever value the [magic_number] field holds. *)
Theorem fs_debug_magic_unchecked :
  (forall d b0,
      0 < disk_blocks d -> disk_image d !! 0%nat = Some b0 ->
      exists rest,
        fst (fs_debug (Some d))
        = ("SuperBlock:" ++ nl ++ "    magic number is valid" ++ nl ++ rest)%string)
  /\ (forall d b0 magic,
         0 < disk_blocks d -> disk_image d !! 0%nat = Some b0 -> wf_block b0 ->
         fst (fs_debug (Some (store d 0 (with_magic b0 magic))))
         = fst (fs_debug (Some d))).
Proof.
  split.
  - intros d b0 Hblocks Hb0. unfold fs_debug.
    rewrite (assert_disk_read_ok d 0 _ b0) by assumption.
    destruct (inodes (super_of b0) =? 0).
    + eexists. cbn [fst]. reflexivity.
    + destruct (debug_blocks _ _ _) as [s' r]. cbn [fst].
      eexists. rewrite !string_app_assoc. reflexivity.
  - intros d b0 magic Hblocks Hb0 Hwf. unfold fs_debug.
    rewrite (assert_disk_read_ok d 0 _ b0) by assumption.
    rewrite (assert_disk_read_ok (store d 0 (with_magic b0 magic)) 0 _ (with_magic b0 magic));
      [|exact Hblocks|cbn; apply list_lookup_insert_eq; apply lookup_lt_Some in Hb0; exact Hb0].
    destruct (super_of_with_magic b0 magic ltac:(rewrite Hwf; lia)) as (-> & -> & -> & _).
    destruct (inodes (super_of b0) =? 0); [reflexivity|].
    assert (Hsame : same_disks (Some (count_read (store d 0 (with_magic b0 magic))))
                               (Some (count_read d))).
    { eexists _, _. split; [reflexivity|]. split; [reflexivity|]. split; [reflexivity|].
      intros k Hk. cbn. apply list_lookup_insert_ne. lia. }
    destruct (debug_blocks_same (Z.to_nat (inode_blocks (super_of b0))) 1 _ _ Hsame ltac:(lia))
      as [Hs _].
    destruct (debug_blocks _ 1 (Some (count_read (store d 0 _)))) as [s1 r1],
             (debug_blocks _ 1 (Some (count_read d))) as [s2 r2].
    cbn in Hs. cbn [fst]. rewrite Hs. reflexivity.
Qed.

(** On the disk of a mounted 10-block image with one file, with the magic
    number overwritten by 0. *)
Lemma fs_debug_magic_unchecked_witness :
  (exists rest,
      fst (fs_debug (Some (disk_of fs_seven_blocks)))
      = ("SuperBlock:" ++ nl ++ "    magic number is valid" ++ nl ++ rest)%string)
  /\ fst (fs_debug (Some (store (disk_of fs_seven_blocks) 0
                            (with_magic (block_at fs_seven_blocks 0) 0))))
     = fst (fs_debug (Some (disk_of fs_seven_blocks))).
Proof.
  split.
  - apply (proj1 fs_debug_magic_unchecked (disk_of fs_seven_blocks) (block_at fs_seven_blocks 0)).
    + vm_compute. reflexivity.
    + vm_compute. reflexivity.
  - apply (proj2 fs_debug_magic_unchecked (disk_of fs_seven_blocks)
             (block_at fs_seven_blocks 0) 0).
    + vm_compute. reflexivity.
    + vm_compute. reflexivity.
    + vm_compute. reflexivity.
Defined.

(** ** Building the bitmap at mount *)

Lemma blk_lookup (img : list Block) k b : img !! Z.to_nat k = Some b -> blk img k = b.
Proof. intros H. unfold blk. rewrite H. reflexivity. Qed.

Lemma blk_lt (img : list Block) k :
  (Z.to_nat k < length img)%nat -> img !! Z.to_nat k = Some (blk img k).
Proof.
  intros H. unfold blk. destruct (img !! Z.to_nat k) eqn:E; [reflexivity|].
  apply lookup_ge_None in E. lia.
Qed.

Section Bitmap.
(** The image and the extent of the disk, and the length of the bitmap. *)
Variables (img : list Block) (nblocks : Z).
Hypothesis Himg : length img = Z.to_nat nblocks.

Local Abbreviation holds := (holds img nblocks).

Lemma holds_set_bit fs fb i v :
  holds fs fb -> 0 <= i < nblocks ->
  exists fs', bitmap_set fs i v = Ok fs'
              /\ meta_data fs' = meta_data fs
              /\ holds fs' (<[Z.to_nat i := v]> fb).
Proof.
  intros (Hd & Hfb & Hlen) Hi.
  rewrite (bitmap_set_ok fs fb) by (try assumption; lia).
  eexists. split; [reflexivity|]. split; [reflexivity|].
  split; [exact Hd|]. split; [reflexivity|]. rewrite length_insert. exact Hlen.
Qed.

Lemma holds_read fs fb k buf :
  holds fs fb -> 0 <= k < nblocks ->
  exists d', assert_disk_read (disk fs) k buf = Ok (blk img k, Some d')
             /\ holds (set_disk fs (Some d')) fb.
Proof.
  intros ((d & Hd & Hi & Hb) & Hfb & Hlen) Hk.
  rewrite Hd, (assert_disk_read_ok d k buf (blk img k)).
  - eexists. split; [reflexivity|]. split; [|split; assumption].
    exists (count_read d). auto.
  - lia.
  - rewrite Hi. apply blk_lt. lia.
Qed.

Lemma holds_mark_pointers fs fb v ptrs i :
  holds fs fb -> Forall (fun p => 0 <= p < nblocks) (used ptrs) ->
  exists fs', mark_pointers v ptrs i fs = Ok (i + Z.of_nat (length (used ptrs)), fs')
              /\ meta_data fs' = meta_data fs
              /\ holds fs' (set_all v (used ptrs) fb).
Proof.
  intros (Hd & Hfb & Hlen) Hr.
  rewrite (mark_pointers_ok v ptrs i fs fb);
    [|exact Hfb|eapply Forall_impl; [exact Hr|intros p Hp; cbn in Hp; lia]].
  eexists. split; [reflexivity|]. split; [reflexivity|].
  split; [exact Hd|]. split; [reflexivity|]. rewrite length_set_all. exact Hlen.
Qed.

Lemma bitmap_inode_holds fs fb node :
  holds fs fb -> Forall (fun p => 0 <= p < nblocks) (node_marks img node) ->
  exists fs', bitmap_inode fs node = Ok fs'
              /\ meta_data fs' = meta_data fs
              /\ holds fs' (set_all true (node_marks img node) fb).
Proof.
  intros Hh Hr. unfold bitmap_inode, node_marks in *.
  destruct (valid node =? 0); [exists fs; auto|].
  apply Forall_app in Hr as [Hr1 Hr2].
  destruct (holds_mark_pointers fs fb true (direct node) 0 Hh Hr1) as (fs1 & -> & Hm1 & Hh1).
  cbn [bind].
  destruct (indirect node =? 0).
  { exists fs1. rewrite app_nil_r. auto. }
  apply Forall_cons in Hr2 as [Hi Hr2].
  destruct (holds_set_bit fs1 _ (indirect node) true Hh1 Hi) as (fs2 & -> & Hm2 & Hh2).
  cbn [bind].
  destruct (holds_read fs2 _ (indirect node) zero_block Hh2 Hi) as (d' & -> & Hh3).
  cbn [bind].
  destruct (holds_mark_pointers _ _ true (pointers_of (blk img (indirect node))) 0 Hh3 Hr2)
    as (fs4 & -> & Hm4 & Hh4).
  cbn [bind]. cbn [set_disk meta_data] in Hm4.
  exists fs4. split; [reflexivity|]. split; [congruence|].
  rewrite set_all_app. exact Hh4.
Qed.

Lemma bitmap_inodes_holds table : forall fs fb,
  holds fs fb -> Forall (fun p => 0 <= p < nblocks) (table_marks img table) ->
  exists fs', bitmap_inodes table fs = Ok fs'
              /\ meta_data fs' = meta_data fs
              /\ holds fs' (set_all true (table_marks img table) fb).
Proof.
  induction table as [|node table IH]; intros fs fb Hh Hr.
  - exists fs. auto.
  - unfold table_marks in *. cbn [map concat] in *.
    apply Forall_app in Hr as [Hr1 Hr2].
    destruct (bitmap_inode_holds fs fb node Hh Hr1) as (fs1 & H1 & Hm1 & Hh1).
    cbn [bitmap_inodes]. rewrite H1. cbn [bind].
    destruct (IH fs1 _ Hh1 Hr2) as (fs2 & -> & Hm2 & Hh2).
    exists fs2. split; [reflexivity|]. split; [congruence|].
    rewrite set_all_app. exact Hh2.
Qed.

Lemma bitmap_blocks_holds n : forall i fs fb,
  holds fs fb -> Forall (fun p => 0 <= p < nblocks) (blocks_marks img n i) ->
  exists fs', bitmap_blocks n i fs = Ok fs'
              /\ meta_data fs' = meta_data fs
              /\ holds fs' (set_all true (blocks_marks img n i) fb).
Proof.
  induction n as [|n IH]; intros i fs fb Hh Hr.
  - exists fs. auto.
  - cbn [blocks_marks bitmap_blocks] in *.
    apply Forall_cons in Hr as [Hi Hr]. apply Forall_app in Hr as [Hr1 Hr2].
    destruct (holds_set_bit fs fb i true Hh Hi) as (fs1 & -> & Hm1 & Hh1).
    cbn [bind].
    destruct (holds_read fs1 _ i zero_block Hh1 Hi) as (d' & -> & Hh2).
    cbn [bind].
    destruct (bitmap_inodes_holds (inodes_of (blk img i)) _ _ Hh2 Hr1) as (fs3 & -> & Hm3 & Hh3).
    cbn [bind].
    destruct (IH (i + 1) fs3 _ Hh3 Hr2) as (fs4 & -> & Hm4 & Hh4).
    cbn [set_disk meta_data] in Hm3.
    exists fs4. split; [reflexivity|]. split; [congruence|].
    change (i :: ?a ++ ?b) with ([i] ++ a ++ b). rewrite !set_all_app. exact Hh4.
Qed.
End Bitmap.

(** [fs_mount] of a mountable disk on a handle that is not bound. *)
Lemma fs_mount_ok fs d :
  disk fs = None -> mountable d ->
  exists fs' d',
    fs_mount fs (Some d) = Ok (true, fs', Some d')
    /\ disk fs' = Some d'
    /\ disk_image d' = disk_image d /\ disk_blocks d' = disk_blocks d
    /\ meta_data fs' = super_of (blk (disk_image d) 0)
    /\ free_blocks fs' = Some (bitmap_of d).
Proof.
  intros Hnone (Hpos & Hlen & Hmagic & Hblocks & Hinodes & Hmarks).
  unfold fs_mount. rewrite Hnone. cbn [bool_decide decide_rel].
  rewrite bool_decide_eq_false_2 by (intros H; apply H; reflexivity).
  rewrite (assert_disk_read_ok d 0 _ (blk (disk_image d) 0));
    [|exact Hpos|apply (blk_lt _ 0); lia].
  cbn [bind count_read disk_blocks].
  rewrite Hmagic, Hblocks, Hinodes, !Z.eqb_refl. cbn [negb orb].
  unfold fs_initialize_free_block_bitmap.
  cbn [meta_data].
  set (fs0 := set_free_blocks _ _).
  assert (Hh0 : holds (disk_image d) (disk_blocks d) fs0
                  (replicate (Z.to_nat (disk_blocks d)) false)).
  { split; [exists (count_read d); auto|]. split.
    - subst fs0. cbn. rewrite Hblocks. reflexivity.
    - apply length_replicate. }
  unfold image_marks in Hmarks. apply Forall_cons in Hmarks as [H0 Hmarks].
  destruct (holds_set_bit _ _ Hlen fs0 _ 0 true Hh0 H0) as (fs1 & -> & Hm1 & Hh1).
  cbn [bind].
  destruct (bitmap_blocks_holds _ _ Hlen _ 1 fs1 _ Hh1 Hmarks) as (fs2 & -> & Hm2 & Hh2).
  cbn [bind].
  destruct Hh2 as ((d' & Hd' & Hi' & Hb') & Hfb' & _).
  exists fs2, d'. rewrite Hd'.
  split; [reflexivity|]. split; [reflexivity|]. split; [exact Hi'|]. split; [exact Hb'|].
  split; [rewrite Hm2, Hm1; reflexivity|].
  rewrite Hfb'. unfold bitmap_of, image_marks.
  change (0 :: ?l) with ([0] ++ l). rewrite set_all_app. reflexivity.
Qed.

(** ** Mounting *)

(** C8: on a handle that is not bound, [fs_mount] of a disk whose block 0
    fails one of the three superblock checks returns [false]; the handle is
    left not bound and its bitmap pointer as it was, the image is not
    touched, and the handle still mounts every mountable disk afterwards. *)
Theorem fs_mount_bad_superblock fs d b0 :
  disk fs = None ->
  0 < disk_blocks d -> disk_image d !! 0%nat = Some b0 ->
  magic_number (super_of b0) <> MAGIC_NUMBER
  \/ blocks (super_of b0) <> disk_blocks d
  \/ inodes (super_of b0) <> inode_blocks (super_of b0) * INODES_PER_BLOCK ->
  exists fs' d',
    fs_mount fs (Some d) = Ok (false, fs', Some d')
    /\ disk fs' = None
    /\ free_blocks fs' = free_blocks fs
    /\ disk_image d' = disk_image d
    /\ (forall d2, mountable d2 ->
          exists fs2 d2',
            fs_mount fs' (Some d2) = Ok (true, fs2, Some d2')
            /\ disk fs2 = Some d2'
            /\ free_blocks fs2 = Some (bitmap_of d2)).
Proof.
  intros Hnone Hpos Hb0 Hbad.
  exists fs, (count_read d). split.
  - unfold fs_mount. rewrite Hnone.
    rewrite bool_decide_eq_false_2 by (intros H; apply H; reflexivity).
    rewrite (assert_disk_read_ok d 0 _ b0) by assumption.
    cbn [bind count_read disk_blocks].
    destruct (magic_number (super_of b0) =? MAGIC_NUMBER) eqn:Hm; cbn [negb orb]; [|reflexivity].
    destruct (blocks (super_of b0) =? disk_blocks d) eqn:Hb; cbn [negb]; [|reflexivity].
    destruct (inodes (super_of b0) =? inode_blocks (super_of b0) * INODES_PER_BLOCK) eqn:Hi;
      cbn [negb]; [|reflexivity].
    exfalso. apply Z.eqb_eq in Hm, Hb, Hi. tauto.
  - split; [exact Hnone|]. split; [reflexivity|]. split; [reflexivity|].
    intros d2 Hd2.
    destruct (fs_mount_ok fs d2 Hnone Hd2) as (fs2 & d2' & H & Hd & _ & _ & _ & Hfb).
    exists fs2, d2'. auto.
Qed.

(** A new, zeroed image has no magic number. *)
Lemma fs_mount_bad_superblock_witness :
  exists fs' d',
    fs_mount fresh_fs (Some (fresh_disk 10)) = Ok (false, fs', Some d')
    /\ disk fs' = None
    /\ free_blocks fs' = free_blocks fresh_fs
    /\ disk_image d' = disk_image (fresh_disk 10)
    /\ (forall d2, mountable d2 ->
          exists fs2 d2',
            fs_mount fs' (Some d2) = Ok (true, fs2, Some d2')
            /\ disk fs2 = Some d2'
            /\ free_blocks fs2 = Some (bitmap_of d2)).
Proof.
  apply (fs_mount_bad_superblock fresh_fs (fresh_disk 10) zero_block).
  - reflexivity.
  - reflexivity.
  - vm_compute. reflexivity.
  - left. vm_compute. discriminate.
Defined.

(** ** The bitmap after a remove *)

(** C2 as it is stated fails: after [two_files], inode 1 has an indirect
    block (block 9) with no pointer in it; [fs_remove] of inode 1 leaves
    block 9 marked in use, and the bitmap built by a remount has it free. *)
Lemma remount_differs_after_remove :
  match run (two_files ++ [Remove 1]) (handle_of (mounted 10)) with
  | Ok fs =>
      free_blocks fs
      = Some [true; true; true; true; false; false; false; false; false; true]
      /\ remount fs
         = Ok (true, Some [true; true; true; true; false; false; false; false; false; false])
  | Fault _ => False
  end.
Proof. vm_compute. split; reflexivity. Qed.

(** ** A write at the end of the last pointer *)

(** Inode 0 of [fs_grown] has the size of a file that uses all 1029 pointers
    of its inode; one more byte written at its end faults. *)
Lemma fs_write_past_last_pointer_witness :
  size (loaded fs_grown 0) = (POINTERS_PER_INODE + POINTERS_PER_BLOCK) * BLOCK_SIZE
  /\ fs_write fs_grown 0 ["a"%byte] 1 4214784 = Fault OutOfBounds.
Proof.
  split.
  - vm_compute. reflexivity.
  - apply (fs_write_past_last_pointer fs_grown 0 ["a"%byte] 1 4214784
             {| valid := 1; size := 4214784; direct := [2; 3; 4; 5; 6]; indirect := 7 |}
             (after_load fs_grown) (disk_of fs_grown) (block_at fs_grown 7)).
    + vm_compute. reflexivity.
    + vm_compute. discriminate.
    + vm_compute. discriminate.
    + reflexivity.
    + discriminate.
    + vm_compute. reflexivity.
    + vm_compute. reflexivity.
    + vm_compute. reflexivity.
Defined.

(** * Further properties of the code *)

(** ** disk.c *)

(** A block written with [disk_write] is what [disk_read] returns for that
    block afterwards; the other blocks keep their contents, the write is
    counted and the read counter is not touched. *)
Theorem disk_write_then_read d k data buf :
  0 <= k < disk_blocks d ->
  (Z.to_nat k < length (disk_image d))%nat ->
  exists d',
    disk_write (Some d) k data = (BLOCK_SIZE, Some d')
    /\ disk_read (Some d') k buf = (BLOCK_SIZE, data, Some (count_read d'))
    /\ (forall j, 0 <= j -> j <> k ->
          disk_image d' !! Z.to_nat j = disk_image d !! Z.to_nat j)
    /\ disk_blocks d' = disk_blocks d
    /\ disk_writes d' = wrap64 (disk_writes d + 1)
    /\ disk_reads d' = disk_reads d.
Proof.
  intros Hk Hlen. exists (count_write (store d k data)).
  split.
  { unfold disk_write, disk_sanity_check.
    assert ((k <? disk_blocks d) = true) as -> by lia. cbn [negb].
    apply Nat.ltb_lt in Hlen. rewrite Hlen. reflexivity. }
  split.
  { unfold disk_read, disk_sanity_check. cbn [count_write store disk_blocks disk_image].
    assert ((k <? disk_blocks d) = true) as -> by lia. cbn [negb].
    rewrite list_lookup_insert_eq by exact Hlen. reflexivity. }
  split.
  { intros j Hj Hne. cbn. apply list_lookup_insert_ne. lia. }
  repeat split.
Qed.

Lemma disk_write_then_read_witness :
  exists d',
    disk_write (Some (fresh_disk 4)) 2 (replicate 4096 "a"%byte) = (BLOCK_SIZE, Some d')
    /\ disk_read (Some d') 2 zero_block
       = (BLOCK_SIZE, replicate 4096 "a"%byte, Some (count_read d'))
    /\ (forall j, 0 <= j -> j <> 2 ->
          disk_image d' !! Z.to_nat j = disk_image (fresh_disk 4) !! Z.to_nat j)
    /\ disk_blocks d' = disk_blocks (fresh_disk 4)
    /\ disk_writes d' = wrap64 (disk_writes (fresh_disk 4) + 1)
    /\ disk_reads d' = disk_reads (fresh_disk 4).
Proof.
  apply (disk_write_then_read (fresh_disk 4) 2 (replicate 4096 "a"%byte) zero_block).
  - vm_compute. split; [discriminate|reflexivity].
  - vm_compute. lia.
Defined.

(** A block number that is not on the disk, or a [NULL] disk, makes
    [disk_read] and [disk_write] return [DISK_FAILURE]: the buffer, the image
    and both counters stay as they are. *)
Theorem disk_access_out_of_range disk k buf :
  (match disk with Some d => disk_blocks d <= k | None => True end) ->
  disk_read disk k buf = (DISK_FAILURE, buf, disk)
  /\ disk_write disk k buf = (DISK_FAILURE, disk).
Proof.
  intros H. unfold disk_read, disk_write, disk_sanity_check.
  destruct disk as [d|]; [|split; reflexivity].
  assert ((k <? disk_blocks d) = false) as -> by lia. split; reflexivity.
Qed.

Lemma disk_access_out_of_range_witness :
  disk_read (Some (fresh_disk 4)) 4 zero_block = (DISK_FAILURE, zero_block, Some (fresh_disk 4))
  /\ disk_write (Some (fresh_disk 4)) 4 zero_block = (DISK_FAILURE, Some (fresh_disk 4)).
Proof.
  apply (disk_access_out_of_range (Some (fresh_disk 4)) 4 zero_block).
  vm_compute. discriminate.
Defined.

(** ** The inode table *)

Lemma inode_block_index n m :
  0 <= n -> 0 <= m ->
  Z.to_nat (m / INODES_PER_BLOCK + 1) = Z.to_nat (n / INODES_PER_BLOCK + 1) ->
  m <> n -> Z.to_nat (m mod INODES_PER_BLOCK) <> Z.to_nat (n mod INODES_PER_BLOCK).
Proof.
  unfold INODES_PER_BLOCK. intros Hn Hm Hq Hne Hr.
  pose proof (Z.div_mod n 128 ltac:(lia)). pose proof (Z.div_mod m 128 ltac:(lia)).
  pose proof (Z.mod_pos_bound n 128 ltac:(lia)). pose proof (Z.mod_pos_bound m 128 ltac:(lia)).
  pose proof (Z.div_pos n 128 Hn ltac:(lia)). pose proof (Z.div_pos m 128 Hm ltac:(lia)).
  lia.
Qed.

Lemma blk_insert_same (img : list Block) k b :
  (Z.to_nat k < length img)%nat -> blk (<[Z.to_nat k := b]> img) k = b.
Proof. intros H. unfold blk. rewrite list_lookup_insert_eq by exact H. reflexivity. Qed.

Lemma blk_insert_other (img : list Block) k j b :
  Z.to_nat j <> Z.to_nat k -> blk (<[Z.to_nat k := b]> img) j = blk img j.
Proof. intros H. unfold blk. rewrite list_lookup_insert_ne by auto. reflexivity. Qed.

Lemma inodes_insert_wf (b : Block) k node :
  wf_inode node -> Forall wf_inode (<[k := node]> (inodes_of b)).
Proof. intros H. apply Forall_insert; [apply inodes_of_wf|exact H]. Qed.

Lemma inode_at_put_same img n node :
  (Z.to_nat (n / INODES_PER_BLOCK + 1) < length img)%nat ->
  wf_block (blk img (n / INODES_PER_BLOCK + 1)) ->
  wf_inode node ->
  inode_at (put_inode img n node) n = Some node.
Proof.
  intros Hlen Hwf Hnode. unfold inode_at, put_inode.
  rewrite blk_insert_same by exact Hlen.
  rewrite inodes_of_of_inodes by (apply inodes_insert_wf; exact Hnode).
  apply list_lookup_insert_eq. rewrite length_inodes_of by exact Hwf.
  pose proof (Z.mod_pos_bound n INODES_PER_BLOCK ltac:(reflexivity)).
  unfold INODES_PER_BLOCK in *. lia.
Qed.

Lemma inode_at_put_other img n m node :
  0 <= n -> 0 <= m -> m <> n -> wf_inode node ->
  inode_at (put_inode img n node) m = inode_at img m.
Proof.
  intros Hn Hm Hne Hnode. unfold inode_at, put_inode.
  destruct (decide (Z.to_nat (m / INODES_PER_BLOCK + 1) = Z.to_nat (n / INODES_PER_BLOCK + 1)))
    as [Heq|Hneq].
  - destruct (decide (Z.to_nat (n / INODES_PER_BLOCK + 1) < length img)%nat) as [Hlt|Hge].
    + assert (Hb : blk img (m / INODES_PER_BLOCK + 1) = blk img (n / INODES_PER_BLOCK + 1))
        by (unfold blk; rewrite Heq; reflexivity).
      unfold blk at 1. rewrite Heq, list_lookup_insert_eq by exact Hlt.
      rewrite inodes_of_of_inodes by (apply inodes_insert_wf; exact Hnode).
      rewrite list_lookup_insert_ne by (apply not_eq_sym, inode_block_index; assumption).
      rewrite Hb. reflexivity.
    + rewrite list_insert_ge by lia. reflexivity.
  - rewrite blk_insert_other by exact Hneq. reflexivity.
Qed.

Lemma blk_put_inode_other img n node k :
  Z.to_nat k <> Z.to_nat (n / INODES_PER_BLOCK + 1) ->
  blk (put_inode img n node) k = blk img k.
Proof. intros H. unfold put_inode. apply blk_insert_other. exact H. Qed.

Lemma length_put_inode img n node : length (put_inode img n node) = length img.
Proof. unfold put_inode. apply length_insert. Qed.

(** What [fs_save_inode] does on a bound handle: the image afterwards. *)
Lemma assert_fs_save_inode_image fs n node fs' :
  assert_fs_save_inode fs n node = Ok fs' ->
  exists d d',
    disk fs = Some d /\ disk fs' = Some d'
    /\ disk_image d' = put_inode (disk_image d) n node
    /\ disk_blocks d' = disk_blocks d
    /\ meta_data fs' = meta_data fs /\ free_blocks fs' = free_blocks fs
    /\ n < inodes (meta_data fs)
    /\ n / INODES_PER_BLOCK + 1 < disk_blocks d
    /\ (Z.to_nat (n / INODES_PER_BLOCK + 1) < length (disk_image d))%nat.
Proof.
  unfold assert_fs_save_inode, fs_save_inode.
  destruct (n >=? inodes (meta_data fs)) eqn:Hn; [discriminate|].
  destruct (assert_disk_read _ _ _) as [[b disk']|] eqn:Hr; [|discriminate].
  apply assert_disk_read_inv in Hr as (d & Hd & Hk & Hb & ->).
  cbn [bind].
  destruct (assert_disk_write _ _ _) as [disk''|] eqn:Hw; [|discriminate].
  apply assert_disk_write_inv in Hw as (d1 & [= <-] & _ & Hlt & ->).
  cbn [bind]. intros [= <-].
  exists d, (count_write (store (count_read d) (n / INODES_PER_BLOCK + 1)
                (of_inodes (<[Z.to_nat (n mod INODES_PER_BLOCK) := node]> (inodes_of b))))).
  split; [exact Hd|]. split; [reflexivity|].
  split; [cbn; unfold put_inode; rewrite (blk_lookup _ _ _ Hb); reflexivity|].
  split; [reflexivity|]. split; [reflexivity|]. split; [reflexivity|].
  split; [lia|]. split; [exact Hk|exact Hlt].
Qed.

(** What [fs_load_inode] returns, in terms of the image. *)
Lemma fs_load_inode_first_block fs d n :
  disk fs = Some d ->
  0 <= n < inodes (meta_data fs) -> n < INODES_PER_BLOCK ->
  1 < disk_blocks d -> (1 < length (disk_image d))%nat ->
  wf_block (blk (disk_image d) 1) ->
  exists node,
    inode_at (disk_image d) n = Some node
    /\ fs_load_inode fs n
       = Ok (if valid node =? 0 then None else Some node, set_disk fs (Some (count_read d))).
Proof.
  intros Hd Hn H128 Hblocks Hlen Hwf.
  assert (Hq : n / INODES_PER_BLOCK + 1 = 1)
    by (rewrite Z.div_small by lia; reflexivity).
  assert (Hr : n mod INODES_PER_BLOCK = n) by (apply Z.mod_small; lia).
  unfold inode_at. rewrite Hq, Hr.
  destruct (lookup_lt_is_Some_2 (inodes_of (blk (disk_image d) 1)) (Z.to_nat n)) as [node Hnode].
  { rewrite length_inodes_of by exact Hwf. unfold INODES_PER_BLOCK in H128. lia. }
  exists node. split; [exact Hnode|].
  unfold fs_load_inode.
  assert ((n >=? inodes (meta_data fs)) = false) as -> by lia.
  rewrite Hd, Hq.
  rewrite (assert_disk_read_ok d 1 _ (blk (disk_image d) 1));
    [|exact Hblocks|apply (blk_lt _ 1); lia].
  cbn [bind]. rewrite Hr, Hnode.
  destruct (valid node =? 0); reflexivity.
Qed.

(** ** Marks and references *)

Lemma set_all_lookup v (marks : list Z) : forall (fb : list bool) (k : nat),
  Forall (fun p => 0 <= p) marks ->
  (k < length fb)%nat ->
  set_all v marks fb !! k = if decide (Z.of_nat k ∈ marks) then Some v else fb !! k.
Proof.
  induction marks as [|p marks IH] using rev_ind; intros fb k Hpos Hk.
  - cbn. destruct (decide _) as [H|H]; [inversion H|reflexivity].
  - apply Forall_app in Hpos as [Hpos Hp]. apply Forall_cons in Hp as [Hp _].
    rewrite set_all_app. unfold set_all at 1. cbn [foldl].
    destruct (decide (k = Z.to_nat p)) as [->|Hne].
    + rewrite list_lookup_insert_eq by (rewrite length_set_all; exact Hk).
      rewrite decide_True; [reflexivity|].
      apply elem_of_app. right. rewrite Z2Nat.id by exact Hp. constructor.
    + rewrite list_lookup_insert_ne by auto.
      rewrite IH by assumption.
      destruct (decide (Z.of_nat k ∈ marks)) as [Hin|Hnin].
      * rewrite decide_True; [reflexivity|]. apply elem_of_app. left. exact Hin.
      * rewrite decide_False; [reflexivity|]. intros Hin.
        apply elem_of_app in Hin as [Hin|Hin]; [contradiction|].
        apply list_elem_of_singleton in Hin. lia.
Qed.

Lemma table_marks_elem img table b :
  b ∈ table_marks img table
  <-> exists (k : nat) node, table !! k = Some node /\ b ∈ node_marks img node.
Proof.
  unfold table_marks. induction table as [|node table IH]; cbn [map concat].
  - split; [intros H; inversion H|intros (k & node & H & _); discriminate].
  - rewrite elem_of_app, IH. split.
    + intros [H|(k & nd & Hk & H)]; [exists O, node|exists (S k), nd]; auto.
    + intros (k & nd & Hk & H). destruct k as [|k]; cbn in Hk.
      * injection Hk as <-. left. exact H.
      * right. eauto.
Qed.

Lemma refs_table img m :
  0 <= m ->
  forall b, b ∈ refs img m
  <-> exists node,
        inodes_of (blk img (m / INODES_PER_BLOCK + 1)) !! Z.to_nat (m mod INODES_PER_BLOCK)
        = Some node /\ b ∈ node_marks img node.
Proof.
  intros Hm b. unfold refs, inode_at.
  destruct (inodes_of _ !! _) as [node|].
  - split; [eauto|intros (nd & [= <-] & H); exact H].
  - split; [intros H; inversion H|intros (nd & H & _); discriminate].
Qed.

Lemma slot_div_mod i k :
  0 <= k < 128 ->
  ((i - 1) * 128 + k) / 128 + 1 = i /\ ((i - 1) * 128 + k) mod 128 = k.
Proof.
  intros Hk. replace ((i - 1) * 128 + k) with (k + (i - 1) * 128) by lia.
  rewrite Z.div_add, Z.mod_add by lia.
  rewrite Z.div_small, Z.mod_small by lia. lia.
Qed.

Lemma blocks_marks_elem img n : forall i b,
  1 <= i ->
  (forall j, i <= j < i + Z.of_nat n -> wf_block (blk img j)) ->
  b ∈ blocks_marks img n i
  <-> i <= b < i + Z.of_nat n
      \/ exists m, (i - 1) * INODES_PER_BLOCK <= m < (i - 1 + Z.of_nat n) * INODES_PER_BLOCK
                   /\ b ∈ refs img m.
Proof.
  induction n as [|n IH]; intros i b Hi Hwf.
  - cbn [blocks_marks]. split; [intros H; inversion H|].
    intros [H|(m & H & _)]; unfold INODES_PER_BLOCK in *; lia.
  - cbn [blocks_marks]. rewrite elem_of_cons, elem_of_app, table_marks_elem.
    rewrite (IH (i + 1) b) by (try lia; intros j Hj; apply Hwf; lia).
    assert (Hlen : length (inodes_of (blk img i)) = 128%nat)
      by (apply length_inodes_of, Hwf; lia).
    unfold INODES_PER_BLOCK in *.
    split.
    + intros [->|[(k & node & Hk & Hb)|[H|(m & Hm & Hb)]]].
      * left. lia.
      * right. exists ((i - 1) * 128 + Z.of_nat k).
        pose proof (lookup_lt_Some _ _ _ Hk) as Hlt. rewrite Hlen in Hlt.
        split; [lia|]. apply refs_table; [lia|]. exists node. split; [|exact Hb].
        unfold INODES_PER_BLOCK.
        destruct (slot_div_mod i (Z.of_nat k) ltac:(lia)) as [-> ->].
        rewrite Nat2Z.id. exact Hk.
      * left. lia.
      * right. exists m. split; [lia|exact Hb].
    + intros [H|(m & Hm & Hb)].
      * destruct (decide (b = i)); [left; assumption|right; right; left; lia].
      * destruct (decide (m < i * 128)) as [Hlt|Hge].
        -- right. left. apply refs_table in Hb as (node & Hnode & Hb); [|lia].
           unfold INODES_PER_BLOCK in Hnode.
           assert (Hq : m / 128 + 1 = i).
           { assert (m / 128 = i - 1); [|lia].
             symmetry. apply (Z.div_unique m 128 (i - 1) (m - (i - 1) * 128)); lia. }
           rewrite Hq in Hnode. eauto.
        -- right. right. right. exists m. split; [lia|exact Hb].
Qed.

Lemma image_marks_elem sb img b :
  0 <= inode_blocks sb ->
  (forall j, 1 <= j <= inode_blocks sb -> wf_block (blk img j)) ->
  b ∈ image_marks img sb
  <-> 0 <= b <= inode_blocks sb
      \/ exists m, 0 <= m < inode_blocks sb * INODES_PER_BLOCK /\ b ∈ refs img m.
Proof.
  intros Hib Hwf. unfold image_marks.
  rewrite elem_of_cons, (blocks_marks_elem img _ 1 b) by (try lia; intros j Hj; apply Hwf; lia).
  rewrite Z2Nat.id by exact Hib. unfold INODES_PER_BLOCK.
  split.
  - intros [->|[H|(m & Hm & Hb)]]; [left; lia|left; lia|right; exists m; split; [lia|exact Hb]].
  - intros [H|(m & Hm & Hb)].
    + destruct (decide (b = 0)); [left; assumption|right; left; lia].
    + right. right. exists m. split; [lia|exact Hb].
Qed.

Lemma consistent_blk_wf sb fb img k :
  consistent sb fb img -> 0 <= k < blocks sb -> wf_block (blk img k).
Proof.
  intros C Hk. pose proof (c_wf _ _ _ C) as Hwf. rewrite Forall_lookup in Hwf.
  apply (Hwf (Z.to_nat k)). apply blk_lt. rewrite (c_img _ _ _ C). lia.
Qed.

Lemma consistent_marks sb fb img b :
  consistent sb fb img ->
  b ∈ image_marks img sb
  <-> 0 <= b <= inode_blocks sb \/ exists m, 0 <= m < inodes sb /\ b ∈ refs img m.
Proof.
  intros C. pose proof (c_ib _ _ _ C) as Hib.
  rewrite image_marks_elem.
  - rewrite (c_inodes _ _ _ C). reflexivity.
  - lia.
  - intros j Hj. apply (consistent_blk_wf sb fb); [exact C|lia].
Qed.

(** A consistent image is one [fs_mount] accepts, and the bitmap that
    [fs_mount] builds from it is the bitmap it is consistent with. *)
Lemma consistent_mountable sb fb d :
  disk_blocks d = blocks sb -> consistent sb fb (disk_image d) ->
  mountable d /\ bitmap_of d = fb.
Proof.
  intros Hblocks C. pose proof (c_ib _ _ _ C) as Hib.
  assert (Hmarks : forall b, b ∈ image_marks (disk_image d) sb -> 0 <= b < blocks sb).
  { intros b Hb. apply (consistent_marks sb fb) in Hb; [|exact C].
    destruct Hb as [Hb|(m & Hm & Hb)]; [lia|].
    pose proof (c_range _ _ _ C m b Hm Hb). lia. }
  split.
  - unfold mountable. rewrite (c_super _ _ _ C), Hblocks.
    split; [lia|]. split; [apply (c_img _ _ _ C)|]. split; [apply (c_magic _ _ _ C)|].
    split; [reflexivity|]. split; [apply (c_inodes _ _ _ C)|].
    apply Forall_forall. exact Hmarks.
  - unfold bitmap_of. rewrite (c_super _ _ _ C), Hblocks.
    apply list_eq. intros k.
    destruct (decide (k < Z.to_nat (blocks sb))%nat) as [Hk|Hk].
    + rewrite set_all_lookup;
        [|apply Forall_forall; intros p Hp; apply Hmarks in Hp; lia
         |rewrite length_replicate; exact Hk].
      pose proof (c_bitmap _ _ _ C (Z.of_nat k) ltac:(lia)) as Hbit.
      rewrite Nat2Z.id in Hbit.
      destruct (lookup_lt_is_Some_2 fb k) as [x Hx]; [rewrite (c_fb _ _ _ C); exact Hk|].
      rewrite Hx.
      destruct (decide (Z.of_nat k ∈ image_marks (disk_image d) sb)) as [Hin|Hnin].
      * apply (consistent_marks sb fb) in Hin; [|exact C].
        assert (Hx' : fb !! k = Some true).
        { apply Hbit. destruct Hin as [Hin|Hin]; [left; lia|right; exact Hin]. }
        congruence.
      * rewrite lookup_replicate_2 by exact Hk. destruct x; [|reflexivity].
        exfalso. apply Hnin. apply (consistent_marks sb fb); [exact C|].
        apply Hbit in Hx. destruct Hx as [Hx|Hx]; [left; lia|right; exact Hx].
    + rewrite !lookup_ge_None_2; [reflexivity| |].
      * rewrite (c_fb _ _ _ C). lia.
      * rewrite length_set_all, length_replicate. lia.
Qed.

(** [fs_unmount] and [fs_mount] again of a sound handle: the mount succeeds
    and builds the bitmap the handle had. *)
Lemma sound_remount fs :
  sound fs -> remount fs = Ok (true, free_blocks fs).
Proof.
  intros (d & fb & Hd & Hfb & Hblocks & C).
  destruct (consistent_mountable _ _ _ Hblocks C) as [Hm Hbit].
  unfold remount. rewrite Hd.
  destruct (fs_mount_ok (fs_unmount fs) d eq_refl Hm) as (fs' & d' & -> & _ & _ & _ & _ & Hfb').
  cbn [bind]. rewrite Hfb', Hbit, Hfb. reflexivity.
Qed.

Lemma node_marks_same_indirect img img' node :
  (valid node <> 0 -> indirect node <> 0 ->
   blk img' (indirect node) = blk img (indirect node)) ->
  node_marks img' node = node_marks img node.
Proof.
  intros H. unfold node_marks.
  destruct (valid node =? 0) eqn:Hv; [reflexivity|].
  destruct (indirect node =? 0) eqn:Hi; [reflexivity|].
  rewrite H by lia. reflexivity.
Qed.

Lemma shaped_same_indirect img img' node :
  (indirect node <> 0 -> blk img' (indirect node) = blk img (indirect node)) ->
  shaped img node -> shaped img' node.
Proof.
  intros H (H1 & H2 & H3). split; [exact H1|]. split.
  - intros Hi. rewrite H by exact Hi. apply H2, Hi.
  - destruct H3 as [H3|(H3 & Hi & H4)]; [left; exact H3|right].
    rewrite H by exact Hi. auto.
Qed.

Lemma elem_node_marks_indirect img node :
  valid node <> 0 -> indirect node <> 0 -> indirect node ∈ node_marks img node.
Proof.
  intros Hv Hi. unfold node_marks.
  assert ((valid node =? 0) = false) as -> by lia.
  assert ((indirect node =? 0) = false) as -> by lia.
  apply elem_of_app. right. constructor.
Qed.

(** The change of one inode, of the blocks it refers to and of blocks that
    were free keeps an image consistent, when the bitmap follows the
    references of that inode. *)
Lemma consistent_update sb fb img fb' img' n :
  consistent sb fb img ->
  0 <= n < inodes sb ->
  Forall wf_block img' -> length img' = length img -> length fb' = length fb ->
  blk img' 0 = blk img 0 ->
  (forall m, 0 <= m < inodes sb -> m <> n -> inode_at img' m = inode_at img m) ->
  (forall k, inode_blocks sb < k < blocks sb -> k ∉ refs img n ->
             fb !! Z.to_nat k = Some true -> blk img' k = blk img k) ->
  (forall b, 0 <= b < blocks sb ->
     (fb' !! Z.to_nat b = Some true
      <-> (fb !! Z.to_nat b = Some true /\ b ∉ refs img n) \/ b ∈ refs img' n)) ->
  (forall b, b ∈ refs img' n ->
     b ∈ refs img n
     \/ (inode_blocks sb < b < blocks sb /\ fb !! Z.to_nat b = Some false)) ->
  NoDup (refs img' n) ->
  (forall node, inode_at img' n = Some node -> valid node <> 0 -> shaped img' node) ->
  consistent sb fb' img'.
Proof.
  intros C Hn Hwf Hlen Hlenfb Hsuper Hother Hkeep Hbit Hnew Hnodup Hshape.
  pose proof (c_ib _ _ _ C) as Hib.
  assert (Hind : forall m node, 0 <= m < inodes sb -> m <> n ->
            inode_at img m = Some node -> valid node <> 0 -> indirect node <> 0 ->
            blk img' (indirect node) = blk img (indirect node)).
  { intros m node Hm Hne Hnode Hv Hi.
    assert (Hin : indirect node ∈ refs img m)
      by (unfold refs; rewrite Hnode; apply elem_node_marks_indirect; assumption).
    apply Hkeep.
    - apply (c_range _ _ _ C m); assumption.
    - intros Hin'. apply Hne. apply (c_share _ _ _ C m n (indirect node)); assumption.
    - apply (c_bitmap _ _ _ C).
      + pose proof (c_range _ _ _ C m _ Hm Hin). lia.
      + right. exists m. auto. }
  assert (Hrefs : forall m, 0 <= m < inodes sb -> m <> n -> refs img' m = refs img m).
  { intros m Hm Hne. unfold refs. rewrite (Hother m Hm Hne).
    destruct (inode_at img m) as [node|] eqn:Hnode; [|reflexivity].
    apply node_marks_same_indirect. intros Hv Hi. apply (Hind m); assumption. }
  split.
  - exact Hwf.
  - rewrite Hlen. apply (c_img _ _ _ C).
  - rewrite Hlenfb. apply (c_fb _ _ _ C).
  - rewrite Hsuper. apply (c_super _ _ _ C).
  - apply (c_magic _ _ _ C).
  - apply (c_inodes _ _ _ C).
  - apply (c_ib _ _ _ C).
  - intros b Hb. rewrite (Hbit b Hb). split.
    + intros [[Hfb Hnin]|Hin].
      * apply (c_bitmap _ _ _ C b Hb) in Hfb as [Hle|(m & Hm & Hin)]; [left; exact Hle|].
        right. exists m. split; [exact Hm|].
        rewrite Hrefs; [exact Hin|exact Hm|]. intros ->. contradiction.
      * right. exists n. auto.
    + intros [Hle|(m & Hm & Hin)].
      * left. split.
        -- apply (c_bitmap _ _ _ C b Hb). left. exact Hle.
        -- intros Hin. pose proof (c_range _ _ _ C n b Hn Hin). lia.
      * destruct (decide (m = n)) as [->|Hne]; [right; exact Hin|].
        left. rewrite (Hrefs m Hm Hne) in Hin. split.
        -- apply (c_bitmap _ _ _ C b Hb). right. exists m. auto.
        -- intros Hin'. apply Hne. apply (c_share _ _ _ C m n b); assumption.
  - intros m b Hm Hin. destruct (decide (m = n)) as [->|Hne].
    + destruct (Hnew b Hin) as [Hold|[Hr _]]; [|exact Hr].
      apply (c_range _ _ _ C n); assumption.
    + rewrite (Hrefs m Hm Hne) in Hin. apply (c_range _ _ _ C m); assumption.
  - assert (Hcross : forall m b, 0 <= m < inodes sb -> m <> n ->
              b ∈ refs img' n -> b ∈ refs img m -> False).
    { intros m b Hm Hne Hin Hin'. destruct (Hnew b Hin) as [Hold|[Hr Hfree]].
      - apply Hne. apply (c_share _ _ _ C m n b); assumption.
      - assert (fb !! Z.to_nat b = Some true); [|congruence].
        apply (c_bitmap _ _ _ C); [lia|]. right. exists m. auto. }
    intros m1 m2 b Hm1 Hm2 H1 H2.
    destruct (decide (m1 = n)) as [->|Hne1], (decide (m2 = n)) as [->|Hne2].
    + reflexivity.
    + rewrite (Hrefs m2 Hm2 Hne2) in H2. destruct (Hcross m2 b Hm2 Hne2 H1 H2).
    + rewrite (Hrefs m1 Hm1 Hne1) in H1. destruct (Hcross m1 b Hm1 Hne1 H2 H1).
    + rewrite (Hrefs m1 Hm1 Hne1) in H1. rewrite (Hrefs m2 Hm2 Hne2) in H2.
      apply (c_share _ _ _ C m1 m2 b); assumption.
  - intros m Hm. destruct (decide (m = n)) as [->|Hne]; [exact Hnodup|].
    rewrite (Hrefs m Hm Hne). apply (c_nodup _ _ _ C m Hm).
  - intros m node Hm Hnode Hv. destruct (decide (m = n)) as [->|Hne].
    + apply Hshape; assumption.
    + rewrite (Hother m Hm Hne) in Hnode.
      apply (shaped_same_indirect img).
      * intros Hi. apply (Hind m); assumption.
      * apply (c_shape _ _ _ C m); assumption.
Qed.

(** ** The allocator *)

Lemma bitmap_get_ok fs (fb : list bool) i v :
  free_blocks fs = Some fb -> 0 <= i -> fb !! Z.to_nat i = Some v -> bitmap_get fs i = Ok v.
Proof.
  intros Hfb Hi Hv. unfold bitmap_get. rewrite Hfb.
  assert ((i <? 0) = false) as -> by lia. rewrite Hv. reflexivity.
Qed.

Lemma allocate_loop_spec fs (fb : list bool) k : forall i,
  free_blocks fs = Some fb -> 1 <= i ->
  (Z.to_nat i + k <= length fb)%nat ->
  (exists b,
      allocate_loop k i fs = Ok (b, set_free_blocks fs (Some (<[Z.to_nat b := true]> fb)))
      /\ i <= b < i + Z.of_nat k
      /\ fb !! Z.to_nat b = Some false
      /\ (forall j, i <= j < b -> fb !! Z.to_nat j = Some true))
  \/ (allocate_loop k i fs = Ok (0, fs)
      /\ forall j, i <= j < i + Z.of_nat k -> fb !! Z.to_nat j = Some true).
Proof.
  induction k as [|k IH]; intros i Hfb Hi Hlen.
  - right. split; [reflexivity|]. intros j Hj. lia.
  - cbn [allocate_loop].
    destruct (lookup_lt_is_Some_2 fb (Z.to_nat i)) as [v Hv]; [lia|].
    rewrite (bitmap_get_ok fs fb i v) by (try assumption; lia). cbn [bind].
    destruct v; cbn [negb].
    + destruct (IH (i + 1) Hfb ltac:(lia) ltac:(lia)) as [(b & Hb & Hr & Hfree & Hbelow)|[Hnone Hall]].
      * left. exists b. split; [exact Hb|]. split; [lia|]. split; [exact Hfree|].
        intros j Hj. destruct (decide (j = i)) as [->|]; [exact Hv|apply Hbelow; lia].
      * right. split; [exact Hnone|].
        intros j Hj. destruct (decide (j = i)) as [->|]; [exact Hv|apply Hall; lia].
    + left. exists i. rewrite (bitmap_set_ok fs fb) by (try assumption; lia).
      split; [reflexivity|]. split; [lia|]. split; [exact Hv|]. intros j Hj. lia.
Qed.

(** [fs_allocate_free_block] on a bitmap of [meta_data.blocks] entries
    returns the lowest block from block 1 on that is marked free and marks it
    in use; it returns 0, and leaves the bitmap as it is, exactly when every
    block from 1 on is in use.  It never hands out block 0. *)
Theorem fs_allocate_free_block_lowest fs (fb : list bool) :
  free_blocks fs = Some fb ->
  length fb = Z.to_nat (blocks (meta_data fs)) ->
  (exists b,
      fs_allocate_free_block fs
      = Ok (b, set_free_blocks fs (Some (<[Z.to_nat b := true]> fb)))
      /\ 1 <= b < blocks (meta_data fs)
      /\ fb !! Z.to_nat b = Some false
      /\ (forall j, 1 <= j < b -> fb !! Z.to_nat j = Some true))
  \/ (fs_allocate_free_block fs = Ok (0, fs)
      /\ forall j, 1 <= j < blocks (meta_data fs) -> fb !! Z.to_nat j = Some true).
Proof.
  intros Hfb Hlen. unfold fs_allocate_free_block.
  destruct (decide (blocks (meta_data fs) <= 1)) as [Hsmall|Hbig].
  - right. replace (Z.to_nat (blocks (meta_data fs) - 1)) with O by lia.
    split; [reflexivity|]. intros j Hj. lia.
  - destruct (allocate_loop_spec fs fb (Z.to_nat (blocks (meta_data fs) - 1)) 1 Hfb
                ltac:(lia) ltac:(lia)) as [(b & Hb & Hr & Hfree & Hbelow)|[Hnone Hall]].
    + left. exists b. split; [exact Hb|]. split; [lia|]. auto.
    + right. split; [exact Hnone|]. intros j Hj. apply Hall. lia.
Qed.

Lemma fs_allocate_free_block_lowest_witness :
  (exists b,
      fs_allocate_free_block fs10
      = Ok (b, set_free_blocks fs10
                 (Some (<[Z.to_nat b := true]>
                          [true; true; false; false; false; false; false; false; false; false])))
      /\ 1 <= b < blocks (meta_data fs10)
      /\ [true; true; false; false; false; false; false; false; false; false] !! Z.to_nat b
         = Some false
      /\ (forall j, 1 <= j < b ->
            [true; true; false; false; false; false; false; false; false; false] !! Z.to_nat j
            = Some true))
  \/ (fs_allocate_free_block fs10 = Ok (0, fs10)
      /\ forall j, 1 <= j < blocks (meta_data fs10) ->
           [true; true; false; false; false; false; false; false; false; false] !! Z.to_nat j
           = Some true).
Proof.
  apply (fs_allocate_free_block_lowest fs10
           [true; true; false; false; false; false; false; false; false; false]).
  - vm_compute. reflexivity.
  - vm_compute. reflexivity.
Defined.

(** ** Formatting *)

Lemma wrap64_succ_add w k : wrap64 (wrap64 (w + k) + 1) = wrap64 (w + (k + 1)).
Proof.
  unfold wrap64. rewrite Z.add_mod_idemp_l by lia. f_equal. lia.
Qed.

Lemma format_loop_ok k : forall i d,
  1 <= i -> i + Z.of_nat k <= disk_blocks d ->
  (Z.to_nat i + k <= length (disk_image d))%nat ->
  i + Z.of_nat k - 1 < INT_MAX ->
  exists d',
    format_loop k i (Some d) zero_block = Ok (Some d')
    /\ disk_blocks d' = disk_blocks d
    /\ length (disk_image d') = length (disk_image d)
    /\ (forall j, i <= j < i + Z.of_nat k -> blk (disk_image d') j = zero_block)
    /\ (forall j, 0 <= j -> ~ (i <= j < i + Z.of_nat k) ->
          blk (disk_image d') j = blk (disk_image d) j)
    /\ disk_reads d' = disk_reads d
    /\ wrap64 (disk_writes d') = wrap64 (disk_writes d + Z.of_nat k).
Proof.
  induction k as [|k IH]; intros i d Hi Hblocks Hlen Hmax.
  - exists d. split; [reflexivity|]. split; [reflexivity|]. split; [reflexivity|].
    split; [intros j Hj; lia|]. split; [reflexivity|]. split; [reflexivity|].
    rewrite Z.add_0_r. reflexivity.
  - cbn [format_loop].
    rewrite (assert_disk_write_ok d i zero_block) by lia. cbn [bind].
    assert ((i =? INT_MAX) = false) as -> by lia.
    destruct (IH (i + 1) (count_write (store d i zero_block)))
      as (d' & Hrun & Hb & Hl & Hzero & Hkeep & Hreads & Hwrites).
    + lia.
    + cbn. lia.
    + cbn. rewrite length_insert. lia.
    + lia.
    + exists d'. split; [exact Hrun|]. split; [exact Hb|].
      split; [rewrite Hl; cbn; apply length_insert|].
      split.
      { intros j Hj. destruct (decide (j = i)) as [->|Hne].
        - rewrite Hkeep by lia. cbn. apply blk_insert_same. lia.
        - apply Hzero. lia. }
      split.
      { intros j Hj Hout. rewrite Hkeep by lia. cbn. apply blk_insert_other. lia. }
      split; [exact Hreads|].
      rewrite Hwrites. cbn [count_write store disk_writes].
      unfold wrap64. rewrite Z.add_mod_idemp_l by lia. f_equal. lia.
Qed.

Lemma super_of_with_super_zero sb :
  u32 (magic_number sb) -> u32 (blocks sb) -> u32 (inode_blocks sb) -> u32 (inodes sb) ->
  super_of (with_super zero_block sb) = sb.
Proof.
  intros H1 H2 H3 H4. unfold super_of.
  rewrite words_with_super by (rewrite wf_zero_block; lia).
  rewrite !wrap32_u32 by assumption. destruct sb. reflexivity.
Qed.

Lemma wf_with_super_zero sb : wf_block (with_super zero_block sb).
Proof.
  unfold wf_block, with_super. rewrite length_app, length_unwords, length_drop.
  rewrite wf_zero_block. reflexivity.
Qed.

Lemma fresh_super_bounds n :
  2 <= n < 335544320 ->
  1 <= inode_blocks (fresh_super n) < n
  /\ u32 (blocks (fresh_super n)) /\ u32 (inode_blocks (fresh_super n))
  /\ u32 (inodes (fresh_super n)).
Proof.
  intros Hn. unfold fresh_super, u32, INODES_PER_BLOCK. cbn [blocks inode_blocks inodes].
  change (2 ^ 32) with 4294967296.
  pose proof (Z.div_pos n 10 ltac:(lia) ltac:(lia)).
  assert (n / 10 < 33554432) by (apply Z.div_lt_upper_bound; lia).
  assert (n / 10 < n) by (apply Z.div_lt; lia).
  destruct (n / 10 =? 0) eqn:E; lia.
Qed.

(** [fs_format] of a disk of 2 to 335544319 blocks on a handle that is not
    bound. *)
Lemma fs_format_ok fs d :
  disk fs = None ->
  2 <= disk_blocks d < 335544320 ->
  length (disk_image d) = Z.to_nat (disk_blocks d) ->
  exists d',
    fs_format fs (Some d) = Ok (true, Some d')
    /\ disk_blocks d' = disk_blocks d
    /\ length (disk_image d') = length (disk_image d)
    /\ blk (disk_image d') 0 = with_super zero_block (fresh_super (disk_blocks d))
    /\ (forall j, 1 <= j < disk_blocks d -> blk (disk_image d') j = zero_block)
    /\ disk_reads d' = disk_reads d
    /\ wrap64 (disk_writes d') = wrap64 (disk_writes d + disk_blocks d).
Proof.
  intros Hnone Hn Hlen.
  destruct (fresh_super_bounds _ Hn) as (Hib & Hu1 & Hu2 & Hu3).
  unfold fs_format.
  assert ((disk_blocks d <? 2) = false) as -> by lia.
  rewrite Hnone. rewrite bool_decide_eq_false_2 by (intros H; apply H; reflexivity).
  set (sb := {| magic_number := MAGIC_NUMBER; blocks := wrap32 _; inode_blocks := wrap32 _;
                inodes := wrap32 _ |}).
  assert (Hsb : sb = fresh_super (disk_blocks d)).
  { subst sb. unfold fresh_super in *. cbn [blocks inode_blocks inodes] in *.
    rewrite (wrap32_u32 (disk_blocks d)) by exact Hu1.
    rewrite (wrap32_u32 (if disk_blocks d / 10 =? 0 then 1 else disk_blocks d / 10)) by exact Hu2.
    assert (Hw : wrap64 ((if disk_blocks d / 10 =? 0 then 1 else disk_blocks d / 10)
                         * INODES_PER_BLOCK)
                 = (if disk_blocks d / 10 =? 0 then 1 else disk_blocks d / 10) * INODES_PER_BLOCK).
    { unfold wrap64. apply Z.mod_small. unfold u32 in Hu3.
      change (2 ^ 64) with 18446744073709551616. change (2 ^ 32) with 4294967296 in Hu3. lia. }
    rewrite Hw, wrap32_u32 by exact Hu3. reflexivity. }
  rewrite Hsb.
  unfold disk_write, disk_sanity_check.
  assert ((0 <? disk_blocks d) = true) as -> by lia. cbn [negb].
  assert ((Z.to_nat 0 <? length (disk_image d))%nat = true) as ->
    by (apply Nat.ltb_lt; lia).
  change (BLOCK_SIZE =? DISK_FAILURE) with false. cbv iota.
  destruct (format_loop_ok (Z.to_nat (disk_blocks d - 1)) 1
              (count_write (store d 0 (with_super zero_block (fresh_super (disk_blocks d))))))
    as (d' & -> & Hb & Hl & Hzero & Hkeep & Hreads & Hwrites).
  - lia.
  - cbn. lia.
  - cbn. rewrite length_insert. lia.
  - unfold INT_MAX. change (2 ^ 31 - 1) with 2147483647. lia.
  - cbn [bind]. exists d'. split; [reflexivity|]. split; [exact Hb|].
    split; [rewrite Hl; cbn; apply length_insert|].
    split; [rewrite Hkeep by lia; cbn; apply (blk_insert_same _ 0); lia|].
    split; [intros j Hj; apply Hzero; lia|].
    split; [exact Hreads|].
    rewrite Hwrites. cbn [count_write store disk_writes].
    unfold wrap64. rewrite Z.add_mod_idemp_l by lia. f_equal. lia.
Qed.

(** [fs_format] on a handle that is not bound and a disk of 2 to 335544319
    blocks succeeds: block 0 holds the magic number, the number of blocks, a
    tenth of the blocks (at least one) as inode blocks and 128 inodes for each
    of them, every other block is zeroed, and the disk has counted one write
    for each block and no read.  On a disk of fewer than two blocks, or on a
    handle that is bound, it returns [false] and the disk is not touched. *)
Theorem fs_format_result fs d :
  (disk fs = None ->
   2 <= disk_blocks d < 335544320 ->
   length (disk_image d) = Z.to_nat (disk_blocks d) ->
   exists d',
     fs_format fs (Some d) = Ok (true, Some d')
     /\ disk_blocks d' = disk_blocks d
     /\ super_of (blk (disk_image d') 0) = fresh_super (disk_blocks d)
     /\ (forall j, 1 <= j < disk_blocks d -> blk (disk_image d') j = zero_block)
     /\ disk_reads d' = disk_reads d
     /\ wrap64 (disk_writes d') = wrap64 (disk_writes d + disk_blocks d))
  /\ (disk_blocks d < 2 \/ disk fs <> None -> fs_format fs (Some d) = Ok (false, Some d)).
Proof.
  split.
  - intros Hnone Hn Hlen.
    destruct (fs_format_ok fs d Hnone Hn Hlen) as (d' & H & Hb & _ & H0 & Hz & Hr & Hw).
    exists d'. split; [exact H|]. split; [exact Hb|]. split; [|auto].
    rewrite H0. destruct (fresh_super_bounds _ Hn) as (_ & Hu1 & Hu2 & Hu3).
    apply super_of_with_super_zero; try assumption.
    vm_compute. split; [discriminate|reflexivity].
  - intros H. unfold fs_format.
    destruct (disk_blocks d <? 2) eqn:E; [reflexivity|].
    destruct H as [H|H]; [lia|]. rewrite bool_decide_eq_true_2 by exact H. reflexivity.
Qed.

Lemma fs_format_result_witness :
  (exists d',
     fs_format fresh_fs (Some (fresh_disk 10)) = Ok (true, Some d')
     /\ disk_blocks d' = disk_blocks (fresh_disk 10)
     /\ super_of (blk (disk_image d') 0) = fresh_super (disk_blocks (fresh_disk 10))
     /\ (forall j, 1 <= j < disk_blocks (fresh_disk 10) -> blk (disk_image d') j = zero_block)
     /\ disk_reads d' = disk_reads (fresh_disk 10)
     /\ wrap64 (disk_writes d') = wrap64 (disk_writes (fresh_disk 10) + disk_blocks (fresh_disk 10)))
  /\ fs_format fresh_fs (Some (fresh_disk 1)) = Ok (false, Some (fresh_disk 1)).
Proof.
  split.
  - apply (proj1 (fs_format_result fresh_fs (fresh_disk 10))).
    + reflexivity.
    + vm_compute. split; [discriminate|reflexivity].
    + vm_compute. reflexivity.
  - apply (proj2 (fs_format_result fresh_fs (fresh_disk 1))).
    left. vm_compute. reflexivity.
Defined.

(** ** A freshly formatted and mounted disk *)

Lemma bitmap_of_true d b :
  Forall (fun p => 0 <= p < disk_blocks d)
    (image_marks (disk_image d) (super_of (blk (disk_image d) 0))) ->
  0 <= b < disk_blocks d ->
  bitmap_of d !! Z.to_nat b = Some true
  <-> b ∈ image_marks (disk_image d) (super_of (blk (disk_image d) 0)).
Proof.
  intros Hmarks Hb. unfold bitmap_of.
  rewrite set_all_lookup;
    [|eapply Forall_impl; [exact Hmarks|intros p Hp; cbn in Hp; lia]
     |rewrite length_replicate; lia].
  rewrite Z2Nat.id by lia.
  destruct (decide (b ∈ _)) as [Hin|Hnin]; [tauto|].
  rewrite lookup_replicate_2 by lia. split; [discriminate|contradiction].
Qed.

Lemma refs_zero_table img m :
  blk img (m / INODES_PER_BLOCK + 1) = zero_block -> refs img m = [].
Proof.
  intros H. unfold refs, inode_at. rewrite H, inodes_of_zero_block.
  destruct (replicate 128 zero_inode !! _) as [node|] eqn:E; [|reflexivity].
  apply lookup_replicate in E as [-> _]. reflexivity.
Qed.

Lemma inode_block_range m ib :
  0 <= m < ib * INODES_PER_BLOCK -> 1 <= m / INODES_PER_BLOCK + 1 <= ib.
Proof.
  unfold INODES_PER_BLOCK. intros H.
  pose proof (Z.div_pos m 128 ltac:(lia) ltac:(lia)).
  assert (m / 128 < ib) by (apply Z.div_lt_upper_bound; lia). lia.
Qed.

Lemma formatted_consistent d1 n :
  2 <= n < 335544320 ->
  disk_blocks d1 = n -> length (disk_image d1) = Z.to_nat n ->
  blk (disk_image d1) 0 = with_super zero_block (fresh_super n) ->
  (forall j, 1 <= j < n -> blk (disk_image d1) j = zero_block) ->
  consistent (fresh_super n) (bitmap_of d1) (disk_image d1).
Proof.
  intros Hn Hblocks Hlen H0 Hzero.
  destruct (fresh_super_bounds _ Hn) as (Hib & Hu1 & Hu2 & Hu3).
  assert (Hsuper : super_of (blk (disk_image d1) 0) = fresh_super n).
  { rewrite H0. apply super_of_with_super_zero; try assumption.
    vm_compute. split; [discriminate|reflexivity]. }
  assert (Hwf : forall j, 0 <= j < n -> wf_block (blk (disk_image d1) j)).
  { intros j Hj. destruct (decide (j = 0)) as [->|Hne].
    - rewrite H0. apply wf_with_super_zero.
    - rewrite Hzero by lia. apply wf_zero_block. }
  assert (Hrefs : forall m, 0 <= m < inodes (fresh_super n) -> refs (disk_image d1) m = []).
  { intros m Hm. apply refs_zero_table. apply Hzero.
    pose proof (inode_block_range m (inode_blocks (fresh_super n)) Hm). lia. }
  assert (Hmarks : forall b, b ∈ image_marks (disk_image d1) (fresh_super n)
                             <-> 0 <= b <= inode_blocks (fresh_super n)).
  { intros b. rewrite image_marks_elem; [|lia|intros j Hj; apply Hwf; lia].
    split; [|auto]. intros [H|(m & Hm & Hin)]; [exact H|].
    rewrite Hrefs in Hin by exact Hm. inversion Hin. }
  split; try assumption; try reflexivity.
  - apply Forall_lookup. intros k b Hk.
    pose proof (lookup_lt_Some _ _ _ Hk) as Hlt.
    rewrite <- (blk_lookup (disk_image d1) (Z.of_nat k) b) by (rewrite Nat2Z.id; exact Hk).
    apply Hwf. lia.
  - unfold bitmap_of. rewrite length_set_all, length_replicate, Hblocks. reflexivity.
  - intros b Hb. rewrite bitmap_of_true; rewrite ?Hsuper, ?Hblocks; try assumption.
    + rewrite Hmarks. split.
      * intros H. left. lia.
      * intros [H|(m & Hm & Hin)]; [lia|]. rewrite Hrefs in Hin by exact Hm. inversion Hin.
    + apply Forall_forall. intros p Hp. apply Hmarks in Hp. lia.
  - intros m b Hm Hin. rewrite Hrefs in Hin by exact Hm. inversion Hin.
  - intros m1 m2 b Hm1 _ Hin. rewrite Hrefs in Hin by exact Hm1. inversion Hin.
  - intros m Hm. rewrite Hrefs by exact Hm. constructor.
  - intros m node Hm Hnode Hv. exfalso.
    pose proof (inode_block_range m (inode_blocks (fresh_super n)) Hm) as Hr.
    unfold inode_at in Hnode. rewrite Hzero in Hnode by lia.
    rewrite inodes_of_zero_block in Hnode.
    apply lookup_replicate in Hnode as [-> _]. apply Hv. reflexivity.
Qed.

(** A freshly formatted and mounted handle is sound, and its bitmap marks
    the superblock and the inode blocks and nothing else. *)
Lemma fresh_sound fs0 :
  fresh fs0 ->
  sound fs0
  /\ exists fb,
       free_blocks fs0 = Some fb
       /\ forall b, 0 <= b < blocks (meta_data fs0) ->
            fb !! Z.to_nat b = Some (bool_decide (b <= inode_blocks (meta_data fs0))).
Proof.
  intros (h & d & d1 & d2 & Hnone & Hn & Hlen & Hformat & Hmount).
  destruct (fs_format_ok h d Hnone Hn Hlen) as (d1' & Hf & Hb & Hl & H0 & Hz & _ & _).
  rewrite Hformat in Hf. injection Hf as <-.
  assert (C : consistent (fresh_super (disk_blocks d)) (bitmap_of d1) (disk_image d1)).
  { apply formatted_consistent; try assumption. rewrite Hl. exact Hlen. }
  destruct (consistent_mountable (fresh_super (disk_blocks d)) _ d1 Hb C) as [Hm Hbit].
  destruct (fs_mount_ok h d1 Hnone Hm) as (fs' & d' & Hmount' & Hd' & Hi' & Hb' & Hmeta & Hfb).
  rewrite Hmount in Hmount'. injection Hmount' as -> ->.
  rewrite (c_super _ _ _ C) in Hmeta.
  split.
  - exists d', (bitmap_of d1). rewrite Hmeta, Hi'.
    split; [exact Hd'|]. split; [exact Hfb|]. split; [cbn; congruence|exact C].
  - exists (bitmap_of d1). split; [exact Hfb|]. rewrite Hmeta.
    intros b Hb0. pose proof (c_bitmap _ _ _ C b Hb0) as Hbm.
    destruct (lookup_lt_is_Some_2 (bitmap_of d1) (Z.to_nat b)) as [x Hx].
    { rewrite (c_fb _ _ _ C). lia. }
    rewrite Hx in *. f_equal.
    destruct (decide (b <= inode_blocks (fresh_super (disk_blocks d)))) as [Hle|Hgt].
    + rewrite bool_decide_eq_true_2 by exact Hle.
      assert (Some x = Some true) as [= ->]; [|reflexivity]. apply Hbm. left. exact Hle.
    + rewrite bool_decide_eq_false_2 by exact Hgt.
      destruct x; [|reflexivity]. exfalso.
      destruct (proj1 Hbm eq_refl) as [H|(m & Hm' & Hin)]; [contradiction|].
      rewrite (refs_zero_table (disk_image d1)) in Hin; [inversion Hin|].
      apply Hz.
      pose proof (inode_block_range m (inode_blocks (fresh_super (disk_blocks d))) Hm').
      pose proof (c_ib _ _ _ C) as Hib. cbn [blocks fresh_super] in Hib |- *. lia.
Qed.

(** ** Operations that only read *)

Lemma same_store_refl fs : same_store fs fs.
Proof. repeat split. Qed.

Lemma same_store_trans fs1 fs2 fs3 :
  same_store fs1 fs2 -> same_store fs2 fs3 -> same_store fs1 fs3.
Proof.
  intros (A1 & A2 & A3 & A4) (B1 & B2 & B3 & B4).
  repeat split; congruence.
Qed.

Lemma same_store_read fs k buf b disk' :
  assert_disk_read (disk fs) k buf = Ok (b, disk') -> same_store fs (set_disk fs disk').
Proof.
  intros H. apply assert_disk_read_inv in H as (d & Hd & _ & _ & ->).
  unfold same_store. rewrite Hd. cbn. auto.
Qed.

Lemma sound_same_store fs fs' : same_store fs fs' -> sound fs -> sound fs'.
Proof.
  intros (Hfb & Hm & Hi & Hb) (d & fb & Hd & Hf & Hblocks & C).
  rewrite Hd in Hi, Hb. destruct (disk fs') as [d'|] eqn:Hd'; [|discriminate].
  cbn in Hi, Hb. injection Hi as Hi. injection Hb as Hb.
  exists d', fb. rewrite Hm, Hi, Hb, Hfb. auto.
Qed.

Lemma fs_load_inode_same fs n r fs' : fs_load_inode fs n = Ok (r, fs') -> same_store fs fs'.
Proof. intros H. apply fs_load_inode_frame in H. exact H. Qed.

Lemma memcpy_inv dst doff src soff n out :
  memcpy dst doff src soff n = Ok out ->
  0 <= n /\ 0 <= doff /\ doff + n <= Z.of_nat (length dst)
  /\ length out = length dst
  /\ take (Z.to_nat doff) out = take (Z.to_nat doff) dst
  /\ drop (Z.to_nat (doff + n)) out = drop (Z.to_nat (doff + n)) dst.
Proof.
  unfold memcpy.
  destruct (n <? 0) eqn:H1; [discriminate|].
  destruct (doff <? 0) eqn:H2; [discriminate|].
  destruct (soff <? 0) eqn:H3; [discriminate|].
  destruct (Z.of_nat (length src) <? soff + n) eqn:H4; [discriminate|].
  destruct (Z.of_nat (length dst) <? doff + n) eqn:H5; [discriminate|].
  cbn. intros [= <-].
  assert (Hmid : length (take (Z.to_nat n) (drop (Z.to_nat soff) src)) = Z.to_nat n)
    by (rewrite length_take, length_drop; lia).
  assert (Hpre : length (take (Z.to_nat doff) dst) = Z.to_nat doff)
    by (rewrite length_take; lia).
  split; [lia|]. split; [lia|]. split; [lia|]. split; [|split].
  - rewrite !length_app, Hmid, Hpre, length_drop. lia.
  - rewrite take_app_le by lia. rewrite take_take. f_equal. lia.
  - rewrite app_assoc. rewrite drop_app_ge by (rewrite length_app, Hmid, Hpre; lia).
    rewrite length_app, Hmid, Hpre.
    replace (Z.to_nat (doff + n) - (Z.to_nat doff + Z.to_nat n))%nat with O by lia.
    reflexivity.
Qed.

(** A loop of [fs_read]: the file system is left alone, the count grows up to
    [length] at most, and the caller's buffer changes between the count on
    entry and the count on exit only. *)
Lemma read_loop_effect ptrs len k : forall st st',
  0 <= rs_sum st ->
  read_loop k ptrs len st = Ok st' ->
  same_store (rs_fs st) (rs_fs st')
  /\ rs_sum st <= rs_sum st'
  /\ (rs_sum st' <= len \/ rs_sum st' = rs_sum st)
  /\ length (rs_data st') = length (rs_data st)
  /\ take (Z.to_nat (rs_sum st)) (rs_data st') = take (Z.to_nat (rs_sum st)) (rs_data st)
  /\ drop (Z.to_nat (rs_sum st')) (rs_data st') = drop (Z.to_nat (rs_sum st')) (rs_data st).
Proof.
  induction k as [|k IH]; intros st st' Hsum Hrun.
  - cbn in Hrun. injection Hrun as <-.
    split; [apply same_store_refl|]. split; [lia|]. split; [right; reflexivity|]. auto.
  - cbn [read_loop] in Hrun.
    destruct (rs_sum st <? len) eqn:Hlt; cbn [negb] in Hrun.
    2:{ injection Hrun as <-. split; [apply same_store_refl|]. split; [lia|].
        split; [right; reflexivity|]. auto. }
    destruct (ptrs !! Z.to_nat (rs_i st)) as [p|]; [|discriminate].
    destruct (p =? 0).
    { injection Hrun as <-. split; [apply same_store_refl|]. split; [lia|].
      split; [right; reflexivity|]. auto. }
    destruct (assert_disk_read _ _ _) as [[block_data disk']|] eqn:Hread; [|discriminate].
    cbn [bind] in Hrun.
    destruct (memcpy _ _ _ _ _) as [data|] eqn:Hcopy; [|discriminate].
    cbn [bind] in Hrun.
    apply memcpy_inv in Hcopy as (Hn & _ & Hfit & Hlen & Htake & Hdrop).
    set (read_size := if len - rs_sum st <? BLOCK_SIZE then len - rs_sum st else BLOCK_SIZE) in *.
    assert (Hrs : 0 <= read_size <= len - rs_sum st)
      by (subst read_size; destruct (len - rs_sum st <? BLOCK_SIZE) eqn:E; lia).
    apply IH in Hrun; [|cbn; lia].
    cbn [rs_fs rs_sum rs_data] in Hrun.
    destruct Hrun as (Hsame & Hle & Hbound & Hlen' & Htake' & Hdrop').
    split; [eapply same_store_trans; [eapply same_store_read; exact Hread|exact Hsame]|].
    split; [lia|]. split; [left; lia|]. split; [congruence|]. split.
    + apply (f_equal (take (Z.to_nat (rs_sum st)))) in Htake'.
      rewrite !take_take in Htake'.
      replace (Z.to_nat (rs_sum st) `min` Z.to_nat (rs_sum st + read_size))%nat
        with (Z.to_nat (rs_sum st)) in Htake' by lia.
      congruence.
    + rewrite Hdrop'.
      replace (Z.to_nat (rs_sum st')) with
        (Z.to_nat (rs_sum st + read_size) + (Z.to_nat (rs_sum st') - Z.to_nat (rs_sum st + read_size)))%nat
        by lia.
      rewrite <- !drop_drop. rewrite Hdrop. reflexivity.
Qed.

(** [fs_read] leaves the bitmap, the cached superblock and the image on disk
    as they are; it returns -1 or a count between 0 and [length]; the
    caller's buffer keeps its length and every byte from the returned count
    on.  For an inode that [fs_load_inode] loads the count is not negative
    and, when [offset + length] is below 2^64 (the [size_t] sum does not
    wrap), not above what the file holds from [offset] on. *)
Theorem fs_read_effect fs n data len off r out fs' :
  0 <= len -> 0 <= off ->
  fs_read fs n data len off = Ok (r, out, fs') ->
  same_store fs fs'
  /\ length out = length data
  /\ -1 <= r <= len
  /\ drop (Z.to_nat r) out = drop (Z.to_nat r) data
  /\ (forall node fs1,
        fs_load_inode fs n = Ok (Some node, fs1) ->
        0 <= r /\ (off + len < 2 ^ 64 -> r <= Z.max 0 (size node - off))).
Proof.
  intros Hlen Hoff Hrun. unfold fs_read in Hrun.
  destruct (fs_load_inode fs n) as [[[node|] fs1]|] eqn:Hload; [| |discriminate];
    cbn [bind] in Hrun.
  2:{ injection Hrun as <- <- <-. split; [eapply fs_load_inode_same; exact Hload|].
      split; [reflexivity|]. split; [lia|]. split; [reflexivity|]. intros ? ? [=]. }
  pose proof (fs_load_inode_same _ _ _ _ Hload) as Hsame1.
  pose proof (wf_inode_loaded _ _ _ _ Hload) as (_ & Hsz & _).
  destruct (off >=? size node) eqn:Hpast.
  { injection Hrun as <- <- <-. split; [exact Hsame1|]. split; [reflexivity|].
    split; [lia|]. split; [reflexivity|]. intros nd f [= <- <-]. split; lia. }
  destruct (len =? 0) eqn:Hzero.
  { injection Hrun as <- <- <-. split; [exact Hsame1|]. split; [reflexivity|].
    split; [lia|]. split; [reflexivity|]. intros nd f [= <- <-]. split; lia. }
  set (len' := if wrap64 (off + len) >=? size node then size node - off else len) in *.
  assert (Hwrap : 0 <= wrap64 (off + len) <= off + len).
  { unfold wrap64. pose proof (Z.mod_pos_bound (off + len) (2 ^ 64) ltac:(lia)).
    pose proof (Z.mod_le (off + len) (2 ^ 64) ltac:(lia) ltac:(lia)). lia. }
  assert (Hlen' : 0 <= len' <= len)
    by (subst len'; destruct (wrap64 (off + len) >=? size node) eqn:E; lia).
  assert (Hfile : off + len < 2 ^ 64 -> len' <= size node - off).
  { intros Hno. subst len'. destruct (wrap64 (off + len) >=? size node) eqn:E; [lia|].
    unfold wrap64 in E. rewrite Z.mod_small in E by lia. lia. }
  destruct (read_loop _ (direct node) len' _) as [st1|] eqn:Hloop1; [|discriminate].
  cbn [bind] in Hrun.
  apply read_loop_effect in Hloop1; [|cbn; lia].
  cbn [rs_fs rs_sum rs_data] in Hloop1.
  destruct Hloop1 as (Hs1 & Hle1 & Hb1 & Hl1 & _ & Hd1).
  assert (Hfin : forall st2,
             (st2 = st1
              \/ exists blk' disk' k i,
                   assert_disk_read (disk (rs_fs st1)) (indirect node) zero_block
                   = Ok (blk', disk')
                   /\ read_loop k (pointers_of blk') len'
                        {| rs_fs := set_disk (rs_fs st1) disk'; rs_data := rs_data st1;
                           rs_i := i; rs_sum := rs_sum st1; rs_offset := rs_offset st1 |}
                      = Ok st2) ->
             same_store fs (rs_fs st2) /\ length (rs_data st2) = length data
             /\ 0 <= rs_sum st2 <= len'
             /\ drop (Z.to_nat (rs_sum st2)) (rs_data st2) = drop (Z.to_nat (rs_sum st2)) data).
  { intros st2 [->|(blk' & disk' & k & i & Hread & Hloop2)].
    - split; [eapply same_store_trans; eassumption|]. split; [exact Hl1|].
      split; [lia|exact Hd1].
    - apply read_loop_effect in Hloop2; [|cbn; lia].
      cbn [rs_fs rs_sum rs_data] in Hloop2.
      destruct Hloop2 as (Hs2 & Hle2 & Hb2 & Hl2 & _ & Hd2).
      split.
      { eapply same_store_trans; [exact Hsame1|].
        eapply same_store_trans; [exact Hs1|].
        eapply same_store_trans; [eapply same_store_read; exact Hread|exact Hs2]. }
      split; [congruence|]. split; [lia|].
      rewrite Hd2.
      replace (Z.to_nat (rs_sum st2)) with
        (Z.to_nat (rs_sum st1) + (Z.to_nat (rs_sum st2) - Z.to_nat (rs_sum st1)))%nat by lia.
      rewrite <- !drop_drop. rewrite Hd1. reflexivity. }
  assert (Hst2 : exists st2, Ok (rs_sum st2, rs_data st2, rs_fs st2) = Ok (r, out, fs')
                             /\ same_store fs (rs_fs st2) /\ length (rs_data st2) = length data
                             /\ 0 <= rs_sum st2 <= len'
                             /\ drop (Z.to_nat (rs_sum st2)) (rs_data st2)
                                = drop (Z.to_nat (rs_sum st2)) data).
  { destruct (negb (indirect node =? 0) && (rs_sum st1 <? len')).
    - destruct (assert_disk_read _ _ _) as [[blk' disk']|] eqn:Hread; [|discriminate].
      cbn [bind] in Hrun.
      destruct (read_loop _ (pointers_of blk') len' _) as [st2|] eqn:Hloop2; [|discriminate].
      cbn [bind] in Hrun. exists st2. split; [exact Hrun|].
      apply Hfin. right. eauto 10.
    - cbn [bind] in Hrun. exists st1. split; [exact Hrun|]. apply Hfin. left. reflexivity. }
  destruct Hst2 as (st2 & [= <- <- <-] & Hs & Hl & Hsum & Hd).
  split; [exact Hs|]. split; [exact Hl|]. split; [lia|]. split; [exact Hd|].
  intros nd f [= <- <-]. split; [lia|]. intros Hno. specialize (Hfile Hno). lia.
Qed.

Lemma fs_read_effect_witness :
  same_store fs_4000 (after_load (after_load fs_4000))
  /\ length (replicate 5 "a"%byte ++ replicate 3 "z"%byte) = length (replicate 8 "z"%byte)
  /\ -1 <= 5 <= 5
  /\ drop (Z.to_nat 5) (replicate 5 "a"%byte ++ replicate 3 "z"%byte)
     = drop (Z.to_nat 5) (replicate 8 "z"%byte)
  /\ (forall node fs1,
        fs_load_inode fs_4000 0 = Ok (Some node, fs1) ->
        0 <= 5 /\ (3995 + 5 < 2 ^ 64 -> 5 <= Z.max 0 (size node - 3995))).
Proof.
  apply (fs_read_effect fs_4000 0 (replicate 8 "z"%byte) 5 3995).
  - discriminate.
  - discriminate.
  - vm_compute. reflexivity.
Defined.

(** ** Creating an inode *)

Lemma free_slot_spec table : forall j0,
  match free_slot table j0 with
  | Some j =>
      exists (k : nat) node,
        j = j0 + Z.of_nat k /\ table !! k = Some node /\ valid node = 0
        /\ forall (k' : nat) nd, (k' < k)%nat -> table !! k' = Some nd -> valid nd <> 0
  | None => forall (k : nat) nd, table !! k = Some nd -> valid nd <> 0
  end.
Proof.
  induction table as [|node table IH]; intros j0; cbn [free_slot].
  - intros k nd H. discriminate.
  - destruct (valid node =? 0) eqn:Hv.
    + exists O, node. split; [lia|]. split; [reflexivity|]. split; [lia|].
      intros k' nd Hk. lia.
    + specialize (IH (j0 + 1)). destruct (free_slot table (j0 + 1)) as [j|].
      * destruct IH as (k & nd & -> & Hk & Hz & Hbelow).
        exists (S k), nd. split; [lia|]. split; [exact Hk|]. split; [exact Hz|].
        intros k' nd' Hlt Hk'. destruct k' as [|k'].
        -- cbn in Hk'. injection Hk' as <-. lia.
        -- apply (Hbelow k' nd'); [lia|exact Hk'].
      * intros k nd Hk. destruct k as [|k].
        -- cbn in Hk. injection Hk as <-. lia.
        -- apply (IH k nd Hk).
Qed.

Lemma wf_new_inode : wf_inode new_inode.
Proof.
  unfold wf_inode, new_inode, u32. cbn. split; [lia|]. split; [lia|]. split; [reflexivity|].
  split; [|lia]. repeat (constructor; [lia|]). constructor.
Qed.

Lemma inode_at_slot img i (k : nat) :
  (k < 128)%nat ->
  inode_at img ((i - 1) * 128 + Z.of_nat k) = inodes_of (blk img i) !! k.
Proof.
  intros Hk. unfold inode_at, INODES_PER_BLOCK.
  destruct (slot_div_mod i (Z.of_nat k) ltac:(lia)) as [-> ->].
  rewrite Nat2Z.id. reflexivity.
Qed.

(** An inode of block [i] whose slot is known to be valid. *)
Ltac exists_in_use_slot :=
  match goal with
  | Hall : forall (k : nat) nd, _ -> inodes_of (blk ?img ?i) !! k = Some nd -> valid nd <> 0,
    Hl : length (inodes_of (blk ?img ?i)) = 128%nat |- in_use ?img ?m =>
      let s := fresh "s" in
      let nd := fresh "nd" in
      let Hnd := fresh "Hnd" in
      set (s := Z.to_nat (m - (i - 1) * 128));
      destruct (lookup_lt_is_Some_2 (inodes_of (blk img i)) s) as [nd Hnd];
      [rewrite Hl; lia|];
      exists nd; split;
      [replace m with ((i - 1) * 128 + Z.of_nat s) by lia;
       rewrite inode_at_slot by lia; exact Hnd
      |apply (Hall s nd); [lia|exact Hnd]]
  | Hall : forall (k : nat) nd, inodes_of (blk ?img ?i) !! k = Some nd -> valid nd <> 0,
    Hl : length (inodes_of (blk ?img ?i)) = 128%nat |- in_use ?img ?m =>
      let s := fresh "s" in
      let nd := fresh "nd" in
      let Hnd := fresh "Hnd" in
      set (s := Z.to_nat (m - (i - 1) * 128));
      destruct (lookup_lt_is_Some_2 (inodes_of (blk img i)) s) as [nd Hnd];
      [rewrite Hl; lia|];
      exists nd; split;
      [replace m with ((i - 1) * 128 + Z.of_nat s) by lia;
       rewrite inode_at_slot by lia; exact Hnd
      |apply (Hall s nd); exact Hnd]
  end.

Lemma create_loop_spec k : forall fs d i fs' r,
  disk fs = Some d ->
  1 <= i -> i + Z.of_nat k <= disk_blocks d ->
  (Z.to_nat (i + Z.of_nat k) <= length (disk_image d))%nat ->
  (forall j, i <= j < i + Z.of_nat k -> wf_block (blk (disk_image d) j)) ->
  create_loop k i fs = Ok (r, fs') ->
  (r = -1 /\ same_store fs fs'
   /\ forall m, (i - 1) * 128 <= m < (i - 1 + Z.of_nat k) * 128 -> in_use (disk_image d) m)
  \/ ((i - 1) * 128 <= r < (i - 1 + Z.of_nat k) * 128
      /\ (exists old, inode_at (disk_image d) r = Some old /\ valid old = 0)
      /\ (forall m, (i - 1) * 128 <= m < r -> in_use (disk_image d) m)
      /\ exists d', disk fs' = Some d'
                    /\ disk_image d' = put_inode (disk_image d) r new_inode
                    /\ disk_blocks d' = disk_blocks d
                    /\ meta_data fs' = meta_data fs /\ free_blocks fs' = free_blocks fs).
Proof.
  induction k as [|k IH]; intros fs d i fs' r Hd Hi Hblocks Hlen Hwf Hrun.
  - cbn in Hrun. injection Hrun as <- <-. left. split; [reflexivity|].
    split; [apply same_store_refl|]. intros m Hm. lia.
  - cbn [create_loop] in Hrun. rewrite Hd in Hrun.
    rewrite (assert_disk_read_ok d i _ (blk (disk_image d) i)) in Hrun
      by (try apply blk_lt; lia).
    cbn [bind] in Hrun.
    assert (Hl128 : length (inodes_of (blk (disk_image d) i)) = 128%nat)
      by (apply length_inodes_of, Hwf; lia).
    pose proof (free_slot_spec (inodes_of (blk (disk_image d) i)) 0) as Hslot.
    destruct (free_slot (inodes_of (blk (disk_image d) i)) 0) as [j|].
    + destruct Hslot as (s & old & -> & Hs & Hz & Hbelow).
      pose proof (lookup_lt_Some _ _ _ Hs) as Hs128. rewrite Hl128 in Hs128.
      destruct (assert_fs_save_inode _ _ _) as [fs1|] eqn:Hsave; [|discriminate].
      cbn [bind] in Hrun. injection Hrun as <- <-.
      apply assert_fs_save_inode_image in Hsave
        as (d0 & d' & [= <-] & Hd' & Himg & Hb' & Hm' & Hfb' & _).
      right. unfold INODES_PER_BLOCK. rewrite Z.add_0_l.
      split; [lia|]. split; [exists old; rewrite inode_at_slot by lia; auto|].
      split.
      * intros m Hm. exists_in_use_slot.
      * exists d'. cbn in Himg, Hb'. auto 10.
    + assert (Hrec := IH (set_disk fs (Some (count_read d))) (count_read d) (i + 1) fs' r
                         eq_refl ltac:(lia)).
      cbn [count_read disk_blocks disk_image set_disk meta_data free_blocks] in Hrec.
      destruct Hrec as [(-> & Hsame & Hall)|(Hr & Hold & Hlow & Hfin)].
      * lia.
      * replace (i + 1 + Z.of_nat k) with (i + Z.of_nat (S k)) by lia. exact Hlen.
      * intros j Hj. apply Hwf. lia.
      * exact Hrun.
      * left. split; [reflexivity|]. split.
        -- eapply same_store_trans; [|exact Hsame].
           unfold same_store. rewrite Hd. cbn. auto.
        -- intros m Hm. destruct (decide (m < i * 128)) as [Hlt|Hge]; [|apply Hall; lia].
           exists_in_use_slot.
      * right. split; [lia|]. split; [exact Hold|]. split; [|exact Hfin].
        intros m Hm. destruct (decide (m < i * 128)) as [Hlt|Hge]; [|apply Hlow; lia].
        exists_in_use_slot.
Qed.

Lemma create_loop_total k : forall fs d i,
  disk fs = Some d ->
  1 <= i -> i + Z.of_nat k <= disk_blocks d ->
  (Z.to_nat (i + Z.of_nat k) <= length (disk_image d))%nat ->
  (i - 1 + Z.of_nat k) * 128 <= inodes (meta_data fs) ->
  (forall j, i <= j < i + Z.of_nat k -> wf_block (blk (disk_image d) j)) ->
  exists r fs', create_loop k i fs = Ok (r, fs').
Proof.
  induction k as [|k IH]; intros fs d i Hd Hi Hblocks Hlen Hino Hwf.
  - cbn. eauto.
  - cbn [create_loop]. rewrite Hd.
    rewrite (assert_disk_read_ok d i _ (blk (disk_image d) i))
      by (try apply blk_lt; lia).
    cbn [bind].
    assert (Hl128 : length (inodes_of (blk (disk_image d) i)) = 128%nat)
      by (apply length_inodes_of, Hwf; lia).
    pose proof (free_slot_spec (inodes_of (blk (disk_image d) i)) 0) as Hslot.
    destruct (free_slot (inodes_of (blk (disk_image d) i)) 0) as [j|].
    + destruct Hslot as (s & old & -> & Hs & Hz & Hbelow).
      pose proof (lookup_lt_Some _ _ _ Hs) as Hs128. rewrite Hl128 in Hs128.
      unfold INODES_PER_BLOCK. rewrite Z.add_0_l.
      destruct (slot_div_mod i (Z.of_nat s) ltac:(lia)) as [Hq Hr].
      erewrite (assert_fs_save_inode_ok _ (count_read d)
                  ((i - 1) * 128 + Z.of_nat s) _ (blk (disk_image d) i)).
      * cbn [bind]. eauto.
      * reflexivity.
      * cbn [set_disk meta_data]. lia.
      * unfold INODES_PER_BLOCK. rewrite Hq. cbn [count_read disk_blocks]. lia.
      * unfold INODES_PER_BLOCK. rewrite Hq. cbn [count_read disk_image].
        apply blk_lt. lia.
    + apply (IH (set_disk fs (Some (count_read d))) (count_read d) (i + 1)).
      * reflexivity.
      * lia.
      * cbn [count_read disk_blocks]. lia.
      * cbn [count_read disk_image].
        replace (i + 1 + Z.of_nat k) with (i + Z.of_nat (S k)) by lia. exact Hlen.
      * cbn [set_disk meta_data]. lia.
      * cbn [count_read disk_image]. intros j Hj. apply Hwf. lia.
Qed.

Lemma refs_not_in_use img n : ~ in_use img n -> refs img n = [].
Proof.
  intros H. unfold refs. destruct (inode_at img n) as [node|] eqn:Hn; [|reflexivity].
  unfold node_marks. destruct (valid node =? 0) eqn:Hv; [reflexivity|].
  exfalso. apply H. exists node. split; [exact Hn|lia].
Qed.

Lemma consistent_create sb fb img n old :
  consistent sb fb img -> 0 <= n < inodes sb ->
  inode_at img n = Some old -> valid old = 0 ->
  consistent sb fb (put_inode img n new_inode).
Proof.
  intros C Hn Hold Hz.
  pose proof (c_ib _ _ _ C) as Hib. pose proof (c_inodes _ _ _ C) as Hino.
  rewrite Hino in Hn.
  pose proof (inode_block_range n (inode_blocks sb) Hn) as Hblk.
  assert (Hlt : (Z.to_nat (n / INODES_PER_BLOCK + 1) < length img)%nat)
    by (rewrite (c_img _ _ _ C); lia).
  assert (Hwfb : wf_block (blk img (n / INODES_PER_BLOCK + 1)))
    by (apply (consistent_blk_wf sb fb); [exact C|lia]).
  assert (Hnew : inode_at (put_inode img n new_inode) n = Some new_inode)
    by (apply inode_at_put_same; [exact Hlt|exact Hwfb|apply wf_new_inode]).
  assert (Hrefs : refs img n = []).
  { unfold refs. rewrite Hold. unfold node_marks.
    assert ((valid old =? 0) = true) as -> by lia. reflexivity. }
  assert (Hrefs' : refs (put_inode img n new_inode) n = []).
  { unfold refs. rewrite Hnew. reflexivity. }
  apply (consistent_update sb fb img fb (put_inode img n new_inode) n).
  - exact C.
  - rewrite Hino. exact Hn.
  - unfold put_inode. apply Forall_insert; [apply (c_wf _ _ _ C)|].
    apply wf_of_inodes; [apply inodes_insert_wf, wf_new_inode|].
    rewrite length_insert. apply length_inodes_of, Hwfb.
  - apply length_put_inode.
  - reflexivity.
  - apply blk_put_inode_other. lia.
  - intros m Hm Hne. apply inode_at_put_other; [lia|lia|exact Hne|apply wf_new_inode].
  - intros k Hk _ _. apply blk_put_inode_other. lia.
  - intros b Hb. rewrite Hrefs, Hrefs'. split.
    + intros H. left. split; [exact H|]. apply not_elem_of_nil.
    + intros [[H _]|H]; [exact H|]. apply elem_of_nil in H. destruct H.
  - intros b Hb. rewrite Hrefs' in Hb. apply elem_of_nil in Hb. destruct Hb.
  - rewrite Hrefs'. constructor.
  - intros node Hnode _. rewrite Hnew in Hnode. injection Hnode as <-.
    unfold shaped, zero_ended, new_inode. cbn.
    split; [repeat constructor|]. split; [intros H; lia|]. left. lia.
Qed.

(** The handle of a new 10-block image after [fs_format] and [fs_mount]. *)
Lemma fresh_mounted_10 : fresh (handle_of (mounted 10)).
Proof.
  exists fresh_fs, (fresh_disk 10). eexists. eexists.
  split; [reflexivity|]. split; [cbn; lia|]. split; [reflexivity|].
  split; [vm_compute; reflexivity|]. vm_compute. reflexivity.
Qed.

Lemma sound_mounted_10 : sound (handle_of (mounted 10)).
Proof. apply fresh_sound, fresh_mounted_10. Qed.

(** [fs_create] on a sound handle never faults and keeps the handle sound.
    It returns -1 and changes nothing but the read counter exactly when every
    inode is in use; otherwise it returns the lowest inode number that is not
    in use, stores there a valid inode of size 0 without pointers, and leaves
    the bitmap, the superblock and every other inode as they were. *)
Theorem fs_create_lowest_free fs :
  sound fs ->
  exists r fs',
    fs_create fs = Ok (r, fs') /\ sound fs'
    /\ free_blocks fs' = free_blocks fs /\ meta_data fs' = meta_data fs
    /\ ((r = -1 /\ same_store fs fs'
         /\ forall m, 0 <= m < inodes (meta_data fs) -> in_use (image_of fs) m)
        \/ (0 <= r < inodes (meta_data fs)
            /\ ~ in_use (image_of fs) r
            /\ (forall m, 0 <= m < r -> in_use (image_of fs) m)
            /\ inode_at (image_of fs') r = Some new_inode
            /\ forall m, 0 <= m -> m <> r ->
                 inode_at (image_of fs') m = inode_at (image_of fs) m)).
Proof.
  intros Hsound. pose proof Hsound as (d & fb & Hd & Hfb & Hblocks & C).
  pose proof (c_ib _ _ _ C) as Hib. pose proof (c_inodes _ _ _ C) as Hino.
  pose proof (c_img _ _ _ C) as Himg.
  set (k := Z.to_nat (inode_blocks (meta_data fs))).
  assert (Hk : Z.of_nat k = inode_blocks (meta_data fs)) by (subst k; lia).
  assert (Hwf : forall j, 1 <= j < 1 + Z.of_nat k -> wf_block (blk (disk_image d) j)).
  { intros j Hj. apply (consistent_blk_wf _ _ _ j C). lia. }
  destruct (create_loop_total k fs d 1 Hd) as (r & fs' & Hrun);
    [lia|lia|lia|unfold INODES_PER_BLOCK in Hino; lia|exact Hwf|].
  exists r, fs'. split; [exact Hrun|].
  destruct (create_loop_spec k fs d 1 fs' r Hd) as
    [(-> & Hsame & Hall)|(Hr & (old & Hold & Hz) & Hlow & d' & Hd' & Himg' & Hb' & Hm' & Hfb')];
    [lia|lia|lia|exact Hwf|exact Hrun| |].
  - split; [apply (sound_same_store fs); assumption|].
    pose proof Hsame as (Hf & Hm & Hrest). split; [exact Hf|]. split; [exact Hm|].
    left. split; [reflexivity|]. split; [exact Hsame|].
    intros m Hm1. unfold image_of. rewrite Hd. apply Hall.
    unfold INODES_PER_BLOCK in Hino. lia.
  - assert (Hrange : 0 <= r < inodes (meta_data fs))
      by (unfold INODES_PER_BLOCK in Hino; lia).
    split.
    { exists d', fb. rewrite Hd', Hfb', Hb', Hm', Himg'. split; [reflexivity|].
      split; [exact Hfb|]. split; [exact Hblocks|].
      apply (consistent_create _ _ _ _ old); assumption. }
    split; [exact Hfb'|]. split; [exact Hm'|]. right.
    split; [exact Hrange|]. unfold image_of. rewrite Hd, Hd', Himg'.
    split; [intros (node & Hnode & Hv); congruence|].
    split; [intros m Hm1; apply Hlow; lia|]. split.
    + rewrite Hino in Hrange.
      pose proof (inode_block_range r _ Hrange) as Hblk.
      apply inode_at_put_same; [lia| |apply wf_new_inode].
      apply (consistent_blk_wf _ _ _ _ C). lia.
    + intros m Hm1 Hne. apply inode_at_put_other; [lia|lia|exact Hne|apply wf_new_inode].
Qed.

Lemma fs_create_lowest_free_witness :
  exists r fs',
    fs_create (handle_of (mounted 10)) = Ok (r, fs') /\ sound fs'
    /\ free_blocks fs' = free_blocks (handle_of (mounted 10))
    /\ meta_data fs' = meta_data (handle_of (mounted 10))
    /\ ((r = -1 /\ same_store (handle_of (mounted 10)) fs'
         /\ forall m, 0 <= m < inodes (meta_data (handle_of (mounted 10))) ->
              in_use (image_of (handle_of (mounted 10))) m)
        \/ (0 <= r < inodes (meta_data (handle_of (mounted 10)))
            /\ ~ in_use (image_of (handle_of (mounted 10))) r
            /\ (forall m, 0 <= m < r -> in_use (image_of (handle_of (mounted 10))) m)
            /\ inode_at (image_of fs') r = Some new_inode
            /\ forall m, 0 <= m -> m <> r ->
                 inode_at (image_of fs') m = inode_at (image_of (handle_of (mounted 10))) m)).
Proof. apply (fs_create_lowest_free (handle_of (mounted 10))), sound_mounted_10. Defined.

(** ** Removing an inode *)

Lemma wf_zero_inode : wf_inode zero_inode.
Proof.
  unfold wf_inode, zero_inode, u32. cbn. split; [lia|]. split; [lia|]. split; [reflexivity|].
  split; [|lia]. repeat (constructor; [lia|]). constructor.
Qed.

Lemma set_all_same_elements v (l1 l2 : list Z) (fb : list bool) :
  Forall (fun p => 0 <= p) l1 -> Forall (fun p => 0 <= p) l2 ->
  (forall b, b ∈ l1 <-> b ∈ l2) ->
  set_all v l1 fb = set_all v l2 fb.
Proof.
  intros H1 H2 Heq. apply list_eq. intros k.
  destruct (decide (k < length fb)%nat) as [Hk|Hk].
  - rewrite !set_all_lookup by assumption.
    destruct (decide (Z.of_nat k ∈ l1)) as [Hin|Hnin].
    + rewrite decide_True by (apply Heq; exact Hin). reflexivity.
    + rewrite decide_False by (intros Hin; apply Hnin, Heq; exact Hin). reflexivity.
  - rewrite !lookup_ge_None_2 by (rewrite length_set_all; lia). reflexivity.
Qed.

Lemma consistent_remove sb fb img n :
  consistent sb fb img -> 0 <= n < inodes sb ->
  consistent sb (set_all false (refs img n) fb) (put_inode img n zero_inode).
Proof.
  intros C Hn.
  pose proof (c_ib _ _ _ C) as Hib. pose proof (c_inodes _ _ _ C) as Hino.
  rewrite Hino in Hn.
  pose proof (inode_block_range n (inode_blocks sb) Hn) as Hblk.
  assert (Hlt : (Z.to_nat (n / INODES_PER_BLOCK + 1) < length img)%nat)
    by (rewrite (c_img _ _ _ C); lia).
  assert (Hwfb : wf_block (blk img (n / INODES_PER_BLOCK + 1)))
    by (apply (consistent_blk_wf sb fb); [exact C|lia]).
  assert (Hnew : inode_at (put_inode img n zero_inode) n = Some zero_inode)
    by (apply inode_at_put_same; [exact Hlt|exact Hwfb|apply wf_zero_inode]).
  assert (Hrefs' : refs (put_inode img n zero_inode) n = []).
  { unfold refs. rewrite Hnew. reflexivity. }
  assert (Hpos : Forall (fun p => 0 <= p) (refs img n)).
  { apply Forall_forall. intros b Hb.
    pose proof (c_range _ _ _ C n b ltac:(rewrite Hino; exact Hn) Hb). lia. }
  apply (consistent_update sb fb img _ (put_inode img n zero_inode) n).
  - exact C.
  - rewrite Hino. exact Hn.
  - unfold put_inode. apply Forall_insert; [apply (c_wf _ _ _ C)|].
    apply wf_of_inodes; [apply inodes_insert_wf, wf_zero_inode|].
    rewrite length_insert. apply length_inodes_of, Hwfb.
  - apply length_put_inode.
  - apply length_set_all.
  - apply blk_put_inode_other. lia.
  - intros m Hm Hne. apply inode_at_put_other; [lia|lia|exact Hne|apply wf_zero_inode].
  - intros k Hk _ _. apply blk_put_inode_other. lia.
  - intros b Hb. rewrite Hrefs'.
    rewrite set_all_lookup by (try exact Hpos; rewrite (c_fb _ _ _ C); lia).
    rewrite Z2Nat.id by lia.
    destruct (decide (b ∈ refs img n)) as [Hin|Hnin].
    + split; [discriminate|]. intros [[_ H]|H]; [contradiction|].
      apply elem_of_nil in H. destruct H.
    + split; [intros H; left; split; assumption|].
      intros [[H _]|H]; [exact H|]. apply elem_of_nil in H. destruct H.
  - intros b Hb. rewrite Hrefs' in Hb. apply elem_of_nil in Hb. destruct Hb.
  - rewrite Hrefs'. constructor.
  - intros node Hnode Hv. rewrite Hnew in Hnode. injection Hnode as <-.
    exfalso. apply Hv. reflexivity.
Qed.

(** What [fs_load_inode] returns when it finds a valid inode in a
    well-formed image. *)
Lemma fs_load_inode_sound fs d n node fs1 :
  disk fs = Some d -> Forall wf_block (disk_image d) -> 0 <= n ->
  fs_load_inode fs n = Ok (Some node, fs1) ->
  n < INODES_PER_BLOCK /\ n < inodes (meta_data fs)
  /\ (Z.to_nat (n / INODES_PER_BLOCK + 1) < length (disk_image d))%nat
  /\ n / INODES_PER_BLOCK + 1 < disk_blocks d
  /\ inode_at (disk_image d) n = Some node /\ valid node <> 0
  /\ fs1 = set_disk fs (Some (count_read d)).
Proof.
  intros Hd Hwf Hn Hload.
  apply fs_load_inode_some in Hload
    as (d' & b & slot & Hd' & Hlt & Hkb & Hb & Hs & Hv & Hnode & ->).
  rewrite Hd in Hd'. injection Hd' as <-.
  pose proof (lookup_lt_Some _ _ _ Hs) as Hs128.
  rewrite Forall_lookup in Hwf. pose proof (Hwf _ _ Hb) as Hwfb.
  rewrite (length_inodes_of b Hwfb) in Hs128.
  unfold INODES_PER_BLOCK in *.
  assert (Hmod : n mod 128 = n) by (apply Z.mod_small; lia).
  rewrite Hmod in Hnode. rewrite Hs in Hnode. injection Hnode as <-.
  split; [lia|]. split; [exact Hlt|].
  split; [apply (lookup_lt_Some _ _ _ Hb)|]. split; [exact Hkb|]. split.
  - unfold inode_at, INODES_PER_BLOCK. rewrite Hmod.
    rewrite (blk_lookup _ _ _ Hb). exact Hs.
  - split; [exact Hv|reflexivity].
Qed.

(** One run of [fs_remove] on a valid inode whose pointers lie inside the
    bitmap. *)
Lemma fs_remove_run fs n node fs1 d fb :
  fs_load_inode fs n = Ok (Some node, fs1) ->
  disk fs = Some d -> free_blocks fs = Some fb ->
  Forall (fun p => 0 <= p < Z.of_nat (length fb)) (used (direct node)) ->
  (indirect node <> 0 ->
   0 <= indirect node < Z.of_nat (length fb)
   /\ indirect node < disk_blocks d
   /\ (Z.to_nat (indirect node) < length (disk_image d))%nat
   /\ Forall (fun p => 0 <= p < Z.of_nat (length fb))
        (used (pointers_of (blk (disk_image d) (indirect node))))) ->
  exists fs' d',
    fs_remove fs n = Ok (true, fs')
    /\ disk fs' = Some d'
    /\ disk_image d' = put_inode (disk_image d) n zero_inode
    /\ disk_blocks d' = disk_blocks d
    /\ meta_data fs' = meta_data fs
    /\ free_blocks fs' = Some (set_all false (released (disk_image d) node) fb).
Proof.
  intros Hload Hd Hfb Hr1 Hind.
  pose proof Hload as Hinv.
  apply fs_load_inode_some in Hinv
    as (d' & b & slot & Hd' & Hn & Hkb & Hb & Hs & Hv & Hnode & ->).
  rewrite Hd in Hd'. injection Hd' as <-.
  assert (Hsave : forall fs3 : FileSystem,
             option_map disk_image (disk fs3) = Some (disk_image d) ->
             option_map disk_blocks (disk fs3) = Some (disk_blocks d) ->
             meta_data fs3 = meta_data fs ->
             exists fs' d',
               assert_fs_save_inode fs3 n zero_inode = Ok fs'
               /\ disk fs' = Some d'
               /\ disk_image d' = put_inode (disk_image d) n zero_inode
               /\ disk_blocks d' = disk_blocks d
               /\ meta_data fs' = meta_data fs
               /\ free_blocks fs' = free_blocks fs3).
  { intros fs3 Hi3 Hb3 Hm3. destruct (disk fs3) as [d3|] eqn:Hd3; [|discriminate].
    cbn in Hi3, Hb3. injection Hi3 as Hi3. injection Hb3 as Hb3.
    destruct (assert_fs_save_inode fs3 n zero_inode) as [fs'|] eqn:Hrun.
    - pose proof Hrun as Himg.
      apply assert_fs_save_inode_image in Himg
        as (d0 & d4 & Hd0 & Hd4 & Himg & Hbl & Hm & Hf & _).
      rewrite Hd3 in Hd0. injection Hd0 as <-.
      exists fs', d4. rewrite Himg, Hbl, Hm, Hi3, Hb3. auto 10.
    - exfalso.
      rewrite (assert_fs_save_inode_ok fs3 d3 n zero_inode b) in Hrun;
        [discriminate|exact Hd3|rewrite Hm3; exact Hn|rewrite Hb3; exact Hkb
        |rewrite Hi3; exact Hb]. }
  unfold fs_remove. rewrite Hload. cbn [bind].
  rewrite (mark_pointers_ok false (direct node) 0 _ fb) by assumption.
  cbn [bind]. unfold released.
  destruct (indirect node =? 0) eqn:Hi0.
  - cbn [negb bind].
    edestruct Hsave as (fs' & d' & -> & H1 & H2 & H3 & H4 & H5);
      [| | |exists fs', d'; cbn [bind]; rewrite app_nil_r;
             split; [reflexivity|]; rewrite H5; auto 10];
      reflexivity.
  - cbn [negb]. destruct Hind as (Hr3 & Hlt & Hlen & Hr2); [lia|].
    cbn [set_free_blocks set_disk disk].
    rewrite (assert_disk_read_ok _ _ _ (blk (disk_image d) (indirect node)))
      by (try apply blk_lt; assumption).
    cbn [bind].
    rewrite (mark_pointers_ok false _ 0 _ (set_all false (used (direct node)) fb));
      [|reflexivity|rewrite length_set_all; exact Hr2].
    cbn [bind].
    destruct (used (pointers_of (blk (disk_image d) (indirect node)))) as [|p ps] eqn:Hused.
    + change (0 + Z.of_nat (length (@nil Z)) =? 0) with true. cbn [negb bind].
      edestruct Hsave as (fs' & d' & -> & H1 & H2 & H3 & H4 & H5);
        [| | |exists fs', d'; cbn [bind]; rewrite !app_nil_r;
               split; [reflexivity|]; rewrite H5; auto 10];
        reflexivity.
    + assert ((0 + Z.of_nat (length (p :: ps)) =? 0) = false) as ->
        by (apply Z.eqb_neq; cbn [length]; lia).
      cbn [negb].
      erewrite bitmap_set_ok; [|reflexivity|rewrite !length_set_all; exact Hr3].
      cbn [bind].
      edestruct Hsave as (fs' & d' & -> & H1 & H2 & H3 & H4 & H5);
        [| | |exists fs', d'; cbn [bind];
               split; [reflexivity|]; rewrite H5;
               split; [exact H1|]; split; [exact H2|]; split; [exact H3|];
               split; [exact H4|]; rewrite !set_all_app; reflexivity];
        reflexivity.
Qed.

Lemma sound_create fs r fs' : sound fs -> fs_create fs = Ok (r, fs') -> sound fs'.
Proof.
  intros Hsound Hrun. pose proof Hsound as (d & fb & Hd & Hfb & Hblocks & C).
  pose proof (c_ib _ _ _ C) as Hib. pose proof (c_inodes _ _ _ C) as Hino.
  pose proof (c_img _ _ _ C) as Himg. unfold fs_create in Hrun.
  destruct (create_loop_spec (Z.to_nat (inode_blocks (meta_data fs))) fs d 1 fs' r Hd) as
    [(-> & Hsame & Hall)|(Hr & (old & Hold & Hz) & Hlow & d' & Hd' & Himg' & Hb' & Hm' & Hfb')];
    [lia|lia|lia| |exact Hrun| |].
  - intros j Hj. apply (consistent_blk_wf _ _ _ j C). lia.
  - apply (sound_same_store fs); assumption.
  - exists d', fb. rewrite Hd', Hfb', Hb', Hm', Himg'. split; [reflexivity|].
    split; [exact Hfb|]. split; [exact Hblocks|].
    apply (consistent_create _ _ _ _ old); try assumption.
    unfold INODES_PER_BLOCK in Hino. lia.
Qed.

Lemma node_marks_released img node :
  valid node <> 0 -> ~ empty_indirect img node ->
  forall b, b ∈ released img node <-> b ∈ node_marks img node.
Proof.
  intros Hv Hleak b. unfold released, node_marks.
  assert ((valid node =? 0) = false) as -> by lia.
  rewrite !elem_of_app. destruct (indirect node =? 0) eqn:Hi; [reflexivity|].
  destruct (used (pointers_of (blk img (indirect node)))) as [|p ps] eqn:Hused.
  - exfalso. apply Hleak. split; [lia|exact Hused].
  - rewrite elem_of_app, !elem_of_cons, elem_of_nil. tauto.
Qed.

(** [fs_remove] of a valid inode on a sound handle. *)
Lemma sound_remove_run fs d fb n node fs1 :
  disk fs = Some d -> free_blocks fs = Some fb ->
  disk_blocks d = blocks (meta_data fs) ->
  consistent (meta_data fs) fb (disk_image d) ->
  0 <= n -> fs_load_inode fs n = Ok (Some node, fs1) ->
  exists fs' d',
    fs_remove fs n = Ok (true, fs')
    /\ disk fs' = Some d'
    /\ disk_image d' = put_inode (disk_image d) n zero_inode
    /\ disk_blocks d' = disk_blocks d
    /\ meta_data fs' = meta_data fs
    /\ free_blocks fs' = Some (set_all false (released (disk_image d) node) fb)
    /\ consistent (meta_data fs) (set_all false (refs (disk_image d) n) fb) (disk_image d')
    /\ refs (disk_image d) n = node_marks (disk_image d) node
    /\ valid node <> 0 /\ 0 <= n < inodes (meta_data fs).
Proof.
  intros Hd Hfb Hblocks C Hn Hload.
  destruct (fs_load_inode_sound fs d n node fs1 Hd (c_wf _ _ _ C) Hn Hload)
    as (Hn128 & Hlt & Hlen & Hkb & Hat & Hv & ->).
  assert (Hrefs : refs (disk_image d) n = node_marks (disk_image d) node)
    by (unfold refs; rewrite Hat; reflexivity).
  assert (Hrange : forall b, b ∈ node_marks (disk_image d) node ->
                             inode_blocks (meta_data fs) < b < blocks (meta_data fs)).
  { intros b Hb. apply (c_range _ _ _ C n b); [lia|]. rewrite Hrefs. exact Hb. }
  pose proof (c_ib _ _ _ C) as Hib. pose proof (c_fb _ _ _ C) as Hlfb.
  pose proof (c_img _ _ _ C) as Hlimg.
  assert (Hmarks : node_marks (disk_image d) node
                   = used (direct node)
                     ++ (if indirect node =? 0 then []
                         else indirect node
                              :: used (pointers_of (blk (disk_image d) (indirect node))))).
  { unfold node_marks. assert ((valid node =? 0) = false) as -> by lia. reflexivity. }
  destruct (fs_remove_run fs n node _ d fb Hload Hd Hfb)
    as (fs' & d' & Hrun & Hd' & Himg' & Hb' & Hm' & Hfb').
  - apply Forall_forall. intros b Hb.
    specialize (Hrange b). rewrite Hmarks, elem_of_app in Hrange.
    specialize (Hrange (or_introl Hb)). lia.
  - intros Hi.
    assert (Hin : forall b,
               b = indirect node
               \/ b ∈ used (pointers_of (blk (disk_image d) (indirect node))) ->
               inode_blocks (meta_data fs) < b < blocks (meta_data fs)).
    { intros b Hb. apply Hrange. rewrite Hmarks, elem_of_app. right.
      assert ((indirect node =? 0) = false) as -> by lia.
      apply elem_of_cons. exact Hb. }
    pose proof (Hin _ (or_introl eq_refl)) as Hind.
    split; [lia|]. split; [lia|]. split; [lia|].
    apply Forall_forall. intros b Hb. specialize (Hin b (or_intror Hb)). lia.
  - exists fs', d'. repeat (split; [assumption|]).
    split; [rewrite Himg'; apply consistent_remove; [exact C|lia]|].
    split; [exact Hrefs|]. split; [exact Hv|lia].
Qed.

(** [fs_remove] of an inode that [fs_load_inode] loads, on a sound handle,
    returns [true], clears the inode and leaves every other inode as it is.
    Unless the inode has an indirect block without pointers, the bitmap
    entries of exactly the blocks the inode referred to are cleared, the
    handle is sound again and a remount builds the same bitmap. *)
Theorem fs_remove_frees_blocks fs n node fs1 :
  sound fs -> 0 <= n ->
  fs_load_inode fs n = Ok (Some node, fs1) ->
  exists fs' fb fb',
    fs_remove fs n = Ok (true, fs')
    /\ free_blocks fs = Some fb /\ free_blocks fs' = Some fb'
    /\ ~ in_use (image_of fs') n
    /\ (forall m, 0 <= m -> m <> n ->
          inode_at (image_of fs') m = inode_at (image_of fs) m)
    /\ (~ empty_indirect (image_of fs) node ->
        sound fs'
        /\ (forall b, 0 <= b < blocks (meta_data fs) ->
              fb' !! Z.to_nat b
              = if decide (b ∈ node_marks (image_of fs) node) then Some false
                else fb !! Z.to_nat b)
        /\ remount fs' = Ok (true, Some fb')).
Proof.
  intros (d & fb & Hd & Hfb & Hblocks & C) Hn Hload.
  unfold image_of in *. rewrite Hd in *.
  destruct (sound_remove_run fs d fb n node fs1 Hd Hfb Hblocks C Hn Hload)
    as (fs' & d' & Hrun & Hd' & Himg' & Hb' & Hm' & Hfb' & C' & Hrefs & Hv & Hrange).
  exists fs', fb, (set_all false (released (disk_image d) node) fb).
  split; [exact Hrun|]. split; [exact Hfb|]. split; [exact Hfb'|].
  rewrite Hd'. split.
  { intros (node' & Hnode' & Hv').
    assert (Hz : inode_at (disk_image d') n = Some zero_inode).
    { rewrite Himg'. pose proof (c_inodes _ _ _ C) as Hino. rewrite Hino in Hrange.
      pose proof (inode_block_range n _ Hrange) as Hblk. pose proof (c_ib _ _ _ C) as Hib.
      apply inode_at_put_same; [rewrite (c_img _ _ _ C); lia| |apply wf_zero_inode].
      apply (consistent_blk_wf _ _ _ _ C). lia. }
    rewrite Hz in Hnode'. injection Hnode' as <-. apply Hv'. reflexivity. }
  split.
  { intros m Hm Hne. rewrite Himg'.
    apply inode_at_put_other; [lia|lia|exact Hne|apply wf_zero_inode]. }
  intros Hleak.
  assert (Hpos : Forall (fun p => 0 <= p) (node_marks (disk_image d) node)).
  { apply Forall_forall. intros b Hb. rewrite <- Hrefs in Hb.
    pose proof (c_range _ _ _ C n b Hrange Hb). pose proof (c_ib _ _ _ C). lia. }
  assert (Hsame : set_all false (released (disk_image d) node) fb
                  = set_all false (refs (disk_image d) n) fb).
  { rewrite Hrefs. apply set_all_same_elements.
    - apply Forall_forall. intros b Hb. apply node_marks_released in Hb; [|assumption..].
      rewrite Forall_forall in Hpos. apply Hpos, Hb.
    - exact Hpos.
    - apply node_marks_released; assumption. }
  assert (Hsound' : sound fs').
  { exists d', (set_all false (refs (disk_image d) n) fb).
    rewrite Hd', Hfb', Hb', Hm', Hsame. auto. }
  split; [exact Hsound'|]. split.
  { intros b Hb. rewrite Hsame, Hrefs.
    rewrite set_all_lookup by (try exact Hpos; rewrite (c_fb _ _ _ C); lia).
    rewrite Z2Nat.id by lia. reflexivity. }
  rewrite (sound_remount fs' Hsound'), Hfb'. reflexivity.
Qed.

(** On a sound handle, [fs_remove] of an inode that [fs_load_inode] loads
    and whose indirect block holds no pointer releases the direct blocks but
    not the indirect block: its bitmap entry stays set although no inode
    refers to the block any more, and a remount builds a bitmap in which the
    entry is clear. *)
Theorem fs_remove_leaks_empty_indirect fs n node fs1 :
  sound fs -> 0 <= n ->
  fs_load_inode fs n = Ok (Some node, fs1) ->
  empty_indirect (image_of fs) node ->
  exists fs' fb' fb'',
    fs_remove fs n = Ok (true, fs')
    /\ free_blocks fs' = Some fb'
    /\ fb' !! Z.to_nat (indirect node) = Some true
    /\ (forall m, 0 <= m < inodes (meta_data fs') ->
          indirect node ∉ refs (image_of fs') m)
    /\ remount fs' = Ok (true, Some fb'')
    /\ fb'' !! Z.to_nat (indirect node) = Some false.
Proof.
  intros (d & fb & Hd & Hfb & Hblocks & C) Hn Hload [Hind Hempty].
  unfold image_of in *. rewrite Hd in *.
  destruct (sound_remove_run fs d fb n node fs1 Hd Hfb Hblocks C Hn Hload)
    as (fs' & d' & Hrun & Hd' & Himg' & Hb' & Hm' & Hfb' & C' & Hrefs & Hv & Hrange).
  pose proof (c_ib _ _ _ C) as Hib.
  assert (Hmarks : node_marks (disk_image d) node = used (direct node) ++ [indirect node]).
  { unfold node_marks. assert ((valid node =? 0) = false) as -> by lia.
    assert ((indirect node =? 0) = false) as -> by lia. rewrite Hempty. reflexivity. }
  assert (Hrel : released (disk_image d) node = used (direct node)).
  { unfold released. assert ((indirect node =? 0) = false) as -> by lia.
    rewrite Hempty. apply app_nil_r. }
  assert (Hin : indirect node ∈ refs (disk_image d) n).
  { rewrite Hrefs, Hmarks. apply elem_of_app. right. constructor. }
  pose proof (c_range _ _ _ C n _ Hrange Hin) as Hir.
  assert (Hpos : Forall (fun p => 0 <= p) (refs (disk_image d) n)).
  { apply Forall_forall. intros b Hb. pose proof (c_range _ _ _ C n b Hrange Hb). lia. }
  assert (Hnotin : indirect node ∉ used (direct node)).
  { pose proof (c_nodup _ _ _ C n Hrange) as Hnd. rewrite Hrefs, Hmarks in Hnd.
    apply NoDup_app in Hnd as (_ & Hdis & _). intros H. apply (Hdis _ H). constructor. }
  set (fb'' := set_all false (refs (disk_image d) n) fb) in *.
  assert (Hfalse : fb'' !! Z.to_nat (indirect node) = Some false).
  { subst fb''. rewrite set_all_lookup by (try exact Hpos; rewrite (c_fb _ _ _ C); lia).
    rewrite Z2Nat.id by lia. rewrite decide_True by exact Hin. reflexivity. }
  exists fs', (set_all false (used (direct node)) fb), fb''.
  split; [exact Hrun|]. split; [rewrite Hfb', Hrel; reflexivity|]. split.
  { rewrite set_all_lookup; [| |rewrite (c_fb _ _ _ C); lia].
    - rewrite Z2Nat.id by lia. rewrite decide_False by exact Hnotin.
      apply (c_bitmap _ _ _ C); [lia|]. right. exists n. split; [exact Hrange|exact Hin].
    - rewrite Hrefs, Hmarks in Hpos. apply Forall_app in Hpos as [Hpos _]. exact Hpos. }
  split.
  { intros m Hm Href. rewrite Hd' in Href. rewrite Hm' in Hm.
    assert (Htrue : fb'' !! Z.to_nat (indirect node) = Some true).
    { apply (c_bitmap _ _ _ C'); [lia|]. right. exists m. split; assumption. }
    congruence. }
  split; [|exact Hfalse].
  assert (Hsound'' : sound (set_free_blocks fs' (Some fb''))).
  { exists d', fb''. cbn [set_free_blocks disk meta_data free_blocks].
    rewrite Hd', Hb', Hm'. auto. }
  apply sound_remount in Hsound''. exact Hsound''.
Qed.

(** ** Writing: pointer arrays *)

Lemma used_length_le (A : list Z) : (length (used A) <= length A)%nat.
Proof.
  induction A as [|p A IH]; [cbn; lia|]. cbn [used].
  destruct (p =? 0); cbn [length]; lia.
Qed.

Lemma used_take (A : list Z) : used A = take (length (used A)) A.
Proof.
  induction A as [|p A IH]; [reflexivity|]. cbn [used].
  destruct (p =? 0); [reflexivity|]. cbn [length take]. f_equal. exact IH.
Qed.

Lemma used_nonzero (A : list Z) : Forall (fun p => p <> 0) (used A).
Proof.
  induction A as [|p A IH]; [constructor|]. cbn [used].
  destruct (p =? 0) eqn:Hp; [constructor|]. constructor; [lia|exact IH].
Qed.

Lemma used_zero_at (A : list Z) : forall i, A !! i = Some 0 -> (length (used A) <= i)%nat.
Proof.
  induction A as [|p A IH]; intros i Hi; [discriminate|]. cbn [used].
  destruct (p =? 0) eqn:Hp; [cbn; lia|].
  destruct i as [|i]; cbn in Hi.
  - injection Hi as ->. discriminate.
  - cbn [length]. specialize (IH i Hi). lia.
Qed.

Lemma zero_ended_lookup (A : list Z) i p :
  zero_ended A -> A !! i = Some p -> p <> 0 ->
  (i < length (used A))%nat /\ p ∈ used A.
Proof.
  intros Hz Hi Hp.
  assert (Hlt : (i < length (used A))%nat).
  { destruct (decide (i < length (used A))%nat) as [H|H]; [exact H|]. exfalso.
    unfold zero_ended in Hz. rewrite Forall_lookup in Hz.
    apply Hp, (Hz (i - length (used A))%nat p).
    rewrite lookup_drop. replace (length (used A) + (i - length (used A)))%nat with i by lia.
    exact Hi. }
  split; [exact Hlt|]. rewrite used_take. apply (list_elem_of_lookup_2 _ i).
  rewrite lookup_take_lt by exact Hlt. exact Hi.
Qed.

Lemma zero_ended_zeros (A : list Z) : Forall (fun x => x = 0) A -> used A = [].
Proof.
  intros H. destruct H as [|x A Hx _]; [reflexivity|]. cbn [used].
  subst x. reflexivity.
Qed.

Lemma used_insert_end (A : list Z) b :
  zero_ended A -> (length (used A) < length A)%nat -> b <> 0 ->
  used (<[length (used A) := b]> A) = used A ++ [b]
  /\ zero_ended (<[length (used A) := b]> A).
Proof.
  unfold zero_ended. induction A as [|p A IH]; intros Hz Hlen Hb; [cbn in Hlen; lia|].
  cbn [used] in *. destruct (p =? 0) eqn:Hp.
  - cbn [length] in *. cbn [insert list_insert]. cbn [used].
    assert ((b =? 0) = false) as -> by lia.
    cbn [drop] in Hz. apply Forall_cons in Hz as [_ Hz].
    rewrite (zero_ended_zeros A Hz). split; [reflexivity|]. cbn [length drop]. exact Hz.
  - cbn [length] in *. cbn [drop] in Hz. destruct (IH Hz ltac:(lia) Hb) as [IH1 IH2].
    change (<[S (length (used A)) := b]> (p :: A)) with (p :: <[length (used A) := b]> A).
    cbn [used]. rewrite Hp. rewrite IH1. split; [reflexivity|]. cbn [length app drop].
    rewrite <- IH1. exact IH2.
Qed.

Lemma shaped_capacity img node :
  shaped img node
  <-> zero_ended (direct node)
      /\ (indirect node <> 0 -> zero_ended (pointers_of (blk img (indirect node))))
      /\ size node
         <= capacity (direct node) (indirect node) (pointers_of (blk img (indirect node))).
Proof.
  unfold shaped, capacity, BLOCK_SIZE.
  destruct (Nat.eqb_spec (length (used (direct node))) 5) as [H5|H5];
    destruct (Z.eqb_spec (indirect node) 0) as [Hi|Hi]; cbn [andb negb];
    split; intros (H1 & H2 & H3); (split; [exact H1|]); (split; [exact H2|]); lia.
Qed.

(** ** Writing: the bytes of a file *)

Lemma capacity_data_blocks (D : list Z) I (P : list Z) :
  capacity D I P = Z.of_nat (length (data_blocks D I P)) * BLOCK_SIZE.
Proof.
  unfold capacity, data_blocks. rewrite length_app.
  destruct ((length (used D) =? 5)%nat && negb (I =? 0)) eqn:E.
  - apply andb_prop in E as [E _]. apply Nat.eqb_eq in E. rewrite E. lia.
  - cbn [length]. f_equal. lia.
Qed.

Lemma data_blocks_marks (D : list Z) I (P : list Z) b :
  b ∈ data_blocks D I P -> b ∈ marks D I P.
Proof.
  unfold data_blocks, marks. rewrite !elem_of_app. intros [H|H]; [left; exact H|].
  destruct (length (used D) =? 5)%nat; cbn [andb] in H; [|inversion H].
  destruct (I =? 0); cbn [negb] in H; [inversion H|]. right. apply elem_of_cons. right. exact H.
Qed.

Lemma data_blocks_nodup (D : list Z) I (P : list Z) :
  NoDup (marks D I P) -> NoDup (data_blocks D I P) /\ (I <> 0 -> I ∉ data_blocks D I P).
Proof.
  unfold data_blocks, marks. intros Hnd. apply NoDup_app in Hnd as (H1 & H2 & H3).
  destruct (Z.eqb_spec I 0) as [HI|HI]; cbn [negb].
  - rewrite andb_false_r, app_nil_r. split; [exact H1|]. intros H. contradiction.
  - apply NoDup_cons in H3 as [H3 H4]. split.
    + destruct (length (used D) =? 5)%nat; cbn [andb]; [|rewrite app_nil_r; exact H1].
      apply NoDup_app. split; [exact H1|]. split; [|exact H4].
      intros x Hx Hx'. apply (H2 x Hx). apply elem_of_cons. right. exact Hx'.
    + intros _ Hin. apply elem_of_app in Hin as [Hin|Hin].
      * apply (H2 I Hin). constructor.
      * destruct (length (used D) =? 5)%nat; cbn [andb] in Hin; [|inversion Hin].
        contradiction.
Qed.

Lemma data_blocks_same (D : list Z) I (P P' : list Z) :
  (I <> 0 -> P = P') -> data_blocks D I P = data_blocks D I P'.
Proof.
  intros H. unfold data_blocks. destruct (Z.eqb_spec I 0) as [|Hi].
  - rewrite !andb_false_r. reflexivity.
  - rewrite (H Hi). reflexivity.
Qed.

(** What [memcpy] leaves in the destination. *)
Lemma memcpy_lookup dst o src s c out (i : nat) :
  memcpy dst o src s c = Ok out ->
  out !! i
  = if decide (Z.to_nat o <= i < Z.to_nat (o + c))%nat
    then src !! (Z.to_nat s + (i - Z.to_nat o))%nat
    else dst !! i.
Proof.
  unfold memcpy.
  destruct (c <? 0) eqn:H1; [discriminate|].
  destruct (o <? 0) eqn:H2; [discriminate|].
  destruct (s <? 0) eqn:H3; [discriminate|].
  destruct (Z.of_nat (length src) <? s + c) eqn:H4; [discriminate|].
  destruct (Z.of_nat (length dst) <? o + c) eqn:H5; [discriminate|].
  cbn [orb]. intros [= <-].
  assert (Hl1 : length (take (Z.to_nat o) dst) = Z.to_nat o) by (rewrite length_take; lia).
  assert (Hl2 : length (take (Z.to_nat c) (drop (Z.to_nat s) src)) = Z.to_nat c)
    by (rewrite length_take, length_drop; lia).
  destruct (decide (Z.to_nat o <= i < Z.to_nat (o + c))%nat) as [Hin|Hout].
  - rewrite lookup_app_r by lia. rewrite Hl1.
    rewrite lookup_app_l by lia.
    rewrite lookup_take_lt by lia. rewrite lookup_drop. reflexivity.
  - destruct (decide (i < Z.to_nat o)%nat) as [Hlt|Hge].
    + rewrite lookup_app_l by lia. apply lookup_take_lt. exact Hlt.
    + rewrite lookup_app_r by lia. rewrite Hl1.
      rewrite lookup_app_r by lia. rewrite Hl2, lookup_drop. f_equal. lia.
Qed.

Lemma offset_in_block_eq offset g :
  g * BLOCK_SIZE <= offset < (g + 1) * BLOCK_SIZE ->
  offset / BLOCK_SIZE = g /\ offset mod BLOCK_SIZE = offset - g * BLOCK_SIZE.
Proof.
  unfold BLOCK_SIZE. intros H.
  assert (Hq : offset / 4096 = g).
  { symmetry. apply (Z.div_unique offset 4096 g (offset - g * 4096)); lia. }
  split; [exact Hq|]. rewrite Z.mod_eq by lia. rewrite Hq. lia.
Qed.

Lemma byte_at_block img (L : list Z) pos g i p :
  0 <= i < BLOCK_SIZE -> 0 <= g -> pos = g * BLOCK_SIZE + i ->
  L !! Z.to_nat g = Some p ->
  byte_at img L pos = blk img p !! Z.to_nat i.
Proof.
  intros Hi Hg -> Hp. unfold byte_at.
  destruct (offset_in_block_eq (g * BLOCK_SIZE + i) g) as [-> ->]; [lia|].
  rewrite Hp. f_equal. f_equal. lia.
Qed.

(** One slice of a write, seen as bytes of the file: the block [t], which is
    block [g] of the file, already or from now on, takes [c] bytes of the
    source at [o]. *)
Lemma content_step img0 node0 off0 data img (L L' : list Z) w t g o c base out :
  content_inv img0 node0 off0 data img L w ->
  0 <= g -> 0 <= o -> 0 < c -> o + c <= BLOCK_SIZE -> 0 <= w ->
  g * BLOCK_SIZE + o = off0 + w ->
  memcpy base o data w c = Ok out ->
  NoDup L' -> (forall p, p ∈ L' -> 0 <= p) ->
  L' !! Z.to_nat g = Some t ->
  (Z.to_nat t < length img)%nat ->
  (forall k p, L !! k = Some p -> L' !! k = Some p) ->
  off0 + w <= Z.of_nat (length L) * BLOCK_SIZE ->
  size node0 <= Z.of_nat (length L) * BLOCK_SIZE ->
  (L !! Z.to_nat g = Some t /\ base = blk img t) \/ (Z.to_nat g = length L /\ o = 0) ->
  content_inv img0 node0 off0 data (<[Z.to_nat t := out]> img) L' (w + c).
Proof.
  intros Hinv Hg Ho Hc Hfit Hw Hoff Hcp Hnd Hpos Ht Htlen Hprefix Hcap Hsize Hcase pos Hp.
  unfold BLOCK_SIZE in *.
  pose proof (Z.div_mod pos 4096 ltac:(lia)) as Hdm.
  pose proof (Z.mod_pos_bound pos 4096 ltac:(lia)) as Hmod.
  pose proof (Z.div_pos pos 4096 Hp ltac:(lia)) as Hdiv.
  remember (pos / 4096) as g' eqn:Hg'. remember (pos mod 4096) as i eqn:Hi.
  destruct (Hinv pos Hp) as [Hold1 Hold2].
  destruct (decide (g' = g)) as [->|Hne].
  - assert (Hbyte : byte_at (<[Z.to_nat t := out]> img) L' pos = out !! Z.to_nat i).
    { unfold byte_at, BLOCK_SIZE. rewrite <- Hg', <- Hi, Ht, blk_insert_same by exact Htlen.
      reflexivity. }
    rewrite Hbyte, (memcpy_lookup _ _ _ _ _ _ (Z.to_nat i) Hcp).
    destruct (decide (Z.to_nat o <= Z.to_nat i < Z.to_nat (o + c))%nat) as [Hin|Hout].
    + split.
      * intros _. f_equal. lia.
      * intros _ [H|H]; lia.
    + destruct Hcase as [[HLt ->]|[HgL ->]].
      * assert (Hsame : blk img t !! Z.to_nat i = byte_at img L pos).
        { unfold byte_at, BLOCK_SIZE. rewrite <- Hg', <- Hi, HLt. reflexivity. }
        split.
        -- intros Hr. etransitivity; [exact Hsame|]. apply Hold1. lia.
        -- intros Hs Hr. etransitivity; [exact Hsame|]. apply Hold2; [exact Hs|]. lia.
      * split; [intros Hr; lia|intros Hs Hr; lia].
  - destruct (L !! Z.to_nat g') as [p'|] eqn:Hp'.
    + pose proof (Hprefix _ _ Hp') as Hp''.
      assert (Hpt : Z.to_nat p' <> Z.to_nat t).
      { intros Heq.
        assert (p' = t).
        { pose proof (Hpos p' (list_elem_of_lookup_2 _ _ _ Hp'')).
          pose proof (Hpos t (list_elem_of_lookup_2 _ _ _ Ht)). lia. }
        subst p'. pose proof (NoDup_lookup _ _ _ _ Hnd Hp'' Ht). lia. }
      assert (Hsame : byte_at (<[Z.to_nat t := out]> img) L' pos = byte_at img L pos).
      { unfold byte_at, BLOCK_SIZE. rewrite <- Hg', <- Hi, Hp', Hp''.
        rewrite blk_insert_other by exact Hpt. reflexivity. }
      rewrite Hsame. split.
      * intros Hr. apply Hold1. nia.
      * intros Hs Hr. apply Hold2; [exact Hs|]. lia.
    + apply lookup_ge_None in Hp'. split; [intros Hr; nia|intros Hs Hr; nia].
Qed.

Lemma content_frame img0 node0 off0 data img img' (L : list Z) w :
  content_inv img0 node0 off0 data img L w ->
  (forall p, p ∈ L -> blk img' p = blk img p) ->
  content_inv img0 node0 off0 data img' L w.
Proof.
  intros Hinv Hsame pos Hpos.
  assert (Hb : byte_at img' L pos = byte_at img L pos).
  { unfold byte_at. destruct (L !! Z.to_nat (pos / BLOCK_SIZE)) as [p|] eqn:Hp; [|reflexivity].
    rewrite (Hsame p (list_elem_of_lookup_2 _ _ _ Hp)). reflexivity. }
  rewrite Hb. apply Hinv, Hpos.
Qed.

Lemma used_lookup (A : list Z) i p :
  zero_ended A -> A !! i = Some p -> p <> 0 -> used A !! i = Some p.
Proof.
  intros Hz Hi Hp. destruct (zero_ended_lookup A i p Hz Hi Hp) as [Hlt _].
  rewrite used_take. rewrite lookup_take_lt by exact Hlt. exact Hi.
Qed.

Lemma data_blocks_direct_lookup (D : list Z) I (P : list Z) i p :
  zero_ended D -> D !! i = Some p -> p <> 0 -> data_blocks D I P !! i = Some p.
Proof.
  intros Hz Hi Hp. unfold data_blocks. apply lookup_app_l_Some.
  apply used_lookup; assumption.
Qed.

Lemma data_blocks_full (D : list Z) I (P : list Z) :
  length (used D) = 5%nat -> I <> 0 -> data_blocks D I P = used D ++ used P.
Proof.
  intros H5 HI. unfold data_blocks. rewrite H5.
  assert ((I =? 0) = false) as -> by lia. reflexivity.
Qed.

Lemma data_blocks_short (D : list Z) I (P : list Z) :
  (length (used D) < 5)%nat -> data_blocks D I P = used D.
Proof.
  intros H5. unfold data_blocks.
  destruct (Nat.eqb_spec (length (used D)) 5) as [|_]; [lia|]. apply app_nil_r.
Qed.

Lemma data_blocks_indirect_lookup (D : list Z) I (P : list Z) i p :
  length (used D) = 5%nat -> I <> 0 ->
  zero_ended P -> P !! i = Some p -> p <> 0 ->
  data_blocks D I P !! (i + 5)%nat = Some p.
Proof.
  intros H5 HI Hz Hi Hp. rewrite data_blocks_full by assumption.
  rewrite lookup_app_r by lia. rewrite H5.
  replace (i + 5 - 5)%nat with i by lia. apply used_lookup; assumption.
Qed.

Lemma data_blocks_grow_direct (D : list Z) I (P : list Z) b :
  zero_ended D -> (length (used D) < length D)%nat -> (length (used D) < 5)%nat ->
  b <> 0 ->
  length (data_blocks D I P) = length (used D)
  /\ data_blocks (<[length (used D) := b]> D) I P !! length (used D) = Some b
  /\ forall k p, data_blocks D I P !! k = Some p ->
                 data_blocks (<[length (used D) := b]> D) I P !! k = Some p.
Proof.
  intros Hz Hlt H5 Hb. rewrite (data_blocks_short D I P H5).
  destruct (used_insert_end D b Hz Hlt Hb) as [Hused' _].
  split; [reflexivity|]. unfold data_blocks. rewrite Hused'. split.
  - rewrite <- app_assoc. rewrite lookup_app_r by lia.
    replace (length (used D) - length (used D))%nat with O by lia. reflexivity.
  - intros k p Hk. rewrite <- app_assoc. apply lookup_app_l_Some. exact Hk.
Qed.

Lemma data_blocks_grow_indirect (D : list Z) I (P : list Z) b :
  length (used D) = 5%nat -> I <> 0 ->
  zero_ended P -> (length (used P) < length P)%nat -> b <> 0 ->
  length (data_blocks D I P) = (length (used P) + 5)%nat
  /\ data_blocks D I (<[length (used P) := b]> P) = data_blocks D I P ++ [b].
Proof.
  intros H5 HI Hz Hlt Hb.
  destruct (used_insert_end P b Hz Hlt Hb) as [Hused' _].
  rewrite !data_blocks_full by assumption. rewrite Hused', length_app, H5.
  split; [lia|]. apply app_assoc.
Qed.

Lemma data_blocks_zero (D : list Z) (P : list Z) : data_blocks D 0 P = used D.
Proof. unfold data_blocks. rewrite andb_false_r. apply app_nil_r. Qed.

Lemma data_blocks_zeros (D : list Z) I k : data_blocks D I (replicate k 0) = used D.
Proof.
  unfold data_blocks. assert (used (replicate k 0) = []) as -> by (destruct k; reflexivity).
  destruct (_ && _); apply app_nil_r.
Qed.
(** ** Writing: the steps of the loops *)

Section Writing.

Variable sb : SuperBlock.
Variable fb0 : list bool.
Variable img0 : list Block.
Variable refs0 : list Z.
Hypothesis C0 : consistent sb fb0 img0.
Hypothesis Hrefs0 : forall b, b ∈ refs0 ->
  inode_blocks sb < b < blocks sb /\ fb0 !! Z.to_nat b = Some true.

Local Abbreviation store_inv := (store_inv sb fb0 img0 refs0).

Lemma store_inv_new_pos fs new : store_inv fs new -> Forall (fun p => 0 <= p) new.
Proof.
  intros (d & _ & _ & _ & _ & _ & Hnew & _). apply Forall_forall. intros b Hb.
  pose proof (c_ib _ _ _ C0). destruct (Hnew b Hb). lia.
Qed.

Lemma store_inv_range fs new b :
  store_inv fs new -> b ∈ refs0 ++ new -> inode_blocks sb < b < blocks sb.
Proof.
  intros (d & _ & _ & _ & _ & _ & Hnew & _) Hb. apply elem_of_app in Hb as [Hb|Hb].
  - apply Hrefs0, Hb.
  - apply Hnew, Hb.
Qed.

(** [fs_allocate_free_block] in the middle of a write. *)
Lemma alloc_step fs new :
  store_inv fs new ->
  (exists b fs',
     fs_allocate_free_block fs = Ok (b, fs') /\ b <> 0
     /\ store_inv fs' (new ++ [b])
     /\ disk fs' = disk fs /\ (b ∉ refs0) /\ (b ∉ new)
     /\ inode_blocks sb < b < blocks sb)
  \/ (fs_allocate_free_block fs = Ok (0, fs)
      /\ forall j, 1 <= j < blocks sb -> set_all true new fb0 !! Z.to_nat j = Some true).
Proof.
  intros Hinv. pose proof (store_inv_new_pos fs new Hinv) as Hpos.
  destruct Hinv as (d & Hd & Hb & Hm & Hfb & Hnd & Hnew & Hlen & Hwf & Hframe).
  pose proof (c_ib _ _ _ C0) as Hib. pose proof (c_fb _ _ _ C0) as Hlfb.
  unfold fs_allocate_free_block. rewrite Hm.
  destruct (allocate_loop_spec fs (set_all true new fb0) (Z.to_nat (blocks sb - 1)) 1 Hfb)
    as [(b & Hrun & Hr & Hfree & Hbelow)|[Hnone Hall]]; [lia|rewrite length_set_all; lia| |].
  - left. exists b, (set_free_blocks fs (Some (<[Z.to_nat b := true]> (set_all true new fb0)))).
    rewrite set_all_lookup in Hfree by (try exact Hpos; lia).
    rewrite Z2Nat.id in Hfree by lia.
    destruct (decide (b ∈ new)) as [Hin|Hnin]; [discriminate|].
    assert (Hgt : inode_blocks sb < b).
    { destruct (decide (b <= inode_blocks sb)) as [Hle|]; [|lia].
      assert (fb0 !! Z.to_nat b = Some true) by (apply (c_bitmap _ _ _ C0); [lia|left; exact Hle]).
      congruence. }
    split; [exact Hrun|]. split; [lia|]. split.
    { exists d. cbn [set_free_blocks disk meta_data free_blocks].
      split; [exact Hd|]. split; [exact Hb|]. split; [exact Hm|].
      split; [rewrite set_all_app; reflexivity|]. split.
      { apply NoDup_app. split; [exact Hnd|]. split; [|apply NoDup_singleton].
        intros x Hx Hx'. apply list_elem_of_singleton in Hx'. subst x. contradiction. }
      split.
      { intros x Hx. apply elem_of_app in Hx as [Hx|Hx]; [apply Hnew, Hx|].
        apply list_elem_of_singleton in Hx. subst x. split; [lia|exact Hfree]. }
      split; [exact Hlen|]. split; [exact Hwf|].
      intros k Hk Hk0 Hk1. apply Hframe; [exact Hk|exact Hk0|].
      intros Hin. apply Hk1, elem_of_app. left. exact Hin. }
    split; [reflexivity|]. split.
    { intros Hin. destruct (Hrefs0 b Hin) as [_ Ht]. congruence. }
    split; [exact Hnin|lia].
  - right. split; [exact Hnone|]. intros j Hj. apply Hall. lia.
Qed.

(** The copy of a slice and the write of the block, in the middle of a
    write: the only fault there can be is a source buffer that is too short. *)
Lemma slice_step data block target fs node st new g :
  store_inv fs new -> target ∈ refs0 ++ new -> wf_block block ->
  0 < ws_length st -> g * BLOCK_SIZE <= ws_offset st < (g + 1) * BLOCK_SIZE ->
  0 <= g -> 0 <= ws_written st ->
  match write_slice data block target fs node st with
  | Ok st' =>
      store_inv (ws_fs st') new /\ ws_node st' = node
      /\ ws_point st' = ws_point st + 1
      /\ 0 <= ws_length st'
      /\ (0 < ws_length st' -> ws_offset st' = (g + 1) * BLOCK_SIZE)
      /\ ws_offset st < ws_offset st' <= (g + 1) * BLOCK_SIZE
      /\ ws_written st' + ws_length st' = ws_written st + ws_length st
      /\ ws_offset st' - ws_written st' = ws_offset st - ws_written st
      /\ (forall k, Z.to_nat k <> Z.to_nat target ->
            blk (image_of (ws_fs st')) k = blk (image_of fs) k)
      /\ exists out,
           memcpy block (ws_offset st - g * BLOCK_SIZE) data (ws_written st)
             (ws_offset st' - ws_offset st) = Ok out
           /\ image_of (ws_fs st') = <[Z.to_nat target := out]> (image_of fs)
  | Fault _ => Z.of_nat (length data) < ws_written st + ws_length st
  end.
Proof.
  intros Hinv Htarget Hblock Hlen Hoff Hg Hw.
  pose proof (store_inv_range fs new target Hinv Htarget) as Hrange.
  destruct Hinv as (d & Hd & Hb & Hm & Hfb & Hnd & Hnew & Hlimg & Hwf & Hframe).
  pose proof (c_ib _ _ _ C0) as Hib. pose proof (c_img _ _ _ C0) as Hlimg0.
  destruct (offset_in_block_eq _ _ Hoff) as [Hq Hmod].
  unfold write_slice. rewrite Hmod. unfold BLOCK_SIZE in *.
  set (copy := if 4096 - (ws_offset st - g * 4096) <? ws_length st
               then 4096 - (ws_offset st - g * 4096) else ws_length st).
  assert (Hcopy : 0 < copy <= ws_length st /\ copy <= 4096 - (ws_offset st - g * 4096)
                  /\ (copy < ws_length st -> copy = 4096 - (ws_offset st - g * 4096))).
  { subst copy. destruct (4096 - (ws_offset st - g * 4096) <? ws_length st) eqn:E; lia. }
  clearbody copy.
  destruct (memcpy block (ws_offset st - g * 4096) data (ws_written st) copy) as [out|f] eqn:Hcp.
  - pose proof Hcp as Hcp0.
    apply memcpy_inv in Hcp as (_ & _ & _ & Hlout & _ & _).
    cbn [bind]. rewrite Hd.
    rewrite assert_disk_write_ok by lia. cbn [bind].
    cbn [ws_fs ws_node ws_point ws_length ws_offset ws_written].
    split.
    { exists (count_write (store d target out)).
      cbn [set_disk disk meta_data free_blocks count_write store disk_blocks disk_image].
      split; [reflexivity|]. split; [exact Hb|]. split; [exact Hm|]. split; [exact Hfb|].
      split; [exact Hnd|]. split; [exact Hnew|]. split; [rewrite length_insert; exact Hlimg|].
      split.
      { apply Forall_insert; [exact Hwf|]. unfold wf_block. rewrite Hlout. exact Hblock. }
      intros k Hk Hk0 Hk1. rewrite blk_insert_other; [apply Hframe; assumption|].
      intros Heq. assert (k = target) by lia. subst k.
      apply elem_of_app in Htarget as [H|H]; contradiction. }
    split; [reflexivity|]. split; [reflexivity|]. split; [lia|]. split; [lia|].
    split; [lia|]. split; [lia|]. split; [lia|]. split.
    { intros k Hk. unfold image_of. cbn [set_disk disk count_write store disk_image].
      rewrite Hd. apply blk_insert_other. exact Hk. }
    exists out. split.
    { replace (ws_offset st + copy - ws_offset st) with copy by lia. exact Hcp0. }
    unfold image_of. cbn [set_disk disk count_write store disk_image].
    rewrite Hd. reflexivity.
  - cbn [bind]. unfold memcpy in Hcp.
    destruct (copy <? 0) eqn:E1; [lia|].
    destruct (ws_offset st - g * 4096 <? 0) eqn:E2; [lia|].
    destruct (ws_written st <? 0) eqn:E3; [lia|].
    destruct (Z.of_nat (length data) <? ws_written st + copy) eqn:E4; [lia|].
    destruct (Z.of_nat (length block) <? ws_offset st - g * 4096 + copy) eqn:E5;
      [|discriminate].
    unfold wf_block in Hblock. lia.
Qed.

(** *** The loop over the direct pointers *)

Lemma capacity_ge_direct (D : list Z) I (P : list Z) :
  Z.of_nat (length (used D)) * BLOCK_SIZE <= capacity D I P.
Proof.
  unfold capacity, BLOCK_SIZE.
  destruct (Nat.eqb_spec (length (used D)) 5) as [H5|H5]; cbn [andb]; [|lia].
  destruct (I =? 0); cbn [negb]; lia.
Qed.

Lemma capacity_direct (D : list Z) I (P : list Z) :
  (length (used D) < 5)%nat -> capacity D I P = Z.of_nat (length (used D)) * BLOCK_SIZE.
Proof.
  intros H. unfold capacity.
  destruct (Nat.eqb_spec (length (used D)) 5) as [H5|H5]; [lia|reflexivity].
Qed.

Lemma capacity_no_indirect (D : list Z) (P : list Z) :
  capacity D 0 P = Z.of_nat (length (used D)) * BLOCK_SIZE.
Proof. unfold capacity. rewrite andb_false_r. reflexivity. Qed.

Lemma capacity_indirect (D : list Z) I (P : list Z) :
  length (used D) = 5%nat -> I <> 0 ->
  capacity D I P = (5 + Z.of_nat (length (used P))) * BLOCK_SIZE.
Proof.
  intros H5 HI. unfold capacity. rewrite H5.
  assert ((I =? 0) = false) as -> by lia. reflexivity.
Qed.

Lemma marks_grow_direct (D : list Z) I (P : list Z) b :
  zero_ended D -> (length (used D) < length D)%nat -> b <> 0 ->
  Permutation (marks (<[length (used D) := b]> D) I P) (marks D I P ++ [b]).
Proof.
  intros Hz Hlt Hb. unfold marks.
  destruct (used_insert_end D b Hz Hlt Hb) as [-> _].
  rewrite <- !app_assoc. apply Permutation_app_head, Permutation_app_comm.
Qed.

Lemma marks_grow_indirect (D : list Z) I (P : list Z) b :
  I <> 0 -> zero_ended P -> (length (used P) < length P)%nat -> b <> 0 ->
  marks D I (<[length (used P) := b]> P) = marks D I P ++ [b].
Proof.
  intros HI Hz Hlt Hb. unfold marks.
  destruct (used_insert_end P b Hz Hlt Hb) as [-> _].
  assert ((I =? 0) = false) as -> by lia.
  rewrite <- app_assoc. reflexivity.
Qed.

Lemma blocks_u32 : blocks sb < 2 ^ 32.
Proof.
  rewrite <- (c_super _ _ _ C0). unfold super_of.
  pose proof (words_range (blk img0 0)) as Hw.
  destruct (words (blk img0 0)) as [|m [|n [|ib [|i rest]]]]; cbn; try lia.
  apply Forall_cons in Hw as [_ Hw]. apply Forall_cons in Hw as [Hn _]. lia.
Qed.

Lemma store_inv_count_read fs d new :
  store_inv fs new -> disk fs = Some d ->
  store_inv (set_disk fs (Some (count_read d))) new.
Proof.
  intros (d' & Hd' & Hrest) Hd. rewrite Hd in Hd'. injection Hd' as <-.
  exists (count_read d). cbn [set_disk disk meta_data free_blocks count_read
                              disk_blocks disk_image].
  split; [reflexivity|exact Hrest].
Qed.

Lemma store_inv_nodup fs new : NoDup refs0 -> store_inv fs new -> NoDup (refs0 ++ new).
Proof.
  intros Hnd0 (d & _ & _ & _ & _ & Hnd & Hnew & _). apply NoDup_app.
  split; [exact Hnd0|]. split; [|exact Hnd].
  intros b Hb Hb'. destruct (Hrefs0 b Hb) as [_ Ht]. destruct (Hnew b Hb') as [_ Hf].
  congruence.
Qed.

Variable node0 : Inode.
Variable off0 len0 : Z.
Variable data : list byte.
Hypothesis Hnodup0 : NoDup refs0.
Hypothesis Hind0 : indirect node0 <> 0 -> indirect node0 ∈ refs0.

Local Abbreviation P0 := (pointers_of (blk img0 (indirect node0))).
Local Abbreviation direct_inv := (direct_inv sb fb0 img0 refs0 node0 P0 off0 len0 data).

Lemma blocks_facts fs new (D : list Z) I (P : list Z) :
  store_inv fs new -> Permutation (marks D I P) (refs0 ++ new) ->
  NoDup (data_blocks D I P)
  /\ (forall p, p ∈ data_blocks D I P ->
        inode_blocks sb < p < blocks sb /\ (Z.to_nat p < length (image_of fs))%nat)
  /\ (I <> 0 -> I ∉ data_blocks D I P).
Proof.
  intros Hstore Hmarks.
  pose proof (store_inv_nodup _ _ Hnodup0 Hstore) as Hnd. rewrite <- Hmarks in Hnd.
  destruct (data_blocks_nodup D I P Hnd) as [H1 H2].
  split; [exact H1|]. split; [|exact H2].
  intros p Hp. apply data_blocks_marks in Hp. rewrite Hmarks in Hp.
  pose proof (store_inv_range _ _ p Hstore Hp) as Hr.
  destruct Hstore as (d & Hd & _ & _ & _ & _ & _ & Hl & _).
  pose proof (c_ib _ _ _ C0). pose proof (c_img _ _ _ C0).
  split; [exact Hr|]. unfold image_of. rewrite Hd. lia.
Qed.

(** A slice written to block [t], seen as bytes of the file. *)
Lemma content_slice fs new (L : list Z) (D' : list Z) I' (P' : list Z) w t g o c base out :
  store_inv fs new ->
  Permutation (marks D' I' P') (refs0 ++ new) ->
  content_inv img0 node0 off0 data (image_of fs) L w ->
  0 <= g -> 0 <= o -> 0 < c -> o + c <= BLOCK_SIZE -> 0 <= w ->
  g * BLOCK_SIZE + o = off0 + w ->
  memcpy base o data w c = Ok out ->
  data_blocks D' I' P' !! Z.to_nat g = Some t ->
  (forall k p, L !! k = Some p -> data_blocks D' I' P' !! k = Some p) ->
  off0 + w <= Z.of_nat (length L) * BLOCK_SIZE ->
  size node0 <= Z.of_nat (length L) * BLOCK_SIZE ->
  (L !! Z.to_nat g = Some t /\ base = blk (image_of fs) t)
  \/ (Z.to_nat g = length L /\ o = 0) ->
  content_inv img0 node0 off0 data (<[Z.to_nat t := out]> (image_of fs))
    (data_blocks D' I' P') (w + c).
Proof.
  intros Hstore Hmarks Hinv Hg Ho Hc Hfit Hw Hoff Hcp Ht Hprefix Hcap Hsize Hcase.
  destruct (blocks_facts fs new D' I' P' Hstore Hmarks) as (Hnd & Hrange & _).
  pose proof (c_ib _ _ _ C0) as Hib.
  apply (content_step img0 node0 off0 data (image_of fs) L _ w t g o c base out);
    try assumption.
  - intros p Hp. destruct (Hrange p Hp). lia.
  - apply Hrange. apply (list_elem_of_lookup_2 _ _ _ Ht).
Qed.

Lemma write_direct_loop_inv n : forall st new,
  direct_inv st new -> n = Z.to_nat (POINTERS_PER_INODE - ws_point st) ->
  match write_direct_loop n data st with
  | Ok (last, st') =>
      exists new',
        direct_inv st' new'
        /\ (if last
            then 0 < ws_length st'
                 /\ (forall j, 1 <= j < blocks sb ->
                       set_all true new' fb0 !! Z.to_nat j = Some true)
                 /\ size node0 <= ws_offset st'
            else ws_length st' = 0 \/ POINTERS_PER_INODE <= ws_point st')
  | Fault _ => Z.of_nat (length data) < len0
  end.
Proof.
  unfold POINTERS_PER_INODE.
  induction n as [|n IH]; intros st new Hinv Hn.
  { cbn. exists new. split; [exact Hinv|]. right. lia. }
  cbn [write_direct_loop].
  pose proof Hinv as [Hstore Hvalid Hsize Hindir Hlen5 Hu32 Hzero Hmarks Hblock
                        Hpoint Hlen Hwritten Hsum Hoffset Hpos Hcap Hcontent Hneed].
  destruct (0 <? ws_length st) eqn:Hpositive; cbn [negb];
    [|exists new; split; [exact Hinv|left; lia]].
  apply Z.ltb_lt in Hpositive. specialize (Hpos Hpositive).
  destruct (lookup_lt_is_Some_2 (direct (ws_node st)) (Z.to_nat (ws_point st)))
    as [p Hp]; [rewrite Hlen5; lia|].
  rewrite Hp.
  pose proof (store_inv_nodup _ _ Hnodup0 Hstore) as Hnd.
  pose proof blocks_u32 as Hb32. pose proof (c_ib _ _ _ C0) as Hib.
  destruct (Z.eqb_spec p 0) as [->|Hp0].
  - (* the slot is empty: a block is allocated *)
    pose proof (used_zero_at _ _ Hp) as Hle.
    assert (Hat : Z.to_nat (ws_point st) = length (used (direct (ws_node st)))).
    { rewrite capacity_direct in Hcap by lia. unfold BLOCK_SIZE in *. lia. }
    destruct (alloc_step (ws_fs st) new Hstore)
      as [(b & fs' & -> & Hb0 & Hstore' & Hdisk' & Hbr & Hbn & Hbrange)|[-> Hfull]];
      cbn [bind].
    + assert ((b =? 0) = false) as -> by lia.
      destruct (used_insert_end (direct (ws_node st)) b Hzero ltac:(lia) Hb0)
        as [Hused' Hzero'].
      pose proof (slice_step data zero_block b fs'
                    (set_direct (ws_node st) (ws_point st) b) st (new ++ [b])
                    (ws_point st) Hstore') as Hslice.
      destruct (write_slice data zero_block b fs' _ st) as [st1|f]; cbn [bind].
      * destruct Hslice as (Hs1 & Hn1 & Hp1 & Hl1 & Ho1 & Hoff1 & Hsum1 & Hdiff1 & Hfr1
                            & out & Hcp & Himg1);
          [rewrite !elem_of_app; right; right; constructor|reflexivity|lia|exact Hpos
          |lia|lia|].
        assert (Hinv1 : direct_inv st1 (new ++ [b])).
        { assert (Hd1 : direct (ws_node st1)
                        = <[length (used (direct (ws_node st))) := b]> (direct (ws_node st)))
            by (rewrite Hn1, <- Hat; reflexivity).
          constructor.
          - exact Hs1.
          - rewrite Hn1. exact Hvalid.
          - rewrite Hn1. exact Hsize.
          - rewrite Hn1. exact Hindir.
          - rewrite Hd1, length_insert. exact Hlen5.
          - rewrite Hd1. apply Forall_insert; [exact Hu32|]. unfold u32. lia.
          - rewrite Hd1. exact Hzero'.
          - rewrite Hd1, marks_grow_direct by (try assumption; lia).
            rewrite Hmarks, app_assoc. reflexivity.
          - intros Hi. rewrite Hfr1.
            + unfold image_of. rewrite Hdisk'. apply (Hblock Hi).
            + intros Heq. apply Hbr. assert (b = indirect node0) as -> by lia.
              apply Hind0, Hi.
          - lia.
          - lia.
          - lia.
          - lia.
          - lia.
          - intros Hl. rewrite (Ho1 Hl), Hp1. unfold BLOCK_SIZE. lia.
          - rewrite Hd1. rewrite capacity_direct in Hcap by lia.
            split; (etransitivity; [|apply capacity_ge_direct]);
              rewrite Hused', length_app; cbn [length]; unfold BLOCK_SIZE in *; lia.
          - rewrite Himg1, Hd1.
            replace (ws_written st1)
              with (ws_written st + (ws_offset st1 - ws_offset st)) by lia.
            destruct (data_blocks_grow_direct (direct (ws_node st)) (indirect node0) P0 b)
              as (HlenL & Hnew & Hprefix); try assumption; try lia.
            rewrite capacity_data_blocks in Hcap.
            apply (content_slice fs' (new ++ [b])
                     (data_blocks (direct (ws_node st)) (indirect node0) P0)
                     _ _ _ (ws_written st) b (ws_point st)
                     (ws_offset st - ws_point st * BLOCK_SIZE) _ zero_block);
              try assumption; try (unfold BLOCK_SIZE in *; lia).
            + rewrite marks_grow_direct by (try assumption; lia).
              rewrite Hmarks, app_assoc. reflexivity.
            + unfold image_of. rewrite Hdisk'. exact Hcontent.
            + rewrite Hat. exact Hnew.
          - right. rewrite capacity_direct in Hcap by lia. unfold BLOCK_SIZE in *. lia. }
        specialize (IH st1 (new ++ [b]) Hinv1 ltac:(lia)).
        destruct (write_direct_loop n data st1) as [[last st2]|f]; [|exact IH].
        destruct IH as (new' & Hinv2 & Hlast). exists new'. split; assumption.
      * rewrite <- Hsum. apply Hslice;
          [rewrite !elem_of_app; right; right; constructor|reflexivity|lia|exact Hpos
          |lia|lia].
    + change (0 =? 0) with true. cbn match. exists new. split.
      * constructor; cbn [ws_fs ws_node ws_point ws_length ws_offset ws_written
                          set_direct valid size indirect direct];
          rewrite ?(list_insert_id _ _ _ Hp).
        -- exact Hstore.
        -- exact Hvalid.
        -- exact Hsize.
        -- exact Hindir.
        -- exact Hlen5.
        -- exact Hu32.
        -- exact Hzero.
        -- exact Hmarks.
        -- exact Hblock.
        -- exact Hpoint.
        -- exact Hlen.
        -- exact Hwritten.
        -- exact Hsum.
        -- exact Hoffset.
        -- intros _. exact Hpos.
        -- exact Hcap.
        -- exact Hcontent.
        -- exact Hneed.
      * cbn [ws_length ws_offset]. split; [exact Hpositive|]. split; [exact Hfull|].
        rewrite capacity_direct in Hcap by lia. unfold BLOCK_SIZE in *. lia.
  - (* the slot holds a block: it is read, patched and written back *)
    destruct (zero_ended_lookup _ _ _ Hzero Hp Hp0) as [Hlt Hin].
    assert (Hpm : p ∈ refs0 ++ new).
    { rewrite <- Hmarks. unfold marks. apply elem_of_app. left. exact Hin. }
    pose proof (store_inv_range _ _ p Hstore Hpm) as Hprange.
    pose proof Hstore as (d & Hd & Hdb & Hdm & Hdf & _ & _ & Hdl & Hdwf & _).
    pose proof (c_img _ _ _ C0) as Hlimg0.
    rewrite Hd.
    rewrite (assert_disk_read_ok d p _ (blk (disk_image d) p))
      by (try apply blk_lt; lia).
    cbn [bind].
    pose proof (slice_step data (blk (disk_image d) p) p
                  (set_disk (ws_fs st) (Some (count_read d))) (ws_node st) st new
                  (ws_point st) (store_inv_count_read _ _ _ Hstore Hd) Hpm) as Hslice.
    assert (Hwfp : wf_block (blk (disk_image d) p)).
    { rewrite Forall_lookup in Hdwf. apply (Hdwf (Z.to_nat p)). apply blk_lt. lia. }
    destruct (write_slice data _ p _ _ st) as [st1|f]; cbn [bind].
    + destruct Hslice as (Hs1 & Hn1 & Hp1 & Hl1 & Ho1 & Hoff1 & Hsum1 & Hdiff1 & Hfr1
                          & out & Hcp & Himg1);
        [exact Hwfp|lia|exact Hpos|lia|lia|].
      assert (Hinv1 : direct_inv st1 new).
      { constructor.
        - exact Hs1.
        - rewrite Hn1. exact Hvalid.
        - rewrite Hn1. exact Hsize.
        - rewrite Hn1. exact Hindir.
        - rewrite Hn1. exact Hlen5.
        - rewrite Hn1. exact Hu32.
        - rewrite Hn1. exact Hzero.
        - rewrite Hn1. exact Hmarks.
        - intros Hi. rewrite Hfr1.
          + unfold image_of. cbn [set_disk disk count_read disk_image].
            specialize (Hblock Hi). unfold image_of in Hblock. rewrite Hd in Hblock.
            exact Hblock.
          + intros Heq. assert (p = indirect node0) as Hpi by lia.
            rewrite <- Hmarks in Hnd. unfold marks in Hnd.
            apply NoDup_app in Hnd as (_ & Hdis & _). apply (Hdis p Hin).
            assert ((indirect node0 =? 0) = false) as -> by lia.
            rewrite Hpi. constructor.
        - lia.
        - lia.
        - lia.
        - lia.
        - lia.
        - intros Hl. rewrite (Ho1 Hl), Hp1. unfold BLOCK_SIZE. lia.
        - rewrite Hn1. split; [|apply Hcap]. etransitivity; [|apply capacity_ge_direct].
          unfold BLOCK_SIZE in *. lia.
        - rewrite Himg1, Hn1.
          replace (ws_written st1)
            with (ws_written st + (ws_offset st1 - ws_offset st)) by lia.
          rewrite capacity_data_blocks in Hcap.
          apply (content_slice (set_disk (ws_fs st) (Some (count_read d))) new
                   (data_blocks (direct (ws_node st)) (indirect node0) P0)
                   _ _ _ (ws_written st) p (ws_point st)
                   (ws_offset st - ws_point st * BLOCK_SIZE) _ (blk (disk_image d) p));
            try assumption; try (unfold BLOCK_SIZE in *; lia).
          + apply store_inv_count_read; assumption.
          + unfold image_of in *. cbn [set_disk disk count_read disk_image].
            rewrite Hd in Hcontent. exact Hcontent.
          + apply data_blocks_direct_lookup; assumption.
          + intros k q Hq. exact Hq.
          + left. split; [apply data_blocks_direct_lookup; assumption|reflexivity].
        - exact Hneed. }
      specialize (IH st1 new Hinv1 ltac:(lia)).
      destruct (write_direct_loop n data st1) as [[last st2]|f]; [|exact IH].
      destruct IH as (new' & Hinv2 & Hlast). exists new'. split; assumption.
    + rewrite <- Hsum. apply Hslice; [exact Hwfp|lia|exact Hpos|lia|lia].
Qed.

(** *** The loop over the pointers of the indirect block *)

Local Abbreviation indirect_inv := (indirect_inv sb fb0 img0 refs0 node0 data).

Lemma pointers_of_u32 (b : Block) : Forall u32 (pointers_of b).
Proof. apply words_range. Qed.

Lemma write_indirect_loop_inv node n : forall block st new,
  indirect node <> 0 -> length (used (direct node)) = 5%nat ->
  size node = size node0 ->
  indirect_inv node off0 len0 block st new ->
  n = Z.to_nat (POINTERS_PER_BLOCK - ws_point st) -> ws_point st <= POINTERS_PER_BLOCK ->
  match write_indirect_loop n data block st with
  | Ok (block', st') =>
      exists new',
        indirect_inv node off0 len0 block' st' new'
        /\ (ws_length st' = 0
            \/ (0 < ws_length st'
                /\ (forall j, 1 <= j < blocks sb ->
                      set_all true new' fb0 !! Z.to_nat j = Some true)
                /\ size node0 <= ws_offset st'))
  | Fault _ =>
      Z.of_nat (length data) < len0
      \/ (POINTERS_PER_INODE + POINTERS_PER_BLOCK) * BLOCK_SIZE < off0 + len0
  end.
Proof.
  unfold POINTERS_PER_BLOCK, POINTERS_PER_INODE. intros block st new HI H5 Hsz.
  revert block st new.
  induction n as [|n IH]; intros block st new Hinv Hn Hmax;
    pose proof Hinv as [Hstore Hnode Hwf Hzero Hmarks Hpoint Hlen Hwritten Hsum
                          Hoffset Hpos Hcap Hcontent Hneed].
  { cbn [write_indirect_loop].
    destruct (0 <? ws_length st) eqn:Hpositive; cbn [negb];
      [|exists new; split; [exact Hinv|left; lia]].
    apply Z.ltb_lt in Hpositive. specialize (Hpos Hpositive). right.
    unfold BLOCK_SIZE in *. lia. }
  cbn [write_indirect_loop].
  destruct (0 <? ws_length st) eqn:Hpositive; cbn [negb];
    [|exists new; split; [exact Hinv|left; lia]].
  apply Z.ltb_lt in Hpositive. specialize (Hpos Hpositive).
  pose proof (length_pointers_of block Hwf) as Hl1024.
  destruct (lookup_lt_is_Some_2 (pointers_of block) (Z.to_nat (ws_point st)))
    as [p Hp]; [rewrite Hl1024; lia|].
  rewrite Hp.
  pose proof (store_inv_nodup _ _ Hnodup0 Hstore) as Hnd.
  pose proof blocks_u32 as Hb32. pose proof (c_ib _ _ _ C0) as Hib.
  rewrite (capacity_indirect _ _ _ H5 HI) in Hcap.
  destruct (Z.eqb_spec p 0) as [->|Hp0].
  - (* the slot is empty: a block is allocated *)
    pose proof (used_zero_at _ _ Hp) as Hle.
    assert (Hat : Z.to_nat (ws_point st) = length (used (pointers_of block))).
    { unfold BLOCK_SIZE in *. lia. }
    destruct (alloc_step (ws_fs st) new Hstore)
      as [(b & fs' & -> & Hb0 & Hstore' & Hdisk' & Hbr & Hbn & Hbrange)|[-> Hfull]];
      cbn [bind].
    + assert ((b =? 0) = false) as -> by lia.
      destruct (used_insert_end (pointers_of block) b Hzero ltac:(lia) Hb0)
        as [Hused' Hzero'].
      assert (Hptr : pointers_of (of_pointers (<[Z.to_nat (ws_point st) := b]>
                                                (pointers_of block)))
                     = <[length (used (pointers_of block)) := b]> (pointers_of block)).
      { rewrite Hat. apply pointers_of_of_pointers.
        apply Forall_insert; [apply pointers_of_u32|]. unfold u32. lia. }
      pose proof (slice_step data zero_block b fs' (ws_node st) st (new ++ [b])
                    (ws_point st + 5) Hstore') as Hslice.
      destruct (write_slice data zero_block b fs' _ st) as [st1|f]; cbn [bind].
      * destruct Hslice as (Hs1 & Hn1 & Hp1 & Hl1 & Ho1 & Hoff1 & Hsum1 & Hdiff1 & Hfr1
                            & out & Hcp & Himg1);
          [rewrite !elem_of_app; right; right; constructor|reflexivity|lia|exact Hpos
          |lia|lia|].
        assert (Hinv1 : indirect_inv node off0 len0
                          (of_pointers (<[Z.to_nat (ws_point st) := b]> (pointers_of block)))
                          st1 (new ++ [b])).
        { constructor.
          - exact Hs1.
          - rewrite Hn1. exact Hnode.
          - apply wf_of_pointers. rewrite length_insert. exact Hl1024.
          - rewrite Hptr. exact Hzero'.
          - rewrite Hptr, marks_grow_indirect by (try assumption; lia).
            rewrite Hmarks, app_assoc. reflexivity.
          - lia.
          - lia.
          - lia.
          - lia.
          - lia.
          - intros Hl. rewrite (Ho1 Hl), Hp1. unfold BLOCK_SIZE. lia.
          - rewrite (capacity_indirect _ _ _ H5 HI), Hptr, Hused', length_app.
            cbn [length]. unfold BLOCK_SIZE in *. lia.
          - rewrite Himg1, Hptr.
            replace (ws_written st1)
              with (ws_written st + (ws_offset st1 - ws_offset st)) by lia.
            destruct (data_blocks_grow_indirect (direct node) (indirect node)
                        (pointers_of block) b) as (HlenL & HL'); try assumption; try lia.
            apply (content_slice fs' (new ++ [b])
                     (data_blocks (direct node) (indirect node) (pointers_of block))
                     _ _ _ (ws_written st) b (ws_point st + 5)
                     (ws_offset st - (ws_point st + 5) * BLOCK_SIZE) _ zero_block);
              try assumption; try (unfold BLOCK_SIZE in *; lia).
            + rewrite marks_grow_indirect by (try assumption; lia).
              rewrite Hmarks, app_assoc. reflexivity.
            + unfold image_of. rewrite Hdisk'. exact Hcontent.
            + rewrite HL'. rewrite lookup_app_r by lia.
              replace (Z.to_nat (ws_point st + 5)
                       - length (data_blocks (direct node) (indirect node)
                                   (pointers_of block)))%nat with O by lia.
              reflexivity.
            + intros k q Hq. rewrite HL'. apply lookup_app_l_Some. exact Hq.
          - right. unfold BLOCK_SIZE in *. lia. }
        specialize (IH _ st1 (new ++ [b]) Hinv1 ltac:(lia) ltac:(lia)).
        destruct (write_indirect_loop n data _ st1) as [[block2 st2]|f]; [|exact IH].
        destruct IH as (new' & Hinv2 & Hlast). exists new'. split; assumption.
      * left. rewrite <- Hsum. apply Hslice;
          [rewrite !elem_of_app; right; right; constructor|reflexivity|lia|exact Hpos
          |lia|lia].
    + change (0 =? 0) with true. cbn match.
      rewrite (list_insert_id _ _ _ Hp), (of_pointers_pointers_of block Hwf).
      exists new. split.
      * constructor; cbn [ws_fs ws_node ws_point ws_length ws_offset ws_written].
        -- exact Hstore.
        -- exact Hnode.
        -- exact Hwf.
        -- exact Hzero.
        -- exact Hmarks.
        -- exact Hpoint.
        -- exact Hlen.
        -- exact Hwritten.
        -- exact Hsum.
        -- exact Hoffset.
        -- intros _. exact Hpos.
        -- rewrite (capacity_indirect _ _ _ H5 HI). exact Hcap.
        -- exact Hcontent.
        -- exact Hneed.
      * right. cbn [ws_length ws_offset]. split; [exact Hpositive|]. split; [exact Hfull|].
        unfold BLOCK_SIZE in *. lia.
  - (* the slot holds a block: it is read, patched and written back *)
    destruct (zero_ended_lookup _ _ _ Hzero Hp Hp0) as [Hlt Hin].
    assert (Hpm : p ∈ refs0 ++ new).
    { rewrite <- Hmarks. unfold marks. apply elem_of_app. right.
      assert ((indirect node =? 0) = false) as -> by lia.
      apply elem_of_cons. right. exact Hin. }
    pose proof (store_inv_range _ _ p Hstore Hpm) as Hprange.
    pose proof Hstore as (d & Hd & Hdb & Hdm & Hdf & _ & _ & Hdl & Hdwf & _).
    pose proof (c_img _ _ _ C0) as Hlimg0.
    rewrite Hd.
    rewrite (assert_disk_read_ok d p _ (blk (disk_image d) p))
      by (try apply blk_lt; lia).
    cbn [bind].
    pose proof (slice_step data (blk (disk_image d) p) p
                  (set_disk (ws_fs st) (Some (count_read d))) (ws_node st) st new
                  (ws_point st + 5) (store_inv_count_read _ _ _ Hstore Hd) Hpm) as Hslice.
    assert (Hwfp : wf_block (blk (disk_image d) p)).
    { rewrite Forall_lookup in Hdwf. apply (Hdwf (Z.to_nat p)). apply blk_lt. lia. }
    destruct (write_slice data _ p _ _ st) as [st1|f]; cbn [bind].
    + destruct Hslice as (Hs1 & Hn1 & Hp1 & Hl1 & Ho1 & Hoff1 & Hsum1 & Hdiff1 & Hfr1
                          & out & Hcp & Himg1);
        [exact Hwfp|lia|exact Hpos|lia|lia|].
      assert (Hinv1 : indirect_inv node off0 len0 block st1 new).
      { constructor.
        - exact Hs1.
        - rewrite Hn1. exact Hnode.
        - exact Hwf.
        - exact Hzero.
        - exact Hmarks.
        - lia.
        - lia.
        - lia.
        - lia.
        - lia.
        - intros Hl. rewrite (Ho1 Hl), Hp1. unfold BLOCK_SIZE. lia.
        - rewrite (capacity_indirect _ _ _ H5 HI). unfold BLOCK_SIZE in *. lia.
        - rewrite Himg1.
          replace (ws_written st1)
            with (ws_written st + (ws_offset st1 - ws_offset st)) by lia.
          assert (HlenL : length (data_blocks (direct node) (indirect node)
                                    (pointers_of block))
                          = (length (used (pointers_of block)) + 5)%nat).
          { rewrite data_blocks_full by assumption. rewrite length_app, H5. lia. }
          assert (HLp : data_blocks (direct node) (indirect node) (pointers_of block)
                          !! Z.to_nat (ws_point st + 5) = Some p).
          { replace (Z.to_nat (ws_point st + 5)) with (Z.to_nat (ws_point st) + 5)%nat by lia.
            apply data_blocks_indirect_lookup; assumption. }
          apply (content_slice (set_disk (ws_fs st) (Some (count_read d))) new
                   (data_blocks (direct node) (indirect node) (pointers_of block))
                   _ _ _ (ws_written st) p (ws_point st + 5)
                   (ws_offset st - (ws_point st + 5) * BLOCK_SIZE) _ (blk (disk_image d) p));
            try assumption; try (unfold BLOCK_SIZE in *; lia).
          + apply store_inv_count_read; assumption.
          + unfold image_of in *. cbn [set_disk disk count_read disk_image].
            rewrite Hd in Hcontent. exact Hcontent.
          + intros k q Hq. exact Hq.
          + left. split; [exact HLp|reflexivity].
        - exact Hneed. }
      specialize (IH _ st1 new Hinv1 ltac:(lia) ltac:(lia)).
      destruct (write_indirect_loop n data _ st1) as [[block2 st2]|f]; [|exact IH].
      destruct IH as (new' & Hinv2 & Hlast). exists new'. split; assumption.
    + left. rewrite <- Hsum. apply Hslice; [exact Hwfp|lia|exact Hpos|lia|lia].
Qed.

(** *** The part of the write that goes through the indirect block *)

Hypothesis Hwf0 : wf_inode node0.
Hypothesis Hzero0 : indirect node0 <> 0 -> zero_ended P0.

Local Abbreviation write_done := (write_done sb fb0 img0 refs0 node0 off0 len0 data).

Lemma store_inv_write fs d new target b :
  store_inv fs new -> disk fs = Some d -> target ∈ refs0 ++ new -> wf_block b ->
  assert_disk_write (disk fs) target b = Ok (Some (count_write (store d target b)))
  /\ store_inv (set_disk fs (Some (count_write (store d target b)))) new.
Proof.
  intros Hinv Hd Htarget Hb.
  pose proof (store_inv_range fs new target Hinv Htarget) as Hrange.
  destruct Hinv as (d' & Hd' & Hdb & Hm & Hfb & Hnd & Hnew & Hlimg & Hwf & Hframe).
  rewrite Hd in Hd'. injection Hd' as <-.
  pose proof (c_ib _ _ _ C0) as Hib. pose proof (c_img _ _ _ C0) as Hlimg0.
  split; [rewrite Hd; apply assert_disk_write_ok; lia|].
  exists (count_write (store d target b)).
  cbn [set_disk disk meta_data free_blocks count_write store disk_blocks disk_image].
  split; [reflexivity|]. split; [exact Hdb|]. split; [exact Hm|]. split; [exact Hfb|].
  split; [exact Hnd|]. split; [exact Hnew|]. split; [rewrite length_insert; exact Hlimg|].
  split; [apply Forall_insert; assumption|].
  intros k Hk Hk0 Hk1. rewrite blk_insert_other; [apply Hframe; assumption|].
  intros Heq. assert (k = target) by lia. subst k.
  apply elem_of_app in Htarget as [H|H]; contradiction.
Qed.

Lemma zero_ended_replicate k : zero_ended (replicate k 0).
Proof.
  unfold zero_ended. apply Forall_lookup. intros i x Hi.
  rewrite lookup_drop in Hi. apply lookup_replicate in Hi as [-> _]. reflexivity.
Qed.

Lemma used_replicate_zero k : used (replicate k 0) = [].
Proof. destruct k; reflexivity. Qed.

Lemma direct_done st new :
  direct_inv st new ->
  (ws_length st = 0
   \/ ((forall j, 1 <= j < blocks sb -> set_all true new fb0 !! Z.to_nat j = Some true)
       /\ size node0 <= ws_offset st)) ->
  write_done st new.
Proof.
  intros [Hstore Hvalid Hsize Hindir Hlen5 Hu32 Hzero Hmarks Hblock
            Hpoint Hlen Hwritten Hsum Hoffset Hpos Hcap Hcontent Hneed] Hcomplete.
  assert (HP : indirect node0 <> 0 ->
               pointers_of (blk (image_of (ws_fs st)) (indirect node0)) = P0)
    by (intros Hi; rewrite (Hblock Hi); reflexivity).
  assert (Hm : forall P, marks (direct (ws_node st)) (indirect node0) P
                         = marks (direct (ws_node st)) (indirect node0) P0
                           \/ indirect node0 <> 0).
  { intros P. unfold marks. destruct (Z.eqb_spec (indirect node0) 0); [left|right]; auto. }
  assert (Hc : forall P, capacity (direct (ws_node st)) (indirect node0) P
                         = capacity (direct (ws_node st)) (indirect node0) P0
                           \/ indirect node0 <> 0).
  { intros P. unfold capacity. destruct (Z.eqb_spec (indirect node0) 0); [left|right]; auto.
    rewrite !andb_false_r. reflexivity. }
  destruct Hwf0 as (_ & _ & _ & _ & Hiu).
  constructor; rewrite ?Hindir; try assumption.
  - intros Hi. rewrite (HP Hi). apply Hzero0, Hi.
  - destruct (Hm (pointers_of (blk (image_of (ws_fs st)) (indirect node0)))) as [->|Hi];
      [exact Hmarks|]. rewrite (HP Hi). exact Hmarks.
  - destruct (Hc (pointers_of (blk (image_of (ws_fs st)) (indirect node0)))) as [->|Hi];
      [exact Hcap|]. rewrite (HP Hi). exact Hcap.
  - rewrite (data_blocks_same _ _ _ P0) by exact HP. exact Hcontent.
Qed.

(** The write of the indirect block after the second loop. *)
Lemma indirect_done node block st new :
  indirect_inv node off0 len0 block st new ->
  indirect node <> 0 -> length (used (direct node)) = 5%nat ->
  valid node = valid node0 -> size node = size node0 ->
  length (direct node) = 5%nat -> Forall u32 (direct node) -> u32 (indirect node) ->
  zero_ended (direct node) ->
  (ws_length st = 0
   \/ (0 < ws_length st
       /\ (forall j, 1 <= j < blocks sb -> set_all true new fb0 !! Z.to_nat j = Some true)
       /\ size node0 <= ws_offset st)) ->
  exists disk',
    assert_disk_write (disk (ws_fs st)) (indirect node) block = Ok disk'
    /\ write_done {| ws_fs := set_disk (ws_fs st) disk'; ws_node := ws_node st;
                     ws_point := ws_point st; ws_length := ws_length st;
                     ws_offset := ws_offset st; ws_written := ws_written st |} new.
Proof.
  intros [Hstore Hnode Hwf Hzero Hmarks Hpoint Hlen Hwritten Hsum Hoffset Hpos Hcap
            Hcontent Hneed]
         HI H5 Hvalid Hsize Hlen5 Hu32 Hiu Hdzero Hcomplete.
  assert (Hin : indirect node ∈ refs0 ++ new).
  { rewrite <- Hmarks. unfold marks. apply elem_of_app. right.
    assert ((indirect node =? 0) = false) as -> by lia. constructor. }
  pose proof (store_inv_range _ _ _ Hstore Hin) as Hrange.
  pose proof Hstore as (d & Hd & Hdb & _ & _ & _ & _ & Hdl & _).
  pose proof (c_img _ _ _ C0) as Hlimg0.
  destruct (store_inv_write (ws_fs st) d new (indirect node) block Hstore Hd Hin Hwf)
    as [Hrun Hstore'].
  exists (Some (count_write (store d (indirect node) block))). split; [exact Hrun|].
  assert (Hblk : blk (image_of (set_disk (ws_fs st)
                                  (Some (count_write (store d (indirect node) block)))))
                     (indirect node) = block).
  { unfold image_of. cbn [set_disk disk count_write store disk_image].
    apply blk_insert_same. pose proof (c_ib _ _ _ C0). lia. }
  constructor; cbn [ws_fs ws_node ws_point ws_length ws_offset ws_written];
    rewrite ?Hnode, ?Hblk; try assumption.
  - intros _. exact Hzero.
  - rewrite <- Hsize. exact Hcap.
  - destruct Hcomplete as [H|[_ H]]; [left|right]; exact H.
  - destruct (blocks_facts _ _ _ _ _ Hstore Hmarks) as (_ & _ & Hnotin).
    apply (content_frame _ _ _ _ (image_of (ws_fs st))); [exact Hcontent|].
    intros p Hp. unfold image_of. cbn [set_disk disk count_write store disk_image].
    rewrite Hd. apply blk_insert_other. intros Heq.
    destruct (blocks_facts _ _ _ _ _ Hstore Hmarks) as (_ & Hr & _).
    destruct (Hr p Hp) as [Hpr _]. pose proof (c_ib _ _ _ C0).
    assert (p = indirect node) by lia. subst p. apply (Hnotin HI Hp).
Qed.

Lemma write_indirect_inv st new :
  direct_inv st new -> 0 < ws_length st -> POINTERS_PER_INODE <= ws_point st ->
  match write_indirect data st with
  | Ok st' => exists new', write_done st' new'
  | Fault _ =>
      Z.of_nat (length data) < len0
      \/ (POINTERS_PER_INODE + POINTERS_PER_BLOCK) * BLOCK_SIZE < off0 + len0
  end.
Proof.
  unfold POINTERS_PER_INODE.
  intros Hinv Hpositive Hfive.
  pose proof Hinv as [Hstore Hvalid Hsize Hindir Hlen5 Hu32 Hzero Hmarks Hblock
                        Hpoint Hlen Hwritten Hsum Hoffset Hpos Hcap Hcontent Hneed].
  specialize (Hpos Hpositive).
  pose proof (used_length_le (direct (ws_node st))) as Hule. rewrite Hlen5 in Hule.
  assert (H5 : length (used (direct (ws_node st))) = 5%nat).
  { destruct (decide (length (used (direct (ws_node st))) = 5%nat)) as [H|H]; [exact H|].
    rewrite capacity_direct in Hcap by lia. unfold BLOCK_SIZE in *. lia. }
  pose proof (c_ib _ _ _ C0) as Hib. pose proof blocks_u32 as Hb32.
  destruct Hwf0 as (_ & _ & _ & _ & Hiu).
  unfold write_indirect, POINTERS_PER_INODE.
  assert ((ws_point st - 5 <? 0) = false) as -> by lia.
  rewrite Hindir.
  destruct (Z.eqb_spec (indirect node0) 0) as [Hi0|Hi0].
  - (* no indirect block yet *)
    rewrite Hi0, capacity_no_indirect, H5 in Hcap.
    assert (Hoff : ws_offset st = 5 * BLOCK_SIZE) by (unfold BLOCK_SIZE in *; lia).
    assert (Hpt : ws_point st = 5) by (unfold BLOCK_SIZE in *; lia).
    rewrite Hoff. change (5 * BLOCK_SIZE mod BLOCK_SIZE =? 0) with true. cbn [negb].
    assert (Hmarks0 : Permutation (used (direct (ws_node st))) (refs0 ++ new)).
    { rewrite <- Hmarks. unfold marks. rewrite Hi0. cbn. rewrite app_nil_r. reflexivity. }
    destruct (alloc_step (ws_fs st) new Hstore)
      as [(b & fs' & -> & Hb0 & Hstore' & Hdisk' & Hbr & Hbn & Hbrange)|[-> Hfull]];
      cbn [bind].
    + assert ((b =? 0) = false) as -> by lia.
      set (node := set_indirect (ws_node st) b).
      set (sti := {| ws_fs := fs'; ws_node := node; ws_point := ws_point st - 5;
                     ws_length := ws_length st; ws_offset := 5 * BLOCK_SIZE;
                     ws_written := ws_written st |}).
      assert (Hinvi : indirect_inv node off0 len0 zero_block sti (new ++ [b])).
      { constructor; subst sti node;
          cbn [ws_fs ws_node ws_point ws_length ws_offset ws_written
               set_indirect valid size direct indirect].
        - exact Hstore'.
        - reflexivity.
        - reflexivity.
        - rewrite pointers_of_zero_block. apply zero_ended_replicate.
        - unfold marks. assert ((b =? 0) = false) as -> by lia.
          rewrite pointers_of_zero_block, used_replicate_zero, Hmarks0, app_assoc.
          reflexivity.
        - lia.
        - lia.
        - lia.
        - lia.
        - lia.
        - intros _. unfold BLOCK_SIZE. lia.
        - rewrite capacity_indirect by (cbn; assumption || lia).
          rewrite pointers_of_zero_block, used_replicate_zero. cbn [length].
          unfold BLOCK_SIZE in *. lia.
        - rewrite pointers_of_zero_block, data_blocks_zeros.
          rewrite Hi0, data_blocks_zero in Hcontent.
          unfold image_of. rewrite Hdisk'. exact Hcontent.
        - right. unfold BLOCK_SIZE in *. lia. }
      pose proof (write_indirect_loop_inv node (Z.to_nat (POINTERS_PER_BLOCK - (ws_point st - 5)))
                    zero_block sti (new ++ [b]) ltac:(subst node; cbn; lia) H5
                    ltac:(subst node; cbn; exact Hsize) Hinvi
                    eq_refl ltac:(subst sti; cbn; unfold POINTERS_PER_BLOCK; lia)) as Hloop.
      destruct (write_indirect_loop _ data zero_block sti) as [[block' st']|f];
        cbn [bind]; [|exact Hloop].
      destruct Hloop as (new' & Hinv' & Hcomplete).
      destruct (indirect_done node block' st' new' Hinv') as (disk' & -> & Hdone);
        subst node; cbn [set_indirect valid size direct indirect]; try assumption; try lia.
      * unfold u32. lia.
      * cbn [bind]. exists new'. exact Hdone.
    + change (0 =? 0) with true. cbn match. exists new.
      constructor; cbn [ws_fs ws_node ws_point ws_length ws_offset ws_written
                        set_indirect valid size direct indirect].
      * exact Hstore.
      * exact Hvalid.
      * exact Hsize.
      * exact Hlen5.
      * exact Hu32.
      * unfold u32. lia.
      * exact Hzero.
      * intros H. contradiction.
      * unfold marks. cbn. rewrite app_nil_r. exact Hmarks0.
      * exact Hlen.
      * exact Hwritten.
      * exact Hsum.
      * lia.
      * rewrite capacity_no_indirect, H5. unfold BLOCK_SIZE in *. lia.
      * right. split; [exact Hfull|]. unfold BLOCK_SIZE in *. lia.
      * rewrite data_blocks_zero. rewrite Hi0, data_blocks_zero in Hcontent.
        exact Hcontent.
      * exact Hneed.
  - (* the indirect block is read *)
    assert ((0 =? 0) = true) as _ by reflexivity.
    pose proof (Hrefs0 _ (Hind0 Hi0)) as [Hirange _].
    pose proof Hstore as (d & Hd & Hdb & Hdm & Hdf & _ & _ & Hdl & Hdwf & _).
    pose proof (c_img _ _ _ C0) as Hlimg0.
    rewrite Hd.
    rewrite (assert_disk_read_ok d (indirect node0) _ (blk (disk_image d) (indirect node0)))
      by (try apply blk_lt; lia).
    cbn [bind].
    assert (Hblk : blk (disk_image d) (indirect node0) = blk img0 (indirect node0)).
    { specialize (Hblock Hi0). unfold image_of in Hblock. rewrite Hd in Hblock.
      exact Hblock. }
    rewrite Hblk.
    set (sti := {| ws_fs := set_disk (ws_fs st) (Some (count_read d));
                   ws_node := ws_node st; ws_point := ws_point st - 5;
                   ws_length := ws_length st; ws_offset := ws_offset st;
                   ws_written := ws_written st |}).
    assert (Hwfb : wf_block (blk img0 (indirect node0))).
    { apply (consistent_blk_wf sb fb0); [exact C0|lia]. }
    pose proof (used_length_le P0) as HPle.
    rewrite (length_pointers_of _ Hwfb) in HPle.
    rewrite (capacity_indirect _ _ _ H5 Hi0) in Hcap.
    assert (Hinvi : indirect_inv (ws_node st) off0 len0 (blk img0 (indirect node0)) sti new).
    { constructor; subst sti;
        cbn [ws_fs ws_node ws_point ws_length ws_offset ws_written]; rewrite ?Hindir.
      - apply store_inv_count_read; assumption.
      - reflexivity.
      - exact Hwfb.
      - apply Hzero0, Hi0.
      - exact Hmarks.
      - lia.
      - lia.
      - lia.
      - lia.
      - lia.
      - intros _. unfold BLOCK_SIZE in *. lia.
      - rewrite (capacity_indirect _ _ _ H5 Hi0), Hsize. exact Hcap.
      - unfold image_of in *. cbn [set_disk disk count_read disk_image].
        rewrite Hd in Hcontent. exact Hcontent.
      - exact Hneed. }
    pose proof (write_indirect_loop_inv (ws_node st)
                  (Z.to_nat (POINTERS_PER_BLOCK - (ws_point st - 5)))
                  (blk img0 (indirect node0)) sti new ltac:(rewrite Hindir; exact Hi0) H5
                  Hsize Hinvi
                  eq_refl
                  ltac:(subst sti; cbn; unfold POINTERS_PER_BLOCK, BLOCK_SIZE in *; lia))
      as Hloop.
    destruct (write_indirect_loop _ data _ sti) as [[block' st']|f];
      cbn [bind]; [|exact Hloop].
    destruct Hloop as (new' & Hinv' & Hcomplete).
    destruct (indirect_done (ws_node st) block' st' new' Hinv') as (disk' & Hrun & Hdone);
      rewrite ?Hindir; try assumption.
    rewrite Hindir in Hrun. rewrite Hrun. cbn [bind]. exists new'. exact Hdone.
Qed.

(** *** The inode is saved *)

Variable n : Z.
Hypothesis Hn : 0 <= n < inodes sb.
Hypothesis Hat : inode_at img0 n = Some node0.
Hypothesis Hv : valid node0 <> 0.
Hypothesis Hrefs_eq : refs0 = node_marks img0 node0.

Lemma marks_same (D : list Z) I (P P' : list Z) :
  (I <> 0 -> P = P') -> marks D I P = marks D I P'.
Proof.
  intros H. unfold marks. destruct (Z.eqb_spec I 0) as [|Hi]; [reflexivity|].
  rewrite (H Hi). reflexivity.
Qed.

Lemma capacity_same (D : list Z) I (P P' : list Z) :
  (I <> 0 -> P = P') -> capacity D I P = capacity D I P'.
Proof.
  intros H. unfold capacity. destruct (Z.eqb_spec I 0) as [|Hi].
  - rewrite !andb_false_r. reflexivity.
  - rewrite (H Hi). reflexivity.
Qed.

Lemma capacity_max (D : list Z) I (P : list Z) :
  (length D <= 5)%nat -> (I <> 0 -> (length P <= 1024)%nat) ->
  capacity D I P <= (POINTERS_PER_INODE + POINTERS_PER_BLOCK) * BLOCK_SIZE.
Proof.
  intros HD HP. unfold capacity, POINTERS_PER_INODE, POINTERS_PER_BLOCK, BLOCK_SIZE.
  pose proof (used_length_le D). pose proof (used_length_le P).
  destruct (Nat.eqb_spec (length (used D)) 5); cbn [andb]; [|lia].
  destruct (Z.eqb_spec I 0) as [|Hi]; cbn [negb]; [lia|]. specialize (HP Hi). lia.
Qed.

Lemma write_finish st new :
  write_done st new ->
  exists node fs' d',
    node = set_size (ws_node st)
             (wrap32 (if ws_offset st >? size (ws_node st)
                      then ws_offset st else size (ws_node st)))
    /\ assert_fs_save_inode (ws_fs st) n node = Ok fs'
    /\ disk fs' = Some d' /\ disk_blocks d' = blocks sb /\ meta_data fs' = sb
    /\ free_blocks fs' = Some (set_all true new fb0)
    /\ consistent sb (set_all true new fb0) (disk_image d')
    /\ inode_at (disk_image d') n = Some node
    /\ size node = Z.max (size node0) (ws_offset st)
    /\ valid node = valid node0
    /\ (forall m, 0 <= m < inodes sb -> m <> n ->
          inode_at (disk_image d') m = inode_at img0 m)
    /\ Permutation (refs (disk_image d') n) (refs0 ++ new)
    /\ (forall k, 0 <= k -> k ∉ refs0 -> k ∉ new ->
          Z.to_nat k <> Z.to_nat (n / INODES_PER_BLOCK + 1) ->
          blk (disk_image d') k = blk img0 k)
    /\ content_inv img0 node0 off0 data (disk_image d')
         (data_blocks (direct node) (indirect node)
            (pointers_of (blk (disk_image d') (indirect node)))) (ws_written st).
Proof.
  intros [Hstore Hvalid Hsize Hlen5 Hu32 Hiu Hzero Hpzero Hmarks Hlen Hwritten Hsum
            Hoffset Hcap Hcomplete Hcontent Hneed].
  pose proof (blocks_facts _ _ _ _ _ Hstore Hmarks) as (_ & HLrange & _).
  pose proof (store_inv_nodup _ _ Hnodup0 Hstore) as Hnd.
  pose proof (store_inv_new_pos _ _ Hstore) as Hnewpos.
  pose proof Hstore as (d & Hd & Hdb & Hdm & Hdf & Hdnd & Hdnew & Hdl & Hdwf & Hframe).
  unfold image_of in *. rewrite Hd in *.
  pose proof (c_ib _ _ _ C0) as Hib. pose proof (c_img _ _ _ C0) as Hlimg0.
  pose proof (c_inodes _ _ _ C0) as Hino. pose proof (c_fb _ _ _ C0) as Hlfb0.
  assert (Hn' : 0 <= n < inode_blocks sb * INODES_PER_BLOCK) by (rewrite <- Hino; exact Hn).
  pose proof (inode_block_range n _ Hn') as Hk0.
  set (k0 := n / INODES_PER_BLOCK + 1) in *.
  set (img := disk_image d) in *.
  set (node1 := ws_node st) in *.
  assert (Hinrange : forall b, b ∈ refs0 ++ new -> inode_blocks sb < b < blocks sb)
    by (intros b Hb; apply (store_inv_range _ _ b Hstore Hb)).
  assert (Hwfk : forall k, 0 <= k < blocks sb -> wf_block (blk img k)).
  { intros k Hk. rewrite Forall_lookup in Hdwf. apply (Hdwf (Z.to_nat k)).
    apply blk_lt. lia. }
  assert (HIrange : indirect node1 <> 0 -> inode_blocks sb < indirect node1 < blocks sb).
  { intros Hi. apply Hinrange. rewrite <- Hmarks. unfold marks.
    apply elem_of_app. right. assert ((indirect node1 =? 0) = false) as -> by lia.
    constructor. }
  assert (Hcapmax : capacity (direct node1) (indirect node1)
                      (pointers_of (blk img (indirect node1)))
                    <= (POINTERS_PER_INODE + POINTERS_PER_BLOCK) * BLOCK_SIZE).
  { apply capacity_max; [lia|]. intros Hi.
    rewrite length_pointers_of; [lia|]. apply Hwfk. specialize (HIrange Hi). lia. }
  destruct Hwf0 as (Hvu & Hsu & _ & _ & _).
  set (newsize := if ws_offset st >? size node1 then ws_offset st else size node1).
  assert (Hnewsize : newsize = Z.max (size node0) (ws_offset st)).
  { subst newsize. rewrite Hsize. destruct (ws_offset st >? size node0) eqn:E; lia. }
  assert (Hwrap : wrap32 newsize = newsize).
  { apply wrap32_u32. rewrite Hnewsize. unfold u32 in *.
    unfold POINTERS_PER_INODE, POINTERS_PER_BLOCK, BLOCK_SIZE in Hcapmax. lia. }
  set (node := set_size node1 (wrap32 newsize)).
  assert (Hwfnode : wf_inode node).
  { subst node. unfold wf_inode. cbn [set_size valid size direct indirect].
    rewrite Hvalid, Hwrap, Hnewsize. unfold u32 in *.
    unfold POINTERS_PER_INODE, POINTERS_PER_BLOCK, BLOCK_SIZE in Hcapmax.
    split; [lia|]. split; [lia|]. split; [exact Hlen5|]. split; [exact Hu32|lia]. }
  exists node.
  assert (Hsave : exists fs', assert_fs_save_inode (ws_fs st) n node = Ok fs').
  { eexists. apply (assert_fs_save_inode_ok _ d n node (blk img k0)).
    - exact Hd.
    - rewrite Hdm. lia.
    - fold k0. lia.
    - fold k0. apply blk_lt. subst img. lia. }
  destruct Hsave as (fs' & Hsave). pose proof Hsave as Himg'.
  apply assert_fs_save_inode_image in Himg'
    as (d0 & d' & Hd0 & Hd' & Himg' & Hb' & Hm' & Hf' & _).
  rewrite Hd in Hd0. injection Hd0 as <-. fold img in Himg'.
  exists fs', d'. split; [reflexivity|]. split; [exact Hsave|]. split; [exact Hd'|].
  split; [rewrite Hb'; exact Hdb|]. split; [rewrite Hm'; exact Hdm|].
  split; [rewrite Hf'; exact Hdf|].
  rewrite Himg'.
  assert (Hnew_at : inode_at (put_inode img n node) n = Some node).
  { apply inode_at_put_same; [subst img; fold k0; lia|fold k0; apply Hwfk; lia
                             |exact Hwfnode]. }
  assert (Hother : forall m, 0 <= m < inodes sb -> m <> n ->
                     inode_at (put_inode img n node) m = inode_at img0 m).
  { intros m Hm Hne. rewrite inode_at_put_other by (try assumption; lia).
    rewrite Hino in Hm. pose proof (inode_block_range m _ Hm) as Hmk.
    unfold inode_at. rewrite Hframe; [reflexivity|lia| |].
    - intros Hin. specialize (Hinrange _ (proj2 (elem_of_app _ _ _) (or_introl Hin))). lia.
    - intros Hin. specialize (Hinrange _ (proj2 (elem_of_app _ _ _) (or_intror Hin))). lia. }
  assert (Hblk_I : indirect node1 <> 0 ->
                   blk (put_inode img n node) (indirect node1) = blk img (indirect node1)).
  { intros Hi. apply blk_put_inode_other. fold k0. specialize (HIrange Hi). lia. }
  assert (Hrefs' : refs (put_inode img n node) n
                   = marks (direct node1) (indirect node1)
                       (pointers_of (blk img (indirect node1)))).
  { unfold refs. rewrite Hnew_at. unfold node_marks. subst node.
    cbn [set_size valid direct indirect].
    assert ((valid node1 =? 0) = false) as -> by lia.
    apply (marks_same (direct node1) (indirect node1)).
    intros Hi. rewrite (Hblk_I Hi). reflexivity. }
  assert (Hrefs0_eq : refs img0 n = refs0).
  { unfold refs. rewrite Hat, Hrefs_eq. reflexivity. }
  split.
  { apply (consistent_update sb fb0 img0 _ (put_inode img n node) n).
    - exact C0.
    - exact Hn.
    - unfold put_inode. apply Forall_insert; [exact Hdwf|].
      apply wf_of_inodes; [apply inodes_insert_wf, Hwfnode|].
      rewrite length_insert. apply length_inodes_of. fold k0. apply Hwfk. lia.
    - rewrite length_put_inode. exact Hdl.
    - apply length_set_all.
    - rewrite blk_put_inode_other by (fold k0; lia).
      apply Hframe; [lia| |].
      + intros Hin. specialize (Hinrange _ (proj2 (elem_of_app _ _ _) (or_introl Hin))). lia.
      + intros Hin. specialize (Hinrange _ (proj2 (elem_of_app _ _ _) (or_intror Hin))). lia.
    - intros m Hm Hne. apply Hother; [exact Hm|exact Hne].
    - intros k Hk Hnotin Htrue. rewrite Hrefs0_eq in Hnotin.
      rewrite blk_put_inode_other by (fold k0; lia).
      apply Hframe; [lia|exact Hnotin|].
      intros Hin. destruct (Hdnew k Hin) as [_ Hf]. congruence.
    - intros b Hb. rewrite Hrefs0_eq, Hrefs', Hmarks, elem_of_app.
      rewrite set_all_lookup by (try exact Hnewpos; lia).
      rewrite Z2Nat.id by lia.
      destruct (decide (b ∈ new)) as [Hin|Hnin];
        [split; [intros _; right; right; exact Hin|intros _; reflexivity]|].
      split.
      + intros Ht. destruct (decide (b ∈ refs0)) as [Hr|Hr];
          [right; left; exact Hr|left; split; assumption].
      + intros [[Ht _]|[Hin|Hin]]; [exact Ht|apply Hrefs0, Hin|contradiction].
    - intros b Hb. rewrite Hrefs0_eq. rewrite Hrefs', Hmarks in Hb.
      apply elem_of_app in Hb as [Hb|Hb]; [left; exact Hb|right; apply Hdnew, Hb].
    - rewrite Hrefs', Hmarks. exact Hnd.
    - intros node' Hnode' _. rewrite Hnew_at in Hnode'. injection Hnode' as <-.
      apply shaped_capacity. subst node. cbn [set_size size direct indirect].
      split; [exact Hzero|]. split.
      + intros Hi. rewrite (Hblk_I Hi). apply Hpzero, Hi.
      + rewrite (capacity_same _ _ _ (pointers_of (blk img (indirect node1))))
          by (intros Hi; rewrite (Hblk_I Hi); reflexivity).
        rewrite Hwrap, Hnewsize. lia. }
  split; [exact Hnew_at|]. split.
  { subst node. cbn [set_size size]. rewrite Hwrap. exact Hnewsize. }
  split; [subst node; cbn [set_size valid]; exact Hvalid|].
  split; [exact Hother|]. split; [rewrite Hrefs', Hmarks; reflexivity|].
  split.
  { intros k Hk Hk0' Hk1 Hk2. rewrite blk_put_inode_other by exact Hk2.
    apply Hframe; assumption. }
  subst node. cbn [set_size direct indirect].
  rewrite (data_blocks_same _ _ _ (pointers_of (blk img (indirect node1))))
    by (intros Hi; rewrite (Hblk_I Hi); reflexivity).
  apply (content_frame _ _ _ _ img); [exact Hcontent|].
  intros p Hp. apply blk_put_inode_other. fold k0.
  destruct (HLrange p Hp) as [Hpr _]. lia.
Qed.

(** *** The whole call *)

Local Abbreviation write_post := (write_post sb fb0 img0 refs0 node0 n off0 len0 data).

Lemma write_last st new :
  write_done st new ->
  match
    (let* fs :=
       assert_fs_save_inode (ws_fs st) n
         (set_size (ws_node st)
            (wrap32 (if ws_offset st >? size (ws_node st)
                     then ws_offset st else size (ws_node st)))) in
     Ok (ws_written st, fs))
  with
  | Ok (r, fs') => write_post r fs'
  | Fault _ =>
      Z.of_nat (length data) < len0
      \/ (POINTERS_PER_INODE + POINTERS_PER_BLOCK) * BLOCK_SIZE < off0 + len0
  end.
Proof.
  intros Hdone.
  destruct (write_finish st new Hdone)
    as (node & fs' & d' & -> & -> & Hd' & Hb' & Hm' & Hf' & C' & Hat' & Hsize' & Hvalid'
        & Hother & Hperm & Hframe & Hbytes).
  cbn [bind].
  destruct Hdone as [Hstore _ _ _ _ _ _ _ _ Hlen Hwritten Hsum Hoffset _ Hcomplete _ Hneed].
  destruct Hstore as (d & _ & _ & _ & _ & Hnd & Hnew & _).
  exists new. eexists. exists d'.
  split; [exact Hd'|]. split; [exact Hb'|]. split; [exact Hm'|]. split; [exact Hf'|].
  split; [exact C'|]. split; [exact Hat'|]. split; [exact Hvalid'|].
  split; [rewrite Hsize', Hoffset; reflexivity|]. split; [lia|].
  split; [destruct Hcomplete as [H|H]; [left; lia|right; rewrite <- Hoffset; exact H]|].
  split; [exact Hother|]. split; [exact Hperm|]. split; [exact Hnd|].
  split; [intros b Hb; apply Hnew, Hb|]. split; [exact Hframe|].
  split; [exact Hbytes|exact Hneed].
Qed.

Lemma fs_write_run fs d0 fs1 :
  disk fs = Some d0 -> disk_image d0 = img0 -> disk_blocks d0 = blocks sb ->
  meta_data fs = sb -> free_blocks fs = Some fb0 ->
  fs_load_inode fs n = Ok (Some node0, fs1) ->
  0 <= off0 <= size node0 -> 0 <= len0 ->
  match fs_write fs n data len0 off0 with
  | Ok (r, fs') => write_post r fs'
  | Fault _ =>
      Z.of_nat (length data) < len0
      \/ (POINTERS_PER_INODE + POINTERS_PER_BLOCK) * BLOCK_SIZE < off0 + len0
  end.
Proof.
  intros Hd Himg Hblocks Hmeta Hfb Hload Hoff Hlen.
  pose proof Hload as Hinv.
  apply fs_load_inode_some in Hinv as (d' & b & slot & Hd' & _ & _ & _ & _ & _ & _ & ->).
  rewrite Hd in Hd'. injection Hd' as <-.
  unfold fs_write. rewrite Hload. cbn [bind].
  assert ((off0 >? size node0) = false) as -> by lia.
  set (st0 := {| ws_fs := set_disk fs (Some (count_read d0)); ws_node := node0;
                 ws_point := off0 / BLOCK_SIZE; ws_length := len0;
                 ws_offset := off0; ws_written := 0 |}).
  pose proof (c_shape _ _ _ C0 n node0 Hn Hat Hv) as Hshape.
  apply shaped_capacity in Hshape as (Hz0 & Hpz0 & Hcap0).
  pose proof Hwf0 as (_ & _ & Hl5 & Hdu & _).
  assert (Hinv0 : direct_inv st0 []).
  { constructor; subst st0; cbn [ws_fs ws_node ws_point ws_length ws_offset ws_written].
    - exists (count_read d0).
      cbn [set_disk disk meta_data free_blocks count_read disk_blocks disk_image].
      split; [reflexivity|]. split; [exact Hblocks|]. split; [exact Hmeta|].
      split; [exact Hfb|]. split; [constructor|].
      split; [intros x Hx; apply elem_of_nil in Hx; destruct Hx|].
      split; [rewrite Himg; reflexivity|]. split; [rewrite Himg; apply (c_wf _ _ _ C0)|].
      intros k _ _ _. rewrite Himg. reflexivity.
    - reflexivity.
    - reflexivity.
    - reflexivity.
    - exact Hl5.
    - exact Hdu.
    - exact Hz0.
    - rewrite app_nil_r, Hrefs_eq. unfold node_marks.
      assert ((valid node0 =? 0) = false) as -> by lia. reflexivity.
    - intros _. unfold image_of. cbn [set_disk disk count_read disk_image].
      rewrite Himg. reflexivity.
    - apply Z.div_pos; unfold BLOCK_SIZE; lia.
    - exact Hlen.
    - lia.
    - lia.
    - lia.
    - intros _. unfold BLOCK_SIZE.
      pose proof (Z.div_mod off0 4096 ltac:(lia)).
      pose proof (Z.mod_pos_bound off0 4096 ltac:(lia)). lia.
    - split; [lia|exact Hcap0].
    - intros pos Hpos. split; [intros Hr; lia|]. intros _ _.
      unfold image_of. cbn [set_disk disk count_read disk_image]. rewrite Himg.
      reflexivity.
    - left. reflexivity. }
  pose proof (write_direct_loop_inv (Z.to_nat (POINTERS_PER_INODE - off0 / BLOCK_SIZE))
                st0 [] Hinv0 eq_refl) as Hloop.
  destruct (write_direct_loop _ data st0) as [[last st]|f]; cbn [bind]; [|left; exact Hloop].
  destruct Hloop as (new & Hinv1 & Hlast).
  destruct last; cbn [negb andb].
  - cbn [bind]. apply (write_last st new). apply direct_done; [exact Hinv1|].
    right. exact (proj2 Hlast).
  - destruct (0 <? ws_length st) eqn:Hpositive.
    + apply Z.ltb_lt in Hpositive.
      assert (Hfive : POINTERS_PER_INODE <= ws_point st)
        by (destruct Hlast as [H|H]; [lia|exact H]).
      pose proof (write_indirect_inv st new Hinv1 Hpositive Hfive) as Hind.
      destruct (write_indirect data st) as [st'|f]; cbn [bind]; [|exact Hind].
      destruct Hind as (new' & Hdone). apply (write_last st' new' Hdone).
    + cbn [bind]. apply (write_last st new). apply direct_done; [exact Hinv1|].
      left. pose proof (di_len _ _ _ _ _ _ _ _ _ _ _ Hinv1). lia.
Qed.

End Writing.

(** ** Writing on a sound handle *)

Lemma sound_write_run fs d fb n node0 fs1 data len off :
  disk fs = Some d -> free_blocks fs = Some fb ->
  disk_blocks d = blocks (meta_data fs) ->
  consistent (meta_data fs) fb (disk_image d) ->
  0 <= n -> fs_load_inode fs n = Ok (Some node0, fs1) ->
  0 <= off <= size node0 -> 0 <= len ->
  match fs_write fs n data len off with
  | Ok (r, fs') =>
      write_post (meta_data fs) fb (disk_image d) (refs (disk_image d) n) node0 n off len
        data r fs'
  | Fault _ =>
      Z.of_nat (length data) < len
      \/ (POINTERS_PER_INODE + POINTERS_PER_BLOCK) * BLOCK_SIZE < off + len
  end.
Proof.
  intros Hd Hfb Hblocks C Hn Hload Hoff Hlen.
  destruct (fs_load_inode_sound fs d n node0 fs1 Hd (c_wf _ _ _ C) Hn Hload)
    as (Hn128 & Hlt & _ & _ & Hat & Hv & _).
  assert (Hrefs : refs (disk_image d) n = node_marks (disk_image d) node0)
    by (unfold refs; rewrite Hat; reflexivity).
  pose proof (c_shape _ _ _ C n node0 ltac:(lia) Hat Hv) as (_ & Hpz & _).
  apply (fs_write_run (meta_data fs) fb (disk_image d) (refs (disk_image d) n) C)
    with (d0 := d) (fs1 := fs1); try assumption; try reflexivity; try lia.
  - intros b Hb. split; [apply (c_range _ _ _ C n b); [lia|exact Hb]|].
    pose proof (c_range _ _ _ C n b ltac:(lia) Hb). pose proof (c_ib _ _ _ C).
    apply (c_bitmap _ _ _ C); [lia|]. right. exists n. split; [lia|exact Hb].
  - apply (c_nodup _ _ _ C). lia.
  - intros Hi. rewrite Hrefs. apply elem_node_marks_indirect; assumption.
  - apply (wf_inode_loaded _ _ _ _ Hload).
Qed.

(** [fs_write] keeps a sound handle sound whenever it returns. *)
Lemma sound_write fs n data len off r fs' :
  sound fs -> 0 <= n -> 0 <= len -> 0 <= off ->
  fs_write fs n data len off = Ok (r, fs') -> sound fs'.
Proof.
  intros Hsound Hn Hlen Hoff Hrun. pose proof Hsound as (d & fb & Hd & Hfb & Hblocks & C).
  destruct (fs_load_inode fs n) as [[[node0|] fs1]|f] eqn:Hload.
  - destruct (decide (off <= size node0)) as [Hle|Hgt].
    + pose proof (sound_write_run fs d fb n node0 fs1 data len off Hd Hfb Hblocks C Hn Hload
                    ltac:(lia) Hlen) as Hpost.
      rewrite Hrun in Hpost.
      destruct Hpost as (new & node & d' & Hd' & Hb' & Hm' & Hf' & C' & _).
      exists d', (set_all true new fb). rewrite Hm'. auto.
    + unfold fs_write in Hrun. rewrite Hload in Hrun. cbn [bind] in Hrun.
      assert ((off >? size node0) = true) as Hgt' by lia. rewrite Hgt' in Hrun.
      injection Hrun as <- <-.
      apply (sound_same_store fs); [|exact Hsound]. apply (fs_load_inode_same _ _ _ _ Hload).
  - unfold fs_write in Hrun. rewrite Hload in Hrun. cbn [bind] in Hrun.
    injection Hrun as <- <-.
    apply (sound_same_store fs); [|exact Hsound]. apply (fs_load_inode_same _ _ _ _ Hload).
  - unfold fs_write in Hrun. rewrite Hload in Hrun. discriminate.
Qed.

(** ** Sequences of operations *)

Lemma sound_remove fs n node fs1 :
  sound fs -> 0 <= n ->
  fs_load_inode fs n = Ok (Some node, fs1) ->
  ~ empty_indirect (image_of fs) node ->
  exists fs', fs_remove fs n = Ok (true, fs') /\ sound fs'.
Proof.
  intros (d & fb & Hd & Hfb & Hblocks & C) Hn Hload Hleak.
  unfold image_of in *. rewrite Hd in *.
  destruct (sound_remove_run fs d fb n node fs1 Hd Hfb Hblocks C Hn Hload)
    as (fs' & d' & Hrun & Hd' & Himg' & Hb' & Hm' & Hfb' & C' & Hrefs & Hv & Hrange).
  assert (Hpos : Forall (fun p => 0 <= p) (node_marks (disk_image d) node)).
  { apply Forall_forall. intros b Hb. rewrite <- Hrefs in Hb.
    pose proof (c_range _ _ _ C n b Hrange Hb). pose proof (c_ib _ _ _ C). lia. }
  assert (Hsame : set_all false (released (disk_image d) node) fb
                  = set_all false (refs (disk_image d) n) fb).
  { rewrite Hrefs. apply set_all_same_elements.
    - apply Forall_forall. intros b Hb. apply node_marks_released in Hb; [|assumption..].
      rewrite Forall_forall in Hpos. apply Hpos, Hb.
    - exact Hpos.
    - apply node_marks_released; assumption. }
  exists fs'. split; [exact Hrun|].
  exists d', (set_all false (refs (disk_image d) n) fb).
  rewrite Hd', Hfb', Hb', Hm', Hsame. auto.
Qed.

Lemma fs_read_same_store fs n data len off r out fs' :
  fs_read fs n data len off = Ok (r, out, fs') -> same_store fs fs'.
Proof.
  intros Hrun. unfold fs_read in Hrun.
  destruct (fs_load_inode fs n) as [[[node|] fs1]|] eqn:Hload; [| |discriminate];
    cbn [bind] in Hrun.
  2:{ injection Hrun as <- <- <-. eapply fs_load_inode_same; exact Hload. }
  pose proof (fs_load_inode_same _ _ _ _ Hload) as Hsame1.
  destruct (off >=? size node); [injection Hrun as <- <- <-; exact Hsame1|].
  destruct (len =? 0); [injection Hrun as <- <- <-; exact Hsame1|].
  destruct (read_loop _ (direct node) _ _) as [st1|] eqn:Hloop1; [|discriminate].
  cbn [bind] in Hrun.
  apply read_loop_effect in Hloop1; [|cbn; lia].
  cbn [rs_fs rs_sum] in Hloop1. destruct Hloop1 as (Hs1 & Hle1 & _).
  destruct (negb (indirect node =? 0) && _).
  - destruct (assert_disk_read _ _ _) as [[blk' disk']|] eqn:Hread; [|discriminate].
    cbn [bind] in Hrun.
    destruct (read_loop _ (pointers_of blk') _ _) as [st2|] eqn:Hloop2; [|discriminate].
    cbn [bind] in Hrun. injection Hrun as <- <- <-.
    apply read_loop_effect in Hloop2.
    + cbn [rs_fs] in Hloop2. destruct Hloop2 as (Hs2 & _).
      eapply same_store_trans; [exact Hsame1|].
      eapply same_store_trans; [exact Hs1|].
      eapply same_store_trans; [eapply same_store_read; exact Hread|exact Hs2].
    + cbn [rs_sum]. exact Hle1.
  - cbn [bind] in Hrun. injection Hrun as <- <- <-.
    eapply same_store_trans; eassumption.
Qed.

Lemma leaky_remove fs n node fs1 :
  leaky fs (Remove n) = false ->
  fs_load_inode fs n = Ok (Some node, fs1) ->
  ~ empty_indirect (image_of fs) node.
Proof.
  intros Hleaky Hload [Hi Hempty]. cbn [leaky] in Hleaky.
  rewrite Hload, Hempty in Hleaky.
  assert ((indirect node =? 0) = false) as Hi' by lia.
  rewrite Hi' in Hleaky. discriminate.
Qed.

Lemma sound_exec fs o fs' :
  sound fs -> nonneg_op o = true -> leaky fs o = false ->
  exec o fs = Ok fs' -> sound fs'.
Proof.
  intros Hsound Hop Hleaky Hrun. destruct o as [|n|n|n data len off|n data len off];
    cbn [exec nonneg_op] in *.
  - destruct (fs_create fs) as [[r fs1]|] eqn:Hc; [|discriminate].
    cbn [bind] in Hrun. injection Hrun as <-. apply (sound_create _ _ _ Hsound Hc).
  - destruct (fs_load_inode fs n) as [[[node|] fs1]|] eqn:Hload.
    + pose proof Hsound as (d & fb & Hd & Hfb & Hblocks & C).
      destruct (sound_remove fs n node fs1 Hsound ltac:(lia) Hload) as (fs2 & Hrm & Hs2).
      * apply (leaky_remove fs n node fs1); [exact Hleaky|exact Hload].
      * rewrite Hrm in Hrun. cbn [bind] in Hrun. injection Hrun as <-. exact Hs2.
    + rewrite (fs_load_inode_none_or_some _ _ _ Hload) in Hrun. cbn [bind] in Hrun.
      injection Hrun as <-. apply (sound_same_store fs); [|exact Hsound].
      apply (fs_load_inode_same _ _ _ _ Hload).
    + unfold fs_remove in Hrun. rewrite Hload in Hrun. discriminate.
  - unfold fs_stat in Hrun.
    destruct (fs_load_inode fs n) as [[[node|] fs1]|] eqn:Hload; [| |discriminate];
      cbn [bind] in Hrun; injection Hrun as <-;
      (apply (sound_same_store fs); [|exact Hsound]);
      apply (fs_load_inode_same _ _ _ _ Hload).
  - destruct (fs_read fs n data len off) as [[[r out] fs1]|] eqn:Hr; [|discriminate].
    cbn [bind] in Hrun. injection Hrun as <-.
    apply (sound_same_store fs); [|exact Hsound]. apply (fs_read_same_store _ _ _ _ _ _ _ _ Hr).
  - destruct (fs_write fs n data len off) as [[r fs1]|] eqn:Hw; [|discriminate].
    cbn [bind] in Hrun. injection Hrun as <-.
    apply (sound_write fs n data len off r fs1 Hsound); try exact Hw; lia.
Qed.

Lemma sound_run ops : forall fs fs',
  sound fs -> admissible ops fs = true -> run ops fs = Ok fs' -> sound fs'.
Proof.
  induction ops as [|o ops IH]; intros fs fs' Hsound Hadm Hrun.
  - cbn in Hrun. injection Hrun as <-. exact Hsound.
  - cbn [admissible run] in *.
    destruct (exec o fs) as [fs1|] eqn:Hexec; [|discriminate]. cbn [bind] in Hrun.
    apply andb_prop in Hadm as [Hadm Hrest]. apply andb_prop in Hadm as [Hop Hleaky].
    apply negb_true_iff in Hleaky.
    apply (IH fs1 fs'); [|exact Hrest|exact Hrun].
    apply (sound_exec fs o fs1); assumption.
Qed.

(** The in-memory bitmap follows the disk through every admissible sequence
    of operations on a freshly formatted and mounted disk: a block is marked
    in use exactly when it is the superblock, an inode block or a block some
    valid inode refers to, no block belongs to two inodes, and unmounting and
    mounting again builds the same bitmap. *)
Theorem remount_after_run fs0 ops fs :
  fresh fs0 -> admissible ops fs0 = true -> run ops fs0 = Ok fs ->
  remount fs = Ok (true, free_blocks fs)
  /\ exists fb,
       free_blocks fs = Some fb
       /\ (forall b, 0 <= b < blocks (meta_data fs) ->
             (fb !! Z.to_nat b = Some true
              <-> b <= inode_blocks (meta_data fs)
                  \/ exists n, 0 <= n < inodes (meta_data fs) /\ b ∈ refs (image_of fs) n))
       /\ (forall n m b, 0 <= n < inodes (meta_data fs) -> 0 <= m < inodes (meta_data fs) ->
             b ∈ refs (image_of fs) n -> b ∈ refs (image_of fs) m -> n = m).
Proof.
  intros Hfresh Hadm Hrun.
  assert (Hsound : sound fs).
  { apply (sound_run ops fs0 fs); [|exact Hadm|exact Hrun]. apply fresh_sound, Hfresh. }
  split; [apply sound_remount, Hsound|].
  destruct Hsound as (d & fb & Hd & Hfb & Hblocks & C).
  exists fb. unfold image_of. rewrite Hd. split; [exact Hfb|]. split.
  - apply (c_bitmap _ _ _ C).
  - apply (c_share _ _ _ C).
Qed.

Lemma remount_after_run_witness :
  remount (handle_of (run (two_files ++ [Remove 0; Create; Stat 1])
                        (handle_of (mounted 10))))
  = Ok (true, free_blocks (handle_of (run (two_files ++ [Remove 0; Create; Stat 1])
                                        (handle_of (mounted 10)))))
  /\ exists fb,
       free_blocks (handle_of (run (two_files ++ [Remove 0; Create; Stat 1])
                                 (handle_of (mounted 10)))) = Some fb
       /\ (forall b,
             0 <= b < blocks (meta_data (handle_of (run (two_files ++ [Remove 0; Create; Stat 1])
                                                      (handle_of (mounted 10))))) ->
             (fb !! Z.to_nat b = Some true
              <-> b <= inode_blocks
                         (meta_data (handle_of (run (two_files ++ [Remove 0; Create; Stat 1])
                                                  (handle_of (mounted 10)))))
                  \/ exists n,
                       0 <= n < inodes
                                  (meta_data
                                     (handle_of (run (two_files ++ [Remove 0; Create; Stat 1])
                                                   (handle_of (mounted 10)))))
                       /\ b ∈ refs (image_of
                                      (handle_of (run (two_files ++ [Remove 0; Create; Stat 1])
                                                    (handle_of (mounted 10))))) n))
       /\ (forall n m b,
             0 <= n < inodes (meta_data (handle_of (run (two_files ++ [Remove 0; Create; Stat 1])
                                                      (handle_of (mounted 10))))) ->
             0 <= m < inodes (meta_data (handle_of (run (two_files ++ [Remove 0; Create; Stat 1])
                                                      (handle_of (mounted 10))))) ->
             b ∈ refs (image_of (handle_of (run (two_files ++ [Remove 0; Create; Stat 1])
                                              (handle_of (mounted 10))))) n ->
             b ∈ refs (image_of (handle_of (run (two_files ++ [Remove 0; Create; Stat 1])
                                              (handle_of (mounted 10))))) m ->
             n = m).
Proof.
  apply (remount_after_run (handle_of (mounted 10))
           (two_files ++ [Remove 0; Create; Stat 1])).
  - exact fresh_mounted_10.
  - vm_compute. reflexivity.
  - vm_compute. reflexivity.
Defined.

(** The fixtures are sound. *)
Lemma sound_run_prefix ops : forall fs fs' k,
  sound fs -> admissible ops fs = true -> run ops fs = Ok fs' ->
  exists fsk, run (take k ops) fs = Ok fsk /\ sound fsk.
Proof.
  induction ops as [|o ops IH]; intros fs fs' k Hsound Hadm Hrun.
  - rewrite take_nil. exists fs. split; [reflexivity|exact Hsound].
  - destruct k as [|k]; [exists fs; split; [reflexivity|exact Hsound]|].
    cbn [firstn take admissible run] in *.
    destruct (exec o fs) as [fs1|] eqn:Hexec; [|discriminate]. cbn [bind] in *.
    apply andb_prop in Hadm as [Hadm Hrest]. apply andb_prop in Hadm as [Hop Hleaky].
    apply negb_true_iff in Hleaky.
    apply (IH fs1 fs' k); [|exact Hrest|exact Hrun].
    apply (sound_exec fs o fs1); assumption.
Qed.

(** C2, amended: on a freshly formatted and mounted disk, for a sequence of
    [fs_create], [fs_remove], [fs_stat], [fs_read] and [fs_write] calls that
    all return and of which no [fs_remove] removes an inode whose indirect
    block holds no pointer, after each operation of the sequence (after the
    first [k] of them, for every [k]) [fs_unmount] followed by [fs_mount]
    succeeds and builds the bitmap that the handle held. *)
Theorem remount_after_each_operation fs0 ops fs (k : nat) :
  fresh fs0 -> admissible ops fs0 = true -> run ops fs0 = Ok fs ->
  exists fsk,
    run (take k ops) fs0 = Ok fsk /\ remount fsk = Ok (true, free_blocks fsk).
Proof.
  intros Hfresh Hadm Hrun.
  destruct (sound_run_prefix ops fs0 fs k (proj1 (fresh_sound fs0 Hfresh)) Hadm Hrun)
    as (fsk & Hk & Hsound).
  exists fsk. split; [exact Hk|]. apply sound_remount, Hsound.
Qed.

Lemma remount_after_each_operation_witness :
  exists fsk,
    run (take 5 (two_files ++ [Remove 0; Create; Stat 1])) (handle_of (mounted 10)) = Ok fsk
    /\ remount fsk = Ok (true, free_blocks fsk).
Proof.
  apply (remount_after_each_operation (handle_of (mounted 10))
           (two_files ++ [Remove 0; Create; Stat 1])
           (handle_of (run (two_files ++ [Remove 0; Create; Stat 1])
                         (handle_of (mounted 10)))) 5).
  - exact fresh_mounted_10.
  - vm_compute. reflexivity.
  - vm_compute. reflexivity.
Defined.

Lemma sound_fs10 : sound fs10.
Proof.
  apply (sound_run [Create] (handle_of (mounted 10)));
    [apply sound_mounted_10|vm_compute; reflexivity|vm_compute; reflexivity].
Qed.

Lemma sound_fs_seven_blocks : sound fs_seven_blocks.
Proof.
  apply (sound_run seven_appends (handle_of (mounted 10)));
    [apply sound_mounted_10|vm_compute; reflexivity|vm_compute; reflexivity].
Qed.

Lemma sound_fs_two_files : sound fs_two_files.
Proof.
  apply (sound_run two_files (handle_of (mounted 10)));
    [apply sound_mounted_10|vm_compute; reflexivity|vm_compute; reflexivity].
Qed.

Lemma sound_fs_two_inodes : sound fs_two_inodes.
Proof.
  apply (sound_run [Create; Create; Write 0 (replicate (Z.to_nat 8192) "a"%byte) 8192 0]
           (handle_of (mounted 10)));
    [apply sound_mounted_10|vm_compute; reflexivity|vm_compute; reflexivity].
Qed.

Lemma fs_remove_frees_blocks_witness :
  ~ empty_indirect (image_of fs_seven_blocks) seven_inode
  /\ exists fs' fb fb',
    fs_remove fs_seven_blocks 0 = Ok (true, fs')
    /\ free_blocks fs_seven_blocks = Some fb /\ free_blocks fs' = Some fb'
    /\ ~ in_use (image_of fs') 0
    /\ (forall m, 0 <= m -> m <> 0 ->
          inode_at (image_of fs') m = inode_at (image_of fs_seven_blocks) m)
    /\ (~ empty_indirect (image_of fs_seven_blocks) seven_inode ->
        sound fs'
        /\ (forall b, 0 <= b < blocks (meta_data fs_seven_blocks) ->
              fb' !! Z.to_nat b
              = if decide (b ∈ node_marks (image_of fs_seven_blocks) seven_inode)
                then Some false else fb !! Z.to_nat b)
        /\ remount fs' = Ok (true, Some fb')).
Proof.
  split; [intros [_ H]; vm_compute in H; discriminate|].
  apply (fs_remove_frees_blocks fs_seven_blocks 0 seven_inode (after_load fs_seven_blocks)).
  - exact sound_fs_seven_blocks.
  - lia.
  - vm_compute. reflexivity.
Defined.

Lemma fs_remove_leaks_empty_indirect_witness :
  exists fs' fb' fb'',
    fs_remove fs_two_files 1 = Ok (true, fs')
    /\ free_blocks fs' = Some fb'
    /\ fb' !! Z.to_nat (indirect stuck_inode) = Some true
    /\ (forall m, 0 <= m < inodes (meta_data fs') ->
          indirect stuck_inode ∉ refs (image_of fs') m)
    /\ remount fs' = Ok (true, Some fb'')
    /\ fb'' !! Z.to_nat (indirect stuck_inode) = Some false.
Proof.
  apply (fs_remove_leaks_empty_indirect fs_two_files 1 stuck_inode (after_load fs_two_files)).
  - exact sound_fs_two_files.
  - lia.
  - vm_compute. reflexivity.
  - split; [discriminate|]. vm_compute. reflexivity.
Defined.

(** ** What a caller sees of a write *)

(** [fs_load_inode] of an inode of the first inode block on a consistent
    image. *)
Lemma load_at fs d fb n node :
  disk fs = Some d -> disk_blocks d = blocks (meta_data fs) ->
  consistent (meta_data fs) fb (disk_image d) ->
  0 <= n < inodes (meta_data fs) -> n < INODES_PER_BLOCK ->
  inode_at (disk_image d) n = Some node ->
  fs_load_inode fs n
  = Ok (if valid node =? 0 then None else Some node, set_disk fs (Some (count_read d))).
Proof.
  intros Hd Hblocks C Hn H128 Hat. pose proof (c_ib _ _ _ C) as Hib.
  destruct (fs_load_inode_first_block fs d n Hd Hn H128) as (node' & Hat' & Hload).
  - lia.
  - rewrite (c_img _ _ _ C). lia.
  - apply (consistent_blk_wf _ _ _ 1 C). lia.
  - rewrite Hat in Hat'. injection Hat' as <-. exact Hload.
Qed.

(** Within the largest file size and with a buffer that holds [length]
    bytes, [fs_write] on a sound handle, to an inode that [fs_load_inode]
    loads and at an offset inside the file or at its end, never aborts.  It returns the number of bytes written, which is
    [length] unless no block is free any more; the inode grows to the end of
    the written range, so that [fs_stat] returns the larger of the old size
    and [offset + r]; blocks in use stay in use; and the handle stays sound. *)
Theorem fs_write_within_limits fs n node0 fs1 data len off :
  sound fs -> 0 <= n ->
  fs_load_inode fs n = Ok (Some node0, fs1) ->
  0 <= off <= size node0 -> 0 <= len <= Z.of_nat (length data) ->
  off + len <= (POINTERS_PER_INODE + POINTERS_PER_BLOCK) * BLOCK_SIZE ->
  exists r fs' fb fb',
    fs_write fs n data len off = Ok (r, fs')
    /\ sound fs' /\ 0 <= r <= len
    /\ free_blocks fs = Some fb /\ free_blocks fs' = Some fb'
    /\ (r = len
        \/ forall j, 1 <= j < blocks (meta_data fs) -> fb' !! Z.to_nat j = Some true)
    /\ (forall b, fb !! Z.to_nat b = Some true -> fb' !! Z.to_nat b = Some true)
    /\ exists fs2, fs_stat fs' n = Ok (Z.max (size node0) (off + r), fs2).
Proof.
  intros Hsound Hn Hload Hoff Hlen Hmax.
  pose proof Hsound as (d & fb & Hd & Hfb & Hblocks & C).
  destruct (fs_load_inode_sound fs d n node0 fs1 Hd (c_wf _ _ _ C) Hn Hload)
    as (Hn128 & Hlt & _ & _ & Hat & Hv & _).
  pose proof (sound_write_run fs d fb n node0 fs1 data len off Hd Hfb Hblocks C Hn Hload
                Hoff ltac:(lia)) as Hpost.
  destruct (fs_write fs n data len off) as [[r fs']|f]; [|lia].
  destruct Hpost as (new & node & d' & Hd' & Hb' & Hm' & Hf' & C' & Hat' & Hvalid' & Hsize'
                     & Hr & Hfull & _ & _ & _ & Hnew & _).
  exists r, fs', fb, (set_all true new fb).
  split; [reflexivity|]. split; [exists d', (set_all true new fb); rewrite Hm'; auto|].
  split; [exact Hr|]. split; [exact Hfb|]. split; [exact Hf'|].
  split; [destruct Hfull as [H|[H _]]; [left|right]; exact H|].
  split.
  - intros b Hb. pose proof (lookup_lt_Some _ _ _ Hb) as Hlt'.
    assert (Hpos : Forall (fun p => 0 <= p) new).
    { apply Forall_forall. intros x Hx. specialize (Hnew x Hx).
      destruct (decide (0 <= x)) as [|Hneg]; [assumption|].
      replace (Z.to_nat x) with O in Hnew by lia.
      pose proof (c_bitmap _ _ _ C 0) as H0. pose proof (c_ib _ _ _ C) as Hib.
      assert (fb !! Z.to_nat 0 = Some true) as H1 by (apply H0; [lia|left; lia]).
      change (Z.to_nat 0) with O in H1. congruence. }
    rewrite set_all_lookup by assumption.
    destruct (decide (Z.of_nat (Z.to_nat b) ∈ new)); [reflexivity|exact Hb].
  - eexists. unfold fs_stat.
    rewrite (load_at fs' d' (set_all true new fb) n node);
      [|exact Hd'|rewrite Hm'; exact Hb'|rewrite Hm'; exact C'|rewrite Hm'; lia|exact Hn128
       |exact Hat'].
    rewrite Hvalid'. assert ((valid node0 =? 0) = false) as -> by lia.
    cbn [bind]. rewrite Hsize'. reflexivity.
Qed.

Lemma fs_write_within_limits_witness :
  exists r fs' fb fb',
    fs_write fs_two_inodes 1 (replicate 4096 "b"%byte ++ replicate 4096 "c"%byte) 8192 0
    = Ok (r, fs')
    /\ sound fs' /\ 0 <= r <= 8192
    /\ free_blocks fs_two_inodes = Some fb /\ free_blocks fs' = Some fb'
    /\ (r = 8192
        \/ forall j, 1 <= j < blocks (meta_data fs_two_inodes) ->
             fb' !! Z.to_nat j = Some true)
    /\ (forall b, fb !! Z.to_nat b = Some true -> fb' !! Z.to_nat b = Some true)
    /\ exists fs2, fs_stat fs' 1 = Ok (Z.max (size new_inode) (0 + r), fs2).
Proof.
  apply (fs_write_within_limits fs_two_inodes 1 new_inode (after_load fs_two_inodes)).
  - exact sound_fs_two_inodes.
  - lia.
  - vm_compute. reflexivity.
  - cbn. lia.
  - rewrite length_app, !length_replicate. lia.
  - vm_compute. discriminate.
Defined.

Lemma same_store_image fs fs' : same_store fs fs' -> image_of fs' = image_of fs.
Proof.
  intros (_ & _ & Hi & _). unfold image_of.
  destruct (disk fs), (disk fs'); cbn in Hi; congruence.
Qed.

(** A [fs_write] to one inode leaves the rest of the file system alone: the
    superblock, every other inode, and every block another inode refers to
    are as before. *)
Theorem fs_write_isolation fs n data len off r fs' :
  sound fs -> 0 <= n -> 0 <= len -> 0 <= off ->
  fs_write fs n data len off = Ok (r, fs') ->
  meta_data fs' = meta_data fs
  /\ blk (image_of fs') 0 = blk (image_of fs) 0
  /\ forall m, 0 <= m < inodes (meta_data fs) -> m <> n ->
       inode_at (image_of fs') m = inode_at (image_of fs) m
       /\ forall b, b ∈ refs (image_of fs) m -> blk (image_of fs') b = blk (image_of fs) b.
Proof.
  intros Hsound Hn Hlen Hoff Hrun.
  assert (Hsame : same_store fs fs' ->
            meta_data fs' = meta_data fs
            /\ blk (image_of fs') 0 = blk (image_of fs) 0
            /\ forall m, 0 <= m < inodes (meta_data fs) -> m <> n ->
                 inode_at (image_of fs') m = inode_at (image_of fs) m
                 /\ forall b, b ∈ refs (image_of fs) m ->
                      blk (image_of fs') b = blk (image_of fs) b).
  { intros Hs. rewrite (same_store_image _ _ Hs). destruct Hs as (_ & Hm & _). auto. }
  pose proof Hsound as (d & fb & Hd & Hfb & Hblocks & C).
  destruct (fs_load_inode fs n) as [[[node0|] fs1]|f] eqn:Hload.
  - destruct (decide (off <= size node0)) as [Hle|Hgt].
    + pose proof (sound_write_run fs d fb n node0 fs1 data len off Hd Hfb Hblocks C Hn Hload
                    ltac:(lia) Hlen) as Hpost.
      rewrite Hrun in Hpost.
      destruct Hpost as (new & node & d' & Hd' & Hb' & Hm' & Hf' & C' & _ & _ & _ & _ & _
                         & Hother & _ & _ & Hnew & Hframe & _).
      destruct (fs_load_inode_sound fs d n node0 fs1 Hd (c_wf _ _ _ C) Hn Hload)
        as (_ & Hlt & _ & _ & _ & _ & _).
      pose proof (c_ib _ _ _ C) as Hib. pose proof (c_inodes _ _ _ C) as Hino.
      pose proof (inode_block_range n (inode_blocks (meta_data fs))
                    ltac:(rewrite <- Hino; lia)) as Hk0.
      assert (Hmarked : forall b, fb !! Z.to_nat b = Some true -> b ∉ new).
      { intros b Ht Hin. specialize (Hnew b Hin). congruence. }
      unfold image_of. rewrite Hd, Hd'.
      split; [exact Hm'|]. split.
      * apply Hframe; [lia| | |lia].
        -- intros Hin. pose proof (c_range _ _ _ C n 0 ltac:(lia) Hin). lia.
        -- apply Hmarked. apply (c_bitmap _ _ _ C); [lia|left; lia].
      * intros m Hm Hne. split; [apply Hother; assumption|].
        intros b Hb. pose proof (c_range _ _ _ C m b Hm Hb) as Hbr.
        apply Hframe; [lia| | |lia].
        -- intros Hin. apply Hne. apply (c_share _ _ _ C m n b); try assumption. lia.
        -- apply Hmarked. apply (c_bitmap _ _ _ C); [lia|]. right. exists m. auto.
    + unfold fs_write in Hrun. rewrite Hload in Hrun. cbn [bind] in Hrun.
      assert ((off >? size node0) = true) as Hgt' by lia. rewrite Hgt' in Hrun.
      injection Hrun as <- <-. apply Hsame, (fs_load_inode_same _ _ _ _ Hload).
  - unfold fs_write in Hrun. rewrite Hload in Hrun. cbn [bind] in Hrun.
    injection Hrun as <- <-. apply Hsame, (fs_load_inode_same _ _ _ _ Hload).
  - unfold fs_write in Hrun. rewrite Hload in Hrun. discriminate.
Qed.

Lemma fs_write_isolation_witness :
  meta_data fs_two_written = meta_data fs_two_inodes
  /\ blk (image_of fs_two_written) 0 = blk (image_of fs_two_inodes) 0
  /\ forall m, 0 <= m < inodes (meta_data fs_two_inodes) -> m <> 1 ->
       inode_at (image_of fs_two_written) m = inode_at (image_of fs_two_inodes) m
       /\ forall b, b ∈ refs (image_of fs_two_inodes) m ->
            blk (image_of fs_two_written) b = blk (image_of fs_two_inodes) b.
Proof.
  apply (fs_write_isolation fs_two_inodes 1
           (replicate 4096 "b"%byte ++ replicate 4096 "c"%byte) 8192 0 8192).
  - exact sound_fs_two_inodes.
  - lia.
  - lia.
  - lia.
  - vm_compute. reflexivity.
Defined.

(** ** Operations one after the other *)

(** The inode that [fs_create] returns is there and empty: [fs_stat] gives 0
    and [fs_read] at offset 0 gives 0 bytes and leaves the buffer alone. *)
Theorem fs_create_then_stat fs r fs' data len :
  sound fs -> fs_create fs = Ok (r, fs') -> 0 <= r < INODES_PER_BLOCK ->
  (exists fs2, fs_stat fs' r = Ok (0, fs2))
  /\ (exists fs2, fs_read fs' r data len 0 = Ok (0, data, fs2)).
Proof.
  intros Hsound Hrun Hr.
  pose proof Hsound as (d & fb & Hd & Hfb & Hblocks & C).
  pose proof (c_ib _ _ _ C) as Hib. pose proof (c_inodes _ _ _ C) as Hino.
  pose proof (sound_create _ _ _ Hsound Hrun) as (d' & fb' & Hd' & Hfb' & Hblocks' & C').
  unfold fs_create in Hrun.
  destruct (create_loop_spec (Z.to_nat (inode_blocks (meta_data fs))) fs d 1 fs' r Hd) as
    [(-> & _)|(Hrange & _ & _ & d2 & Hd2 & Himg2 & Hb2 & Hm2 & Hf2)];
    [lia|lia|rewrite (c_img _ _ _ C); lia| |exact Hrun|lia|].
  { intros j Hj. apply (consistent_blk_wf _ _ _ j C). lia. }
  rewrite Hd' in Hd2. injection Hd2 as <-.
  assert (Hat : inode_at (disk_image d') r = Some new_inode).
  { rewrite Himg2. unfold INODES_PER_BLOCK in *.
    assert (Hq : r / 128 + 1 = 1) by (rewrite Z.div_small by lia; reflexivity).
    apply inode_at_put_same; unfold INODES_PER_BLOCK; rewrite ?Hq.
    - rewrite (c_img _ _ _ C). lia.
    - apply (consistent_blk_wf _ _ _ 1 C). lia.
    - apply wf_new_inode. }
  assert (Hload : fs_load_inode fs' r
                  = Ok (Some new_inode, set_disk fs' (Some (count_read d')))).
  { rewrite (load_at fs' d' fb' r new_inode Hd' Hblocks' C');
      [reflexivity| |apply Hr|exact Hat].
    rewrite Hm2, Hino. unfold INODES_PER_BLOCK in *. lia. }
  split; eexists.
  - unfold fs_stat. rewrite Hload. reflexivity.
  - unfold fs_read. rewrite Hload. reflexivity.
Qed.

Lemma fs_create_then_stat_witness :
  (exists fs2, fs_stat fs10 0 = Ok (0, fs2))
  /\ (exists fs2, fs_read fs10 0 (replicate 16 "z"%byte) 16 0
                  = Ok (0, replicate 16 "z"%byte, fs2)).
Proof.
  apply (fs_create_then_stat (handle_of (mounted 10)) 0 fs10 (replicate 16 "z"%byte) 16).
  - exact sound_mounted_10.
  - vm_compute. reflexivity.
  - vm_compute. split; [discriminate|reflexivity].
Defined.

(** After [fs_remove] of an inode that [fs_load_inode] loads, on a sound
    handle, the inode is gone: [fs_stat], [fs_read] and [fs_write] return -1,
    a second [fs_remove] returns [false], and none of them changes the bitmap
    or the image. *)
Theorem fs_remove_then_use fs n node fs1 data len off :
  sound fs -> 0 <= n -> fs_load_inode fs n = Ok (Some node, fs1) ->
  exists fs' fs2,
    fs_remove fs n = Ok (true, fs')
    /\ same_store fs' fs2
    /\ fs_stat fs' n = Ok (-1, fs2)
    /\ fs_read fs' n data len off = Ok (-1, data, fs2)
    /\ fs_write fs' n data len off = Ok (-1, fs2)
    /\ fs_remove fs' n = Ok (false, fs2).
Proof.
  intros (d & fb & Hd & Hfb & Hblocks & C) Hn Hload.
  destruct (sound_remove_run fs d fb n node fs1 Hd Hfb Hblocks C Hn Hload)
    as (fs' & d' & Hrun & Hd' & Himg' & Hb' & Hm' & Hfb' & C' & Hrefs & Hv & Hrange).
  destruct (fs_load_inode_sound fs d n node fs1 Hd (c_wf _ _ _ C) Hn Hload)
    as (Hn128 & _ & Hlen & _ & _ & _ & _).
  pose proof (c_ib _ _ _ C) as Hib.
  assert (Hat : inode_at (disk_image d') n = Some zero_inode).
  { rewrite Himg'. apply inode_at_put_same; [exact Hlen| |apply wf_zero_inode].
    eapply (proj1 (Forall_lookup _ _) (c_wf _ _ _ C)).
    apply blk_lt. exact Hlen. }
  assert (Hnone : fs_load_inode fs' n = Ok (None, set_disk fs' (Some (count_read d')))).
  { rewrite (load_at fs' d' (set_all false (refs (disk_image d) n) fb) n zero_inode Hd');
      [reflexivity| | | |exact Hn128|exact Hat].
    - rewrite Hm', Hb'. exact Hblocks.
    - rewrite Hm'. exact C'.
    - rewrite Hm'. exact Hrange. }
  exists fs', (set_disk fs' (Some (count_read d'))).
  split; [exact Hrun|]. split; [apply (fs_load_inode_same _ _ _ _ Hnone)|].
  split; [unfold fs_stat; rewrite Hnone; reflexivity|].
  split; [unfold fs_read; rewrite Hnone; reflexivity|].
  split; [unfold fs_write; rewrite Hnone; reflexivity|].
  apply fs_load_inode_none_or_some, Hnone.
Qed.

Lemma fs_remove_then_use_witness :
  exists fs' fs2,
    fs_remove fs_seven_blocks 0 = Ok (true, fs')
    /\ same_store fs' fs2
    /\ fs_stat fs' 0 = Ok (-1, fs2)
    /\ fs_read fs' 0 (replicate 16 "z"%byte) 16 0 = Ok (-1, replicate 16 "z"%byte, fs2)
    /\ fs_write fs' 0 (replicate 16 "z"%byte) 16 0 = Ok (-1, fs2)
    /\ fs_remove fs' 0 = Ok (false, fs2).
Proof.
  apply (fs_remove_then_use fs_seven_blocks 0 seven_inode (after_load fs_seven_blocks)).
  - exact sound_fs_seven_blocks.
  - lia.
  - vm_compute. reflexivity.
Defined.

(** ** A new file system *)

(** [fs_format] followed by [fs_mount], on a handle that is not bound and a
    disk of 2 to 335544319 blocks: both succeed, the handle is sound, exactly
    the superblock and the inode blocks are marked in use, no inode is valid,
    the first [fs_create] returns inode 0, and mounting the handle a second
    time returns [false] and changes nothing. *)
Theorem fs_format_then_mount fs d :
  disk fs = None ->
  2 <= disk_blocks d < 335544320 ->
  length (disk_image d) = Z.to_nat (disk_blocks d) ->
  exists d1 fs' d2 fb,
    fs_format fs (Some d) = Ok (true, Some d1)
    /\ fs_mount fs (Some d1) = Ok (true, fs', Some d2)
    /\ sound fs'
    /\ disk fs' = Some d2 /\ meta_data fs' = fresh_super (disk_blocks d)
    /\ free_blocks fs' = Some fb
    /\ (forall b, 0 <= b < disk_blocks d ->
          fb !! Z.to_nat b
          = Some (bool_decide (b <= inode_blocks (fresh_super (disk_blocks d)))))
    /\ (forall n, 0 <= n < inodes (fresh_super (disk_blocks d)) ->
          ~ in_use (image_of fs') n)
    /\ (exists fs2, fs_create fs' = Ok (0, fs2))
    /\ fs_mount fs' (Some d2) = Ok (false, fs', Some d2).
Proof.
  intros Hnone Hn Hlen.
  destruct (fs_format_ok fs d Hnone Hn Hlen) as (d1 & Hf & Hb & Hl & H0 & Hz & _ & _).
  assert (C : consistent (fresh_super (disk_blocks d)) (bitmap_of d1) (disk_image d1)).
  { apply formatted_consistent; try assumption. rewrite Hl. exact Hlen. }
  destruct (consistent_mountable (fresh_super (disk_blocks d)) _ d1 Hb C) as [Hm Hbit].
  destruct (fs_mount_ok fs d1 Hnone Hm) as (fs' & d2 & Hmount & Hd2 & Hi2 & Hb2 & Hmeta & Hfb).
  rewrite (c_super _ _ _ C) in Hmeta.
  assert (Hfresh : fresh fs').
  { exists fs, d, d1, (Some d2). auto. }
  destruct (fresh_sound fs' Hfresh) as (Hsound & fb & Hfb' & Hbits).
  pose proof (c_ib _ _ _ C) as Hib. pose proof (c_inodes _ _ _ C) as Hino.
  assert (Hfree : forall n, 0 <= n < inodes (fresh_super (disk_blocks d)) ->
                    ~ in_use (image_of fs') n).
  { intros n Hn' (node & Hat & Hv). unfold image_of in Hat. rewrite Hd2, Hi2 in Hat.
    unfold inode_at in Hat. rewrite Hino in Hn'.
    pose proof (inode_block_range n _ Hn') as Hk. rewrite Hz in Hat.
    - rewrite inodes_of_zero_block in Hat. apply lookup_replicate in Hat as [-> _].
      apply Hv. reflexivity.
    - cbn [blocks fresh_super] in Hib. lia. }
  exists d1, fs', d2, fb.
  split; [exact Hf|]. split; [exact Hmount|]. split; [exact Hsound|].
  split; [exact Hd2|]. split; [exact Hmeta|]. split; [exact Hfb'|].
  split; [rewrite Hmeta in Hbits; exact Hbits|]. split; [exact Hfree|]. split.
  - pose proof Hsound as (d3 & fb3 & Hd3 & Hfb3 & Hblocks3 & C3).
    rewrite Hd2 in Hd3. injection Hd3 as <-. rewrite Hmeta in *.
    assert (Hwf : forall j, 1 <= j < 1 + Z.of_nat (Z.to_nat (inode_blocks
                                (fresh_super (disk_blocks d)))) ->
                    wf_block (blk (disk_image d2) j)).
    { intros j Hj. apply (consistent_blk_wf _ _ _ j C3). lia. }
    destruct (create_loop_total (Z.to_nat (inode_blocks (fresh_super (disk_blocks d))))
                fs' d2 1 Hd2) as (r & fs2 & Hrun);
      [lia|lia|rewrite (c_img _ _ _ C3); lia|rewrite Hmeta, Hino; unfold INODES_PER_BLOCK; lia
      |exact Hwf|].
    exists fs2. unfold fs_create. rewrite Hmeta. rewrite Hrun. do 2 f_equal.
    unfold image_of in Hfree. rewrite Hd2 in Hfree.
    destruct (create_loop_spec (Z.to_nat (inode_blocks (fresh_super (disk_blocks d))))
                fs' d2 1 fs2 r Hd2 ltac:(lia) ltac:(lia)
                ltac:(rewrite (c_img _ _ _ C3); lia) Hwf Hrun)
      as [(_ & _ & Hall)|(Hrange & _ & Hlow & _)].
    + exfalso. apply (Hfree 0); [rewrite Hino; unfold INODES_PER_BLOCK; lia|].
      apply Hall. lia.
    + destruct (decide (r = 0)) as [|Hne]; [assumption|]. exfalso.
      apply (Hfree 0); [rewrite Hino; unfold INODES_PER_BLOCK; lia|]. apply Hlow. lia.
  - unfold fs_mount. rewrite Hd2.
    rewrite bool_decide_eq_true_2 by discriminate. reflexivity.
Qed.

Lemma fs_format_then_mount_witness :
  exists d1 fs' d2 fb,
    fs_format fresh_fs (Some (fresh_disk 10)) = Ok (true, Some d1)
    /\ fs_mount fresh_fs (Some d1) = Ok (true, fs', Some d2)
    /\ sound fs'
    /\ disk fs' = Some d2 /\ meta_data fs' = fresh_super (disk_blocks (fresh_disk 10))
    /\ free_blocks fs' = Some fb
    /\ (forall b, 0 <= b < disk_blocks (fresh_disk 10) ->
          fb !! Z.to_nat b
          = Some (bool_decide
                    (b <= inode_blocks (fresh_super (disk_blocks (fresh_disk 10))))))
    /\ (forall n, 0 <= n < inodes (fresh_super (disk_blocks (fresh_disk 10))) ->
          ~ in_use (image_of fs') n)
    /\ (exists fs2, fs_create fs' = Ok (0, fs2))
    /\ fs_mount fs' (Some d2) = Ok (false, fs', Some d2).
Proof.
  apply (fs_format_then_mount fresh_fs (fresh_disk 10)).
  - reflexivity.
  - cbn. lia.
  - reflexivity.
Defined.

(** ** Inode numbers outside the table *)

(** An inode number that is not below [meta_data.inodes] is rejected by every
    operation before the disk is touched: [fs_stat], [fs_read] and [fs_write]
    return -1 and [fs_remove] returns [false], with the handle and the buffer
    as they were.  This covers every inode number on a zeroed handle that was
    never mounted. *)
Theorem inode_number_out_of_range fs n data len off :
  inodes (meta_data fs) <= n ->
  fs_stat fs n = Ok (-1, fs)
  /\ fs_read fs n data len off = Ok (-1, data, fs)
  /\ fs_write fs n data len off = Ok (-1, fs)
  /\ fs_remove fs n = Ok (false, fs).
Proof.
  intros Hn.
  assert (Hload : fs_load_inode fs n = Ok (None, fs)).
  { unfold fs_load_inode. assert ((n >=? inodes (meta_data fs)) = true) as -> by lia.
    reflexivity. }
  split; [unfold fs_stat; rewrite Hload; reflexivity|].
  split; [unfold fs_read; rewrite Hload; reflexivity|].
  split; [unfold fs_write; rewrite Hload; reflexivity|].
  apply fs_load_inode_none_or_some, Hload.
Qed.

Lemma inode_number_out_of_range_witness :
  fs_stat fs10 128 = Ok (-1, fs10)
  /\ fs_read fs10 128 (replicate 16 "z"%byte) 16 0 = Ok (-1, replicate 16 "z"%byte, fs10)
  /\ fs_write fs10 128 (replicate 16 "z"%byte) 16 0 = Ok (-1, fs10)
  /\ fs_remove fs10 128 = Ok (false, fs10).
Proof.
  apply (inode_number_out_of_range fs10 128 (replicate 16 "z"%byte) 16 0).
  vm_compute. discriminate.
Defined.

(** ** Reading the bytes of a file *)

Section Reading.

Variable img : list Block.
Variable L : list Z.
Variable nblocks : Z.
Variable off len' : Z.
Variable buf : list byte.
Hypothesis HL : forall p, p ∈ L ->
  p <> 0 /\ 0 <= p < nblocks /\ (Z.to_nat p < length img)%nat /\ wf_block (blk img p).
Hypothesis Hoff : 0 <= off.
Hypothesis Hcap : off + len' <= Z.of_nat (length L) * BLOCK_SIZE.

Local Abbreviation reading := (reading img L nblocks off len' buf).

Lemma read_loop_bytes (ptrs : list Z) (base : Z) n : forall st,
  0 <= base ->
  (n = O \/ Z.of_nat n + rs_i st <= Z.of_nat (length ptrs)) ->
  (forall i, 0 <= i < Z.of_nat (length ptrs) -> i + base < Z.of_nat (length L) ->
             ptrs !! Z.to_nat i = L !! Z.to_nat (i + base)) ->
  reading base st ->
  match read_loop n ptrs len' st with
  | Ok st' =>
      same_store (rs_fs st) (rs_fs st')
      /\ reading base st'
      /\ (rs_sum st' < len' -> rs_i st' = rs_i st + Z.of_nat n)
  | Fault _ =>
      Z.of_nat (length buf) < len'
      \/ (off mod BLOCK_SIZE <> 0 /\ BLOCK_SIZE - off mod BLOCK_SIZE < len')
  end.
Proof.
  intros st Hbase. revert st.
  induction n as [|n IH]; intros st Hn Hptrs Hst.
  { cbn. split; [apply same_store_refl|]. split; [exact Hst|]. intros _. lia. }
  destruct Hn as [Hn|Hn]; [discriminate|].
  cbn [read_loop].
  pose proof Hst as ((d & Hd & Himg & Hblocks) & Hi & Hsum & Hoffset & Hpos & Hlen
                     & Hread & Hrest).
  destruct (rs_sum st <? len') eqn:Hlt; cbn [negb].
  2:{ split; [apply same_store_refl|]. split; [exact Hst|]. intros H. lia. }
  apply Z.ltb_lt in Hlt. destruct (Hpos Hlt) as [Hblock Haligned].
  unfold BLOCK_SIZE in *.
  assert (Hg : rs_i st + base < Z.of_nat (length L)) by nia.
  destruct (lookup_lt_is_Some_2 L (Z.to_nat (rs_i st + base))) as [p Hp]; [lia|].
  rewrite (Hptrs (rs_i st)) by lia. rewrite Hp.
  destruct (HL p (list_elem_of_lookup_2 _ _ _ Hp)) as (Hp0 & Hprange & Hplen & Hpwf).
  assert ((p =? 0) = false) as -> by lia.
  rewrite Hd.
  rewrite (assert_disk_read_ok d p _ (blk img p))
    by (rewrite ?Himg; try apply blk_lt; lia).
  cbn [bind].
  destruct (offset_in_block_eq (rs_offset st) (rs_i st + base)) as [Hq Hmod];
    [unfold BLOCK_SIZE; lia|].
  unfold BLOCK_SIZE in Hmod. rewrite Hmod.
  set (o := rs_offset st - (rs_i st + base) * 4096) in *.
  set (size := if len' - rs_sum st <? 4096 then len' - rs_sum st else 4096).
  assert (Hsize : 0 < size <= len' - rs_sum st /\ size <= 4096
                  /\ (size < len' - rs_sum st -> size = 4096)).
  { subst size. destruct (len' - rs_sum st <? 4096) eqn:E; lia. }
  clearbody size.
  assert (Hfirst : rs_sum st = 0 -> o = off mod 4096).
  { intros H0. subst o. rewrite Hoffset, H0, Z.add_0_r.
    rewrite Hoffset, H0, Z.add_0_r in Hblock.
    destruct (offset_in_block_eq off (rs_i st + base)) as [_ Hm];
      [unfold BLOCK_SIZE; lia|]. unfold BLOCK_SIZE in Hm. lia. }
  destruct (memcpy (rs_data st) (rs_sum st) (blk img p) o size) as [out|f] eqn:Hcp.
  - cbn [bind]. pose proof Hcp as Hcp0.
    apply memcpy_inv in Hcp as (_ & _ & Hfit & Hlout & _ & _).
    assert (Hsrc : o + size <= 4096).
    { unfold memcpy in Hcp0.
      destruct (size <? 0); [discriminate|]. destruct (rs_sum st <? 0); [discriminate|].
      destruct (o <? 0); [discriminate|].
      destruct (Z.of_nat (length (blk img p)) <? o + size) eqn:E; [discriminate|].
      unfold wf_block in Hpwf. lia. }
    set (st1 := {| rs_fs := set_disk (rs_fs st) (Some (count_read d)); rs_data := out;
                   rs_i := rs_i st + 1; rs_sum := rs_sum st + size;
                   rs_offset := rs_offset st + size |}).
    assert (Hst1 : reading base st1).
    { subst st1. unfold reading.
      cbn [rs_fs rs_data rs_i rs_sum rs_offset set_disk disk].
      split; [exists (count_read d); auto|]. split; [lia|]. split; [lia|].
      split; [lia|]. split.
      { intros Hmore. unfold BLOCK_SIZE. subst o. lia. }
      split; [congruence|]. split.
      - intros j Hj. rewrite (memcpy_lookup _ _ _ _ _ _ j Hcp0).
        destruct (decide (Z.to_nat (rs_sum st) <= j < Z.to_nat (rs_sum st + size))%nat)
          as [Hin|Hout].
        + symmetry.
          rewrite (byte_at_block img L _ (rs_i st + base)
                     (o + (Z.of_nat j - rs_sum st)) p);
            [f_equal; lia|unfold BLOCK_SIZE; lia|lia|unfold BLOCK_SIZE; subst o; lia
            |exact Hp].
        + apply Hread. lia.
      - intros j Hj. rewrite (memcpy_lookup _ _ _ _ _ _ j Hcp0).
        rewrite decide_False by lia. apply Hrest. lia. }
    specialize (IH st1).
    destruct (read_loop n ptrs len' st1) as [st2|f].
    + destruct IH as (Hsame & Hst2 & Hi2); [|exact Hptrs|exact Hst1|].
      { subst st1. cbn [rs_i]. destruct n; [left; reflexivity|right; lia]. }
      split.
      { eapply same_store_trans; [|exact Hsame].
        unfold same_store. subst st1. cbn [rs_fs]. rewrite Hd. cbn. auto. }
      split; [exact Hst2|]. intros Hmore. rewrite (Hi2 Hmore). subst st1. cbn [rs_i]. lia.
    + apply IH; [|exact Hptrs|exact Hst1].
      subst st1. cbn [rs_i]. destruct n; [left; reflexivity|right; lia].
  - cbn [bind]. unfold memcpy in Hcp.
    destruct (size <? 0) eqn:E1; [lia|].
    destruct (rs_sum st <? 0) eqn:E2; [lia|].
    destruct (o <? 0) eqn:E3; [subst o; lia|].
    destruct (Z.of_nat (length (blk img p)) <? o + size) eqn:E4.
    + right. unfold wf_block in Hpwf.
      destruct (decide (0 < rs_sum st)) as [Hpos'|Hzero].
      * specialize (Haligned Hpos'). subst o. lia.
      * rewrite <- Hfirst by lia. split; lia.
    + destruct (Z.of_nat (length (rs_data st)) <? rs_sum st + size) eqn:E5;
        [|discriminate]. left. lia.
Qed.

End Reading.

Lemma data_blocks_direct_agree (D : list Z) I (P : list Z) i :
  zero_ended D -> (length D = 5)%nat ->
  0 <= i < Z.of_nat (length D) -> i + 0 < Z.of_nat (length (data_blocks D I P)) ->
  D !! Z.to_nat i = data_blocks D I P !! Z.to_nat (i + 0).
Proof.
  intros Hz H5 Hi Hlt. rewrite Z.add_0_r in *.
  assert (Hu : (Z.to_nat i < length (used D))%nat).
  { destruct (decide (length (used D) < 5)%nat) as [Hs|Hs].
    - rewrite (data_blocks_short D I P Hs) in Hlt. lia.
    - pose proof (used_length_le D). lia. }
  unfold data_blocks. rewrite lookup_app_l by exact Hu.
  symmetry. rewrite used_take. apply lookup_take_lt. exact Hu.
Qed.

Lemma data_blocks_indirect_agree (D : list Z) I (P : list Z) i :
  (length D = 5)%nat ->
  0 <= i < Z.of_nat (length P) -> i + 5 < Z.of_nat (length (data_blocks D I P)) ->
  P !! Z.to_nat i = data_blocks D I P !! Z.to_nat (i + 5).
Proof.
  intros H5 Hi Hlt. pose proof (used_length_le D) as Hle. rewrite H5 in Hle.
  unfold data_blocks in *.
  destruct ((length (used D) =? 5)%nat && negb (I =? 0)) eqn:E.
  - apply andb_prop in E as [E _]. apply Nat.eqb_eq in E.
    rewrite length_app, E in Hlt.
    rewrite lookup_app_r by lia. rewrite E.
    replace (Z.to_nat (i + 5) - 5)%nat with (Z.to_nat i) by lia.
    symmetry. rewrite used_take. apply lookup_take_lt. lia.
  - rewrite length_app in Hlt. cbn [length] in Hlt. lia.
Qed.

Lemma data_blocks_length_max (D : list Z) I (P : list Z) :
  (length D = 5)%nat -> (I <> 0 -> length P = 1024%nat) ->
  (length (data_blocks D I P) <= 1029)%nat
  /\ ((5 < length (data_blocks D I P))%nat -> I <> 0 /\ length (used D) = 5%nat).
Proof.
  intros H5 HP. pose proof (used_length_le D) as Hle. rewrite H5 in Hle.
  pose proof (used_length_le P) as HleP.
  unfold data_blocks. rewrite length_app.
  destruct (Nat.eqb_spec (length (used D)) 5) as [E|E]; cbn [andb].
  - destruct (Z.eqb_spec I 0) as [HI|HI]; cbn [negb length].
    + split; [lia|]. intros H. lia.
    + rewrite (HP HI) in HleP. split; [lia|]. intros _. split; assumption.
  - cbn [length]. split; [lia|]. intros H. lia.
Qed.

(** [fs_read] of a valid inode on a consistent image, from an offset inside
    the file. *)
Lemma fs_read_run fs d fb n node fs1 buf len off :
  disk fs = Some d -> free_blocks fs = Some fb ->
  disk_blocks d = blocks (meta_data fs) ->
  consistent (meta_data fs) fb (disk_image d) ->
  0 <= n -> fs_load_inode fs n = Ok (Some node, fs1) ->
  0 <= off < size node -> 0 < len -> off + len < 2 ^ 64 ->
  match fs_read fs n buf len off with
  | Ok (r, out, fs') =>
      same_store fs fs'
      /\ r = Z.min len (size node - off)
      /\ length out = length buf
      /\ (forall j : nat, (j < Z.to_nat r)%nat ->
            out !! j = inode_byte (disk_image d) node (off + Z.of_nat j))
      /\ (forall j : nat, (Z.to_nat r <= j)%nat -> out !! j = buf !! j)
  | Fault _ =>
      Z.of_nat (length buf) < Z.min len (size node - off)
      \/ (off mod BLOCK_SIZE <> 0
          /\ BLOCK_SIZE - off mod BLOCK_SIZE < Z.min len (size node - off))
  end.
Proof.
  intros Hd Hfb Hblocks C Hn Hload Hoff Hlen Hno.
  destruct (fs_load_inode_sound fs d n node fs1 Hd (c_wf _ _ _ C) Hn Hload)
    as (Hn128 & Hlt & _ & _ & Hat & Hv & ->).
  pose proof (wf_inode_loaded _ _ _ _ Hload) as (_ & Hsu & Hl5 & _ & _).
  pose proof (c_ib _ _ _ C) as Hib. pose proof (c_img _ _ _ C) as Hlimg.
  assert (Hrefs : refs (disk_image d) n = node_marks (disk_image d) node)
    by (unfold refs; rewrite Hat; reflexivity).
  assert (Hmarks : node_marks (disk_image d) node
                   = marks (direct node) (indirect node)
                       (pointers_of (blk (disk_image d) (indirect node)))).
  { unfold node_marks. assert ((valid node =? 0) = false) as -> by lia. reflexivity. }
  pose proof (c_shape _ _ _ C n node ltac:(lia) Hat Hv) as Hshape.
  apply shaped_capacity in Hshape as (Hz & Hpz & Hcap).
  rewrite capacity_data_blocks in Hcap.
  set (img := disk_image d) in *.
  set (P := pointers_of (blk img (indirect node))) in *.
  set (L := data_blocks (direct node) (indirect node) P) in *.
  assert (Hrange : forall p, p ∈ marks (direct node) (indirect node) P ->
                     inode_blocks (meta_data fs) < p < blocks (meta_data fs)).
  { intros p Hp. apply (c_range _ _ _ C n p); [lia|]. rewrite Hrefs, Hmarks. exact Hp. }
  assert (HL : forall p, p ∈ L ->
             p <> 0 /\ 0 <= p < blocks (meta_data fs) /\ (Z.to_nat p < length img)%nat
             /\ wf_block (blk img p)).
  { intros p Hp. pose proof (Hrange p (data_blocks_marks _ _ _ _ Hp)) as Hr.
    split; [lia|]. split; [lia|]. split; [lia|].
    apply (consistent_blk_wf _ _ _ p C). lia. }
  assert (HwfI : indirect node <> 0 -> wf_block (blk img (indirect node))).
  { intros Hi. apply (consistent_blk_wf _ _ _ _ C).
    assert (Hin : indirect node ∈ marks (direct node) (indirect node) P).
    { unfold marks. apply elem_of_app. right.
      assert ((indirect node =? 0) = false) as -> by lia. constructor. }
    specialize (Hrange _ Hin). lia. }
  destruct (data_blocks_length_max (direct node) (indirect node) P Hl5) as [HLmax HLbig].
  { intros Hi. apply length_pointers_of, HwfI, Hi. }
  fold L in HLmax, HLbig.
  set (len' := Z.min len (size node - off)).
  unfold u32 in Hsu. unfold BLOCK_SIZE in *.
  unfold fs_read. rewrite Hload. cbn [bind].
  assert ((off >=? size node) = false) as -> by lia.
  assert ((len =? 0) = false) as -> by lia.
  assert (Hlen' : (if wrap64 (off + len) >=? size node then size node - off else len) = len').
  { unfold wrap64. rewrite Z.mod_small by lia. subst len'.
    destruct (off + len >=? size node) eqn:E; lia. }
  rewrite Hlen'.
  pose proof (Z.div_pos off 4096 ltac:(lia) ltac:(lia)) as Hq0.
  pose proof (Z.div_mod off 4096 ltac:(lia)) as Hdm.
  pose proof (Z.mod_pos_bound off 4096 ltac:(lia)) as Hmb.
  assert (Hwrap_i : wrap32 (off / BLOCK_SIZE) = off / 4096).
  { apply wrap32_u32. unfold u32, BLOCK_SIZE. lia. }
  rewrite Hwrap_i. unfold POINTERS_PER_INODE, POINTERS_PER_BLOCK.
  set (st0 := {| rs_fs := set_disk fs (Some (count_read d)); rs_data := buf;
                 rs_i := off / 4096; rs_sum := 0; rs_offset := off |}).
  assert (Hcap' : off + len' <= Z.of_nat (length L) * BLOCK_SIZE)
    by (unfold BLOCK_SIZE; subst len'; lia).
  assert (Hst0 : reading img L (blocks (meta_data fs)) off len' buf 0 st0).
  { subst st0. unfold reading. cbn [rs_fs rs_data rs_i rs_sum rs_offset set_disk disk].
    split; [exists (count_read d); auto|]. split; [lia|]. split; [subst len'; lia|].
    split; [lia|]. split; [intros _; unfold BLOCK_SIZE; split; lia|].
    split; [reflexivity|]. split; [intros j Hj; cbn in Hj; lia|]. intros j _. reflexivity. }
  pose proof (read_loop_bytes img L (blocks (meta_data fs)) off len' buf HL ltac:(lia) Hcap'
                (direct node) 0 (Z.to_nat (5 - off / 4096)) st0 ltac:(lia)) as Hloop1.
  destruct (read_loop (Z.to_nat (5 - off / 4096)) (direct node) len' st0) as [st1|f].
  2:{ apply Hloop1; [subst st0; cbn [rs_i]; rewrite Hl5; lia| |exact Hst0].
      intros i Hi Hi'. apply data_blocks_direct_agree; assumption. }
  destruct Hloop1 as (Hsame1 & Hst1 & Hi1);
    [subst st0; cbn [rs_i]; rewrite Hl5; lia
    |intros i Hi Hi'; apply data_blocks_direct_agree; assumption|exact Hst0|].
  cbn [bind].
  assert (Hsame01 : same_store fs (rs_fs st1)).
  { eapply same_store_trans; [|exact Hsame1]. subst st0. cbn [rs_fs].
    unfold same_store. rewrite Hd. cbn. auto. }
  pose proof Hst1 as ((d1 & Hd1 & Himg1 & Hb1) & Hi1' & Hsum1 & Hoffset1 & Hpos1 & Hlen1
                      & Hread1 & Hrest1).
  destruct (rs_sum st1 <? len') eqn:Hmore.
  - apply Z.ltb_lt in Hmore. specialize (Hi1 Hmore). destruct (Hpos1 Hmore) as [Hblock1 _].
    subst st0. cbn [rs_i] in Hi1.
    assert (Hfive : 5 <= rs_i st1) by lia.
    assert (Hbig : (5 < length L)%nat) by (unfold BLOCK_SIZE in *; nia).
    destruct (HLbig Hbig) as [HI H5].
    assert ((indirect node =? 0) = false) as -> by lia. cbn [negb andb].
    assert (Hwrap2 : wrap32 (rs_i st1 - 5) = rs_i st1 - 5).
    { apply wrap32_u32. unfold u32. unfold BLOCK_SIZE in *. nia. }
    rewrite Hwrap2, Hd1.
    assert (HIrange : inode_blocks (meta_data fs) < indirect node < blocks (meta_data fs)).
    { apply Hrange. unfold marks. apply elem_of_app. right.
      assert ((indirect node =? 0) = false) as -> by lia. constructor. }
    rewrite (assert_disk_read_ok d1 (indirect node) _ (blk img (indirect node)))
      by (rewrite ?Himg1; try apply blk_lt; lia).
    cbn [bind]. fold P.
    set (st2 := {| rs_fs := set_disk (rs_fs st1) (Some (count_read d1));
                   rs_data := rs_data st1; rs_i := rs_i st1 - 5;
                   rs_sum := rs_sum st1; rs_offset := rs_offset st1 |}).
    assert (Hst2 : reading img L (blocks (meta_data fs)) off len' buf 5 st2).
    { subst st2. unfold reading. cbn [rs_fs rs_data rs_i rs_sum rs_offset set_disk disk].
      split; [exists (count_read d1); auto|]. split; [lia|]. split; [lia|].
      split; [lia|]. split.
      { intros Hm. destruct (Hpos1 Hm) as [Ha Hb].
        replace (rs_i st1 - 5 + 5) with (rs_i st1 + 0) by lia. split; assumption. }
      split; [exact Hlen1|]. split; assumption. }
    assert (HlP : length P = 1024%nat) by (apply length_pointers_of, HwfI, HI).
    pose proof (read_loop_bytes img L (blocks (meta_data fs)) off len' buf HL ltac:(lia) Hcap'
                  P 5 (Z.to_nat (1024 - (rs_i st1 - 5))) st2 ltac:(lia)) as Hloop2.
    assert (Hi2max : rs_i st1 - 5 < 1024) by (unfold BLOCK_SIZE in *; nia).
    destruct (read_loop (Z.to_nat (1024 - (rs_i st1 - 5))) P len' st2) as [st3|f].
    2:{ apply Hloop2; [subst st2; cbn [rs_i]; rewrite HlP; lia| |exact Hst2].
        intros i Hi Hi'. apply data_blocks_indirect_agree; assumption. }
    destruct Hloop2 as (Hsame2 & Hst3 & Hi3);
      [subst st2; cbn [rs_i]; rewrite HlP; lia
      |intros i Hi Hi'; apply data_blocks_indirect_agree; assumption|exact Hst2|].
    cbn [bind].
    pose proof Hst3 as (_ & _ & Hsum3 & Hoffset3 & Hpos3 & Hlen3 & Hread3 & Hrest3).
    assert (Hdone : rs_sum st3 = len').
    { destruct (decide (rs_sum st3 < len')) as [Hm|Hm]; [|lia]. exfalso.
      specialize (Hi3 Hm). destruct (Hpos3 Hm) as [Hb3 _].
      subst st2. cbn [rs_i] in Hi3.
      assert (rs_i st3 = 1024) as Hend by lia. rewrite Hend in Hb3.
      unfold BLOCK_SIZE in *. lia. }
    split.
    { eapply same_store_trans; [exact Hsame01|].
      eapply same_store_trans; [|exact Hsame2]. subst st2. cbn [rs_fs].
      unfold same_store. rewrite Hd1. cbn. auto. }
    split; [exact Hdone|]. split; [exact Hlen3|].
    split; [exact Hread3|exact Hrest3].
  - apply Z.ltb_ge in Hmore. rewrite andb_false_r. cbn [bind].
    assert (Hdone : rs_sum st1 = len') by lia.
    split; [exact Hsame01|]. split; [exact Hdone|]. split; [exact Hlen1|].
    split; [exact Hread1|exact Hrest1].
Qed.

(** ** The bytes of a file *)

(** [fs_read] from an offset inside a file returns the bytes of the file:
    on a sound handle and for an inode that [fs_load_inode] loads, a buffer
    that holds the bytes, and an offset on a block boundary or a range that
    ends inside the block of the offset, the call never aborts,
    returns the smaller of [length] and the bytes left in the file, fills the
    buffer with byte [offset + j] of the file at index [j], leaves the rest
    of the buffer alone and changes nothing on the disk image. *)
Theorem fs_read_file_bytes fs n node fs1 buf len off :
  sound fs -> 0 <= n ->
  fs_load_inode fs n = Ok (Some node, fs1) ->
  0 <= off < size node -> 0 < len -> off + len < 2 ^ 64 ->
  Z.min len (size node - off) <= Z.of_nat (length buf) ->
  (off mod BLOCK_SIZE = 0
   \/ Z.min len (size node - off) <= BLOCK_SIZE - off mod BLOCK_SIZE) ->
  exists out fs',
    fs_read fs n buf len off = Ok (Z.min len (size node - off), out, fs')
    /\ same_store fs fs'
    /\ length out = length buf
    /\ (forall j : nat, (j < Z.to_nat (Z.min len (size node - off)))%nat ->
          out !! j = inode_byte (image_of fs) node (off + Z.of_nat j))
    /\ (forall j : nat, (Z.to_nat (Z.min len (size node - off)) <= j)%nat ->
          out !! j = buf !! j).
Proof.
  intros Hsound Hn Hload Hoff Hlen Hno Hbuf Halign.
  pose proof Hsound as (d & fb & Hd & Hfb & Hblocks & C).
  pose proof (fs_read_run fs d fb n node fs1 buf len off Hd Hfb Hblocks C Hn Hload Hoff Hlen
                Hno) as Hrun.
  assert (Himg : image_of fs = disk_image d) by (unfold image_of; rewrite Hd; reflexivity).
  destruct (fs_read fs n buf len off) as [[[r out] fs']|f].
  - destruct Hrun as (Hs & -> & Hl & Hread & Hrest). exists out, fs'. rewrite Himg.
    split; [reflexivity|]. split; [exact Hs|]. split; [exact Hl|].
    split; [exact Hread|exact Hrest].
  - exfalso. lia.
Qed.

Lemma fs_read_file_bytes_witness :
  exists out fs',
    fs_read fs_seven_blocks 0 (replicate (Z.to_nat 8192) "x"%byte) 8192 16384
    = Ok (Z.min 8192 (size seven_inode - 16384), out, fs')
    /\ same_store fs_seven_blocks fs'
    /\ length out = length (replicate (Z.to_nat 8192) "x"%byte)
    /\ (forall j : nat, (j < Z.to_nat (Z.min 8192 (size seven_inode - 16384)))%nat ->
          out !! j = inode_byte (image_of fs_seven_blocks) seven_inode (16384 + Z.of_nat j))
    /\ (forall j : nat, (Z.to_nat (Z.min 8192 (size seven_inode - 16384)) <= j)%nat ->
          out !! j = replicate (Z.to_nat 8192) "x"%byte !! j).
Proof.
  apply (fs_read_file_bytes fs_seven_blocks 0 seven_inode (after_load fs_seven_blocks)).
  - exact sound_fs_seven_blocks.
  - lia.
  - vm_compute. reflexivity.
  - cbn. lia.
  - lia.
  - lia.
  - rewrite length_replicate. cbn. lia.
  - left. reflexivity.
Defined.

(** After a [fs_write] that returns [r], the file holds the [r] bytes of the
    buffer from [offset] on, and every other byte that the file had before is
    as it was. *)
Theorem fs_write_file_bytes fs n node0 fs1 data len off r fs' :
  sound fs -> 0 <= n ->
  fs_load_inode fs n = Ok (Some node0, fs1) ->
  0 <= off <= size node0 -> 0 <= len ->
  fs_write fs n data len off = Ok (r, fs') ->
  exists node,
    inode_at (image_of fs') n = Some node
    /\ forall pos, 0 <= pos ->
         (off <= pos < off + r ->
          inode_byte (image_of fs') node pos = data !! Z.to_nat (pos - off))
         /\ (pos < size node0 -> pos < off \/ off + r <= pos ->
             inode_byte (image_of fs') node pos = inode_byte (image_of fs) node0 pos).
Proof.
  intros Hsound Hn Hload Hoff Hlen Hrun.
  pose proof Hsound as (d & fb & Hd & Hfb & Hblocks & C).
  pose proof (sound_write_run fs d fb n node0 fs1 data len off Hd Hfb Hblocks C Hn Hload
                Hoff Hlen) as Hpost.
  rewrite Hrun in Hpost.
  destruct Hpost as (new & node & d' & Hd' & _ & _ & _ & _ & Hat' & _ & _ & _ & _ & _ & _ & _
                     & _ & _ & Hcontent & _).
  assert (Himg : image_of fs = disk_image d) by (unfold image_of; rewrite Hd; reflexivity).
  assert (Himg' : image_of fs' = disk_image d') by (unfold image_of; rewrite Hd'; reflexivity).
  exists node. rewrite Himg, Himg'. split; [exact Hat'|]. exact Hcontent.
Qed.

Lemma fs_write_file_bytes_witness :
  exists node,
    inode_at (image_of fs_two_written) 1 = Some node
    /\ forall pos, 0 <= pos ->
         (0 <= pos < 0 + 8192 ->
          inode_byte (image_of fs_two_written) node pos
          = (replicate 4096 "b"%byte ++ replicate 4096 "c"%byte) !! Z.to_nat (pos - 0))
         /\ (pos < size new_inode -> pos < 0 \/ 0 + 8192 <= pos ->
             inode_byte (image_of fs_two_written) node pos
             = inode_byte (image_of fs_two_inodes) new_inode pos).
Proof.
  apply (fs_write_file_bytes fs_two_inodes 1 new_inode (after_load fs_two_inodes)
           (replicate 4096 "b"%byte ++ replicate 4096 "c"%byte) 8192 0 8192 fs_two_written).
  - exact sound_fs_two_inodes.
  - lia.
  - vm_compute. reflexivity.
  - cbn. lia.
  - lia.
  - vm_compute. reflexivity.
Defined.

(** What [fs_write] has written, [fs_read] returns: within the largest file
    size, with buffers that hold [length] bytes and an offset on a block
    boundary or a range inside one block, a write on a sound handle to an
    inode that [fs_load_inode] loads, at an offset inside the file or at its
    end, never aborts, and reading the [r]
    bytes it has written back from the same offset gives [r] and the first
    [r] bytes of the written buffer, the rest of the read buffer untouched. *)
Theorem fs_write_then_read fs n node0 fs1 data buf len off :
  sound fs -> 0 <= n ->
  fs_load_inode fs n = Ok (Some node0, fs1) ->
  0 <= off <= size node0 -> 0 < len <= Z.of_nat (length data) ->
  off + len <= (POINTERS_PER_INODE + POINTERS_PER_BLOCK) * BLOCK_SIZE ->
  len <= Z.of_nat (length buf) ->
  (off mod BLOCK_SIZE = 0 \/ len <= BLOCK_SIZE - off mod BLOCK_SIZE) ->
  exists r fs',
    fs_write fs n data len off = Ok (r, fs')
    /\ 0 <= r <= len
    /\ (0 < r ->
        exists out fs'',
          fs_read fs' n buf r off = Ok (r, out, fs'')
          /\ take (Z.to_nat r) out = take (Z.to_nat r) data
          /\ drop (Z.to_nat r) out = drop (Z.to_nat r) buf).
Proof.
  intros Hsound Hn Hload Hoff Hlen Hmax Hbuf Halign.
  pose proof Hsound as (d & fb & Hd & Hfb & Hblocks & C).
  destruct (fs_load_inode_sound fs d n node0 fs1 Hd (c_wf _ _ _ C) Hn Hload)
    as (Hn128 & Hlt & _ & _ & Hat & Hv & _).
  pose proof (sound_write_run fs d fb n node0 fs1 data len off Hd Hfb Hblocks C Hn Hload
                Hoff ltac:(lia)) as Hpost.
  destruct (fs_write fs n data len off) as [[r fs']|f]; [|exfalso; lia].
  destruct Hpost as (new & node & d' & Hd' & Hb' & Hm' & Hf' & C' & Hat' & Hvalid' & Hsize'
                     & Hr & _ & _ & _ & _ & _ & _ & Hcontent & _).
  exists r, fs'. split; [reflexivity|]. split; [exact Hr|]. intros Hr0.
  assert (Hload' : fs_load_inode fs' n
                   = Ok (Some node, set_disk fs' (Some (count_read d')))).
  { rewrite (load_at fs' d' (set_all true new fb) n node);
      [|exact Hd'|rewrite Hm'; exact Hb'|rewrite Hm'; exact C'|rewrite Hm'; lia|exact Hn128
       |exact Hat'].
    assert ((valid node =? 0) = false) as -> by lia. reflexivity. }
  unfold POINTERS_PER_INODE, POINTERS_PER_BLOCK, BLOCK_SIZE in Hmax.
  pose proof (fs_read_run fs' d' (set_all true new fb) n node _ buf r off Hd' Hf'
                ltac:(rewrite Hm'; exact Hb') ltac:(rewrite Hm'; exact C') Hn Hload'
                ltac:(lia) Hr0 ltac:(lia)) as Hread.
  destruct (fs_read fs' n buf r off) as [[[r' out] fs'']|f].
  - destruct Hread as (_ & Hr' & Hl & Hbytes & Hrest).
    assert (r' = r) as -> by lia.
    exists out, fs''. split; [reflexivity|]. split.
    + apply list_eq. intros j. destruct (decide (j < Z.to_nat r)%nat) as [Hj|Hj].
      * rewrite !lookup_take_lt by exact Hj. rewrite (Hbytes j Hj).
        destruct (Hcontent (off + Z.of_nat j) ltac:(lia)) as [Hw _].
        unfold inode_byte. rewrite (Hw ltac:(lia)). f_equal. lia.
      * rewrite !lookup_take_ge by lia. reflexivity.
    + apply list_eq. intros j. rewrite !lookup_drop. apply Hrest. lia.
  - exfalso. lia.
Qed.

Lemma fs_write_then_read_witness :
  exists r fs',
    fs_write fs_two_inodes 1 (replicate 4096 "b"%byte ++ replicate 4096 "c"%byte) 8192 0
    = Ok (r, fs')
    /\ 0 <= r <= 8192
    /\ (0 < r ->
        exists out fs'',
          fs_read fs' 1 (replicate (Z.to_nat 8192) "x"%byte) r 0 = Ok (r, out, fs'')
          /\ take (Z.to_nat r) out
             = take (Z.to_nat r) (replicate 4096 "b"%byte ++ replicate 4096 "c"%byte)
          /\ drop (Z.to_nat r) out = drop (Z.to_nat r) (replicate (Z.to_nat 8192) "x"%byte)).
Proof.
  apply (fs_write_then_read fs_two_inodes 1 new_inode (after_load fs_two_inodes)).
  - exact sound_fs_two_inodes.
  - lia.
  - vm_compute. reflexivity.
  - cbn. lia.
  - rewrite length_app, !length_replicate. lia.
  - vm_compute. discriminate.
  - rewrite length_replicate. lia.
  - left. reflexivity.
Defined.

(** ** Unmounting and mounting again *)

Lemma assert_disk_read_view o1 o2 k buf :
  option_map disk_image o1 = option_map disk_image o2 ->
  option_map disk_blocks o1 = option_map disk_blocks o2 ->
  match assert_disk_read o1 k buf, assert_disk_read o2 k buf with
  | Ok (b1, o1'), Ok (b2, o2') =>
      b1 = b2 /\ option_map disk_image o1' = option_map disk_image o2'
      /\ option_map disk_blocks o1' = option_map disk_blocks o2'
  | Fault f1, Fault f2 => f1 = f2
  | _, _ => False
  end.
Proof.
  destruct o1 as [d1|], o2 as [d2|]; cbn [option_map]; intros Hi Hb;
    try discriminate; [|reflexivity].
  injection Hi as Hi. injection Hb as Hb.
  unfold assert_disk_read, disk_read, disk_sanity_check. rewrite Hi, Hb.
  destruct (k <? disk_blocks d2); cbn [negb]; [|reflexivity].
  destruct (disk_image d2 !! Z.to_nat k); cbn; [|reflexivity].
  split; [reflexivity|]. split; f_equal; assumption.
Qed.

Lemma same_view_set_disk fs1 fs2 o1 o2 :
  same_view fs1 fs2 ->
  option_map disk_image o1 = option_map disk_image o2 ->
  option_map disk_blocks o1 = option_map disk_blocks o2 ->
  same_view (set_disk fs1 o1) (set_disk fs2 o2).
Proof. intros (Hm & _ & _) Hi Hb. split; [exact Hm|]. split; assumption. Qed.

Lemma fs_load_inode_view fs1 fs2 n :
  same_view fs1 fs2 -> same_answer (fs_load_inode fs1 n) (fs_load_inode fs2 n).
Proof.
  intros Hv. pose proof Hv as (Hm & Hi & Hb). unfold fs_load_inode. rewrite <- Hm.
  destruct (n >=? inodes (meta_data fs1)); [split; [reflexivity|exact Hv]|].
  pose proof (assert_disk_read_view (disk fs1) (disk fs2) (n / INODES_PER_BLOCK + 1)
                zero_block Hi Hb) as Hread.
  destruct (assert_disk_read (disk fs1) (n / INODES_PER_BLOCK + 1) zero_block)
    as [[b1 o1]|f1],
    (assert_disk_read (disk fs2) (n / INODES_PER_BLOCK + 1) zero_block) as [[b2 o2]|f2];
    cbn [bind]; try contradiction; [|exact I].
  destruct Hread as (-> & Hi' & Hb').
  pose proof (same_view_set_disk fs1 fs2 o1 o2 Hv Hi' Hb') as Hv'.
  destruct (inodes_of b2 !! Z.to_nat n) as [slot|]; [|exact I].
  destruct (valid slot =? 0); [split; [reflexivity|exact Hv']|].
  destruct (inodes_of b2 !! Z.to_nat (n mod INODES_PER_BLOCK)); [|exact I].
  split; [reflexivity|exact Hv'].
Qed.

Lemma fs_stat_view fs1 fs2 n :
  same_view fs1 fs2 -> same_answer (fs_stat fs1 n) (fs_stat fs2 n).
Proof.
  intros Hv. pose proof (fs_load_inode_view fs1 fs2 n Hv) as Hload. unfold fs_stat.
  destruct (fs_load_inode fs1 n) as [[l1 g1]|f1], (fs_load_inode fs2 n) as [[l2 g2]|f2];
    cbn [bind same_answer] in *; try contradiction; [|exact Hload].
  destruct Hload as (-> & Hv'). destruct l2; split; (reflexivity || exact Hv').
Qed.

Lemma read_loop_view n ptrs len : forall st1 st2,
  same_read st1 st2 ->
  match read_loop n ptrs len st1, read_loop n ptrs len st2 with
  | Ok a, Ok b => same_read a b
  | Fault f1, Fault f2 => f1 = f2
  | _, _ => False
  end.
Proof.
  induction n as [|n IH]; intros st1 st2 Hst; [exact Hst|].
  pose proof Hst as (Hv & Hdata & Hi & Hsum & Hoffset). cbn [read_loop].
  rewrite <- Hdata, <- Hi, <- Hsum, <- Hoffset.
  destruct (negb (rs_sum st1 <? len)); [exact Hst|].
  destruct (ptrs !! Z.to_nat (rs_i st1)) as [p|]; [|reflexivity].
  destruct (p =? 0); [exact Hst|].
  pose proof Hv as (Hm & Himg & Hblocks).
  pose proof (assert_disk_read_view (disk (rs_fs st1)) (disk (rs_fs st2)) p zero_block
                Himg Hblocks) as Hread.
  destruct (assert_disk_read (disk (rs_fs st1)) p zero_block) as [[b1 o1]|f1],
    (assert_disk_read (disk (rs_fs st2)) p zero_block) as [[b2 o2]|f2];
    cbn [bind]; try contradiction; [|exact Hread].
  destruct Hread as (-> & Hi' & Hb').
  destruct (memcpy (rs_data st1) (rs_sum st1) b2 (rs_offset st1 mod BLOCK_SIZE)
              (if len - rs_sum st1 <? BLOCK_SIZE then len - rs_sum st1 else BLOCK_SIZE))
    as [out|f]; cbn [bind]; [|reflexivity].
  apply IH. split; [apply same_view_set_disk; assumption|].
  cbn [rs_data rs_i rs_sum rs_offset]. auto.
Qed.

Lemma fs_read_view fs1 fs2 n buf len off :
  same_view fs1 fs2 ->
  same_answer (fs_read fs1 n buf len off) (fs_read fs2 n buf len off).
Proof.
  intros Hv. pose proof (fs_load_inode_view fs1 fs2 n Hv) as Hload. unfold fs_read.
  destruct (fs_load_inode fs1 n) as [[l1 g1]|f1], (fs_load_inode fs2 n) as [[l2 g2]|f2];
    cbn [bind same_answer] in *; try contradiction; [|exact Hload].
  destruct Hload as (-> & Hv'). destruct l2 as [node|]; [|split; [reflexivity|exact Hv']].
  destruct (off >=? size node); [split; [reflexivity|exact Hv']|].
  destruct (len =? 0); [split; [reflexivity|exact Hv']|].
  set (len' := if wrap64 (off + len) >=? size node then size node - off else len).
  set (i := wrap32 (off / BLOCK_SIZE)).
  pose proof (read_loop_view (Z.to_nat (POINTERS_PER_INODE - i)) (direct node) len'
                {| rs_fs := g1; rs_data := buf; rs_i := i; rs_sum := 0; rs_offset := off |}
                {| rs_fs := g2; rs_data := buf; rs_i := i; rs_sum := 0; rs_offset := off |})
    as Hloop1.
  specialize (Hloop1 ltac:(repeat split; (reflexivity || apply Hv'))).
  destruct (read_loop _ (direct node) len'
              {| rs_fs := g1; rs_data := buf; rs_i := i; rs_sum := 0; rs_offset := off |})
    as [st1|f1],
    (read_loop _ (direct node) len'
              {| rs_fs := g2; rs_data := buf; rs_i := i; rs_sum := 0; rs_offset := off |})
    as [st2|f2]; cbn [bind]; try contradiction; [|exact I].
  - pose proof Hloop1 as (Hv1 & Hdata & Hi & Hsum & Hoffset).
    rewrite <- Hdata, <- Hi, <- Hsum, <- Hoffset.
    destruct (negb (indirect node =? 0) && (rs_sum st1 <? len')); cbn [bind].
    + pose proof Hv1 as (_ & Himg & Hblocks).
      pose proof (assert_disk_read_view (disk (rs_fs st1)) (disk (rs_fs st2)) (indirect node)
                    zero_block Himg Hblocks) as Hread.
      destruct (assert_disk_read (disk (rs_fs st1)) (indirect node) zero_block)
        as [[b1 o1]|f1],
        (assert_disk_read (disk (rs_fs st2)) (indirect node) zero_block) as [[b2 o2]|f2];
        cbn [bind]; try contradiction; [|exact I].
      destruct Hread as (-> & Hi' & Hb').
      set (a1 := {| rs_fs := set_disk (rs_fs st1) o1; rs_data := rs_data st1;
                    rs_i := wrap32 (rs_i st1 - POINTERS_PER_INODE);
                    rs_sum := rs_sum st1; rs_offset := rs_offset st1 |}).
      set (a2 := {| rs_fs := set_disk (rs_fs st2) o2; rs_data := rs_data st1;
                    rs_i := wrap32 (rs_i st1 - POINTERS_PER_INODE);
                    rs_sum := rs_sum st1; rs_offset := rs_offset st1 |}).
      pose proof (read_loop_view
                    (Z.to_nat (POINTERS_PER_BLOCK - wrap32 (rs_i st1 - POINTERS_PER_INODE)))
                    (pointers_of b2) len' a1 a2) as Hloop2.
      assert (Ha : same_read a1 a2).
      { split; [apply same_view_set_disk; assumption|]. subst a1 a2. cbn. auto. }
      specialize (Hloop2 Ha).
      destruct (read_loop _ (pointers_of b2) len' a1) as [e1|f1],
        (read_loop _ (pointers_of b2) len' a2) as [e2|f2]; cbn [bind];
        try contradiction; [|exact I].
      destruct Hloop2 as (Hv2 & Hd2 & _ & Hs2 & _).
      split; [congruence|exact Hv2].
    + split; [congruence|exact Hv1].
Qed.

(** Files survive a remount: [fs_unmount] followed by [fs_mount] of the same
    disk succeeds on a consistent handle and the new handle is consistent
    with the same bitmap.  Every [fs_stat] and every [fs_read] that returns
    on one of the two handles returns on the other, with the same return
    value and the same bytes in the buffer; nothing is said about a call
    that fails an [assert] or has undefined behaviour. *)
Theorem remount_keeps_files fs d :
  sound fs -> disk fs = Some d ->
  exists fs2 d2,
    fs_mount (fs_unmount fs) (Some d) = Ok (true, fs2, Some d2)
    /\ sound fs2 /\ free_blocks fs2 = free_blocks fs
    /\ (forall n, same_answer (fs_stat fs n) (fs_stat fs2 n))
    /\ (forall n buf len off,
          same_answer (fs_read fs n buf len off) (fs_read fs2 n buf len off)).
Proof.
  intros (d0 & fb & Hd0 & Hfb & Hblocks & C) Hd.
  rewrite Hd in Hd0. injection Hd0 as <-.
  destruct (consistent_mountable _ _ _ Hblocks C) as [Hm Hbit].
  destruct (fs_mount_ok (fs_unmount fs) d eq_refl Hm)
    as (fs2 & d2 & Hmount & Hd2 & Himg & Hb2 & Hmeta & Hfb2).
  rewrite (c_super _ _ _ C) in Hmeta. rewrite Hbit in Hfb2.
  assert (Hv : same_view fs fs2).
  { split; [symmetry; exact Hmeta|]. rewrite Hd, Hd2. cbn [option_map].
    split; f_equal; congruence. }
  exists fs2, d2. split; [exact Hmount|]. split.
  { exists d2, fb. rewrite Hmeta, Himg, Hb2. auto. }
  split; [congruence|]. split.
  - intros n. apply fs_stat_view, Hv.
  - intros n buf len off. apply fs_read_view, Hv.
Qed.

Lemma remount_keeps_files_witness :
  exists fs2 d2,
    fs_mount (fs_unmount fs_seven_blocks) (Some (disk_of fs_seven_blocks))
    = Ok (true, fs2, Some d2)
    /\ sound fs2 /\ free_blocks fs2 = free_blocks fs_seven_blocks
    /\ (forall n, same_answer (fs_stat fs_seven_blocks n) (fs_stat fs2 n))
    /\ (forall n buf len off,
          same_answer (fs_read fs_seven_blocks n buf len off) (fs_read fs2 n buf len off)).
Proof.
  apply (remount_keeps_files fs_seven_blocks (disk_of fs_seven_blocks)).
  - exact sound_fs_seven_blocks.
  - vm_compute. reflexivity.
Defined.

(** ** The inode table *)

(** [fs_save_inode] followed by [fs_load_inode]: on a disk whose first inode
    block can be read, saving a record with 32-bit fields under an inode
    number of that block returns true and touches neither the cached
    superblock nor the bitmap; loading the number afterwards gives the record
    back (and false for a record that is not valid); every other inode of the
    block loads as before, and no block other than block 1 changes. *)
Theorem fs_save_then_load fs d n node :
  disk fs = Some d -> Forall wf_block (disk_image d) ->
  length (disk_image d) = Z.to_nat (disk_blocks d) -> 1 < disk_blocks d ->
  0 <= n < inodes (meta_data fs) -> n < INODES_PER_BLOCK ->
  wf_inode node ->
  exists fs',
    fs_save_inode fs n node = Ok (true, fs')
    /\ meta_data fs' = meta_data fs /\ free_blocks fs' = free_blocks fs
    /\ (exists fs2,
          fs_load_inode fs' n = Ok (if valid node =? 0 then None else Some node, fs2))
    /\ (forall m r fs1, 0 <= m < inodes (meta_data fs) -> m < INODES_PER_BLOCK -> m <> n ->
          fs_load_inode fs m = Ok (r, fs1) -> exists fs2, fs_load_inode fs' m = Ok (r, fs2))
    /\ (forall k, Z.to_nat k <> 1%nat -> blk (image_of fs') k = blk (image_of fs) k).
Proof.
  intros Hd Hwf Hlen Hblocks Hn H128 Hnode.
  assert (Hq : n / INODES_PER_BLOCK + 1 = 1) by (rewrite Z.div_small by lia; reflexivity).
  assert (Hb1 : disk_image d !! Z.to_nat 1 = Some (blk (disk_image d) 1))
    by (apply blk_lt; lia).
  assert (Hwf1 : wf_block (blk (disk_image d) 1))
    by (exact (proj1 (Forall_lookup _ _) Hwf _ _ Hb1)).
  set (b' := of_inodes (<[Z.to_nat (n mod INODES_PER_BLOCK) := node]>
                          (inodes_of (blk (disk_image d) 1)))).
  set (d' := count_write (store (count_read d) 1 b')).
  assert (Hsave : fs_save_inode fs n node = Ok (true, set_disk fs (Some d'))).
  { unfold fs_save_inode.
    assert ((n >=? inodes (meta_data fs)) = false) as -> by lia.
    rewrite Hd, Hq, (assert_disk_read_ok d 1 _ (blk (disk_image d) 1)) by assumption.
    cbn [bind]. rewrite assert_disk_write_ok; [reflexivity|exact Hblocks|].
    cbn [count_read disk_image]. lia. }
  assert (Himg' : disk_image d' = put_inode (disk_image d) n node).
  { unfold put_inode. rewrite Hq. reflexivity. }
  assert (Hwf1' : wf_block (blk (disk_image d') 1)).
  { rewrite Himg'. unfold put_inode. rewrite Hq, blk_insert_same by lia.
    apply wf_of_inodes; [apply inodes_insert_wf; exact Hnode|].
    rewrite length_insert. apply length_inodes_of. exact Hwf1. }
  assert (Hlen' : length (disk_image d') = length (disk_image d))
    by (rewrite Himg'; apply length_put_inode).
  exists (set_disk fs (Some d')). split; [exact Hsave|].
  split; [reflexivity|]. split; [reflexivity|]. split; [|split].
  - destruct (fs_load_inode_first_block (set_disk fs (Some d')) d' n eq_refl Hn H128)
      as (node' & Hat' & Hload'); [exact Hblocks|lia|exact Hwf1'|].
    rewrite Himg', inode_at_put_same in Hat';
      [|rewrite Hq; lia|rewrite Hq; exact Hwf1|exact Hnode].
    injection Hat' as <-. eexists. exact Hload'.
  - intros m r fs1 Hm Hm128 Hne Hload.
    destruct (fs_load_inode_first_block fs d m Hd Hm Hm128 Hblocks ltac:(lia) Hwf1)
      as (x & Hat & Hload0).
    destruct (fs_load_inode_first_block (set_disk fs (Some d')) d' m eq_refl Hm Hm128)
      as (x' & Hat' & Hload'); [exact Hblocks|lia|exact Hwf1'|].
    rewrite Himg', inode_at_put_other in Hat' by (lia || exact Hnode).
    assert (x' = x) as -> by congruence.
    rewrite Hload0 in Hload. injection Hload as <- _. eexists. exact Hload'.
  - intros k Hk. unfold image_of. cbn [set_disk disk]. rewrite Hd, Himg'.
    apply blk_put_inode_other. rewrite Hq. exact Hk.
Qed.

Lemma fs_save_then_load_witness :
  exists fs',
    fs_save_inode fs10 1 seven_inode = Ok (true, fs')
    /\ meta_data fs' = meta_data fs10 /\ free_blocks fs' = free_blocks fs10
    /\ (exists fs2,
          fs_load_inode fs' 1
          = Ok (if valid seven_inode =? 0 then None else Some seven_inode, fs2))
    /\ (forall m r fs1, 0 <= m < inodes (meta_data fs10) -> m < INODES_PER_BLOCK -> m <> 1 ->
          fs_load_inode fs10 m = Ok (r, fs1) -> exists fs2, fs_load_inode fs' m = Ok (r, fs2))
    /\ (forall k, Z.to_nat k <> 1%nat -> blk (image_of fs') k = blk (image_of fs10) k).
Proof.
  apply (fs_save_then_load fs10 (disk_of fs10) 1 seven_inode).
  - vm_compute. reflexivity.
  - pose proof sound_fs10 as (d & fb & Hd & _ & _ & C).
    assert (d = disk_of fs10) as <- by (unfold disk_of; rewrite Hd; reflexivity).
    exact (c_wf _ _ _ C).
  - vm_compute. reflexivity.
  - vm_compute. reflexivity.
  - vm_compute. split; [discriminate|reflexivity].
  - reflexivity.
  - unfold wf_inode, seven_inode, u32. cbn.
    repeat split; try lia; repeat constructor; lia.
Defined.

(** ** The report of [fs_debug] *)

Lemma only_read_refl d : only_read d d.
Proof. repeat split. Qed.

Lemma only_read_trans d1 d2 d3 : only_read d1 d2 -> only_read d2 d3 -> only_read d1 d3.
Proof. intros (A1 & A2 & A3) (B1 & B2 & B3). repeat split; congruence. Qed.

Lemma only_read_count d : only_read d (count_read d).
Proof. repeat split. Qed.

Lemma indirect_on_disk_same d d' node :
  only_read d d' -> indirect_on_disk d node -> indirect_on_disk d' node.
Proof. intros (Hi & Hb & _) H Hv Hn. rewrite Hi, Hb. exact (H Hv Hn). Qed.

Lemma debug_inode_ok d i node :
  indirect_on_disk d node ->
  exists s d', debug_inode (Some d) i node = (s, Ok (Some d')) /\ only_read d d'.
Proof.
  intros Hnode. unfold debug_inode.
  destruct (Z.eqb_spec (valid node) 0) as [|Hv];
    [eexists _, d; split; [reflexivity|apply only_read_refl]|].
  destruct (Z.eqb_spec (indirect node) 0) as [|Hi]; cbn [negb];
    [eexists _, d; split; [reflexivity|apply only_read_refl]|].
  destruct (Hnode Hv Hi) as [Hlt Hlen].
  rewrite (assert_disk_read_ok d (indirect node) _ (blk (disk_image d) (indirect node)))
    by (try apply blk_lt; assumption).
  eexists _, (count_read d). split; [reflexivity|apply only_read_count].
Qed.

Lemma debug_inodes_ok table : forall d i,
  Forall (indirect_on_disk d) table ->
  exists s d', debug_inodes (Some d) i table = (s, Ok (Some d')) /\ only_read d d'.
Proof.
  induction table as [|node rest IH]; intros d i Hall.
  - eexists _, d. split; [reflexivity|apply only_read_refl].
  - apply Forall_cons in Hall as [Hnode Hrest]. cbn [debug_inodes].
    destruct (debug_inode_ok d i node Hnode) as (s1 & d1 & -> & H1).
    destruct (IH d1 (i + 1)) as (s2 & d2 & -> & H2).
    { eapply Forall_impl; [exact Hrest|]. intros x. apply indirect_on_disk_same, H1. }
    eexists _, d2. split; [reflexivity|]. eapply only_read_trans; eassumption.
Qed.

Lemma debug_blocks_ok n : forall index d,
  0 <= index ->
  (forall k, index <= k < index + Z.of_nat n ->
     k < disk_blocks d /\ (Z.to_nat k < length (disk_image d))%nat
     /\ Forall (indirect_on_disk d) (inodes_of (blk (disk_image d) k))) ->
  exists s d', debug_blocks n index (Some d) = (s, Ok (Some d')) /\ only_read d d'.
Proof.
  induction n as [|n IH]; intros index d Hindex Hall.
  - eexists _, d. split; [reflexivity|apply only_read_refl].
  - cbn [debug_blocks]. destruct (Hall index ltac:(lia)) as (Hlt & Hlen & Htable).
    rewrite (assert_disk_read_ok d index _ (blk (disk_image d) index))
      by (try apply blk_lt; assumption).
    destruct (debug_inodes_ok (inodes_of (blk (disk_image d) index)) (count_read d) 0)
      as (s1 & d1 & -> & H1).
    { eapply Forall_impl; [exact Htable|].
      intros x. apply indirect_on_disk_same, only_read_count. }
    assert (H01 : only_read d d1) by (eapply only_read_trans; [apply only_read_count|exact H1]).
    destruct (IH (index + 1) d1 ltac:(lia)) as (s2 & d2 & -> & H2).
    { intros k Hk. destruct (Hall k ltac:(lia)) as (A & B & D).
      destruct H01 as (Hi & Hb & Hw). rewrite Hi, Hb. split; [exact A|]. split; [exact B|].
      eapply Forall_impl; [exact D|]. intros x. apply indirect_on_disk_same.
      repeat split; assumption. }
    eexists _, d2. split; [reflexivity|]. eapply only_read_trans; eassumption.
Qed.

(** On the disk of a consistent file system [fs_debug] runs to its end: no
    [assert] fails, and the disk afterwards has the same image, the same
    size and the same number of block writes as before. *)
Theorem fs_debug_consistent fs d :
  sound fs -> disk fs = Some d ->
  exists s d', fs_debug (Some d) = (s, Ok (Some d')) /\ only_read d d'.
Proof.
  intros (d0 & fb & Hd0 & _ & Hblocks & C) Hd.
  rewrite Hd in Hd0. injection Hd0 as <-.
  set (sb := meta_data fs) in *. pose proof (c_ib _ _ _ C) as Hib. pose proof (c_img _ _ _ C) as Hlen.
  pose proof (c_inodes _ _ _ C) as Hinodes. unfold INODES_PER_BLOCK in Hinodes.
  unfold fs_debug.
  rewrite (assert_disk_read_ok d 0 _ (blk (disk_image d) 0))
    by (try apply (blk_lt _ 0); lia).
  rewrite (c_super _ _ _ C).
  assert ((inodes sb =? 0) = false) as -> by lia.
  destruct (debug_blocks_ok (Z.to_nat (inode_blocks sb)) 1 (count_read d) ltac:(lia))
    as (s & d' & -> & H').
  - intros k Hk. cbn [count_read disk_blocks disk_image].
    split; [lia|]. split; [lia|].
    assert (Hwf : wf_block (blk (disk_image d) k)) by (apply (consistent_blk_wf _ _ _ k C); lia).
    apply Forall_lookup. intros j node Hj Hv Hi.
    assert (Hj128 : (j < 128)%nat).
    { apply lookup_lt_Some in Hj. rewrite length_inodes_of in Hj by exact Hwf. exact Hj. }
    rewrite <- (inode_at_slot _ k j Hj128) in Hj.
    assert (Hin : indirect node ∈ refs (disk_image d) ((k - 1) * 128 + Z.of_nat j)).
    { unfold refs. rewrite Hj. apply elem_node_marks_indirect; assumption. }
    apply (c_range _ _ _ C) in Hin; [|lia]. cbn [count_read disk_blocks disk_image]. lia.
  - eexists _, d'. split; [reflexivity|].
    eapply only_read_trans; [apply only_read_count|exact H'].
Qed.

Lemma fs_debug_consistent_witness :
  exists s d',
    fs_debug (Some (disk_of fs_seven_blocks)) = (s, Ok (Some d'))
    /\ only_read (disk_of fs_seven_blocks) d'.
Proof.
  apply (fs_debug_consistent fs_seven_blocks (disk_of fs_seven_blocks)).
  - exact sound_fs_seven_blocks.
  - vm_compute. reflexivity.
Defined.

(** ** After [fs_unmount] *)

(** [fs_unmount] leaves the cached superblock in the handle.  An inode
    number below the cached inode count therefore still passes the range
    check of [fs_load_inode], which then reads from the [NULL] disk: the
    [assert] on [disk_read] fails in [fs_stat], [fs_read], [fs_write] and
    [fs_remove], and in [fs_create] when there is an inode block, instead of
    the calls returning their error value. *)
Theorem use_after_unmount fs n buf len off :
  0 <= n < inodes (meta_data fs) ->
  fs_stat (fs_unmount fs) n = Fault AssertionFailed
  /\ fs_read (fs_unmount fs) n buf len off = Fault AssertionFailed
  /\ fs_write (fs_unmount fs) n buf len off = Fault AssertionFailed
  /\ fs_remove (fs_unmount fs) n = Fault AssertionFailed
  /\ (1 <= inode_blocks (meta_data fs) -> fs_create (fs_unmount fs) = Fault AssertionFailed).
Proof.
  intros Hn.
  assert (Hload : fs_load_inode (fs_unmount fs) n = Fault AssertionFailed).
  { unfold fs_load_inode. cbn [fs_unmount meta_data disk].
    assert ((n >=? inodes (meta_data fs)) = false) as -> by lia. reflexivity. }
  unfold fs_stat, fs_read, fs_write, fs_remove. rewrite Hload. cbn [bind].
  repeat (split; [reflexivity|]).
  intros Hib. unfold fs_create. cbn [fs_unmount meta_data].
  destruct (Z.to_nat (inode_blocks (meta_data fs))) as [|k] eqn:Hk; [lia|]. reflexivity.
Qed.

Lemma use_after_unmount_witness :
  fs_stat (fs_unmount fs10) 0 = Fault AssertionFailed
  /\ fs_read (fs_unmount fs10) 0 (replicate 4096 "x"%byte) 4096 0 = Fault AssertionFailed
  /\ fs_write (fs_unmount fs10) 0 (replicate 4096 "x"%byte) 4096 0 = Fault AssertionFailed
  /\ fs_remove (fs_unmount fs10) 0 = Fault AssertionFailed
  /\ (1 <= inode_blocks (meta_data fs10) -> fs_create (fs_unmount fs10) = Fault AssertionFailed).
Proof.
  apply (use_after_unmount fs10 0 (replicate 4096 "x"%byte) 4096 0).
  vm_compute. split; [discriminate|reflexivity].
Defined.

(** ** The block numbers that [fs_mount] reads from the inode table *)

Section BitmapRange.
(** The image and the extent of the disk, and the length of the bitmap. *)
Variables (img : list Block) (nblocks : Z).
Hypothesis Himg : length img = Z.to_nat nblocks.

Local Abbreviation holds := (holds img nblocks).
Local Abbreviation on_disk := (fun p : Z => 0 <= p < nblocks).

Lemma bitmap_set_range fs fb i v fs' :
  holds fs fb -> bitmap_set fs i v = Ok fs' ->
  0 <= i < nblocks /\ holds fs' (<[Z.to_nat i := v]> fb).
Proof.
  intros Hh Hset. pose proof Hh as (_ & Hfb & Hlen).
  pose proof Hset as Hinv. apply bitmap_set_inv in Hinv as (fb' & Hfb' & Hi & _).
  assert (fb' = fb) as -> by congruence.
  assert (Hr : 0 <= i < nblocks) by lia.
  split; [exact Hr|].
  destruct (holds_set_bit img nblocks Himg fs fb i v Hh Hr) as (fs1 & Hset1 & _ & Hh1).
  rewrite Hset in Hset1. injection Hset1 as <-. exact Hh1.
Qed.

Lemma mark_pointers_range v ptrs : forall i fs fb r,
  holds fs fb -> mark_pointers v ptrs i fs = Ok r -> Forall on_disk (used ptrs).
Proof.
  induction ptrs as [|p ptrs IH]; intros i fs fb r Hh Hrun; [constructor|].
  cbn [mark_pointers used] in *. destruct (p =? 0); [constructor|].
  destruct (bitmap_set fs p v) as [fs'|f] eqn:Hset; [|discriminate].
  cbn [bind] in Hrun.
  destruct (bitmap_set_range _ _ _ _ _ Hh Hset) as [Hp Hh'].
  constructor; [exact Hp|]. exact (IH _ _ _ _ Hh' Hrun).
Qed.

Lemma bitmap_inode_range fs fb node fs' :
  holds fs fb -> bitmap_inode fs node = Ok fs' -> Forall on_disk (node_marks img node).
Proof.
  intros Hh Hrun. unfold bitmap_inode, node_marks in *.
  destruct (valid node =? 0); [constructor|].
  destruct (mark_pointers true (direct node) 0 fs) as [[i1 fs1]|f] eqn:H1; [|discriminate].
  cbn [bind] in Hrun.
  pose proof (mark_pointers_range _ _ _ _ _ _ Hh H1) as Hr1.
  destruct (holds_mark_pointers img nblocks Himg fs fb true (direct node) 0 Hh Hr1)
    as (fs1' & H1' & _ & Hh1).
  rewrite H1 in H1'. injection H1' as _ <-.
  apply Forall_app. split; [exact Hr1|].
  destruct (indirect node =? 0); [constructor|].
  destruct (bitmap_set fs1 (indirect node) true) as [fs2|f] eqn:H2; [|discriminate].
  cbn [bind] in Hrun.
  destruct (bitmap_set_range _ _ _ _ _ Hh1 H2) as [Hi Hh2].
  constructor; [exact Hi|].
  destruct (holds_read img nblocks Himg fs2 _ (indirect node) zero_block Hh2 Hi)
    as (d' & Hread & Hh3).
  rewrite Hread in Hrun. cbn [bind] in Hrun.
  destruct (mark_pointers true (pointers_of (blk img (indirect node))) 0
              (set_disk fs2 (Some d'))) as [[i4 fs4]|f] eqn:H4; [|discriminate].
  exact (mark_pointers_range _ _ _ _ _ _ Hh3 H4).
Qed.

Lemma bitmap_inodes_range table : forall fs fb fs',
  holds fs fb -> bitmap_inodes table fs = Ok fs' -> Forall on_disk (table_marks img table).
Proof.
  induction table as [|node table IH]; intros fs fb fs' Hh Hrun; [constructor|].
  unfold table_marks. cbn [map concat bitmap_inodes] in *.
  destruct (bitmap_inode fs node) as [fs1|f] eqn:H1; [|discriminate]. cbn [bind] in Hrun.
  pose proof (bitmap_inode_range _ _ _ _ Hh H1) as Hr1.
  destruct (bitmap_inode_holds img nblocks Himg fs fb node Hh Hr1) as (fs1' & H1' & _ & Hh1).
  rewrite H1 in H1'. injection H1' as <-.
  apply Forall_app. split; [exact Hr1|]. exact (IH _ _ _ Hh1 Hrun).
Qed.

Lemma bitmap_blocks_range n : forall i fs fb fs',
  holds fs fb -> bitmap_blocks n i fs = Ok fs' -> Forall on_disk (blocks_marks img n i).
Proof.
  induction n as [|n IH]; intros i fs fb fs' Hh Hrun; [constructor|].
  cbn [blocks_marks bitmap_blocks] in *.
  destruct (bitmap_set fs i true) as [fs1|f] eqn:H1; [|discriminate]. cbn [bind] in Hrun.
  destruct (bitmap_set_range _ _ _ _ _ Hh H1) as [Hi Hh1].
  constructor; [exact Hi|].
  destruct (holds_read img nblocks Himg fs1 _ i zero_block Hh1 Hi) as (d' & Hread & Hh2).
  rewrite Hread in Hrun. cbn [bind] in Hrun.
  destruct (bitmap_inodes (inodes_of (blk img i)) (set_disk fs1 (Some d')))
    as [fs3|f] eqn:H3; [|discriminate].
  cbn [bind] in Hrun.
  pose proof (bitmap_inodes_range _ _ _ _ Hh2 H3) as Hr3.
  destruct (bitmap_inodes_holds img nblocks Himg _ _ _ Hh2 Hr3) as (fs3' & H3' & _ & Hh3).
  rewrite H3 in H3'. injection H3' as <-.
  apply Forall_app. split; [exact Hr3|]. exact (IH _ _ _ _ Hh3 Hrun).
Qed.
Lemma bitmap_set_fault fs fb i v f :
  holds fs fb -> bitmap_set fs i v = Fault f -> f = OutOfBounds.
Proof.
  intros (_ & Hfb & _) H. unfold bitmap_set in H. rewrite Hfb in H.
  destruct ((i <? 0) || (Z.of_nat (length fb) <=? i)); [|discriminate].
  injection H as <-. reflexivity.
Qed.

Lemma mark_pointers_fault v ptrs : forall i fs fb f,
  holds fs fb -> mark_pointers v ptrs i fs = Fault f -> f = OutOfBounds.
Proof.
  induction ptrs as [|p ptrs IH]; intros i fs fb f Hh Hrun; [discriminate|].
  cbn [mark_pointers] in Hrun. destruct (p =? 0); [discriminate|].
  destruct (bitmap_set fs p v) as [fs'|f0] eqn:Hset; cbn [bind] in Hrun.
  - destruct (bitmap_set_range _ _ _ _ _ Hh Hset) as [_ Hh']. exact (IH _ _ _ _ Hh' Hrun).
  - injection Hrun as <-. exact (bitmap_set_fault _ _ _ _ _ Hh Hset).
Qed.

Lemma bitmap_inode_fault fs fb node f :
  holds fs fb -> bitmap_inode fs node = Fault f -> f = OutOfBounds.
Proof.
  intros Hh Hrun. unfold bitmap_inode in Hrun.
  destruct (valid node =? 0); [discriminate|].
  destruct (mark_pointers true (direct node) 0 fs) as [[i1 fs1]|f1] eqn:H1;
    cbn [bind] in Hrun;
    [|injection Hrun as <-; exact (mark_pointers_fault _ _ _ _ _ _ Hh H1)].
  pose proof (mark_pointers_range _ _ _ _ _ _ Hh H1) as Hr1.
  destruct (holds_mark_pointers img nblocks Himg fs fb true (direct node) 0 Hh Hr1)
    as (fs1' & H1' & _ & Hh1).
  rewrite H1 in H1'. injection H1' as _ <-.
  destruct (indirect node =? 0); [discriminate|].
  destruct (bitmap_set fs1 (indirect node) true) as [fs2|f2] eqn:H2; cbn [bind] in Hrun;
    [|injection Hrun as <-; exact (bitmap_set_fault _ _ _ _ _ Hh1 H2)].
  destruct (bitmap_set_range _ _ _ _ _ Hh1 H2) as [Hi Hh2].
  destruct (holds_read img nblocks Himg fs2 _ (indirect node) zero_block Hh2 Hi)
    as (d' & Hread & Hh3).
  rewrite Hread in Hrun. cbn [bind] in Hrun.
  destruct (mark_pointers true (pointers_of (blk img (indirect node))) 0
              (set_disk fs2 (Some d'))) as [[i4 fs4]|f4] eqn:H4; cbn [bind] in Hrun;
    [discriminate|].
  injection Hrun as <-. exact (mark_pointers_fault _ _ _ _ _ _ Hh3 H4).
Qed.

Lemma bitmap_inodes_fault table : forall fs fb f,
  holds fs fb -> bitmap_inodes table fs = Fault f -> f = OutOfBounds.
Proof.
  induction table as [|node table IH]; intros fs fb f Hh Hrun; [discriminate|].
  cbn [bitmap_inodes] in Hrun.
  destruct (bitmap_inode fs node) as [fs1|f1] eqn:H1; cbn [bind] in Hrun;
    [|injection Hrun as <-; exact (bitmap_inode_fault _ _ _ _ Hh H1)].
  pose proof (bitmap_inode_range _ _ _ _ Hh H1) as Hr1.
  destruct (bitmap_inode_holds img nblocks Himg fs fb node Hh Hr1) as (fs1' & H1' & _ & Hh1).
  rewrite H1 in H1'. injection H1' as <-. exact (IH _ _ _ Hh1 Hrun).
Qed.

Lemma bitmap_blocks_fault n : forall i fs fb f,
  holds fs fb -> bitmap_blocks n i fs = Fault f -> f = OutOfBounds.
Proof.
  induction n as [|n IH]; intros i fs fb f Hh Hrun; [discriminate|].
  cbn [bitmap_blocks] in Hrun.
  destruct (bitmap_set fs i true) as [fs1|f1] eqn:H1; cbn [bind] in Hrun;
    [|injection Hrun as <-; exact (bitmap_set_fault _ _ _ _ _ Hh H1)].
  destruct (bitmap_set_range _ _ _ _ _ Hh H1) as [Hi Hh1].
  destruct (holds_read img nblocks Himg fs1 _ i zero_block Hh1 Hi) as (d' & Hread & Hh2).
  rewrite Hread in Hrun. cbn [bind] in Hrun.
  destruct (bitmap_inodes (inodes_of (blk img i)) (set_disk fs1 (Some d')))
    as [fs3|f3] eqn:H3; cbn [bind] in Hrun;
    [|injection Hrun as <-; exact (bitmap_inodes_fault _ _ _ _ Hh2 H3)].
  pose proof (bitmap_inodes_range _ _ _ _ Hh2 H3) as Hr3.
  destruct (bitmap_inodes_holds img nblocks Himg _ _ _ Hh2 Hr3) as (fs3' & H3' & _ & Hh3).
  rewrite H3 in H3'. injection H3' as <-. exact (IH _ _ _ _ Hh3 Hrun).
Qed.
End BitmapRange.

(** [fs_mount] takes the block numbers of the inode table as they are.  On a
    handle that is not bound and a disk whose superblock passes the three
    checks: if every number the table refers to (the inode blocks, the
    pointers in use of the valid inodes, their indirect blocks and the
    pointers in use of those) is a block of the disk, the call returns true
    with the bitmap built from them; if one is not, the walk of
    [fs_initialize_free_block_bitmap] stores to [free_blocks] at that number,
    outside the array of [blocks] entries: an out-of-bounds write, for which
    the C program has no defined behaviour. *)
Theorem fs_mount_trusts_inode_table fs d :
  disk fs = None -> 0 < disk_blocks d ->
  length (disk_image d) = Z.to_nat (disk_blocks d) ->
  magic_number (super_of (blk (disk_image d) 0)) = MAGIC_NUMBER ->
  blocks (super_of (blk (disk_image d) 0)) = disk_blocks d ->
  inodes (super_of (blk (disk_image d) 0))
  = inode_blocks (super_of (blk (disk_image d) 0)) * INODES_PER_BLOCK ->
  (Forall (fun p => 0 <= p < disk_blocks d)
     (image_marks (disk_image d) (super_of (blk (disk_image d) 0))) ->
   exists fs' d',
     fs_mount fs (Some d) = Ok (true, fs', Some d')
     /\ disk fs' = Some d' /\ disk_image d' = disk_image d
     /\ free_blocks fs' = Some (bitmap_of d))
  /\ (~ Forall (fun p => 0 <= p < disk_blocks d)
         (image_marks (disk_image d) (super_of (blk (disk_image d) 0))) ->
      fs_mount fs (Some d) = Fault OutOfBounds).
Proof.
  intros Hnone Hpos Hlen Hmagic Hblocks Hinodes. split.
  - intros Hall.
    destruct (fs_mount_ok fs d Hnone) as (fs' & d' & Hrun & Hd' & Hi' & _ & _ & Hfb').
    { unfold mountable. auto 10. }
    exists fs', d'. auto.
  - intros Hnot. set (sb := super_of (blk (disk_image d) 0)) in *.
    unfold fs_mount. rewrite Hnone.
    rewrite bool_decide_eq_false_2 by (intros H; apply H; reflexivity).
    rewrite (assert_disk_read_ok d 0 _ (blk (disk_image d) 0));
      [|exact Hpos|apply (blk_lt _ 0); lia].
    cbn [bind count_read disk_blocks]. fold sb.
    rewrite Hmagic, Hblocks, Hinodes, !Z.eqb_refl. cbn [negb orb].
    unfold fs_initialize_free_block_bitmap. cbn [meta_data].
    set (fs0 := set_free_blocks _ _).
    assert (Hh0 : holds (disk_image d) (disk_blocks d) fs0
                    (replicate (Z.to_nat (disk_blocks d)) false)).
    { split; [exists (count_read d); auto|]. split.
      - subst fs0. cbn. rewrite Hblocks. reflexivity.
      - apply length_replicate. }
    destruct (holds_set_bit _ _ Hlen fs0 _ 0 true Hh0 ltac:(lia)) as (fs1 & -> & _ & Hh1).
    cbn [bind].
    destruct (bitmap_blocks (Z.to_nat (inode_blocks sb)) 1 fs1) as [fs2|f] eqn:Hrun;
      cbn [bind].
    + exfalso. apply Hnot. unfold image_marks. constructor; [lia|].
      exact (bitmap_blocks_range _ _ Hlen _ _ _ _ _ Hh1 Hrun).
    + f_equal. exact (bitmap_blocks_fault _ _ Hlen _ _ _ _ _ Hh1 Hrun).
Qed.

Lemma fs_mount_trusts_inode_table_witness :
  (Forall (fun p => 0 <= p < disk_blocks corrupt_disk)
     (image_marks (disk_image corrupt_disk) (super_of (blk (disk_image corrupt_disk) 0))) ->
   exists fs' d',
     fs_mount fresh_fs (Some corrupt_disk) = Ok (true, fs', Some d')
     /\ disk fs' = Some d' /\ disk_image d' = disk_image corrupt_disk
     /\ free_blocks fs' = Some (bitmap_of corrupt_disk))
  /\ (~ Forall (fun p => 0 <= p < disk_blocks corrupt_disk)
         (image_marks (disk_image corrupt_disk)
            (super_of (blk (disk_image corrupt_disk) 0))) ->
      fs_mount fresh_fs (Some corrupt_disk) = Fault OutOfBounds).
Proof.
  apply (fs_mount_trusts_inode_table fresh_fs corrupt_disk).
  - reflexivity.
  - vm_compute. reflexivity.
  - vm_compute. reflexivity.
  - vm_compute. reflexivity.
  - vm_compute. reflexivity.
  - vm_compute. reflexivity.
Defined.

(** On [corrupt_disk] the superblock passes the checks, inode 0 refers to
    block 99 of a 10-block disk, and the walk over inode 0 writes entry 99 of
    the 10-entry bitmap. *)
Lemma fs_mount_corrupt_disk :
  ~ Forall (fun p => 0 <= p < disk_blocks corrupt_disk)
      (image_marks (disk_image corrupt_disk) (super_of (blk (disk_image corrupt_disk) 0)))
  /\ fs_mount fresh_fs (Some corrupt_disk) = Fault OutOfBounds.
Proof.
  split; [|vm_compute; reflexivity].
  intros H. rewrite Forall_forall in H. specialize (H 99).
  assert (Hin : 99 ∈ image_marks (disk_image corrupt_disk)
                       (super_of (blk (disk_image corrupt_disk) 0))).
  { apply (bool_decide_unpack _). vm_compute. exact I. }
  specialize (H Hin). vm_compute in H. destruct H as [_ H]. discriminate.
Qed.

(** ** Overwriting inside a file *)

(** A [fs_write] whose range ends inside the file needs no new block: on a
    sound handle, for an inode that [fs_load_inode] loads and with a buffer
    that holds [length] bytes, it never aborts and writes all of them,
    also on a disk without a free block; the bitmap, the size of the file and
    the blocks the inode refers to are what they were. *)
Theorem fs_write_in_place fs n node0 fs1 data len off :
  sound fs -> 0 <= n ->
  fs_load_inode fs n = Ok (Some node0, fs1) ->
  0 <= off -> 0 <= len <= Z.of_nat (length data) -> off + len <= size node0 ->
  exists fs',
    fs_write fs n data len off = Ok (len, fs')
    /\ sound fs'
    /\ free_blocks fs' = free_blocks fs
    /\ (exists fs2, fs_stat fs' n = Ok (size node0, fs2))
    /\ Permutation (refs (image_of fs') n) (refs (image_of fs) n).
Proof.
  intros Hsound Hn Hload Hoff Hlen Hin.
  pose proof Hsound as (d & fb & Hd & Hfb & Hblocks & C).
  destruct (fs_load_inode_sound fs d n node0 fs1 Hd (c_wf _ _ _ C) Hn Hload)
    as (Hn128 & Hlt & _ & _ & Hat & Hv & _).
  pose proof (wf_inode_loaded _ _ _ _ Hload) as (_ & _ & Hl5 & _ & _).
  assert (Hmax : size node0 <= (POINTERS_PER_INODE + POINTERS_PER_BLOCK) * BLOCK_SIZE).
  { pose proof (c_shape _ _ _ C n node0 ltac:(lia) Hat Hv) as Hshape.
    apply shaped_capacity in Hshape as (_ & _ & Hcap).
    rewrite capacity_data_blocks in Hcap.
    destruct (data_blocks_length_max (direct node0) (indirect node0)
                (pointers_of (blk (disk_image d) (indirect node0))) Hl5) as [Hle Hbig].
    - intros Hi. apply length_pointers_of.
      assert (Hm : indirect node0 ∈ refs (disk_image d) n).
      { unfold refs. rewrite Hat. apply elem_node_marks_indirect; assumption. }
      apply (c_range _ _ _ C n) in Hm; [|lia]. pose proof (c_ib _ _ _ C).
      apply (consistent_blk_wf _ _ _ _ C). lia.
    - unfold POINTERS_PER_INODE, POINTERS_PER_BLOCK, BLOCK_SIZE in *. lia. }
  pose proof (sound_write_run fs d fb n node0 fs1 data len off Hd Hfb Hblocks C Hn Hload
                ltac:(lia) ltac:(lia)) as Hpost.
  destruct (fs_write fs n data len off) as [[r fs']|f]; [|exfalso; lia].
  destruct Hpost as (new & node & d' & Hd' & Hb' & Hm' & Hf' & C' & Hat' & Hvalid' & Hsize'
                     & Hr & Hfull & _ & Hperm & _ & _ & _ & _ & Hneed).
  assert (new = []) as -> by (destruct Hneed as [H|H]; [exact H|lia]).
  assert (r = len) as -> by (destruct Hfull as [H|[_ H]]; lia).
  change (set_all true [] fb) with fb in *. rewrite app_nil_r in Hperm.
  assert (Himg : image_of fs = disk_image d) by (unfold image_of; rewrite Hd; reflexivity).
  assert (Himg' : image_of fs' = disk_image d') by (unfold image_of; rewrite Hd'; reflexivity).
  exists fs'. split; [reflexivity|].
  split; [exists d', fb; rewrite Hm'; auto|]. split; [congruence|]. split.
  - eexists. unfold fs_stat.
    rewrite (load_at fs' d' fb n node);
      [|exact Hd'|rewrite Hm'; exact Hb'|rewrite Hm'; exact C'|rewrite Hm'; lia|exact Hn128
       |exact Hat'].
    assert ((valid node =? 0) = false) as -> by lia.
    cbn [bind]. rewrite Hsize'. f_equal. f_equal. lia.
  - rewrite Himg, Himg'. exact Hperm.
Qed.

Lemma fs_write_in_place_witness :
  exists fs',
    fs_write fs_two_files 1 (replicate 4096 "z"%byte) 4096 8192 = Ok (4096, fs')
    /\ sound fs'
    /\ free_blocks fs' = free_blocks fs_two_files
    /\ (exists fs2, fs_stat fs' 1 = Ok (size (loaded fs_two_files 1), fs2))
    /\ Permutation (refs (image_of fs') 1) (refs (image_of fs_two_files) 1).
Proof.
  apply (fs_write_in_place fs_two_files 1 (loaded fs_two_files 1) (after_load fs_two_files)).
  - exact sound_fs_two_files.
  - lia.
  - vm_compute. reflexivity.
  - lia.
  - rewrite length_replicate. lia.
  - vm_compute. discriminate.
Defined.

(** ** The inodes that [fs_load_inode] loads *)

(** [fs_load_inode] on a sound handle, for every inode number: below
    [INODES_PER_BLOCK] (and below the inode count) it returns the inode of
    the image when that is valid and false when it is not, and changes only
    the read counter; from [INODES_PER_BLOCK] up to the inode count its
    validity test reads [block.inodes] past the end, whatever the inode is;
    from the inode count on it returns false without touching the disk.  So
    the inodes it loads are the valid inodes of the first inode block. *)
Theorem fs_load_inode_on_sound fs n :
  sound fs -> 0 <= n ->
  (n < INODES_PER_BLOCK -> n < inodes (meta_data fs) ->
   exists node fs1,
     inode_at (image_of fs) n = Some node
     /\ fs_load_inode fs n = Ok (if valid node =? 0 then None else Some node, fs1)
     /\ same_store fs fs1)
  /\ (INODES_PER_BLOCK <= n < inodes (meta_data fs) ->
      fs_load_inode fs n = Fault OutOfBounds)
  /\ (inodes (meta_data fs) <= n -> fs_load_inode fs n = Ok (None, fs)).
Proof.
  intros (d & fb & Hd & Hfb & Hblocks & C) Hn.
  pose proof (c_ib _ _ _ C) as Hib. pose proof (c_img _ _ _ C) as Hlen.
  pose proof (c_inodes _ _ _ C) as Hino.
  split; [|split].
  - intros H128 Hlt.
    destruct (fs_load_inode_first_block fs d n Hd ltac:(lia) H128) as (node & Hat & Hload).
    + lia.
    + lia.
    + apply (consistent_blk_wf _ _ _ 1 C). lia.
    + exists node, (set_disk fs (Some (count_read d))).
      split; [unfold image_of; rewrite Hd; exact Hat|]. split; [exact Hload|].
      apply (fs_load_inode_same _ _ _ _ Hload).
  - intros Hr.
    assert (Hk : 1 <= n / INODES_PER_BLOCK + 1 <= inode_blocks (meta_data fs)).
    { apply inode_block_range. rewrite <- Hino. lia. }
    apply (fs_load_inode_raw_index fs d n (blk (disk_image d) (n / INODES_PER_BLOCK + 1)));
      [exact Hd|exact Hr|lia|apply blk_lt; lia|].
    apply (consistent_blk_wf _ _ _ _ C). lia.
  - intros Hge. unfold fs_load_inode.
    assert ((n >=? inodes (meta_data fs)) = true) as -> by lia. reflexivity.
Qed.

Lemma fresh_mounted_20 : fresh (handle_of (mounted 20)).
Proof.
  exists fresh_fs, (fresh_disk 20). eexists. eexists.
  split; [reflexivity|]. split; [cbn; lia|]. split; [reflexivity|].
  split; [vm_compute; reflexivity|]. vm_compute. reflexivity.
Qed.

Lemma sound_fs20 : sound fs20.
Proof.
  apply (sound_run (replicate 129 Create) (handle_of (mounted 20)));
    [apply fresh_sound, fresh_mounted_20|vm_compute; reflexivity|vm_compute; reflexivity].
Qed.

(** On the 20-block image with inodes 0..128 created: inode 128 is valid on
    the disk, and [fs_load_inode(128)] reads past the inode block. *)
Lemma fs_load_inode_on_sound_witness :
  (128 < INODES_PER_BLOCK -> 128 < inodes (meta_data fs20) ->
   exists node fs1,
     inode_at (image_of fs20) 128 = Some node
     /\ fs_load_inode fs20 128 = Ok (if valid node =? 0 then None else Some node, fs1)
     /\ same_store fs20 fs1)
  /\ (INODES_PER_BLOCK <= 128 < inodes (meta_data fs20) ->
      fs_load_inode fs20 128 = Fault OutOfBounds)
  /\ (inodes (meta_data fs20) <= 128 -> fs_load_inode fs20 128 = Ok (None, fs20)).
Proof.
  apply (fs_load_inode_on_sound fs20 128).
  - exact sound_fs20.
  - lia.
Defined.
